(* ===== verification/_CoqProject ===== *)
-Q . S2P
Prelude.v
PyStr.v
OutputLimits.v
PyRe.v
Net.v
PyVal.v
Json.v
Float.v
JsonIndent.v
Table.v
Paths.v
FileTree.v
Recurrence.v
Schemas.v
Sandbox.v
CliBackends.v
Skills.v
Plugins.v
SkillPackages.v
Schedules.v
ScheduleModels.v
PermissionStore.v
Policy.v
MemoryGate.v
Vault.v
MemoryIndex.v
Connectors.v
HotContext.v
Runs.v
Access.v
Events.v
Webhooks.v
Workflow.v
Backends.v
Profiles.v
RunExecutor.v
Scheduler.v
RunApi.v
Observations.v
Strategies.v
Migrations.v
Backup.v
Validation.v
SkillAuthoring.v
Context.v
Workspace.v
Runtime.v
Chat.v
UpdateCheck.v
Sessions.v
Endpoints.v
CliFormat.v
CliRun.v
Cli.v
Unicode.v
Concierge.v
ConciergeAI.v
CliUpdate.v
Doctor.v
Nodes.v
Brief.v
Conformance.v
Stores.v
Mcp.v
AuthoringApi.v
Checkpoints.v
Argparse.v
CliParser.v
ScheduleDb.v
ServerApp.v
