(* ===== verification/Prelude.v ===== *)
(** * A verification library for Agent OS

    Agent OS runs tasks through a graph of language-model agents (router,
    architect, human gate, executor) under a policy, keeps what happened in
    SQLite, and offers this over HTTP, a scheduler, a command line and a public
    web chat.  This library models the package agent_os/ as executable
    functions and proves what its parts promise each other.  File names below
    are those of agent_os/.  A definition has the name of what it models; where
    the source has a leading underscore it is left out.

    ** How the program is put together

    A run starts at an entry: the endpoints (server/api.py), the scheduler
    (scheduler.py), the command line (cli/app.py) or the chat socket.  The entry
    takes the composed workspace (workspace.py, server/runtime.py): backends,
    skills, connectors, policy, context providers, event sinks.  The graph
    (graph.py, routing.py, nodes/) sends the task to a native tool or to the
    architect, whose plan goes to a human gate and then to the executor; tools
    and memory writes ask the policy (policy.py, memory_gate.py), which may
    interrupt the run until somebody approves.  The executor of a run
    (server/run_executor.py) writes status and events to the ledger (runs.py),
    lifecycle events go to sinks (events.py, webhooks.py), labelled outcomes to
    the evidence store (observations.py), from which strategies are chosen
    (strategies.py) and skills proposed, written and registered
    (skill_candidates.py, skill_authoring.py).

    ** Files

    The language and its libraries.  Prelude: exceptions, the error monad,
    tactics, sorting.  PyStr, OutputLimits, PyRe, PyVal, Json, JsonIndent,
    Float, Net, Unicode: strings, byte limits, regular expressions, values and
    dicts, JSON printing and parsing, binary64, addresses and URLs, code points.
    Table: a SQL table as the list of its rows.  Paths, FileTree: paths, a
    filesystem with symbolic links, directory trees.  Argparse: argument
    parsers.

    Policy and memory.  PermissionStore: learned rules, in memory and SQLite
    (permission_store.py).  Policy: local, workspace and composite engines,
    approvals, session grants (policy.py).  MemoryGate: writes through the
    engine (memory_gate.py).  Sandbox: root, path checks and tools (sandbox.py,
    tools/).  Vault, MemoryIndex, Connectors: the markdown vault, its index and
    BM25 search, gbrain, the registry, the memory_write skill (connectors.py).
    Mcp: MCP servers (mcp.py).

    Graph and agents.  Schemas: the shared records.  Skills, Plugins,
    SkillPackages: the registry, entry points and packages (skills.py,
    default_registry.py, plugins.py, skill_packages.py).  Workflow: state,
    routing, dispatcher, gate and edges (state.py, routing.py, graph.py, nodes/).
    Nodes: what the agents' nodes do with prompts, models and messages
    (nodes/, llm.py, messages.py, agents/).  CliBackends, Backends: coding CLIs
    as backends (cli_backends.py, backends.py, bindings.py, agents/).  Context,
    HotContext: injected context and conversation memory (context.py,
    hot_context.py, summarize.py).  Validation: acceptance criteria and the
    judge (validation.py, semantic_judge.py).  Checkpoints: the database and the
    classes of a checkpoint (checkpoints.py).

    Runs.  Runs, Stores: the ledger, and the storage protocols as classes with
    the SQLite stores as instances (runs.py, stores/).  RunExecutor, Events,
    Webhooks: a run, its events and their delivery.  Recurrence, Schedules,
    ScheduleDb, ScheduleModels, Scheduler: schedules (schedule_recurrence.py,
    schedules.py, schedule_models.py, scheduler.py).  Observations, Strategies:
    evidence, selection, candidates.  SkillAuthoring: the service of authored
    skills.  Migrations, Backup: schema changes, and the copy of the files
    before them (migrations.py).  Sessions, Brief: chat
    sessions, session logs, briefs (sessions.py, session_log.py, brief.py,
    brief_runtime.py).

    Surfaces.  Profiles, Workspace, Runtime: configuration and composition.
    Access, RunApi, Endpoints, AuthoringApi, Chat, ServerApp: the
    server (server/api.py, principal.py).  CliFormat, CliRun, Cli, CliParser,
    CliUpdate, Doctor, UpdateCheck: the command line (cli/, update_check.py).
    Concierge, ConciergeAI: the public chat (public_concierge.py,
    public_concierge_ai.py).  Conformance: the checks for extensions
    (testing/conformance.py).

    ** How state and operations are written

    A call returns [Ok] or [Raise] with the class and the text of the
    exception.  A store is a value: a list of rows, a finite map, a record of
    tables; an operation takes it and returns the new one, and one transaction
    is one function, so an interleaving of callers is a sequence of calls
    (Sessions, Runtime) or a step relation (Runs, RunApi, Scheduler, Workflow,
    Stores).
    A cached or shared object is passed along the same way (Runtime, Policy).
    A component's promise to others is a class (PermissionRuleStore, RunStore,
    Cron), its implementations are instances, and clients are proved against
    the class.

    ** What the theorems show

    - Authority: no high-tier action runs without approval, rules are exact in
      scope, composition only restricts, only an approved plan is executed,
      resuming is guarded (Policy, Workflow, CliRun, MemoryGate, Vault).
    - Confinement: tools stay in the sandbox, CLI backends get no more than
      their role allows, MCP roots, webhook targets, the API, the public
      channel and serve are confined (Sandbox, Backends, Mcp, Webhooks,
      Access, ConciergeAI, Cli).
    - Integrity of stores: ledgers, schedules, evidence, authoring requests and
      databases keep their invariants under every operation, whoever calls in
      between; compare-and-set decides once; migrations, updates and
      registrations are atomic or backed up (Runs, Stores, Scheduler,
      ScheduleDb, SkillAuthoring, AuthoringApi, CliUpdate, Migrations).
    - Equivalence and refinement: the two permission stores while their counters
      fit 64 bits, the index against a fresh one, the graph of notes, the commands against the endpoints, the
      SQLite run store against the machine of run statuses.
    - Round trips: JSON, the update cache, frontmatter, events; the backup of a
      database reads as the database did (Backup).
    - Types, bounds and termination: argument lists, checkpoints, packages and
      registries are well-typed; prompts, context, output and retries are
      bounded; a workflow, a command and a stream of events come to their end.
    - Examples named after a defect show on a concrete input where the code
      does something other than its documentation says.

    ** Bounds and fuel

    Resolving a path takes fuel, one unit a component followed; the theorems
    hold for every amount, and running out is the error of a loop of links.  An
    invocation of the graph has the source's recursion limit of seven nodes (or
    the workspace's positive one); [Workflow] shows that a new task does not
    exhaust it, and what an approved one that does has executed.  A command of
    the CLI reads one line a question: its passes take as much fuel as lines
    were typed, plus one, which [CliRun] proves enough.  Regular expressions are
    matched by recursion on the pattern; a repetition takes at most as many
    rounds as the text has characters left.  The digits of a number take its
    binary logarithm as fuel.  Timestamps are integers of microseconds or
    the source's ISO texts, compared as texts where the source does.

    ** What is taken as an argument

    The clock, UUIDs, SHA-256 and HMAC, the resolver, HTTP exchanges,
    subprocesses, croniter and the zone database, the TOML parser, the parser
    of regular expressions where the pattern comes from outside, directory
    walks, expanduser, the natural logarithm, ISO dates, pydantic's coercion of
    numbers, packaging's versions, entry points of distributions, the Unicode
    database, LangGraph's stream and checkpointer, LangChain's trimming of messages, what
    SQLite's statements and checkpoints do to a file and, for the update, what
    copying a database's files gives, models, agents, MCP clients.  Hypotheses about
    them are those of their documentation.

    ** What is simplified

    Strings are byte strings read as Latin-1 except in Concierge, whose texts
    are code points.  Messages of OSError and of parsers are reduced to the
    class of the error; a dash replaces an em dash, and colours are left out.
    Exceptions without a constructor of their own are [OtherError] with the
    class in front of the text.  A SQLite statement is atomic, pragmas other
    than a checkpoint and file locks have no effect, two writers of one file do not
    interleave, and a counter that outgrew 64 bits, a REAL in SQLite, appears as
    the integer of its value.  Python's threads and tasks appear as the order of the
    operations they do; the pause between two ticks of the scheduler is left
    out, as are the fields of shared records that no modelled code reads.

    ** Not modelled

    Re-exports (api/__init__.py and the other __init__ files), the agent tool
    tools/plan_writer.py, whose body builds a record: they only pass data
    between libraries.  The inside of LangGraph, LangChain, SQLite, pydantic and
    FastAPI is not the program's. *)
From Stdlib Require Export Ascii.
From Stdlib Require String.
From Stdlib Require Export ZArith Lia.
From stdpp Require Export base tactics list list_numbers option gmap fin_maps strings sorting.

#[global] Set Default Goal Selector "!".
Open Scope Z_scope.

(** ** Exceptions and the error monad

    A Python call either returns or raises.  The exception classes are the ones
    the source raises, catches or lets escape; [msg] is [str(exc)]. *)
Inductive exn :=
  | ValueError (msg : string)
  | KeyError (msg : string)
  | TypeError (msg : string)
  | RuntimeError (msg : string)
  | OverflowError (msg : string)
  | IntegrityError (msg : string)
  | GraphInterrupt (msg : string)
  | SkillAuthoringError (msg : string)
  | OtherError (msg : string).

Definition exn_msg (e : exn) : string :=
  match e with
  | ValueError m | KeyError m | TypeError m | RuntimeError m
  | OverflowError m | IntegrityError m | GraphInterrupt m | SkillAuthoringError m | OtherError m => m
  end.

(** [type(exc).__name__], a subclass under the name of its modelled ancestor. *)
Definition exn_class (e : exn) : string :=
  match e with
  | ValueError _ => "ValueError" | KeyError _ => "KeyError" | TypeError _ => "TypeError"
  | RuntimeError _ => "RuntimeError" | OverflowError _ => "OverflowError"
  | IntegrityError _ => "IntegrityError" | GraphInterrupt _ => "GraphInterrupt"
  | SkillAuthoringError _ => "SkillAuthoringError" | OtherError _ => "Exception"
  end.

Inductive res (A : Type) :=
  | Ok (a : A)
  | Raise (e : exn).
Arguments Ok {_} _.
Arguments Raise {_} _.

#[export] Instance res_ret : MRet res := fun A a => Ok a.
#[export] Instance res_bind : MBind res := fun A B f m =>
  match m with Ok a => f a | Raise e => Raise e end.
#[export] Instance res_fmap : FMap res := fun A B f m =>
  match m with Ok a => Ok (f a) | Raise e => Raise e end.

Definition is_ok {A} (m : res A) : bool := match m with Ok _ => true | Raise _ => false end.

#[export] Instance exn_eq_dec : EqDecision exn.
Proof. solve_decision. Defined.
#[export] Instance res_eq_dec {A} `{EqDecision A} : EqDecision (res A).
Proof. solve_decision. Defined.

Lemma Ok_inj {A} (a b : A) : Ok a = Ok b → a = b.
Proof. by intros [= ->]. Qed.
Lemma res_bind_ok {A B} (f : A → res B) m b :
  m ≫= f = Ok b ↔ ∃ a, m = Ok a ∧ f a = Ok b.
Proof. destruct m as [a|e]; simpl; split; [eauto|by intros (?&[= ->]&?)|done|by intros (?&?&?)]. Qed.

Lemma res_bind_raise {A B} (f : A → res B) m e :
  m ≫= f = Raise e ↔ m = Raise e ∨ ∃ a, m = Ok a ∧ f a = Raise e.
Proof.
  destruct m as [a|e']; simpl; split.
  - intros H. right. eauto.
  - intros [[=]|(?&[= ->]&?)]. done.
  - intros [= ->]. by left.
  - by intros [[= ->]|(?&?&?)].
Qed.

(** ** Tactics *)

(** Split every boolean connective in the hypotheses and in the goal. *)
Ltac bool_prop :=
  repeat match goal with
  | H : _ && _ = true |- _ => apply andb_true_iff in H as [? ?]
  | H : _ || _ = false |- _ => apply orb_false_iff in H as [? ?]
  | H : negb _ = true |- _ => apply negb_true_iff in H
  | H : negb _ = false |- _ => apply negb_false_iff in H
  | H : bool_decide _ = true |- _ => apply bool_decide_eq_true in H
  | H : bool_decide _ = false |- _ => apply bool_decide_eq_false in H
  | H : String.eqb _ _ = true |- _ => apply String.eqb_eq in H
  | H : String.eqb _ _ = false |- _ => apply String.eqb_neq in H
  end.

(** Case analysis on the next [match] or [if] of a hypothesis or of the goal,
    closing the cases that are contradictory. *)
Ltac case_step :=
  match goal with
  | H : context [match ?x with _ => _ end] |- _ =>
      let E := fresh "E" in destruct x eqn:E; simplify_eq/=
  | |- context [match ?x with _ => _ end] =>
      let E := fresh "E" in destruct x eqn:E; simplify_eq/=
  end.
Ltac cases := repeat (case_step; try done).

Create HintDb agentos.

(** ** Stable insertion sort

    [sorted(xs, key=...)] and [ORDER BY] are modelled by a stable insertion
    sort on a total preorder given as a boolean. *)
Section sorting.
Context {A : Type} (leb : A → A → bool).

Fixpoint insert_sorted (x : A) (l : list A) : list A :=
  match l with
  | [] => [x]
  | y :: l' => if leb x y then x :: y :: l' else y :: insert_sorted x l'
  end.

Fixpoint sort_by (l : list A) : list A :=
  match l with
  | [] => []
  | x :: l' => insert_sorted x (sort_by l')
  end.

Lemma insert_sorted_perm x l : insert_sorted x l ≡ₚ x :: l.
Proof.
  induction l as [|y l IH]; simpl; [done|].
  destruct (leb x y); [done|]. rewrite IH. constructor.
Qed.

Lemma sort_by_perm l : sort_by l ≡ₚ l.
Proof. induction l as [|x l IH]; simpl; [done|]. by rewrite insert_sorted_perm, IH. Qed.

Lemma elem_of_sort_by x l : x ∈ sort_by l ↔ x ∈ l.
Proof. by rewrite sort_by_perm. Qed.

Lemma length_sort_by l : length (sort_by l) = length l.
Proof. by rewrite sort_by_perm. Qed.

(** Sorting by [leb] also sorts by every relation [leb] refines. *)
Lemma sort_by_refines (R : A → A → Prop) l :
  (∀ x y z, R x y → R y z → R x z) → (∀ x y, leb x y = true → R x y) → (∀ x y, leb x y = false → R y x) →
  StronglySorted R (sort_by l).
Proof.
  intros Htr Ht Hf. induction l as [|x l IH]; simpl; [constructor|].
  induction IH as [|y l' Hs IH Hall]; simpl; [by repeat constructor|].
  destruct (leb x y) eqn:Hxy.
  - constructor; [by constructor|]. constructor; [auto|].
    eapply Forall_impl; [exact Hall|]. simpl. eauto.
  - constructor; [done|]. rewrite insert_sorted_perm. constructor; [auto|done].
Qed.

Context (leb_total : ∀ x y, leb x y = false → leb y x = true).
Context (leb_trans : ∀ x y z, leb x y = true → leb y z = true → leb x z = true).

Lemma insert_sorted_sorted x l :
  StronglySorted (λ a b, leb a b = true) l →
  StronglySorted (λ a b, leb a b = true) (insert_sorted x l).
Proof.
  induction 1 as [|y l Hs IH Hall]; simpl; [by repeat constructor|].
  destruct (leb x y) eqn:Hxy.
  - constructor; [by constructor|]. constructor; [done|].
    eapply Forall_impl; [exact Hall|]. simpl. eauto.
  - constructor; [done|]. rewrite insert_sorted_perm. constructor; [by apply leb_total|done].
Qed.

Lemma sort_by_sorted l : StronglySorted (λ a b, leb a b = true) (sort_by l).
Proof. induction l as [|x l IH]; simpl; [constructor|by apply insert_sorted_sorted]. Qed.

Lemma insert_sorted_id x l :
  Forall (λ y, leb x y = true) l → insert_sorted x l = x :: l.
Proof. destruct l as [|y l]; [done|]. intros [H _]%Forall_cons. simpl. by rewrite H. Qed.

Lemma sort_by_id l : StronglySorted (λ a b, leb a b = true) l → sort_by l = l.
Proof.
  induction 1 as [|x l _ IH Hall]; [done|]. simpl. rewrite IH. by apply insert_sorted_id.
Qed.
End sorting.
