(* ===== verification/PyStr.v ===== *)
(** * Python strings

    [str] values are sequences of code points below 256, one [ascii] each (the
    Latin-1 range); the operations of [str] the source uses are given on that
    range with Python's semantics: [strip], [lower], [upper], [split],
    [startswith], [in], [removeprefix], [join]. *)
From S2P Require Export Prelude.
Open Scope Z_scope.
#[global] Arguments String.append !_ _ : simpl nomatch.

Definition code (c : ascii) : Z := Z.of_N (Ascii.N_of_ascii c).
Definition chr (z : Z) : ascii := Ascii.ascii_of_N (Z.to_N z).

Definition newline : ascii := "010"%char.
Definition nl : string := String newline EmptyString.

(** [str.isspace] of one character: the ASCII separators 9-13 and 28-31, the
    space, U+0085 and U+00A0. *)
Definition is_space (c : ascii) : bool :=
  let z := code c in
  (Z.leb 9 z && Z.leb z 13) || (Z.leb 28 z && Z.leb z 32) || Z.eqb z 133 || Z.eqb z 160.

Definition is_digit (c : ascii) : bool := Z.leb 48 (code c) && Z.leb (code c) 57.
Definition is_lower_az (c : ascii) : bool := Z.leb 97 (code c) && Z.leb (code c) 122.
Definition is_upper_az (c : ascii) : bool := Z.leb 65 (code c) && Z.leb (code c) 90.

(** [str.lower]: A-Z and the Latin-1 capitals U+00C0-U+00DE but U+00D7. *)
Definition lower_char (c : ascii) : ascii :=
  let z := code c in
  if is_upper_az c || (Z.leb 192 z && Z.leb z 222 && negb (Z.eqb z 215)) then chr (z + 32) else c.

(** [str.upper] of one character; U+00DF gives "SS".  U+00B5 and U+00FF leave
    Latin-1 in Python; they are kept, as no string the source compares an
    upper-cased value with holds them. *)
Definition upper_char (c : ascii) : string :=
  let z := code c in
  if is_lower_az c || (Z.leb 224 z && Z.leb z 254 && negb (Z.eqb z 247))
  then String (chr (z - 32)) EmptyString
  else if Z.eqb z 223 then "SS" else String c EmptyString.

Fixpoint smap (f : ascii → ascii) (s : string) : string :=
  match s with EmptyString => EmptyString | String c s' => String (f c) (smap f s') end.
Fixpoint sflat_map (f : ascii → string) (s : string) : string :=
  match s with EmptyString => EmptyString | String c s' => f c +:+ sflat_map f s' end.
Fixpoint sforall (f : ascii → bool) (s : string) : bool :=
  match s with EmptyString => true | String c s' => f c && sforall f s' end.
Fixpoint sexists (f : ascii → bool) (s : string) : bool :=
  match s with EmptyString => false | String c s' => f c || sexists f s' end.
Fixpoint sfilter (f : ascii → bool) (s : string) : string :=
  match s with
  | EmptyString => EmptyString
  | String c s' => if f c then String c (sfilter f s') else sfilter f s'
  end.

Definition lower (s : string) : string := smap lower_char s.
Definition upper (s : string) : string := sflat_map upper_char s.

Definition sempty (s : string) : bool := match s with EmptyString => true | _ => false end.
(** Python truth of a string. *)
Definition truthy (s : string) : bool := negb (sempty s).

Fixpoint lstrip (s : string) : string :=
  match s with
  | EmptyString => EmptyString
  | String c s' => if is_space c then lstrip s' else s
  end.

(** [rstrip] drops the trailing run of white space. *)
Fixpoint rstrip (s : string) : string :=
  match s with
  | EmptyString => EmptyString
  | String c s' =>
      match rstrip s' with
      | EmptyString => if is_space c then EmptyString else String c EmptyString
      | t => String c t
      end
  end.

Definition strip (s : string) : string := rstrip (lstrip s).

(** [str.lstrip("/")] of the policy's path normalisation. *)
Fixpoint lstrip_slash (s : string) : string :=
  match s with
  | String c s' => if Ascii.eqb c "/" then lstrip_slash s' else s
  | EmptyString => EmptyString
  end.

Fixpoint startswith (p s : string) : bool :=
  match p, s with
  | EmptyString, _ => true
  | String a p', String b s' => Ascii.eqb a b && startswith p' s'
  | String _ _, EmptyString => false
  end.

(** [sub in s]. *)
Fixpoint contains (sub s : string) : bool :=
  startswith sub s ||
  match s with EmptyString => false | String _ s' => contains sub s' end.

Fixpoint sdrop (n : nat) (s : string) : string :=
  match n, s with
  | O, _ => s
  | S n', String _ s' => sdrop n' s'
  | S _, EmptyString => EmptyString
  end.
Fixpoint stake (n : nat) (s : string) : string :=
  match n, s with
  | O, _ => EmptyString
  | S n', String c s' => String c (stake n' s')
  | S _, EmptyString => EmptyString
  end.

Definition removeprefix (p s : string) : string :=
  if startswith p s then sdrop (String.length p) s else s.

Fixpoint endswith (p s : string) : bool :=
  String.eqb p s || match s with EmptyString => false | String _ s' => endswith p s' end.

(** [s.split(sep, 1)] for a non-empty separator: the text before the first
    occurrence and the text after it, [None] when [sep] does not occur. *)
Fixpoint split_once (sep s : string) : option (string * string) :=
  if startswith sep s then Some (EmptyString, sdrop (String.length sep) s)
  else match s with
       | EmptyString => None
       | String c s' => '(a, b) ← split_once sep s'; Some (String c a, b)
       end.

(** [s.split(c)] for a one-character separator. *)
Fixpoint split_char (c : ascii) (s : string) : list string :=
  match s with
  | EmptyString => [EmptyString]
  | String a s' =>
      if Ascii.eqb a c then EmptyString :: split_char c s'
      else match split_char c s' with
           | w :: ws => String a w :: ws
           | [] => [String a EmptyString]
           end
  end.

(** [s.split()]: the maximal runs of non-space characters. *)
Fixpoint split_ws_aux (s : string) : string * list string :=
  match s with
  | EmptyString => (EmptyString, [])
  | String c s' =>
      let '(w, ws) := split_ws_aux s' in
      if is_space c then (EmptyString, if sempty w then ws else w :: ws)
      else (String c w, ws)
  end.
Definition split_ws (s : string) : list string :=
  let '(w, ws) := split_ws_aux s in if sempty w then ws else w :: ws.

(** [[line.strip() for line in s.splitlines() if line.strip()]] *)
Definition line_break (c : ascii) : bool :=
  let z := code c in ((10 <=? z) && (z <=? 13)) || ((28 <=? z) && (z <=? 30)) || (z =? 133).
Fixpoint lines_aux (s : string) : string * list string :=
  match s with
  | EmptyString => (EmptyString, [])
  | String c s' => let '(w, ws) := lines_aux s' in
                   if line_break c then (EmptyString, w :: ws) else (String c w, ws)
  end.
Definition nonblank_lines (s : string) : list string :=
  let '(w, ws) := lines_aux s in List.filter truthy (map strip (w :: ws)).

(** [s.replace(old, new)] of a non-empty [old], from the left; and [s[-n:]]. *)
Fixpoint replace_go (n : nat) (old new s : string) : string :=
  match n, s with
  | S n', String c s' =>
      if startswith old s then new +:+ replace_go n' old new (sdrop (String.length old) s)
      else String c (replace_go n' old new s')
  | _, _ => s
  end.
Definition str_replace (old new s : string) : string := replace_go (String.length s) old new s.
Definition slast (n : nat) (s : string) : string := sdrop (String.length s - n) s.

Fixpoint sjoin (sep : string) (l : list string) : string :=
  match l with
  | [] => EmptyString
  | [x] => x
  | x :: l' => x +:+ sep +:+ sjoin sep l'
  end.

(** [str(n)] of an integer. *)
Fixpoint digits_aux (fuel : nat) (n : Z) (acc : string) : string :=
  match fuel with
  | O => acc
  | S f => let acc' := String (chr (48 + n mod 10)) acc in
           if Z.ltb n 10 then acc' else digits_aux f (n / 10) acc'
  end.
Definition str_of_Z (n : Z) : string :=
  let m := Z.abs n in
  let d := digits_aux (S (Z.to_nat (Z.log2 m))) m EmptyString in
  if Z.ltb n 0 then "-" +:+ d else d.

(** [str.encode("utf-8")] of a Latin-1 string, as bytes. *)
Definition utf8_of_char (c : ascii) : string :=
  let z := code c in
  if z <? 128 then String c EmptyString
  else String (chr (192 + z / 64)) (String (chr (128 + z mod 64)) EmptyString).
Definition utf8 (s : string) : string := sflat_map utf8_of_char s.

(** Python orders strings by code point. *)
Fixpoint str_leb (a b : string) : bool :=
  match a, b with
  | EmptyString, _ => true
  | String _ _, EmptyString => false
  | String x a', String y b' =>
      if Z.ltb (code x) (code y) then true
      else if Z.ltb (code y) (code x) then false else str_leb a' b'
  end.

(** ** Lemmas *)

Lemma code_inj a b : code a = code b → a = b.
Proof.
  unfold code. intros H%N2Z.inj. rewrite <-(ascii_N_embedding a), <-(ascii_N_embedding b).
  by rewrite H.
Qed.

Lemma sapp_nil_r s : s +:+ EmptyString = s.
Proof. induction s as [|c s IH]; simpl; [done|]. by rewrite IH. Qed.

Lemma sapp_assoc a b c : (a +:+ b) +:+ c = a +:+ b +:+ c.
Proof. induction a as [|x a IH]; simpl; [done|]. by rewrite IH. Qed.

Lemma slen_app a b : String.length (a +:+ b) = (String.length a + String.length b)%nat.
Proof. induction a as [|x a IH]; simpl; [done|]. by rewrite IH. Qed.

Lemma sapp_inj_l p a b : p +:+ a = p +:+ b → a = b.
Proof. induction p as [|x p IH]; simpl; [done|]. intros [= H]. auto. Qed.

Lemma sdrop_app p s : sdrop (String.length p) (p +:+ s) = s.
Proof. by induction p. Qed.

Lemma stake_app p s : stake (String.length p) (p +:+ s) = p.
Proof. induction p as [|x p IH]; simpl; [by destruct s|]. by rewrite IH. Qed.

Lemma slen_stake n s : (String.length (stake n s) = Nat.min n (String.length s))%nat.
Proof. revert s. induction n as [|n IH]; intros [|c s]; simpl; [done..|]. by rewrite IH. Qed.

Lemma startswith_app p s : startswith p (p +:+ s) = true.
Proof. induction p as [|c p IH]; simpl; [done|]. by rewrite Ascii.eqb_refl. Qed.

Lemma startswith_iff p s : startswith p s = true ↔ ∃ t, s = p +:+ t.
Proof.
  split; [|intros [t ->]; apply startswith_app].
  revert s. induction p as [|c p IH]; intros s; [by exists s|].
  destruct s as [|d s]; simpl; [done|]. intros H. bool_prop.
  match goal with H : Ascii.eqb _ _ = true |- _ => apply Ascii.eqb_eq in H as -> end.
  destruct (IH s) as [t ->]; [done|]. by exists t.
Qed.

Lemma contains_iff p s : contains p s = true ↔ ∃ a b, s = a +:+ p +:+ b.
Proof.
  split.
  - induction s as [|c s IH]; simpl; intros H%orb_true_iff.
    + destruct H as [[t ->]%startswith_iff|[=]]. by exists EmptyString, t.
    + destruct H as [[t Ht]%startswith_iff|H]; [by exists EmptyString, t|].
      destruct (IH H) as (a & b & ->). by exists (String c a), b.
  - intros (a & b & ->). induction a as [|c a IH]; simpl.
    + destruct (p +:+ b) as [|c t] eqn:E; simpl; rewrite <-E, startswith_app; done.
    + rewrite IH. by rewrite orb_true_r.
Qed.

Lemma sjoin_snoc sep l x : l ≠ [] → sjoin sep (l ++ [x]) = sjoin sep l +:+ sep +:+ x.
Proof.
  induction l as [|y l IH]; intros H; [done|]. destruct l as [|z l]; [done|].
  change ((y :: z :: l) ++ [x]) with (y :: z :: (l ++ [x])).
  change (sjoin sep (y :: z :: l ++ [x])) with (y +:+ sep +:+ sjoin sep ((z :: l) ++ [x])).
  rewrite IH by done. change (sjoin sep (y :: z :: l)) with (y +:+ sep +:+ sjoin sep (z :: l)).
  by rewrite !sapp_assoc.
Qed.

Lemma str_leb_refl a : str_leb a a = true.
Proof. induction a as [|c a IH]; simpl; [done|]. by rewrite Z.ltb_irrefl. Qed.

Lemma str_leb_total a b : str_leb a b = false → str_leb b a = true.
Proof.
  revert b. induction a as [|x a IH]; intros [|y b]; simpl; try done.
  destruct (Z.ltb_spec (code x) (code y)), (Z.ltb_spec (code y) (code x)); auto; lia.
Qed.

Lemma str_leb_trans a b c : str_leb a b = true → str_leb b c = true → str_leb a c = true.
Proof.
  revert b c. induction a as [|x a IH]; intros [|y b] [|z c]; simpl; try done.
  destruct (Z.ltb_spec (code x) (code y)), (Z.ltb_spec (code y) (code x)),
    (Z.ltb_spec (code y) (code z)), (Z.ltb_spec (code z) (code y)),
    (Z.ltb_spec (code x) (code z)), (Z.ltb_spec (code z) (code x)); try done; try lia.
  apply IH.
Qed.

Lemma str_leb_antisym a b : str_leb a b = true → str_leb b a = true → a = b.
Proof.
  revert b. induction a as [|x a IH]; intros [|y b]; simpl; try done.
  destruct (Z.ltb_spec (code x) (code y)), (Z.ltb_spec (code y) (code x)); try done; try lia.
  intros H1 H2. rewrite (code_inj x y) by lia. f_equal. auto.
Qed.

Lemma sforall_app f a b : sforall f (a +:+ b) = sforall f a && sforall f b.
Proof. induction a as [|c a IH]; simpl; [done|]. by rewrite IH, andb_assoc. Qed.

Lemma sexists_sforall f s : sexists f s = negb (sforall (λ c, negb (f c)) s).
Proof. induction s as [|c s IH]; simpl; [done|]. rewrite IH. by destruct (f c). Qed.

(** A separator that a prefix does not contain cuts a string in one way. *)
Lemma sep_cut_inj c a b a' b' :
  sexists (Ascii.eqb c) a = false → sexists (Ascii.eqb c) a' = false →
  a +:+ String c b = a' +:+ String c b' → a = a' ∧ b = b'.
Proof.
  revert a'. induction a as [|x a IH]; intros [|y a']; simpl; intros Ha Ha' H; bool_prop.
  - by injection H as ->.
  - injection H as <- _. by rewrite Ascii.eqb_refl in *.
  - injection H as -> _. by rewrite Ascii.eqb_refl in *.
  - injection H as <- H. destruct (IH a') as [-> ->]; auto.
Qed.

#[export] Hint Resolve startswith_app str_leb_refl str_leb_total str_leb_trans : agentos.

(** [strip] leaves no white space at the ends. *)
Lemma rstrip_last s t c : rstrip s = t +:+ String c EmptyString → is_space c = false.
Proof.
  revert t. induction s as [|a s IH]; intros t; simpl; [by destruct t|].
  destruct (rstrip s) as [|b r] eqn:E.
  - destruct (is_space a) eqn:Ha; [by destruct t|].
    destruct t as [|d t]; simpl; [by intros [= <-]|]. intros [= _ H]. by destruct t.
  - destruct t as [|d t]; simpl; [done|]. intros [= _ H]. by eapply (IH t).
Qed.
Lemma strip_last s t c : strip s = t +:+ String c EmptyString → is_space c = false.
Proof. apply rstrip_last. Qed.

Lemma rstrip_idem s : rstrip (rstrip s) = rstrip s.
Proof.
  induction s as [|c s IH]; [done|]. simpl. destruct (rstrip s) as [|b r] eqn:E.
  - destruct (is_space c) eqn:Hc; [done|]. simpl. by rewrite Hc.
  - rewrite <-IH at 2. change (rstrip (String c (String b r))) with
      (match rstrip (String b r) with EmptyString => if is_space c then EmptyString else String c EmptyString
       | t => String c t end). by rewrite IH.
Qed.
Lemma strip_idem s : strip (strip s) = strip s.
Proof.
  unfold strip. induction s as [|c s IH]; [done|]. simpl. destruct (is_space c) eqn:Hc; [done|].
  assert (∃ t, rstrip (String c s) = String c t) as [t Ht].
  { simpl. destruct (rstrip s); rewrite ?Hc; eauto. }
  rewrite Ht at 1. simpl lstrip. rewrite Hc, <-Ht. apply rstrip_idem.
Qed.

(** ** File names *)
Fixpoint rindex_from (c : ascii) (i : nat) (s : string) (found : option nat) : option nat :=
  match s with EmptyString => found | String d s' => rindex_from c (S i) s' (if Ascii.eqb d c then Some i else found) end.
(** [os.path.splitext]: the last dot after the last slash, unless only dots are
    before it. *)
Definition splitext (p : string) : string * string :=
  let base := match rindex_from "/" 0 p None with Some i => S i | None => O end in
  match rindex_from "." 0 p None with
  | Some i =>
      if (i <? base)%nat || sforall (λ c, Ascii.eqb c ".") (stake (i - base) (sdrop base p)) then (p, EmptyString)
      else (stake i p, sdrop i p)
  | None => (p, EmptyString)
  end.

(** A database next to the one of the checkpoints (agent_os/checkpoints.py):
    [checkpoints.db] gives [checkpoints.runs.db] for the suffix [.runs]. *)
Definition CHECKPOINT_DB_ENV : string := "AGENT_OS_CHECKPOINTS_DB".
Definition DEFAULT_CHECKPOINT_DB : string := "./checkpoints.db".
Definition sibling_db (suffix : string) (checkpoint_env : option string) : string :=
  let checkpoint_path := default DEFAULT_CHECKPOINT_DB checkpoint_env in
  if String.eqb checkpoint_path ":memory:" then checkpoint_path
  else let '(root, ext) := splitext checkpoint_path in root +:+ suffix +:+ (if sempty ext then ".db" else ext).
