(* ===== verification/OutputLimits.v ===== *)
(** * Byte limits of retained output (agent_os/output_limits.py)

    Text is a list of code points, its UTF-8 encoding a list of bytes; the
    decoder is the one of [errors="ignore"], which drops the bytes that form no
    character. *)
From S2P Require Export PyStr.

Definition BASH_OUTPUT_MAX_BYTES : Z := 100 * 1024.
Definition DISPATCHER_OUTPUT_MAX_BYTES : Z := 50 * 1024.

(** ** UTF-8 *)
Definition scalar (c : Z) : bool :=
  (0 <=? c) && (c <=? 1114111) && negb ((55296 <=? c) && (c <=? 57343)).
Definition cont_byte (x : Z) : Z := 128 + x mod 64.
Definition utf8_char (c : Z) : list Z :=
  if c <? 128 then [c]
  else if c <? 2048 then [192 + c / 64; cont_byte c]
  else if c <? 65536 then [224 + c / 4096; cont_byte (c / 64); cont_byte c]
  else [240 + c / 262144; cont_byte (c / 4096); cont_byte (c / 64); cont_byte c].
(** [text.encode("utf-8")]; a surrogate raises. *)
Definition encode (text : list Z) : res (list Z) :=
  if forallb scalar text then Ok (flat_map utf8_char text)
  else Raise (ValueError "'utf-8' codec can't encode character: surrogates not allowed").

Definition is_cont (b : Z) : bool := (128 <=? b) && (b <? 192).
(** The range of the second byte after a first one. *)
Definition second_ok (b0 b1 : Z) : bool :=
  is_cont b1 &&
  (if b0 =? 224 then 160 <=? b1 else if b0 =? 237 then b1 <? 160
   else if b0 =? 240 then 144 <=? b1 else if b0 =? 244 then b1 <? 144 else true).

(** [bytes.decode("utf-8", errors="ignore")] *)
Fixpoint decode_ignore (bs : list Z) : list Z :=
  match bs with
  | [] => []
  | b0 :: r0 =>
      if b0 <? 128 then b0 :: decode_ignore r0
      else if (194 <=? b0) && (b0 <=? 223) then
        match r0 with
        | b1 :: r1 => if is_cont b1 then ((b0 - 192) * 64 + (b1 - 128)) :: decode_ignore r1 else decode_ignore r0
        | [] => []
        end
      else if (224 <=? b0) && (b0 <=? 239) then
        match r0 with
        | b1 :: r1 =>
            if second_ok b0 b1 then
              match r1 with
              | b2 :: r2 =>
                  if is_cont b2 then ((b0 - 224) * 4096 + (b1 - 128) * 64 + (b2 - 128)) :: decode_ignore r2
                  else decode_ignore r1
              | [] => []
              end
            else decode_ignore r0
        | [] => []
        end
      else if (240 <=? b0) && (b0 <=? 244) then
        match r0 with
        | b1 :: r1 =>
            if second_ok b0 b1 then
              match r1 with
              | b2 :: r2 =>
                  if is_cont b2 then
                    match r2 with
                    | b3 :: r3 =>
                        if is_cont b3 then
                          ((b0 - 240) * 262144 + (b1 - 128) * 4096 + (b2 - 128) * 64 + (b3 - 128)) :: decode_ignore r3
                        else decode_ignore r2
                    | [] => []
                    end
                  else decode_ignore r1
              | [] => []
              end
            else decode_ignore r0
        | [] => []
        end
      else decode_ignore r0
  end.

(** ** truncate_utf8 *)
Fixpoint codes (s : string) : list Z :=
  match s with EmptyString => [] | String c s' => code c :: codes s' end.
(** f"[truncated {n} bytes]\n" *)
Definition truncation_marker (n : Z) : list Z := codes ("[truncated " +:+ str_of_Z n +:+ " bytes]" +:+ nl).

Definition zlen {A} (l : list A) : Z := Z.of_nat (length l).

Definition truncate_utf8 (text : list Z) (max_bytes : Z) : res (list Z * bool) :=
  if max_bytes <? 0 then Raise (ValueError "max_bytes must be non-negative")
  else
    encoded ← encode text;
    if zlen encoded <=? max_bytes then Ok (text, false)
    else
      let payload_budget := max_bytes - zlen (truncation_marker (zlen encoded)) in
      if payload_budget <? 0 then Ok ([], true)
      else
        let retained := decode_ignore (take (Z.to_nat payload_budget) encoded) in
        retained_bytes ← encode retained;
        let omitted_bytes := zlen encoded - zlen retained_bytes in
        let result := truncation_marker omitted_bytes ++ retained in
        result_bytes ← encode result;
        if zlen result_bytes <=? max_bytes then Ok (result, true)
        else Raise (OtherError "AssertionError").

(** ** The decoder on the prefix of an encoding *)
Definition width (c : Z) : nat := length (utf8_char c).
(** The longest prefix whose encoding fits in [n] bytes. *)
Fixpoint fitting (n : nat) (text : list Z) : list Z :=
  match text with
  | [] => []
  | c :: t => if (width c <=? n)%nat then c :: fitting (n - width c) t else []
  end.

Ltac zdecide :=
  repeat match goal with
  | |- context [?a <? ?b] => destruct (Z.ltb_spec a b)
  | |- context [?a <=? ?b] => destruct (Z.leb_spec a b)
  | |- context [?a =? ?b] => destruct (Z.eqb_spec a b)
  end.
Ltac div_lia := Z.div_mod_to_equations; lia.
(** Decide the comparisons of bytes from the left. *)
Ltac byte_tests :=
  repeat match goal with
  | |- context [?a <? ?b] =>
      first [rewrite (proj2 (Z.ltb_lt a b)) by div_lia|rewrite (proj2 (Z.ltb_ge a b)) by div_lia]
  | |- context [?a <=? ?b] =>
      first [rewrite (proj2 (Z.leb_le a b)) by div_lia|rewrite (proj2 (Z.leb_gt a b)) by div_lia]
  end; cbn [andb].

Lemma scalar_range c : scalar c = true → 0 ≤ c ≤ 1114111 ∧ (c < 55296 ∨ 57343 < c).
Proof. unfold scalar. zdecide; cbn; intros; try done; lia. Qed.

Lemma is_cont_byte x : is_cont (cont_byte x) = true.
Proof. unfold is_cont, cont_byte. pose proof (Z.mod_pos_bound x 64). zdecide; cbn; try done; lia. Qed.

Lemma second_ok_3 c : scalar c = true → 2048 ≤ c < 65536 →
  second_ok (224 + c / 4096) (cont_byte (c / 64)) = true.
Proof.
  intros [_ Hs]%scalar_range Hc. unfold second_ok. rewrite is_cont_byte. unfold cont_byte. cbn [andb].
  zdecide; try done; exfalso; div_lia.
Qed.
Lemma second_ok_4 c : scalar c = true → 65536 ≤ c →
  second_ok (240 + c / 262144) (cont_byte (c / 4096)) = true.
Proof.
  intros [Hr _]%scalar_range Hc. unfold second_ok. rewrite is_cont_byte. unfold cont_byte. cbn [andb].
  zdecide; try done; exfalso; div_lia.
Qed.

Lemma decode_char c rest : scalar c = true → decode_ignore (utf8_char c ++ rest) = c :: decode_ignore rest.
Proof.
  intros Hsc. pose proof (scalar_range c Hsc) as [Hc Hs]. unfold utf8_char.
  destruct (Z.ltb_spec c 128); [|destruct (Z.ltb_spec c 2048); [|destruct (Z.ltb_spec c 65536)]];
    cbn [app decode_ignore].
  - by byte_tests.
  - rewrite is_cont_byte. byte_tests. f_equal. unfold cont_byte. div_lia.
  - rewrite second_ok_3, is_cont_byte by done. byte_tests. f_equal. unfold cont_byte. div_lia.
  - rewrite second_ok_4, !is_cont_byte by lia || done. byte_tests. f_equal. unfold cont_byte. div_lia.
Qed.

(** A strict prefix of the encoding of a character decodes to nothing. *)
Lemma decode_partial c n : scalar c = true → (n < width c)%nat → decode_ignore (take n (utf8_char c)) = [].
Proof.
  intros Hsc. pose proof (scalar_range c Hsc) as [Hc Hs]. unfold width, utf8_char.
  destruct (Z.ltb_spec c 128); [|destruct (Z.ltb_spec c 2048); [|destruct (Z.ltb_spec c 65536)]];
    cbn [length]; intros Hn; destruct n as [|[|[|[|n]]]]; try lia; cbn [take decode_ignore]; try done;
    rewrite ?second_ok_3, ?second_ok_4, ?is_cont_byte by lia || done; by byte_tests.
Qed.

Lemma decode_prefix text : forallb scalar text = true → ∀ n,
  decode_ignore (take n (flat_map utf8_char text)) = fitting n text.
Proof.
  induction text as [|c t IH]; intros Ht n; cbn [flat_map fitting]; [by rewrite take_nil|].
  cbn in Ht. apply andb_true_iff in Ht as [Hc Ht]. destruct (Nat.leb_spec (width c) n).
  - rewrite take_app. fold (width c). rewrite take_ge by done. rewrite decode_char by done. by rewrite IH.
  - rewrite take_app_le by (fold (width c); lia). by apply decode_partial.
Qed.

Lemma fitting_spec text : ∀ n,
  (length (flat_map utf8_char (fitting n text)) ≤ n)%nat ∧
  ∃ rest, text = fitting n text ++ rest ∧
    (∀ c t, rest = c :: t → (n < length (flat_map utf8_char (fitting n text ++ [c])))%nat).
Proof.
  induction text as [|c t IH]; intros n; cbn [fitting].
  - split; [simpl; lia|]. by exists [].
  - destruct (Nat.leb_spec (width c) n).
    + destruct (IH (n - width c)%nat) as (Hl & rest & Ht & Hr). cbn [flat_map]. rewrite length_app.
      fold (width c). split; [lia|]. exists rest. split; [by rewrite <-app_comm_cons, <-Ht|].
      intros d t' E. specialize (Hr d t' E). cbn [flat_map app]. rewrite length_app. fold (width c). lia.
    + split; [simpl; lia|]. exists (c :: t). split; [done|]. intros d t' [= -> ->].
      cbn [flat_map app]. rewrite app_nil_r. exact H.
Qed.

(** ** The marker *)
Lemma digits_aux_length fuel n acc : 0 ≤ n → (String.length acc < String.length (digits_aux (S fuel) n acc))%nat.
Proof.
  revert n acc. induction fuel as [|fuel IH]; intros n acc Hn.
  - cbn. destruct (n <? 10); cbn; lia.
  - cbn [digits_aux]. cbn zeta. destruct (n <? 10); [cbn; lia|].
    specialize (IH (n / 10) (String (chr (48 + n mod 10)) acc) ltac:(by apply Z.div_pos)). cbn in *. lia.
Qed.

Lemma log2_div10 n : 10 ≤ n → Z.log2 (n / 10) < Z.log2 n.
Proof.
  intros Hn. assert (Z.log2 (n / 2) = Z.log2 n - 1) as H.
  { rewrite <-Z.div2_div. rewrite Z.div2_spec, Z.log2_shiftr by lia. pose proof (Z.log2_le_mono 2 n ltac:(lia)). cbn in *. lia. }
  assert (Z.log2 (n / 10) ≤ Z.log2 (n / 2)); [|lia]. apply Z.log2_le_mono. Z.div_mod_to_equations; lia.
Qed.

Lemma digits_mono f1 : ∀ f2 n k a b, 0 ≤ n ≤ k → Z.log2 n < Z.of_nat f1 → Z.log2 k < Z.of_nat f2 →
  (String.length a ≤ String.length b)%nat →
  (String.length (digits_aux f1 n a) ≤ String.length (digits_aux f2 k b))%nat.
Proof.
  induction f1 as [|f1 IH]; intros f2 n k a b Hn H1 H2 Hl; [pose proof (Z.log2_nonneg n); lia|].
  destruct f2 as [|f2]; [pose proof (Z.log2_nonneg k); lia|].
  destruct (Z.ltb_spec n 10).
  - pose proof (digits_aux_length f2 k b ltac:(lia)). cbn [digits_aux]. cbn zeta.
    rewrite (proj2 (Z.ltb_lt n 10)) by done. cbn [String.length] in *. unfold digits_aux in *. lia.
  - cbn [digits_aux]. cbn zeta. rewrite (proj2 (Z.ltb_ge n 10)), (proj2 (Z.ltb_ge k 10)) by lia.
    pose proof (log2_div10 n). pose proof (log2_div10 k).
    apply IH; [split; [by apply Z.div_pos; lia|by apply Z.div_le_mono; lia]|lia|lia|cbn; lia].
Qed.

Lemma str_of_Z_mono n k : 0 ≤ n ≤ k → (String.length (str_of_Z n) ≤ String.length (str_of_Z k))%nat.
Proof.
  intros H. unfold str_of_Z. cbn zeta. rewrite !Z.abs_eq by lia.
  rewrite (proj2 (Z.ltb_ge n 0)), (proj2 (Z.ltb_ge k 0)) by lia.
  pose proof (Z.log2_nonneg n). pose proof (Z.log2_nonneg k). apply digits_mono; [done|lia|lia|done].
Qed.

(** A marker is ASCII: one byte a character. *)
Lemma digits_aux_ascii fuel : ∀ n acc, 0 ≤ n → forallb (λ c, (0 <=? c) && (c <? 128)) (codes acc) = true →
  forallb (λ c, (0 <=? c) && (c <? 128)) (codes (digits_aux fuel n acc)) = true.
Proof.
  induction fuel as [|fuel IH]; intros n acc Hn Ha; [done|]. cbn [digits_aux]. cbn zeta.
  assert (forallb (λ c, (0 <=? c) && (c <? 128)) (codes (String (chr (48 + n mod 10)) acc)) = true) as H.
  { cbn [codes forallb]. rewrite Ha, andb_true_r. unfold code, chr. pose proof (Z.mod_pos_bound n 10).
    rewrite N_ascii_embedding by lia. rewrite Z2N.id by lia. zdecide; done || lia. }
  destruct (n <? 10); [done|]. apply IH; [by apply Z.div_pos|done].
Qed.
Lemma codes_app a b : codes (a +:+ b) = codes a ++ codes b.
Proof. induction a as [|c a IH]; [done|]. cbn. by rewrite IH. Qed.
Lemma length_codes s : length (codes s) = String.length s.
Proof. induction s as [|c s IH]; [done|]. cbn. by rewrite IH. Qed.

Lemma marker_ascii n : 0 ≤ n → forallb (λ c, (0 <=? c) && (c <? 128)) (truncation_marker n) = true.
Proof.
  intros Hn. unfold truncation_marker. rewrite !codes_app, !forallb_app. unfold str_of_Z. cbn zeta.
  rewrite (proj2 (Z.ltb_ge n 0)) by done. by rewrite digits_aux_ascii by (done || lia).
Qed.
Lemma ascii_encoded l : forallb (λ c, (0 <=? c) && (c <? 128)) l = true →
  forallb scalar l = true ∧ flat_map utf8_char l = l.
Proof.
  induction l as [|c l IH]; [done|]. cbn. intros [[Hc1 Hc2]%andb_true_iff Hl]%andb_true_iff.
  destruct (IH Hl) as [-> ->]. unfold utf8_char. rewrite Hc2. bool_prop. split; [|done].
  rewrite andb_true_r. unfold scalar. apply Z.leb_le in Hc1. apply Z.ltb_lt in Hc2. zdecide; done || lia.
Qed.
Lemma marker_mono n k : 0 ≤ n ≤ k → zlen (truncation_marker n) ≤ zlen (truncation_marker k).
Proof.
  intros H. unfold zlen, truncation_marker. rewrite !length_codes, !slen_app.
  pose proof (str_of_Z_mono n k H). lia.
Qed.

(** [truncate_utf8] never fails on encodable text and never exceeds the
    limit: a text that fits is returned as it is, a longer one as the marker
    followed by the longest prefix of whole characters that fits beside the
    reserved marker, the number in the marker being exactly the bytes of the
    text left out; where not even the marker fits the result is empty.  The
    assertion of the code never fails. *)
Theorem truncate_utf8_spec text max_bytes : forallb scalar text = true → 0 ≤ max_bytes →
  ∃ out cut, truncate_utf8 text max_bytes = Ok (out, cut) ∧
    zlen (flat_map utf8_char out) ≤ max_bytes ∧
    (cut = false ↔ zlen (flat_map utf8_char text) ≤ max_bytes) ∧
    (cut = false → out = text) ∧
    (cut = true → out = [] ∨ ∃ retained rest, text = retained ++ rest ∧ rest ≠ [] ∧
       out = truncation_marker (zlen (flat_map utf8_char rest)) ++ retained).
Proof.
  intros Ht Hm. unfold truncate_utf8, encode. rewrite (proj2 (Z.ltb_ge max_bytes 0)) by done. rewrite Ht. cbn [mbind res_bind].
  set (enc := flat_map utf8_char text). destruct (Z.leb_spec (zlen enc) max_bytes) as [Hfit|Hfit].
  { eexists _, _. split; [done|]. split; [done|]. done. }
  destruct (Z.ltb_spec (max_bytes - zlen (truncation_marker (zlen enc))) 0) as [Hb|Hb].
  { eexists _, _. split; [done|]. split; [exact Hm|]. split; [split; [done|lia]|]. split; [done|]. by left. }
  set (n := Z.to_nat (max_bytes - zlen (truncation_marker (zlen enc)))).
  subst enc. rewrite decode_prefix by done.
  destruct (fitting_spec text n) as (Hl & rest & Hrest & _). set (kept := fitting n text) in *.
  assert (forallb scalar kept = true) as Hk.
  { rewrite Hrest, forallb_app in Ht. by apply andb_true_iff in Ht as [? _]. }
  rewrite Hk. cbn [mbind res_bind].
  assert (zlen (flat_map utf8_char text) - zlen (flat_map utf8_char kept) = zlen (flat_map utf8_char rest)) as Hom.
  { rewrite Hrest at 1. unfold zlen. rewrite flat_map_app, length_app. lia. }
  rewrite Hom. set (mk := truncation_marker (zlen (flat_map utf8_char rest))).
  assert (0 ≤ zlen (flat_map utf8_char rest) ≤ zlen (flat_map utf8_char text)) as Hr by (unfold zlen in *; lia).
  destruct (ascii_encoded mk (marker_ascii _ (proj1 Hr))) as [Hmk1 Hmk2].
  rewrite forallb_app, Hmk1, Hk. cbn [andb mbind res_bind]. rewrite flat_map_app, Hmk2.
  pose proof (marker_mono _ _ Hr). fold mk in H.
  assert (zlen (mk ++ flat_map utf8_char kept) ≤ max_bytes) as Hlen.
  { unfold zlen in *. rewrite length_app. subst n. lia. }
  rewrite (proj2 (Z.leb_le _ _) Hlen). eexists _, _. split; [done|].
  rewrite flat_map_app, Hmk2. split; [done|]. split; [split; [done|lia]|]. split; [done|].
  intros _. right. exists kept, rest. split; [done|]. split; [|done].
  intros ->. rewrite app_nil_r in Hrest. rewrite <-Hrest in Hl. unfold zlen in *. subst n. lia.
Qed.

Lemma truncate_utf8_spec_witness :
  truncate_utf8 (codes "hello" ++ [8364; 8364; 8364; 8364; 8364; 8364; 8364; 8364; 8364]) 30
  = Ok (truncation_marker 24 ++ codes "hello" ++ [8364], true) ∧
  zlen (flat_map utf8_char (truncation_marker 24 ++ codes "hello" ++ [8364])) ≤ 30.
Proof.
  split; [reflexivity|].
  destruct (truncate_utf8_spec (codes "hello" ++ [8364; 8364; 8364; 8364; 8364; 8364; 8364; 8364; 8364]) 30)
    as (out & cut & H & Hl & _); [reflexivity|lia|].
  vm_compute in H. injection H as <- _. exact Hl.
Defined.
