(* ===== verification/PyRe.v ===== *)
(** * Regular expressions of the [re] module

    A syntax for the patterns the source compiles, and a backtracking matcher
    with Python's greedy semantics: alternatives are tried left to right, a
    greedy repetition takes as many rounds as it can and gives them back one
    at a time, a lazy one as few as it can, a round that consumes nothing ends
    it.  [lang] gives the language of
    a pattern; the matcher decides it. *)
From S2P Require Export PyStr.

Inductive re :=
  | Eps
  | Cls (f : ascii → bool)
  | Seq (a b : re)
  | Alt (a b : re)
  | Star (r : re)
  | Grp (n : nat) (r : re)
  | Bos                        (* ^ without MULTILINE *)
  | Eos                        (* $ without MULTILINE *)
  | Wordb                      (* \b *)
  | LStar (r : re).            (* the lazy *? *)

Definition Lit (c : ascii) : re := Cls (Ascii.eqb c).
Fixpoint Str (s : string) : re :=
  match s with EmptyString => Eps | String c s' => Seq (Lit c) (Str s') end.
Definition Plus (r : re) : re := Seq r (Star r).
Definition Opt (r : re) : re := Alt r Eps.
Definition Seqs (l : list re) : re := foldr Seq Eps l.
Definition Alts (r : re) (l : list re) : re := foldr Alt r l.

(** [\w] on Latin-1: letters, digits, underscore and the alphanumeric code
    points of the upper half. *)
Definition is_word (c : ascii) : bool :=
  let z := code c in
  is_digit c || is_lower_az c || is_upper_az c || (z =? 95)
  || (z =? 170) || (z =? 178) || (z =? 179) || (z =? 181) || (z =? 185) || (z =? 186)
  || ((188 <=? z) && (z <=? 190))
  || ((192 <=? z) && (z <=? 255) && negb (z =? 215) && negb (z =? 247)).

Definition word_at (o : option ascii) : bool :=
  match o with Some c => is_word c | None => false end.
Definition head_char (s : string) : option ascii :=
  match s with String c _ => Some c | EmptyString => None end.

(** Character tests under [re.IGNORECASE] (Latin-1 folding). *)
Definition Lit_i (c : ascii) : re := Cls (λ d, Ascii.eqb (lower_char c) (lower_char d)).
Fixpoint Str_i (s : string) : re :=
  match s with EmptyString => Eps | String c s' => Seq (Lit_i c) (Str_i s') end.

Definition groups := list (nat * string).

Section matcher.
Context {R : Type}.
Definition cont := option ascii → string → groups → option R.

(** Greedy rounds of a body, each consuming something, then [k]. *)
Fixpoint star_loop (body : option ascii → string → groups → cont → option R) (k : cont)
    (n : nat) (prev : option ascii) (rest : string) (g : groups) : option R :=
  match n with
  | O => k prev rest g
  | S n' =>
      match body prev rest g
              (λ p t g', if Nat.ltb (String.length t) (String.length rest)
                         then star_loop body k n' p t g' else None) with
      | Some x => Some x
      | None => k prev rest g
      end
  end.

(** The lazy repetition: [k] first, another round only when it fails. *)
Fixpoint lazy_loop (body : option ascii → string → groups → cont → option R) (k : cont)
    (n : nat) (prev : option ascii) (rest : string) (g : groups) : option R :=
  match k prev rest g with
  | Some x => Some x
  | None =>
      match n with
      | O => None
      | S n' =>
          body prev rest g
            (λ p t g', if Nat.ltb (String.length t) (String.length rest)
                       then lazy_loop body k n' p t g' else None)
      end
  end.

(** [m r prev rest g k] matches [r] at a position whose previous character is
    [prev] and whose remaining text is [rest], then runs [k]. *)
Fixpoint m (r : re) (prev : option ascii) (rest : string) (g : groups) (k : cont) : option R :=
  match r with
  | Eps => k prev rest g
  | Cls f =>
      match rest with
      | String c rest' => if f c then k (Some c) rest' g else None
      | EmptyString => None
      end
  | Seq a b => m a prev rest g (λ p t g', m b p t g' k)
  | Alt a b => match m a prev rest g k with Some x => Some x | None => m b prev rest g k end
  | Star a => star_loop (m a) k (String.length rest) prev rest g
  | LStar a => lazy_loop (m a) k (String.length rest) prev rest g
  | Grp n a =>
      m a prev rest g
        (λ p t g', k p t ((n, stake (String.length rest - String.length t) rest) :: g'))
  | Bos => match prev with None => k prev rest g | Some _ => None end
  | Eos =>
      match rest with
      | EmptyString => k prev rest g
      | String c EmptyString => if Ascii.eqb c newline then k prev rest g else None
      | _ => None
      end
  | Wordb => if xorb (word_at prev) (word_at (head_char rest)) then k prev rest g else None
  end.
End matcher.

(** [re.match] *)
Definition re_match (r : re) (s : string) : option groups :=
  m r None s [] (λ _ _ g, Some g).
(** [re.fullmatch] *)
Definition re_fullmatch (r : re) (s : string) : option groups :=
  m r None s [] (λ _ t g, if sempty t then Some g else None).
(** [re.search]: the first position where the pattern matches; the start and
    the end of the match are returned with the groups. *)
Fixpoint re_search_from (r : re) (off : nat) (prev : option ascii) (s : string)
    : option (nat * nat * groups) :=
  match m r prev s [] (λ _ t g, Some (String.length t, g)) with
  | Some (l, g) => Some (off, off + (String.length s - l), g)%nat
  | None => match s with
            | EmptyString => None
            | String c s' => re_search_from r (S off) (Some c) s'
            end
  end.
Definition re_search (r : re) (s : string) : option (nat * nat * groups) :=
  re_search_from r 0 None s.

(** [re.sub] with a replacement computed from the groups of each match, from
    the left; for a pattern that matches no empty text. *)
Fixpoint re_sub_go (r : re) (repl : groups → string) (n : nat) (prev : option ascii) (s : string) : string :=
  match n, s with
  | S n', String c s' =>
      match m r prev s [] (λ p t g, if Nat.ltb (String.length t) (String.length s) then Some (p, t, g) else None) with
      | Some (p, t, g) => repl g +:+ re_sub_go r repl n' p t
      | None => String c (re_sub_go r repl n' (Some c) s')
      end
  | _, _ => s
  end.
Definition re_sub (r : re) (repl : groups → string) (s : string) : string :=
  re_sub_go r repl (String.length s) None s.

Definition matches (o : option groups) : bool := match o with Some _ => true | None => false end.

Definition group (n : nat) (g : groups) : option string :=
  (λ q, q.2.2) <$> list_find (λ p, p.1 = n) g.

(** ** The language of a pattern

    [lang r prev s rest]: in a context where [prev] precedes and [rest]
    follows, [r] can consume exactly [s]. *)
Definition last_char (prev : option ascii) (s : string) : option ascii :=
  let fix go p s := match s with EmptyString => p | String c s' => go (Some c) s' end in
  go prev s.

Inductive lang : re → option ascii → string → string → Prop :=
  | lang_eps p t : lang Eps p "" t
  | lang_cls f c p t : f c = true → lang (Cls f) p (String c "") t
  | lang_seq a b p s1 s2 t :
      lang a p s1 (s2 +:+ t) → lang b (last_char p s1) s2 t → lang (Seq a b) p (s1 +:+ s2) t
  | lang_alt_l a b p s t : lang a p s t → lang (Alt a b) p s t
  | lang_alt_r a b p s t : lang b p s t → lang (Alt a b) p s t
  | lang_star_nil a p t : lang (Star a) p "" t
  | lang_star_cons a p s1 s2 t :
      s1 ≠ "" → lang a p s1 (s2 +:+ t) → lang (Star a) (last_char p s1) s2 t →
      lang (Star a) p (s1 +:+ s2) t
  | lang_grp n a p s t : lang a p s t → lang (Grp n a) p s t
  | lang_bos t : lang Bos None "" t
  | lang_eos p t : t = "" ∨ t = nl → lang Eos p "" t
  | lang_wordb p t :
      xorb (word_at p) (word_at (head_char t)) = true → lang Wordb p "" t
  | lang_lstar a p s t : lang (Star a) p s t → lang (LStar a) p s t.

Lemma last_char_app p a b : last_char p (a +:+ b) = last_char (last_char p a) b.
Proof. revert p. induction a as [|c a IH]; intros p; [done|]. apply IH. Qed.

Section correctness.
Context {R : Type}.

Lemma star_loop_sound (a : re) (k : cont (R:=R)) :
  (∀ p s g (k' : cont (R:=R)) x, m a p s g k' = Some x →
     ∃ u t g', s = u +:+ t ∧ lang a p u t ∧ k' (last_char p u) t g' = Some x) →
  ∀ n p s g x, star_loop (m a) k n p s g = Some x →
  ∃ u t g', s = u +:+ t ∧ lang (Star a) p u t ∧ k (last_char p u) t g' = Some x.
Proof.
  intros Ha n. induction n as [|n IH]; intros p s g x; simpl.
  { intros H. exists "", s, g. split_and!; [done|constructor|done]. }
  destruct (m a p s g _) as [y|] eqn:E.
  2:{ intros H. exists "", s, g. split_and!; [done|constructor|done]. }
  intros [= <-]. apply Ha in E as (u & t & g' & -> & Hu & Hk).
  case_match eqn:Hlt; [|done]. apply IH in Hk as (u' & t' & g'' & -> & Hu' & Hk').
  exists (u +:+ u'), t', g''. rewrite sapp_assoc, last_char_app. split_and!; [done| |done].
  constructor; [|done..]. intros ->. apply Nat.ltb_lt in Hlt. simpl in Hlt. lia.
Qed.

Lemma lazy_loop_sound (a : re) (k : cont (R:=R)) :
  (∀ p s g (k' : cont (R:=R)) x, m a p s g k' = Some x →
     ∃ u t g', s = u +:+ t ∧ lang a p u t ∧ k' (last_char p u) t g' = Some x) →
  ∀ n p s g x, lazy_loop (m a) k n p s g = Some x →
  ∃ u t g', s = u +:+ t ∧ lang (Star a) p u t ∧ k (last_char p u) t g' = Some x.
Proof.
  intros Ha n. induction n as [|n IH]; intros p s g x; simpl;
    (destruct (k p s g) as [y|] eqn:E;
      [intros [= <-]; exists "", s, g; split_and!; [done|constructor|done]|]); [done|].
  intros H. apply Ha in H as (u & t & g' & -> & Hu & Hk).
  case_match eqn:Hlt; [|done]. apply IH in Hk as (u' & t' & g'' & -> & Hu' & Hk').
  exists (u +:+ u'), t', g''. rewrite sapp_assoc, last_char_app. split_and!; [done| |done].
  constructor; [|done..]. intros ->. apply Nat.ltb_lt in Hlt. simpl in Hlt. lia.
Qed.

Lemma m_sound r : ∀ p s g (k : cont (R:=R)) x, m r p s g k = Some x →
  ∃ u t g', s = u +:+ t ∧ lang r p u t ∧ k (last_char p u) t g' = Some x.
Proof.
  induction r as [|f|a IHa b IHb|a IHa b IHb|a IHa|n a IHa| | | |a IHa]; intros p s g k x; simpl.
  - intros H. exists "", s, g. by split_and!; [|constructor|].
  - destruct s as [|c s]; [done|]. destruct (f c) eqn:Hf; [|done]. intros H.
    exists (String c ""), s, g. by split_and!; [|constructor|].
  - intros (u & t & g' & -> & Hu & (u' & t' & g'' & -> & Hu' & Hk)%IHb)%IHa.
    exists (u +:+ u'), t', g''. rewrite sapp_assoc, last_char_app.
    by split_and!; [|constructor|].
  - destruct (m a p s g k) as [y|] eqn:E.
    + intros [= ->]. apply IHa in E as (u & t & g' & -> & ? & ?).
      exists u, t, g'. split_and!; [done|by apply lang_alt_l|done].
    + intros (u & t & g' & -> & ? & ?)%IHb.
      exists u, t, g'. split_and!; [done|by apply lang_alt_r|done].
  - by apply star_loop_sound.
  - intros (u & t & g' & -> & Hu & Hk)%IHa. eexists u, t, _.
    split_and!; [done|by constructor|done].
  - destruct p; [done|]. intros H. exists "", s, g. by split_and!; [|constructor|].
  - destruct s as [|c [|d s]]; [..|done].
    + intros H. exists "", "", g. split_and!; [done|constructor; by left|done].
    + destruct (Ascii.eqb_spec c newline) as [->|]; [|done]. intros H.
      exists "", nl, g. split_and!; [done|constructor; by right|done].
  - destruct (xorb _ _) eqn:E; [|done]. intros H. exists "", s, g.
    split_and!; [done|by constructor|done].
  - intros H. apply lazy_loop_sound in H as (u & t & g' & -> & Hu & Hk); [|done].
    exists u, t, g'. split_and!; [done|by constructor|done].
Qed.

Lemma star_loop_complete (a : re) p u t :
  lang (Star a) p u t →
  (∀ p' u' t', u' ≠ "" → lang a p' u' t' → (String.length u' ≤ String.length u)%nat →
     ∀ g (k : cont (R:=R)), (∀ g', k (last_char p' u') t' g' ≠ None) → m a p' (u' +:+ t') g k ≠ None) →
  ∀ n g (k : cont (R:=R)), (String.length (u +:+ t) ≤ n)%nat →
  (∀ g', k (last_char p u) t g' ≠ None) → star_loop (m a) k n p (u +:+ t) g ≠ None.
Proof.
  remember (Star a) as sa eqn:Hsa. intros H. revert Hsa.
  induction H as [| | | | |? p t|? p s1 s2 t Hne H1 _ H2 IH| | | | | ]; intros [= ->] Ha n' g k Hn Hk.
  - simpl. destruct n' as [|n']; simpl; [apply Hk|]. destruct (m a _ _ _ _); [done|apply Hk].
  - destruct n' as [|n'].
    { destruct s1; [done|]. rewrite slen_app in Hn. simpl in Hn. lia. }
    simpl. destruct (m a _ _ _ _) eqn:E; [done|]. exfalso. revert E.
    rewrite sapp_assoc. apply Ha; [done|done|rewrite slen_app; lia|].
    intros g'. rewrite sapp_assoc in Hn. rewrite slen_app in Hn.
    assert (String.length s1 ≠ 0%nat) by (by destruct s1).
    destruct (Nat.ltb_spec (String.length (s2 +:+ t)) (String.length (s1 +:+ s2 +:+ t))) as [_|Hge].
    2:{ rewrite (slen_app s1) in Hge. lia. }
    apply IH; [done| |lia|by setoid_rewrite last_char_app in Hk].
    intros p' u' t' ????. apply Ha; [done..|]. rewrite slen_app. lia.
Qed.

Lemma lazy_loop_complete (a : re) p u t :
  lang (Star a) p u t →
  (∀ p' u' t', u' ≠ "" → lang a p' u' t' → (String.length u' ≤ String.length u)%nat →
     ∀ g (k : cont (R:=R)), (∀ g', k (last_char p' u') t' g' ≠ None) → m a p' (u' +:+ t') g k ≠ None) →
  ∀ n g (k : cont (R:=R)), (String.length (u +:+ t) ≤ n)%nat →
  (∀ g', k (last_char p u) t g' ≠ None) → lazy_loop (m a) k n p (u +:+ t) g ≠ None.
Proof.
  remember (Star a) as sa eqn:Hsa. intros H. revert Hsa.
  induction H as [| | | | |? p t|? p s1 s2 t Hne H1 _ H2 IH| | | | | ]; intros [= ->] Ha n' g k Hn Hk.
  - simpl in *. destruct n'; simpl; destruct (k p t g) eqn:E; try done; exfalso; by apply (Hk g).
  - destruct n' as [|n'].
    { destruct s1; [done|]. rewrite slen_app in Hn. simpl in Hn. lia. }
    simpl. destruct (k _ _ _); [done|]. rewrite sapp_assoc. apply Ha; [done|done|rewrite slen_app; lia|].
    intros g'. rewrite sapp_assoc in Hn. rewrite slen_app in Hn.
    assert (String.length s1 ≠ 0%nat) by (by destruct s1).
    destruct (Nat.ltb_spec (String.length (s2 +:+ t)) (String.length (s1 +:+ s2 +:+ t))) as [_|Hge].
    2:{ rewrite (slen_app s1) in Hge. lia. }
    apply IH; [done| |lia|by setoid_rewrite last_char_app in Hk].
    intros p' u' t' ????. apply Ha; [done..|]. rewrite slen_app. lia.
Qed.

Lemma m_complete r : ∀ p s t, lang r p s t → ∀ g (k : cont (R:=R)),
  (∀ g', k (last_char p s) t g' ≠ None) → m r p (s +:+ t) g k ≠ None.
Proof.
  induction r as [|f|a IHa b IHb|a IHa b IHb|a IHa|n a IHa| | | |a IHa]; intros p s t Hl g k Hk; simpl.
  - inversion Hl; subst. apply Hk.
  - inversion Hl as [|? c ? ? Hc| | | | | | | | | | ]; subst. simpl. rewrite Hc. apply Hk.
  - inversion Hl as [| |? ? ? s1 s2 ? H1 H2| | | | | | | | | ]; subst.
    rewrite sapp_assoc. apply IHa; [done|]. intros g'. apply IHb; [done|].
    intros g''. rewrite <-last_char_app. apply Hk.
  - destruct (m a p _ g k) eqn:E; [done|].
    inversion Hl as [| | |? ? ? ? ? H1|? ? ? ? ? H1| | | | | | | ]; subst; [|by apply IHb].
    exfalso. revert E. by apply IHa.
  - apply star_loop_complete; [done| |done|done]. intros p' u' t' _ Hu _. by apply IHa.
  - inversion Hl; subst. by apply IHa.
  - inversion Hl; subst. apply Hk.
  - inversion Hl as [| | | | | | | | |? ? [->| ->]| | ]; subst; apply Hk.
  - inversion Hl as [| | | | | | | | | |? ? E| ]; subst. simpl. rewrite E. apply Hk.
  - inversion Hl; subst. apply lazy_loop_complete; [done| |done|done]. intros p' u' t' _ Hu _. by apply IHa.
Qed.
End correctness.

(** [fullmatch] decides the language of the pattern. *)
Lemma re_fullmatch_spec r s : matches (re_fullmatch r s) = true ↔ lang r None s "".
Proof.
  unfold re_fullmatch. split.
  - destruct (m r None s [] _) as [g|] eqn:E; [|done]. intros _.
    apply m_sound in E as (u & t & g' & -> & Hu & Hk).
    destruct t; simpl in Hk; [|done]. by rewrite sapp_nil_r.
  - intros H. pose proof (m_complete (R:=groups) r None s "" H []
      (λ _ t g, if sempty t then Some g else None)) as Hc.
    rewrite sapp_nil_r in Hc. destruct (m _ _ _ _ _); [done|]. exfalso. by apply Hc.
Qed.

(** ** Languages of the common shapes *)
Lemma lang_star_cls f s p t : sforall f s = true → lang (Star (Cls f)) p s t.
Proof.
  revert p. induction s as [|c s IH]; intros p H; [constructor|]. simpl in H. bool_prop.
  change (String c s) with (String c "" +:+ s). constructor; [done|by constructor|by apply IH].
Qed.
Lemma lang_star_cls_inv f s p t : lang (Star (Cls f)) p s t → sforall f s = true.
Proof.
  remember (Star (Cls f)) as r eqn:Hr. intros H. revert Hr.
  induction H as [| | | | | |? ? s1 s2 ? _ H1 _ _ IH| | | | | ]; intros [= ->]; [done|].
  rewrite sforall_app, IH by done. inversion H1 as [|? c ? ? Hc| | | | | | | | | | ]. simpl. by rewrite Hc.
Qed.
Lemma lang_plus_cls f s p t : s ≠ "" → sforall f s = true → lang (Plus (Cls f)) p s t.
Proof.
  destruct s as [|c s]; [done|]. intros _ H. simpl in H. bool_prop.
  change (String c s) with (String c "" +:+ s).
  constructor; [by constructor|by apply lang_star_cls].
Qed.
Lemma lang_plus_cls_inv f s p t : lang (Plus (Cls f)) p s t → s ≠ "" ∧ sforall f s = true.
Proof.
  intros H. inversion H as [| |? ? ? s1 s2 ? H1 H2| | | | | | | | | ]; subst.
  apply lang_star_cls_inv in H2. inversion H1 as [|? c ? ? Hc| | | | | | | | | | ]; subst.
  simpl. by rewrite Hc.
Qed.
Lemma lang_lit c p t : lang (Lit c) p (String c "") t.
Proof. constructor. apply Ascii.eqb_refl. Qed.
Lemma lang_seqs_nil p t : lang (Seqs []) p "" t.
Proof. constructor. Qed.
Lemma lang_opt_none r p t : lang (Opt r) p "" t.
Proof. apply lang_alt_r. constructor. Qed.
Lemma lang_seq_eq a b p s s1 s2 t : s = s1 +:+ s2 →
  lang a p s1 (s2 +:+ t) → lang b (last_char p s1) s2 t → lang (Seq a b) p s t.
Proof. intros ->. apply lang_seq. Qed.
Lemma lang_cls_inv f s p t : lang (Cls f) p s t → ∃ c, s = String c "" ∧ f c = true.
Proof. inversion 1. eauto. Qed.
Lemma lang_lit_inv c s p t : lang (Lit c) p s t → s = String c "".
Proof. intros (d & -> & ->%Ascii.eqb_eq)%lang_cls_inv. done. Qed.
Lemma lang_seq_inv a b s p t : lang (Seq a b) p s t →
  ∃ s1 s2, s = s1 +:+ s2 ∧ lang a p s1 (s2 +:+ t) ∧ lang b (last_char p s1) s2 t.
Proof. inversion 1; subst. eauto. Qed.

(** A greedy run of a class takes its maximal run first. *)
Lemma star_cls_greedy {R} f (k : cont (R:=R)) s t g x : ∀ p n,
  sforall f s = true → (String.length s ≤ n)%nat →
  match head_char t with Some c => f c = false | None => True end →
  k (last_char p s) t g = Some x →
  star_loop (m (Cls f)) k n p (s +:+ t) g = Some x.
Proof.
  induction s as [|c s IH]; intros p n Hs Hn Ht Hk; cbn [String.append].
  - destruct n as [|n]; [exact Hk|]. simpl. destruct t as [|d t]; [exact Hk|].
    simpl in Ht. rewrite Ht. exact Hk.
  - cbn [sforall] in Hs. apply andb_true_iff in Hs as [Hc Hs]. simpl in Hn.
    destruct n as [|n]; [lia|].
    assert (star_loop (m (Cls f)) k n (Some c) (s +:+ t) g = Some x) as E by (apply IH; done || lia).
    cbn [star_loop m] in E |- *. rewrite Hc, (proj2 (Nat.ltb_lt _ _)) by (simpl; lia). by rewrite E.
Qed.
Lemma plus_cls_greedy {R} f (k : cont (R:=R)) s t g x p :
  s ≠ "" → sforall f s = true →
  match head_char t with Some c => f c = false | None => True end →
  k (last_char p s) t g = Some x →
  m (Plus (Cls f)) p (s +:+ t) g k = Some x.
Proof.
  destruct s as [|c s]; [done|]. intros _ Hs Ht Hk. cbn [sforall] in Hs.
  apply andb_true_iff in Hs as [Hc Hs]. simpl. rewrite Hc. rewrite (star_cls_greedy f k s t g x); [done|done| |done|done].
  rewrite slen_app. lia.
Qed.
Lemma lang_alt_inv a b s p t : lang (Alt a b) p s t → lang a p s t ∨ lang b p s t.
Proof. inversion 1; subst; auto. Qed.
Lemma lang_grp_inv n a s p t : lang (Grp n a) p s t → lang a p s t.
Proof. inversion 1; subst; auto. Qed.
Lemma lang_eps_inv s p t : lang Eps p s t → s = "".
Proof. inversion 1; subst; auto. Qed.
Lemma lang_bos_inv s p t : lang Bos p s t → s = "".
Proof. inversion 1; subst; auto. Qed.
Lemma lang_eos_inv s p t : lang Eos p s t → s = "" ∧ (t = "" ∨ t = nl).
Proof. inversion 1; subst; auto. Qed.

(** [search] finds a match exactly when the language of the pattern occurs. *)
Definition occurs_in (r : re) (s : string) : Prop :=
  ∃ a b c, s = a +:+ b +:+ c ∧ lang r (last_char None a) b c.

Lemma re_search_from_spec r s : ∀ off p,
  is_Some (re_search_from r off p s) ↔ ∃ a b c, s = a +:+ b +:+ c ∧ lang r (last_char p a) b c.
Proof.
  assert (∀ p s, is_Some (m r p s [] (λ _ t g, Some (String.length t, g))) ↔
                 ∃ b c, s = b +:+ c ∧ lang r p b c) as Hm.
  { intros p t. split.
    - intros [[l g] (u & v & g' & -> & Hu & _)%m_sound]. eauto.
    - intros (b & c & -> & H). apply not_eq_None_Some. by apply m_complete. }
  induction s as [|ch s IH]; intros off p; simpl.
  - specialize (Hm p ""). destruct (m _ _ _ _ _) as [[l g]|].
    + split; [|by eexists]. intros _. destruct (proj1 Hm) as (b & c & ? & ?); [by eexists|]. by exists "", b, c.
    + split; [by intros []|]. intros (a & b & c & E & H). destruct a; [|done]. destruct (proj2 Hm); [by exists b, c|done].
  - specialize (Hm p (String ch s)). destruct (m _ _ _ _ _) as [[l g]|].
    + split; [|by eexists]. intros _. destruct (proj1 Hm) as (b & c & ? & ?); [by eexists|]. by exists "", b, c.
    + rewrite IH. split.
      * intros (a & b & c & -> & H). by exists (String ch a), b, c.
      * intros (a & b & c & E & H). destruct a as [|ch' a]; simpl in E.
        { destruct (proj2 Hm); [by exists b, c|done]. }
        injection E as <- ->. by exists a, b, c.
Qed.
Lemma re_search_spec r s : is_Some (re_search r s) ↔ occurs_in r s.
Proof. apply re_search_from_spec. Qed.
