(* ===== verification/Net.v ===== *)
(** * Addresses and URLs

    The parts of the standard library's [ipaddress] and [urllib.parse] that the
    program relies on: parsing an address, its classification (the registries
    of CPython 3.12), and splitting a URL. *)
From S2P Require Export PyStr.

(** ** ipaddress *)
Inductive ip := V4 (a : Z) | V6 (a : Z).

Definition dec_val (s : string) : Z :=
  (fix go (s : string) (acc : Z) := match s with
     | EmptyString => acc | String c s' => go s' (acc * 10 + (code c - 48)) end) s 0.

Definition octet (s : string) : option Z :=
  if sempty s || negb (sforall is_digit s) || (3 <? String.length s)%nat
     || (negb (String.eqb s "0") && startswith "0" s) || (255 <? dec_val s)
  then None else Some (dec_val s).

Definition parse_v4 (s : string) : option Z :=
  match split_char "." s with
  | [a; b; c; d] =>
      a' ← octet a; b' ← octet b; c' ← octet c; d' ← octet d;
      Some (a' * 2 ^ 24 + b' * 2 ^ 16 + c' * 2 ^ 8 + d')
  | _ => None
  end.

Definition hex_digit_val (c : ascii) : option Z :=
  let z := code c in
  if is_digit c then Some (z - 48)
  else if (97 <=? z) && (z <=? 102) then Some (z - 87)
  else if (65 <=? z) && (z <=? 70) then Some (z - 55) else None.
Fixpoint hex_val_aux (s : string) (acc : Z) : option Z :=
  match s with
  | EmptyString => Some acc
  | String c s' => d ← hex_digit_val c; hex_val_aux s' (acc * 16 + d)
  end.
Definition hextet (s : string) : option Z :=
  if (4 <? String.length s)%nat then None else hex_val_aux s 0.

(** [_ip_int_from_string] on the parts between colons. *)
Definition sum16 (l : list Z) : Z := foldl (λ acc x, acc * 65536 + x) 0 l.

(** A dotted last part stands for two hextets. *)
Definition expand_v4 (parts : list string) : option (list (string + Z)) :=
  match last parts with
  | Some p =>
      if sexists (Ascii.eqb ".") p then
        v ← parse_v4 p;
        Some (map inl (removelast parts) ++ [inr (v / 65536); inr (v mod 65536)])
      else Some (map inl parts)
  | None => None
  end.
Definition part_empty (p : string + Z) : bool := match p with inl s => sempty s | inr _ => false end.
Definition part_val (p : string + Z) : option Z :=
  match p with inl s => if sempty s then None else hextet s | inr v => Some v end.
Definition parts_val (l : list (string + Z)) : option (list Z) := mapM part_val l.
Definition opt_empty (p : option (string + Z)) : bool :=
  match p with Some x => part_empty x | None => true end.

Definition parse_v6_int (s : string) : option Z :=
  let raw := split_char ":" s in
  if (length raw <? 3)%nat then None
  else
    parts ← expand_v4 raw;
    let n := length parts in
    if (9 <? n)%nat then None
    else
      let empties := List.filter (λ i, match parts !! i with Some p => part_empty p | None => false end)
                       (seq 1 (n - 2)) in
      let first_empty := opt_empty (head parts) in
      let last_empty := opt_empty (last parts) in
      match empties with
      | [] =>
          if negb (n =? 8)%nat || first_empty || last_empty then None
          else vs ← parts_val parts; Some (sum16 vs)
      | [i] =>
          let hi := take i parts in
          let lo := drop (S i) parts in
          if (first_empty && (1 <? length hi)%nat) || (last_empty && (1 <? length lo)%nat) then None
          else
            let hi' := if first_empty then [] else hi in
            let lo' := if last_empty then [] else lo in
            if (8 <=? length hi' + length lo')%nat then None
            else
              vh ← parts_val hi'; vl ← parts_val lo';
              Some (sum16 (vh ++ replicate (8 - length hi' - length lo') 0 ++ vl))
      | _ => None
      end.

Definition parse_v6 (s : string) : option Z :=
  if sexists (Ascii.eqb "/") s then None
  else match split_once "%" s with
       | Some (addr, scope) =>
           if sempty scope || sexists (Ascii.eqb "%") scope then None else parse_v6_int addr
       | None => parse_v6_int s
       end.

(** [ipaddress.ip_address]; [None] is [ValueError]. *)
Definition ip_address (s : string) : option ip :=
  match (if sexists (Ascii.eqb "/") s then None else parse_v4 s) with
  | Some a => Some (V4 a)
  | None => V6 <$> parse_v6 s
  end.

(** [a] is in the network [base/len] of [bits]-bit addresses. *)
Definition in_net (bits : Z) (a : Z) (net : Z * Z) : bool :=
  Z.shiftr a (bits - net.2) =? Z.shiftr net.1 (bits - net.2).
Definition v4 (a b c d : Z) : Z := ((a * 256 + b) * 256 + c) * 256 + d.
Definition v6 (l : list Z) : Z := sum16 (l ++ replicate (8 - length l) 0).

Definition v4_private_nets : list (Z * Z) :=
  [(v4 0 0 0 0, 8); (v4 10 0 0 0, 8); (v4 127 0 0 0, 8); (v4 169 254 0 0, 16); (v4 172 16 0 0, 12);
   (v4 192 0 0 0, 24); (v4 192 0 0 170, 31); (v4 192 0 2 0, 24); (v4 192 168 0 0, 16);
   (v4 198 18 0 0, 15); (v4 198 51 100 0, 24); (v4 203 0 113 0, 24); (v4 240 0 0 0, 4);
   (v4 255 255 255 255, 32)].
Definition v4_private_exceptions : list (Z * Z) := [(v4 192 0 0 9, 32); (v4 192 0 0 10, 32)].
Definition v6_private_nets : list (Z * Z) :=
  [(1, 128); (0, 128); (v6 [0; 0; 0; 0; 0; 65535], 96); (v6 [100; 65435; 1], 48); (v6 [256], 64);
   (v6 [8193], 23); (v6 [8193; 3512], 32); (v6 [8194], 16); (v6 [16383], 20); (v6 [64512], 7);
   (v6 [65152], 10)].
Definition v6_private_exceptions : list (Z * Z) :=
  [(v6 [8193; 1; 0; 0; 0; 0; 0; 1], 128); (v6 [8193; 1; 0; 0; 0; 0; 0; 2], 128);
   (v6 [8193; 3], 32); (v6 [8193; 4; 274], 48); (v6 [8193; 32], 28); (v6 [8193; 48], 28)].
Definition v6_reserved_nets : list (Z * Z) :=
  [(0, 8); (v6 [256], 8); (v6 [512], 7); (v6 [1024], 6); (v6 [2048], 5); (v6 [4096], 4);
   (v6 [16384], 3); (v6 [24576], 3); (v6 [32768], 3); (v6 [40960], 3); (v6 [49152], 3);
   (v6 [57344], 4); (v6 [61440], 5); (v6 [63488], 6); (v6 [65024], 9)].

Definition v4_is_private (a : Z) : bool :=
  existsb (in_net 32 a) v4_private_nets && forallb (λ n, negb (in_net 32 a n)) v4_private_exceptions.
Definition v4_is_global (a : Z) : bool := negb (in_net 32 a (v4 100 64 0 0, 10)) && negb (v4_is_private a).
(** [IPv6Address.ipv4_mapped] *)
Definition ipv4_mapped (a : Z) : option Z :=
  if Z.shiftr a 32 =? 65535 then Some (Z.land a 4294967295) else None.
Definition v6_is_private (a : Z) : bool :=
  match ipv4_mapped a with
  | Some b => v4_is_private b
  | None => existsb (in_net 128 a) v6_private_nets && forallb (λ n, negb (in_net 128 a n)) v6_private_exceptions
  end.
Definition v6_is_global (a : Z) : bool :=
  match ipv4_mapped a with Some b => v4_is_global b | None => negb (v6_is_private a) end.

Definition is_loopback (x : ip) : bool :=
  match x with V4 a => in_net 32 a (v4 127 0 0 0, 8) | V6 a => a =? 1 end.
Definition is_private (x : ip) : bool := match x with V4 a => v4_is_private a | V6 a => v6_is_private a end.
Definition is_link_local (x : ip) : bool :=
  match x with V4 a => in_net 32 a (v4 169 254 0 0, 16) | V6 a => in_net 128 a (v6 [65152], 10) end.
Definition is_multicast (x : ip) : bool :=
  match x with V4 a => in_net 32 a (v4 224 0 0 0, 4) | V6 a => in_net 128 a (v6 [65280], 8) end.
Definition is_unspecified (x : ip) : bool := match x with V4 a | V6 a => a =? 0 end.
Definition is_reserved (x : ip) : bool :=
  match x with
  | V4 a => in_net 32 a (v4 240 0 0 0, 4)
  | V6 a => existsb (in_net 128 a) v6_reserved_nets
  end.
Definition is_global (x : ip) : bool := match x with V4 a => v4_is_global a | V6 a => v6_is_global a end.

(** ** urlsplit *)
Record split_url := mkUrl {
  scheme : string; netloc : string; path : string; query : string; fragment : string }.

Definition c0_or_space (c : ascii) : bool := code c <=? 32.
Fixpoint lstrip_by (f : ascii → bool) (s : string) : string :=
  match s with String c s' => if f c then lstrip_by f s' else s | EmptyString => s end.
Definition unsafe_char (c : ascii) : bool := (code c =? 9) || (code c =? 10) || (code c =? 13).
Definition is_alpha (c : ascii) : bool := is_lower_az c || is_upper_az c.
Definition scheme_char (c : ascii) : bool :=
  is_alpha c || is_digit c || Ascii.eqb c "+" || Ascii.eqb c "-" || Ascii.eqb c ".".

Definition split_scheme (url : string) : string * string :=
  match split_once ":" url with
  | Some (String c s, rest) =>
      if is_alpha c && sforall scheme_char (String c s) then (lower (String c s), rest) else ("", url)
  | _ => ("", url)
  end.
(** The text before the first of [/?#] and the rest. *)
Fixpoint split_netloc (s : string) : string * string :=
  match s with
  | EmptyString => ("", "")
  | String c s' =>
      if Ascii.eqb c "/" || Ascii.eqb c "?" || Ascii.eqb c "#" then ("", s)
      else let '(a, b) := split_netloc s' in (String c a, b)
  end.

(** [s.rpartition(c)[2]] *)
Fixpoint after_last (c : ascii) (s : string) : string :=
  match s with
  | EmptyString => ""
  | String d s' => if sexists (Ascii.eqb c) s' then after_last c s'
                   else if Ascii.eqb d c then s' else s
  end.
(** [s.rpartition(c)[0]] when [c] occurs. *)
Definition before_last (c : ascii) (s : string) : option string :=
  if sexists (Ascii.eqb c) s
  then Some (stake (String.length s - String.length (after_last c s) - 1) s) else None.
(** [s.partition(sep)]: before, whether found, after. *)
Definition partition (sep : string) (s : string) : string * bool * string :=
  match split_once sep s with Some (a, b) => (a, true, b) | None => (s, false, "") end.

(** A bracketed host: an IPv6 address, or [v<hex>.<anything>]. *)
Definition bracket_host_ok (h : string) : bool :=
  if startswith "v" h then
    match split_once "." (sdrop 1 h) with
    | Some (v, r) => truthy v && truthy r
                     && sforall (λ c, match hex_digit_val c with Some _ => true | None => false end) v
                     && negb (sexists (λ c, Ascii.eqb c newline) r)
    | None => false
    end
  else match ip_address h with Some (V6 _) => true | _ => false end.

Definition bracketed_ok (nl : string) : bool :=
  let hp := after_last "@" nl in
  match partition "[" hp with
  | (before, true, bracketed) =>
      let '(h, _, port) := partition "]" bracketed in
      sempty before && (sempty port || startswith ":" port) && bracket_host_ok h
  | (_, false, _) => bracket_host_ok (partition ":" hp).1.1
  end.

(** [None] is [ValueError]. *)
Definition urlsplit (url : string) : option split_url :=
  let url := sfilter (λ c, negb (unsafe_char c)) (lstrip_by c0_or_space url) in
  let '(sch, rest) := split_scheme url in
  let '(nl, rest) := if startswith "//" rest then split_netloc (sdrop 2 rest) else ("", rest) in
  let ob := sexists (Ascii.eqb "[") nl in
  let cb := sexists (Ascii.eqb "]") nl in
  if xorb ob cb then None
  else if ob && cb && negb (bracketed_ok nl) then None
  else
    let '(rest, frag) := match split_once "#" rest with Some (a, b) => (a, b) | None => (rest, "") end in
    let '(pth, qry) := match split_once "?" rest with Some (a, b) => (a, b) | None => (rest, "") end in
    Some (mkUrl sch nl pth qry frag).

(** [_hostinfo] *)
Definition hostinfo (nl : string) : string * option string :=
  let hp := after_last "@" nl in
  match partition "[" hp with
  | (_, true, bracketed) =>
      let '(h, _, port) := partition "]" bracketed in
      let p := (partition ":" port).2 in (h, if truthy p then Some p else None)
  | (_, false, _) =>
      let '(h, _, p) := partition ":" hp in (h, if truthy p then Some p else None)
  end.
(** [.hostname]: lower-cased before a zone; [None] when empty. *)
Definition hostname (u : split_url) : option string :=
  let h := (hostinfo (netloc u)).1 in
  if sempty h then None
  else match split_once "%" h with
       | Some (a, z) => Some (lower a +:+ "%" +:+ z)
       | None => Some (lower h)
       end.
(** [.port]; raises on a malformed or out-of-range port. *)
Definition port (u : split_url) : res (option Z) :=
  match (hostinfo (netloc u)).2 with
  | None => Ok None
  | Some p =>
      if sforall is_digit p then
        if dec_val p <=? 65535 then Ok (Some (dec_val p))
        else Raise (ValueError "Port out of range 0-65535")
      else Raise (ValueError "Port could not be cast to integer value")
  end.
(** [.username] and [.password] *)
Definition userinfo (u : split_url) : option string * option string :=
  match before_last "@" (netloc u) with
  | None => (None, None)
  | Some ui => match split_once ":" ui with Some (a, b) => (Some a, Some b) | None => (Some ui, None) end
  end.

(** [urlparse(url).path] of an HTTP URL: the parameters after the first [;] of
    the last segment are cut off. *)
Definition urlparse_path (p : string) : string :=
  match before_last "/" p with
  | Some dir => dir +:+ "/" +:+ (partition ";" (after_last "/" p)).1.1
  | None => (partition ";" p).1.1
  end.

Example ip_1 : ip_address "127.0.0.1" = Some (V4 2130706433) ∧ ip_address "::1" = Some (V6 1)
  ∧ ip_address "01.2.3.4" = None ∧ ip_address "fe80::1%eth0" = Some (V6 338288524927261089654018896841347694593)
  ∧ ip_address "::ffff:10.0.0.1" = Some (V6 281470849515521) ∧ ip_address "1::2::3" = None
  ∧ ip_address "8.8.8.8" = Some (V4 134744072).
Proof. by vm_compute. Qed.
Example url_1 :
  (λ u, (scheme u, hostname u, port u, path u, query u)) <$> urlsplit " HTTPS://u:p@Ex.com:8443/a/b?x=1#f"
  = Some ("https", Some "ex.com", Ok (Some 8443), "/a/b", "x=1").
Proof. by vm_compute. Qed.
