(* ===== verification/PyVal.v ===== *)
(** * Python values

    The dynamically typed values that cross the program's interfaces: decoded
    JSON, tool arguments, plugin results, attributes of plain objects.  A
    [dict] has string keys and keeps the insertion order.  [str] and [repr]
    are given for every value, floats by the shortest decimal that rounds to
    them. *)
From Corelib Require Import SpecFloat.
From S2P Require Export PyStr.

Inductive pyval :=
  | VNone
  | VBool (b : bool)
  | VInt (z : Z)
  | VFloat (f : spec_float)
  | VStr (s : string)
  | VList (l : list pyval)
  | VDict (d : list (string * pyval))
  | VObj (cls : string) (attrs : list (string * pyval)).

Definition pydict := list (string * pyval).

(** [d.get(k)] *)
Fixpoint dget {A} (k : string) (d : list (string * A)) : option A :=
  match d with
  | [] => None
  | (k', v) :: d' => if String.eqb k' k then Some v else dget k d'
  end.
(** [d[k] = v]: an existing key keeps its place. *)
Fixpoint dset {A} (k : string) (v : A) (d : list (string * A)) : list (string * A) :=
  match d with
  | [] => [(k, v)]
  | (k', v') :: d' => if String.eqb k' k then (k', v) :: d' else (k', v') :: dset k v d'
  end.
(** [d.pop(k, None)] *)
Fixpoint ddel {A} (k : string) (d : list (string * A)) : list (string * A) :=
  match d with
  | [] => []
  | (k', v') :: d' => if String.eqb k' k then d' else (k', v') :: ddel k d'
  end.
Definition dhas {A} (k : string) (d : list (string * A)) : bool :=
  match dget k d with Some _ => true | None => false end.
Definition dkeys {A} (d : list (string * A)) : list string := d.*1.

(** Python truth of a value. *)
Definition py_truthy (v : pyval) : bool :=
  match v with
  | VNone => false
  | VBool b => b
  | VInt z => negb (z =? 0)
  | VFloat (S754_zero _) => false
  | VFloat _ => true
  | VStr s => truthy s
  | VList l => match l with [] => false | _ => true end
  | VDict d => match d with [] => false | _ => true end
  | VObj _ _ => true
  end.

(** ** [repr] of a float

    [v = m * 2^e] with [m > 0].  A decimal [d * 10^k] reads back as [v] when it
    lies between the midpoints to the neighbouring doubles, the midpoints
    included when [m] is even; the gap below is halved at a power of two. *)
Definition pow10 (k : Z) : Z := 10 ^ k.

(** Compare [a * 10^k] with [b * 2^e], all exact. *)
Definition cmp_dec_bin (a k b e : Z) : comparison :=
  let l := a * (if k <? 0 then 1 else pow10 k) * (if e <? 0 then 2 ^ (- e) else 1) in
  let r := b * (if e <? 0 then 1 else 2 ^ e) * (if k <? 0 then pow10 (- k) else 1) in
  l ?= r.

Definition reads_back (m e d k : Z) : bool :=
  let even := Z.even m in
  let hi := cmp_dec_bin d k (2 * m + 1) (e - 1) in
  let pow2 := (m =? 2 ^ 52) && (-1074 <? e) in
  let lo := if pow2 then cmp_dec_bin d k (4 * m - 1) (e - 2)
            else cmp_dec_bin d k (2 * m - 1) (e - 1) in
  match hi with Lt => true | Eq => even | Gt => false end &&
  match lo with Gt => true | Eq => even | Lt => false end.

(** The integer nearest to [m * 2^e / 10^k], ties to even. *)
Definition round_at (m e k : Z) : Z :=
  let num := m * (if e <? 0 then 1 else 2 ^ e) * (if k <? 0 then pow10 (- k) else 1) in
  let den := (if e <? 0 then 2 ^ (- e) else 1) * (if k <? 0 then 1 else pow10 k) in
  let q := num / den in
  match 2 * (num - q * den) ?= den with
  | Lt => q
  | Gt => q + 1
  | Eq => if Z.even q then q else q + 1
  end.

(** The position of the first significant decimal: [10^(r-1) <= v < 10^r],
    found by walking from an estimate. *)
Fixpoint dec_point (fuel : nat) (m e r : Z) : Z :=
  match fuel with
  | O => r
  | S f =>
      match cmp_dec_bin 1 r m e with
      | Lt | Eq => dec_point f m e (r + 1)
      | Gt => match cmp_dec_bin 1 (r - 1) m e with
              | Gt => dec_point f m e (r - 1)
              | _ => r
              end
      end
  end.

(** The shortest digits: try 1, 2, ... 17 significant digits. *)
Fixpoint shortest (fuel : nat) (n m e r : Z) : Z * Z :=
  let k := r - n in
  let d := round_at m e k in
  match fuel with
  | O => (d, k)
  | S f => if reads_back m e d k then (d, k) else shortest f (n + 1) m e r
  end.

Definition zeros (n : Z) : string := String.concat "" (repeat "0"%string (Z.to_nat n)).

Definition repr_pos_float (m e : Z) : string :=
  let r0 := dec_point 12 m e ((Z.log2 m + e) * 3 / 10) in
  let '(d, k) := shortest 16 1 m e r0 in
  let ds := str_of_Z d in
  let n := Z.of_nat (String.length ds) in
  let p := n + k in                       (* v = 0.ds * 10^p *)
  if (-4 <? p) && (p <=? 16) then
    if p <=? 0 then "0." +:+ zeros (- p) +:+ ds
    else if n <=? p then ds +:+ zeros (p - n) +:+ ".0"
    else stake (Z.to_nat p) ds +:+ "." +:+ sdrop (Z.to_nat p) ds
  else
    let x := p - 1 in
    let ex := (if x <? 0 then "-" else "+") +:+
              (if Z.abs x <? 10 then "0" else "") +:+ str_of_Z (Z.abs x) in
    stake 1 ds +:+ (if n =? 1 then "" else "." +:+ sdrop 1 ds) +:+ "e" +:+ ex.

Definition float_repr (f : spec_float) : string :=
  match f with
  | S754_zero s => if s then "-0.0" else "0.0"
  | S754_infinity s => if s then "-inf" else "inf"
  | S754_nan => "nan"
  | S754_finite s m e => (if s then "-" else "") +:+ repr_pos_float (Zpos m) e
  end.

(** ** [repr] of a string *)
Definition hex_digit (n : Z) : ascii := chr (if n <? 10 then 48 + n else 87 + n).
(** [digest.hex()] *)
Definition hexdigest (digest : string) : string :=
  sflat_map (λ c, String (hex_digit (code c / 16)) (String (hex_digit (code c mod 16)) "")) digest.
Definition printable (c : ascii) : bool :=
  let z := code c in ((32 <=? z) && (z <=? 126)) || ((161 <=? z) && negb (z =? 173)).
Definition repr_char (q c : ascii) : string :=
  let z := code c in
  if Ascii.eqb c q || (z =? 92) then String "\" (String c "")
  else if z =? 9 then "\t" else if z =? 10 then "\n" else if z =? 13 then "\r"
  else if printable c then String c ""
  else "\x" +:+ String (hex_digit (z / 16)) (String (hex_digit (z mod 16)) "").
Definition dquote : ascii := chr 34.
Definition squote : ascii := chr 39.
Definition repr_str (s : string) : string :=
  let q := if sexists (Ascii.eqb squote) s && negb (sexists (Ascii.eqb dquote) s)
           then dquote else squote in
  String q (sflat_map (repr_char q) s +:+ String q "").

Fixpoint py_repr (v : pyval) : string :=
  match v with
  | VNone => "None"
  | VBool b => if b then "True" else "False"
  | VInt z => str_of_Z z
  | VFloat f => float_repr f
  | VStr s => repr_str s
  | VList l => "[" +:+ sjoin ", " (map py_repr l) +:+ "]"
  | VDict d => "{" +:+ sjoin ", " (map (λ '(k, x), repr_str k +:+ ": " +:+ py_repr x) d) +:+ "}"
  | VObj cls d => cls +:+ "(" +:+ sjoin ", " (map (λ '(k, x), k +:+ "=" +:+ py_repr x) d) +:+ ")"
  end.

(** [str(v)] *)
Definition py_str (v : pyval) : string := match v with VStr s => s | _ => py_repr v end.

Example repr_tenth : float_repr (S754_finite false 3602879701896397 (-55)) = "0.1".
Proof. reflexivity. Qed.
Example repr_big : float_repr (S754_finite false 4503599627370496 60) = "5.192296858534828e+33".
Proof. reflexivity. Qed.
Example repr_300 : float_repr (S754_finite false 5277655813324800 (-44)) = "300.0".
Proof. reflexivity. Qed.
Example repr_list :
  py_str (VList [VNone; VInt (-12); VStr "it's"; VDict [("k", VBool true)]])
  = "[None, -12, " +:+ String dquote ("it's" +:+ String dquote ", {'k': True}]").
Proof. reflexivity. Qed.

(** ** Lemmas on dictionaries *)
Section dict.
Context {A : Type}.
Implicit Types (d : list (string * A)) (k : string) (v : A).

Lemma dget_dset k v d : dget k (dset k v d) = Some v.
Proof.
  induction d as [|[k' v'] d IH]; simpl; [by rewrite String.eqb_refl|].
  destruct (String.eqb k' k) eqn:E; simpl; by rewrite E.
Qed.
Lemma dget_dset_ne k k' v d : k ≠ k' → dget k' (dset k v d) = dget k' d.
Proof.
  intros Hne. induction d as [|[k'' v'] d IH]; simpl.
  - by apply String.eqb_neq in Hne as ->.
  - destruct (String.eqb_spec k'' k) as [->|]; simpl.
    + by apply String.eqb_neq in Hne as ->.
    + by rewrite IH.
Qed.
Lemma dset_elem k v d x : x ∈ dset k v d → x = (k, v) ∨ x ∈ d.
Proof.
  induction d as [|[k' v'] d IH]; simpl; [intros [->|H]%elem_of_cons; [by left|by right]|].
  destruct (String.eqb_spec k' k) as [->|]; intros [->|H]%elem_of_cons; [by left|right; by right|right; by left|].
  destruct (IH H) as [->|?]; [by left|right; by right].
Qed.
Lemma dget_Some_elem k v d : dget k d = Some v → (k, v) ∈ d.
Proof.
  induction d as [|[k' v'] d IH]; simpl; [done|].
  destruct (String.eqb_spec k' k) as [->|]; [intros [= ->]; left|right; auto].
Qed.
Lemma dget_None_iff k d : dget k d = None ↔ k ∉ dkeys d.
Proof.
  unfold dkeys. induction d as [|[k' v'] d IH]; simpl; [set_solver|].
  destruct (String.eqb_spec k' k) as [->|Hne]; [set_solver|].
  rewrite IH, not_elem_of_cons. naive_solver.
Qed.
Lemma dkeys_dset_in k v d : k ∈ dkeys d → dkeys (dset k v d) = dkeys d.
Proof.
  unfold dkeys. induction d as [|[k' v'] d IH]; simpl; [set_solver|].
  destruct (String.eqb_spec k' k) as [->|Hne]; simpl; [done|].
  intros [->|H]%elem_of_cons; [done|]. f_equal. by apply IH.
Qed.
Lemma dkeys_dset_notin k v d : k ∉ dkeys d → dkeys (dset k v d) = dkeys d ++ [k].
Proof.
  unfold dkeys. induction d as [|[k' v'] d IH]; simpl; [done|].
  intros [Hne H]%not_elem_of_cons. destruct (String.eqb_spec k' k); [done|].
  simpl. f_equal. by apply IH.
Qed.
Lemma dset_append k v d : k ∉ dkeys d → dset k v d = d ++ [(k, v)].
Proof.
  unfold dkeys. induction d as [|[k' v'] d IH]; simpl; [done|].
  intros [Hne H]%not_elem_of_cons. destruct (String.eqb_spec k' k); [done|]. f_equal. by apply IH.
Qed.
Lemma dset_NoDup k v d : NoDup (dkeys d) → NoDup (dkeys (dset k v d)).
Proof.
  intros Hd. destruct (decide (k ∈ dkeys d)) as [H|H].
  - by rewrite dkeys_dset_in.
  - rewrite dkeys_dset_notin by done. apply NoDup_app. set_solver by auto using NoDup_singleton.
Qed.
Lemma dkeys_ddel_sub k k' d : k' ∈ dkeys (ddel k d) → k' ∈ dkeys d.
Proof.
  unfold dkeys. induction d as [|[k'' v] d IH]; simpl; [done|].
  destruct (String.eqb k'' k); simpl; [by right|]. intros [->|H]%elem_of_cons; [by left|right; auto].
Qed.
Lemma ddel_NoDup k d : NoDup (dkeys d) → NoDup (dkeys (ddel k d)).
Proof.
  unfold dkeys. induction d as [|[k' v] d IH]; simpl; [done|]. intros [Hn H]%NoDup_cons.
  destruct (String.eqb k' k); simpl; [done|]. apply NoDup_cons. split; [|auto].
  intros Hin. apply Hn. by apply (dkeys_ddel_sub k k' d).
Qed.
Lemma dget_ddel k d : NoDup (dkeys d) → dget k (ddel k d) = None.
Proof.
  unfold dkeys. induction d as [|[k' v] d IH]; simpl; [done|]. intros [Hn H]%NoDup_cons.
  destruct (String.eqb_spec k' k) as [->|Hne]; simpl; [by apply dget_None_iff|].
  apply String.eqb_neq in Hne as ->. auto.
Qed.
Lemma dget_ddel_ne k k' d : k ≠ k' → dget k' (ddel k d) = dget k' d.
Proof.
  intros Hne. induction d as [|[k'' v] d IH]; simpl; [done|].
  destruct (String.eqb_spec k'' k) as [->|]; simpl.
  - by apply String.eqb_neq in Hne as ->.
  - by rewrite IH.
Qed.
Lemma dhas_iff k d : dhas k d = true ↔ k ∈ dkeys d.
Proof.
  unfold dhas. destruct (dget k d) as [v|] eqn:E.
  - split; [intros _|done]. apply dget_Some_elem in E. unfold dkeys. apply list_elem_of_fmap. by exists (k, v).
  - split; [done|]. apply dget_None_iff in E. done.
Qed.
End dict.
#[export] Hint Rewrite @dget_dset : agentos.
