(* ===== verification/Json.v ===== *)
(** * The json module

    [json.dumps] with its defaults ([ensure_ascii], separators [", "] and
    [": "]) and [json.loads] (strict), on the values of [PyVal].  [loads]
    returns [None] where Python raises [JSONDecodeError]; a [\u] escape above
    [\u00ff] is outside the modelled range of characters and gives [None] too.
    On values without floats and with distinct keys, [loads] inverts
    [dumps]. *)
From Corelib Require Import SpecFloat.
From S2P Require Export PyVal.

(** ** Printing *)
Definition hex4 (z : Z) : string :=
  String (hex_digit (z / 4096 mod 16)) (String (hex_digit (z / 256 mod 16))
    (String (hex_digit (z / 16 mod 16)) (String (hex_digit (z mod 16)) ""))).

Definition json_char (c : ascii) : string :=
  let z := code c in
  if z =? 34 then String "\" (String c "")
  else if z =? 92 then "\\"
  else if z =? 8 then "\b" else if z =? 9 then "\t" else if z =? 10 then "\n"
  else if z =? 12 then "\f" else if z =? 13 then "\r"
  else if (32 <=? z) && (z <=? 126) then String c ""
  else "\u" +:+ hex4 z.
Definition json_string (s : string) : string :=
  String dquote (sflat_map json_char s +:+ String dquote "").

Definition json_float (f : spec_float) : string :=
  match f with
  | S754_nan => "NaN"
  | S754_infinity s => if s then "-Infinity" else "Infinity"
  | _ => float_repr f
  end.

(** The result of a list of calls, the first exception wins. *)
Fixpoint res_all {A} (l : list (res A)) : res (list A) :=
  match l with
  | [] => Ok []
  | x :: l' => a ← x; r ← res_all l'; Ok (a :: r)
  end.

Fixpoint dumps (v : pyval) : res string :=
  match v with
  | VNone => Ok "null"
  | VBool b => Ok (if b then "true" else "false")
  | VInt z => Ok (str_of_Z z)
  | VFloat f => Ok (json_float f)
  | VStr s => Ok (json_string s)
  | VList l => xs ← res_all (map dumps l); Ok ("[" +:+ sjoin ", " xs +:+ "]")
  | VDict d =>
      xs ← res_all (map (λ '(k, x), t ← dumps x; Ok (json_string k +:+ ": " +:+ t)) d);
      Ok ("{" +:+ sjoin ", " xs +:+ "}")
  | VObj cls _ => Raise (TypeError ("Object of type " +:+ cls +:+ " is not JSON serializable"))
  end.

(** ** Parsing *)
Definition is_ws (c : ascii) : bool :=
  let z := code c in (z =? 32) || (z =? 9) || (z =? 10) || (z =? 13).
Fixpoint skip_ws (s : string) : string :=
  match s with String c s' => if is_ws c then skip_ws s' else s | EmptyString => s end.

Definition hex_val (c : ascii) : option Z :=
  let z := code c in
  if is_digit c then Some (z - 48)
  else if (97 <=? z) && (z <=? 102) then Some (z - 87)
  else if (65 <=? z) && (z <=? 70) then Some (z - 55)
  else None.

Definition unescape (c : ascii) : option ascii :=
  let z := code c in
  if z =? 34 then Some c else if z =? 92 then Some c else if z =? 47 then Some c
  else if z =? 98 then Some (chr 8) else if z =? 102 then Some (chr 12)
  else if z =? 110 then Some (chr 10) else if z =? 114 then Some (chr 13)
  else if z =? 116 then Some (chr 9) else None.

Definition cons_fst (c : ascii) (o : option (string * string)) : option (string * string) :=
  match o with Some (t, r) => Some (String c t, r) | None => None end.

(** The rest of a string literal, after its opening quote. *)
Fixpoint pstring (s : string) : option (string * string) :=
  match s with
  | EmptyString => None
  | String c s' =>
      if Ascii.eqb c dquote then Some ("", s')
      else if code c =? 92 then
        match s' with
        | EmptyString => None
        | String e s'' =>
            if code e =? 117 then
              match s'' with
              | String a (String b (String d (String f s4))) =>
                  match hex_val a, hex_val b, hex_val d, hex_val f with
                  | Some a', Some b', Some d', Some f' =>
                      let z := a' * 4096 + b' * 256 + d' * 16 + f' in
                      if z <=? 255 then cons_fst (chr z) (pstring s4) else None
                  | _, _, _, _ => None
                  end
              | _ => None
              end
            else match unescape e with
                 | Some u => cons_fst u (pstring s'')
                 | None => None
                 end
        end
      else if code c <? 32 then None
      else cons_fst c (pstring s')
  end.

(** Leading digits: their number, their value, and the rest. *)
Fixpoint pdigits (s : string) (n : nat) (acc : Z) : nat * Z * string :=
  match s with
  | String c s' => if is_digit c then pdigits s' (S n) (acc * 10 + (code c - 48)) else (n, acc, s)
  | EmptyString => (n, acc, s)
  end.

(** The double nearest to [d * 10^k]. *)
Definition dec_to_float (neg : bool) (d k : Z) : spec_float :=
  match d with
  | Zpos p =>
      if 0 <=? k then binary_normalize 53 1024 (if neg then - (d * 10 ^ k) else d * 10 ^ k) 0 neg
      else let '(q, e, l) := SFdiv_core_binary 53 1024 d 0 (10 ^ (- k)) 0 in
           binary_round_aux 53 1024 neg q e l
  | _ => S754_zero neg
  end.

(** [(0|[1-9]\d* )(\.\d+)?([eE][-+]?\d+)?], after the sign. *)
Definition punsigned (neg : bool) (s1 : string) : option (pyval * string) :=
  let '(n, i, s2) :=
    match s1 with
    | String c s' => if code c =? 48 then (1%nat, 0, s') else pdigits s1 0 0
    | EmptyString => (0%nat, 0, s1)
    end in
  if (n =? 0)%nat then None
  else
    let '(nf, f, s3) :=
      match s2 with
      | String c s' =>
          if code c =? 46 then
            let '(nf, f, r) := pdigits s' 0 i in if (nf =? 0)%nat then (0%nat, i, s2) else (nf, f, r)
          else (0%nat, i, s2)
      | EmptyString => (0%nat, i, s2)
      end in
    let '(ne, x, s4) :=
      match s3 with
      | String c s' =>
          if (code c =? 101) || (code c =? 69) then
            let '(sg, s'') := match s' with
                              | String d t => if code d =? 45 then (-1, t)
                                              else if code d =? 43 then (1, t) else (1, s')
                              | EmptyString => (1, s')
                              end in
            let '(ne, x, r) := pdigits s'' 0 0 in
            if (ne =? 0)%nat then (0%nat, 0, s3) else (ne, sg * x, r)
          else (0%nat, 0, s3)
      | EmptyString => (0%nat, 0, s3)
      end in
    if (nf =? 0)%nat && (ne =? 0)%nat then Some (VInt (if neg then - i else i), s4)
    else Some (VFloat (dec_to_float neg f (x - Z.of_nat nf)), s4).

(** [(-?(?:0|[1-9]\d* ))(\.\d+)?([eE][-+]?\d+)?] *)
Definition pnumber (s : string) : option (pyval * string) :=
  match s with
  | String c s' => if code c =? 45 then punsigned true s' else punsigned false s
  | EmptyString => None
  end.

Definition constants : list (string * pyval) :=
  [("null", VNone); ("true", VBool true); ("false", VBool false); ("NaN", VFloat S754_nan);
   ("Infinity", VFloat (S754_infinity false)); ("-Infinity", VFloat (S754_infinity true))].
Fixpoint pconst (l : list (string * pyval)) (s : string) : option (pyval * string) :=
  match l with
  | [] => None
  | (w, v) :: l' => if startswith w s then Some (v, sdrop (String.length w) s) else pconst l' s
  end.

Definition expect (c : ascii) (s : string) : option string :=
  match s with String d s' => if Ascii.eqb d c then Some s' else None | EmptyString => None end.

Fixpoint pvalue (n : nat) (s : string) : option (pyval * string) :=
  match n with
  | O => None
  | S n' =>
      match s with
      | EmptyString => None
      | String c s' =>
          if code c =? 34 then '(t, r) ← pstring s'; Some (VStr t, r)
          else if code c =? 91 then
            match expect "]" (skip_ws s') with
            | Some r => Some (VList [], r)
            | None => '(l, r) ← pelems n' (skip_ws s'); Some (VList l, r)
            end
          else if code c =? 123 then
            match expect "}" (skip_ws s') with
            | Some r => Some (VDict [], r)
            | None => '(d, r) ← pmembers n' (skip_ws s') []; Some (VDict d, r)
            end
          else match pconst constants s with Some x => Some x | None => pnumber s end
      end
  end
with pelems (n : nat) (s : string) : option (list pyval * string) :=
  match n with
  | O => None
  | S n' =>
      '(v, r) ← pvalue n' s;
      match expect "]" (skip_ws r) with
      | Some r' => Some ([v], r')
      | None =>
          r' ← expect "," (skip_ws r);
          '(l, r'') ← pelems n' (skip_ws r'); Some (v :: l, r'')
      end
  end
with pmembers (n : nat) (s : string) (acc : pydict) : option (pydict * string) :=
  match n with
  | O => None
  | S n' =>
      r0 ← expect dquote s;
      '(k, r1) ← pstring r0;
      r2 ← expect ":" (skip_ws r1);
      '(v, r) ← pvalue n' (skip_ws r2);
      let acc' := dset k v acc in
      match expect "}" (skip_ws r) with
      | Some r' => Some (acc', r')
      | None => r' ← expect "," (skip_ws r); pmembers n' (skip_ws r') acc'
      end
  end.

(** Each level of the parser consumes a character, so twice the length is
    enough fuel. *)
Definition loads (s : string) : option pyval :=
  '(v, r) ← pvalue (2 * String.length s + 2) (skip_ws s);
  if sempty (skip_ws r) then Some v else None.

Definition q (s : string) : string := String dquote (s +:+ String dquote "").
Example loads_1 :
  loads (" {" +:+ q "a" +:+ " : [1, -2.5e1, true], " +:+ q "b" +:+ ":" +:+ q "x\u0041\n" +:+ ", "
         +:+ q "a" +:+ ": null } ")
  = Some (VDict [("a", VNone); ("b", VStr ("xA" +:+ nl))]).
Proof. vm_compute. reflexivity. Qed.
Example loads_2 :
  loads "[0.1, 1e3]"
  = Some (VList [VFloat (S754_finite false 7205759403792794 (-56)); VFloat (S754_finite false 8796093022208000 (-43))]).
Proof. vm_compute. reflexivity. Qed.
Example loads_3 : loads "[1,]" = None ∧ loads "{} x" = None ∧ loads "01" = None.
Proof. by vm_compute. Qed.

(** ** Round trip *)

(** Values that JSON carries faithfully: no float, no object, distinct keys. *)
Fixpoint json_ok (v : pyval) : bool :=
  match v with
  | VNone | VBool _ | VInt _ | VStr _ => true
  | VFloat _ | VObj _ _ => false
  | VList l => forallb json_ok l
  | VDict d => bool_decide (NoDup (dkeys d)) && forallb (λ '(_, x), json_ok x) d
  end.

(** Induction on values with the hypothesis for the members of lists and
    dicts. *)
Section pyval_ind.
Context (P : pyval → Prop).
Context (Hnone : P VNone) (Hbool : ∀ b, P (VBool b)) (Hint : ∀ z, P (VInt z))
  (Hfloat : ∀ f, P (VFloat f)) (Hstr : ∀ s, P (VStr s))
  (Hlist : ∀ l, Forall P l → P (VList l))
  (Hdict : ∀ d, Forall (λ p, P p.2) d → P (VDict d))
  (Hobj : ∀ c d, Forall (λ p, P p.2) d → P (VObj c d)).
Fixpoint pyval_ind' (v : pyval) : P v :=
  let fix go_dict (d : list (string * pyval)) : Forall (λ p, P p.2) d :=
    match d with
    | [] => Forall_nil_2 _
    | p :: d' => Forall_cons_2 _ p d' (pyval_ind' p.2) (go_dict d')
    end in
  match v with
  | VNone => Hnone
  | VBool b => Hbool b
  | VInt z => Hint z
  | VFloat f => Hfloat f
  | VStr s => Hstr s
  | VList l =>
      Hlist l ((fix go (l : list pyval) : Forall P l :=
                  match l with
                  | [] => Forall_nil_2 _
                  | x :: l' => Forall_cons_2 _ x l' (pyval_ind' x) (go l')
                  end) l)
  | VDict d => Hdict d (go_dict d)
  | VObj c d => Hobj c d (go_dict d)
  end.
End pyval_ind.

Lemma pstring_char c t : pstring (json_char c +:+ t) = cons_fst c (pstring t).
Proof. destruct c as [[] [] [] [] [] [] [] []]; reflexivity. Qed.

Lemma pstring_json s t : pstring (sflat_map json_char s +:+ String dquote t) = Some (s, t).
Proof.
  induction s as [|c s IH]; [reflexivity|]. cbn [sflat_map].
  by rewrite sapp_assoc, pstring_char, IH.
Qed.

(** The printed digits of a natural number. *)
Lemma digit_code d : 0 ≤ d < 10 → code (chr (48 + d)) = 48 + d.
Proof.
  intros H. assert (d = 0 ∨ d = 1 ∨ d = 2 ∨ d = 3 ∨ d = 4 ∨ d = 5 ∨ d = 6 ∨ d = 7 ∨ d = 8 ∨ d = 9)
    as Hd by lia. by destruct_or! Hd; subst.
Qed.

Lemma pdigits_cons c s n acc : is_digit c = true →
  pdigits (String c s) n acc = pdigits s (S n) (acc * 10 + (code c - 48)).
Proof. intros H. simpl. by rewrite H. Qed.

Lemma digits_aux_spec fuel n acc : 0 ≤ n → Z.log2 n < Z.of_nat fuel →
  ∃ c D, digits_aux fuel n acc = String c (D +:+ acc) ∧ is_digit c = true ∧
    (code c = 48 → n = 0 ∧ D = "") ∧
    ∀ rest m a, pdigits (String c (D +:+ rest)) m a
      = pdigits rest (m + S (String.length D)) (a * 10 ^ Z.of_nat (S (String.length D)) + n).
Proof.
  revert n acc. induction fuel as [|fuel IH]; intros n acc Hn Hf.
  { pose proof (Z.log2_nonneg n). lia. }
  cbn [digits_aux]. set (c := chr (48 + n mod 10)).
  assert (code c = 48 + n mod 10) as Hc by (apply digit_code; apply Z.mod_pos_bound; lia).
  assert (0 ≤ n mod 10 < 10) as Hm by (apply Z.mod_pos_bound; lia).
  assert (is_digit c = true) as Hd.
  { unfold is_digit. rewrite Hc. apply andb_true_iff. split; apply Z.leb_le; lia. }
  destruct (Z.ltb_spec n 10) as [Hlt|Hge].
  - exists c, "". rewrite Z.mod_small in Hc by lia. split_and!; [done|done|intros; split; [lia|done]|].
    intros rest m a. cbn [String.append]. rewrite pdigits_cons by done. simpl String.length.
    f_equal; [lia|]. rewrite Hc. lia.
  - assert (Z.log2 (n / 10) < Z.of_nat fuel) as Hf'.
    { assert (Z.log2 (n / 10) ≤ Z.log2 (n / 2)) by
        (apply Z.log2_le_mono, Z.div_le_compat_l; lia).
      assert (Z.log2 (n / 2) = Z.log2 n - 1) as Hh.
      { rewrite <-Z.div2_div. rewrite (Z.div2_spec n), Z.log2_shiftr by lia.
        pose proof (Z.log2_le_mono 10 n Hge). change (Z.log2 10) with 3 in *. lia. }
      lia. }
    assert (0 < n / 10) by (apply Z.div_str_pos; lia).
    destruct (IH (n / 10) (String c acc)) as (c' & D & He & Hd' & H48 & Hp); [lia|done|].
    exists c', (D +:+ String c ""). split_and!.
    + rewrite He. by rewrite sapp_assoc.
    + done.
    + intros H0. destruct (H48 H0). lia.
    + intros rest m a. rewrite sapp_assoc, Hp. cbn [String.append]. rewrite pdigits_cons by done.
      rewrite slen_app. simpl (String.length (String c "")). f_equal; [lia|].
      rewrite Hc. pose proof (Z.div_mod n 10).
      replace (Z.of_nat (S (String.length D + 1))) with (Z.of_nat (S (String.length D)) + 1) by lia.
      rewrite Z.pow_add_r by lia. lia.
Qed.

(** What may follow a number. *)
Definition no_number_char (s : string) : bool :=
  match s with
  | EmptyString => true
  | String c _ => negb (is_digit c || (code c =? 46) || (code c =? 101) || (code c =? 69))
  end.

Lemma pdigits_stop s n acc : no_number_char s = true → pdigits s n acc = (n, acc, s).
Proof.
  destruct s as [|c s]; [done|]. simpl. intros H. by destruct (is_digit c).
Qed.

Lemma punsigned_digits (neg : bool) i rest c D :
  no_number_char rest = true → is_digit c = true → (code c = 48 → i = 0 ∧ D = "") →
  (∀ m a, pdigits (String c (D +:+ rest)) m a
     = pdigits rest (m + S (String.length D)) (a * 10 ^ Z.of_nat (S (String.length D)) + i)) →
  punsigned neg (String c (D +:+ rest)) = Some (VInt (if neg then - i else i), rest).
Proof.
  intros Hr Hd H48 Hp. unfold punsigned.
  assert (∃ n, (if code c =? 48 then (1%nat, 0, D +:+ rest) else pdigits (String c (D +:+ rest)) 0 0)
            = (S n, i, rest)) as [n ->].
  { destruct (Z.eqb_spec (code c) 48) as [He|_].
    - destruct (H48 He) as [-> ->]. by exists 0%nat.
    - rewrite Hp, pdigits_stop by done. eexists. simpl. done. }
  destruct rest as [|d rest]; [done|]. cbn [Nat.eqb].
  unfold no_number_char in Hr. apply negb_true_iff in Hr.
  apply orb_false_iff in Hr as [[[_ H46]%orb_false_iff H101]%orb_false_iff H69].
  by rewrite H46, H101, H69.
Qed.

Lemma pconst_digit c s : is_digit c = true → pconst constants (String c s) = None.
Proof. by destruct c as [[] [] [] [] [] [] [] []]. Qed.
Lemma pconst_minus c s : is_digit c = true → pconst constants (String "-" (String c s)) = None.
Proof. by destruct c as [[] [] [] [] [] [] [] []]. Qed.
Lemma digit_not_open c : is_digit c = true → code c =? 34 = false ∧ code c =? 91 = false ∧ code c =? 123 = false.
Proof. by destruct c as [[] [] [] [] [] [] [] []]. Qed.

Lemma digit_not_minus c : is_digit c = true → code c =? 45 = false.
Proof. by destruct c as [[] [] [] [] [] [] [] []]. Qed.

Lemma pvalue_int n z rest : no_number_char rest = true →
  pvalue (S n) (str_of_Z z +:+ rest) = Some (VInt z, rest).
Proof.
  intros Hr. unfold str_of_Z.
  pose proof (Z.log2_nonneg (Z.abs z)).
  destruct (digits_aux_spec (S (Z.to_nat (Z.log2 (Z.abs z)))) (Z.abs z) "") as (c & D & He & Hd & H48 & Hp);
    [lia|lia|].
  rewrite He, sapp_nil_r. destruct (digit_not_open c Hd) as (H34 & H91 & H123).
  destruct (Z.ltb_spec z 0) as [Hz|Hz].
  - assert (("-" +:+ String c D) +:+ rest = String "-" (String c (D +:+ rest))) as -> by done.
    cbn [pvalue]. change (code "-" =? 34) with false. change (code "-" =? 91) with false.
    change (code "-" =? 123) with false. cbn iota. rewrite pconst_minus by done.
    cbn [pnumber]. rewrite (punsigned_digits true (Z.abs z) rest c D); [|done..]. do 3 f_equal. lia.
  - cbn [String.append pvalue]. rewrite H34, H91, H123, pconst_digit by done.
    cbn [pnumber]. rewrite digit_not_minus, (punsigned_digits false (Z.abs z) rest c D); [|done..]. do 3 f_equal. lia.
Qed.

Lemma skip_ws_cons c s : is_ws c = false → skip_ws (String c s) = String c s.
Proof. intros H. simpl. by rewrite H. Qed.

(** The first character of a printed value is no white space and no closing
    bracket. *)
Definition opens (s : string) : bool :=
  match s with
  | String c _ => negb (is_ws c || Ascii.eqb c "]" || Ascii.eqb c "}")
  | EmptyString => false
  end.
Lemma opens_app s t : opens s = true → opens (s +:+ t) = true.
Proof. by destruct s. Qed.
Lemma opens_skip s : opens s = true → skip_ws s = s ∧ expect "]" s = None ∧ expect "}" s = None.
Proof.
  destruct s as [|c s]; [done|]. simpl. intros H. apply negb_true_iff in H.
  apply orb_false_iff in H as [[H1 H2]%orb_false_iff H3]. by rewrite H1, H2, H3.
Qed.

Lemma digits_open c D : is_digit c = true → opens (String c D) = true.
Proof. by destruct c as [[] [] [] [] [] [] [] []]. Qed.
Lemma dumps_opens v s : dumps v = Ok s → json_ok v = true → opens s = true.
Proof.
  destruct v as [|[]|z|f|t|l|d|c d]; cbn [dumps]; intros H Hok; try discriminate Hok;
    try (by injection H as <-).
  - injection H as <-. unfold str_of_Z. pose proof (Z.log2_nonneg (Z.abs z)).
    destruct (digits_aux_spec (S (Z.to_nat (Z.log2 (Z.abs z)))) (Z.abs z) "") as (c & D & -> & Hd & _);
      [lia|lia|]. destruct (z <? 0); [done|by apply digits_open].
  - by apply res_bind_ok in H as (? & _ & [= <-]).
  - by apply res_bind_ok in H as (? & _ & [= <-]).
Qed.

Lemma res_all_ok {A} (l : list (res A)) xs : res_all l = Ok xs → l = map Ok xs.
Proof.
  revert xs. induction l as [|x l IH]; simpl; intros xs H; [by injection H as <-|].
  apply res_bind_ok in H as (a & -> & H). apply res_bind_ok in H as (r & Hr & [= <-]).
  simpl. by rewrite (IH r).
Qed.

(** What the parser promises on the text of one value. *)
Definition parses (v : pyval) : Prop :=
  ∀ s, dumps v = Ok s → json_ok v = true → ∀ n rest,
    (2 * String.length s ≤ n)%nat → no_number_char rest = true →
    pvalue n (s +:+ rest) = Some (v, rest).

Lemma sjoin_cons sep x y l : sjoin sep (x :: y :: l) = x +:+ sep +:+ sjoin sep (y :: l).
Proof. done. Qed.

Lemma pelems_dumps v l : Forall parses (v :: l) → forallb json_ok (v :: l) = true →
  ∀ xs, map dumps (v :: l) = map Ok xs → ∀ n rest,
  (2 * String.length (sjoin ", " xs) + 1 ≤ n)%nat →
  pelems n (sjoin ", " xs +:+ String "]" rest) = Some (v :: l, rest).
Proof.
  revert v. induction l as [|w l IH]; intros v HP Hok xs Hxs n rest Hn.
  - destruct xs as [|x [|]]; try done. injection Hxs as Hx. simpl in Hok, Hn |- *.
    apply Forall_cons in HP as [HP _]. destruct n as [|n]; [lia|]. cbn [pelems].
    rewrite (HP x); [done|done|by rewrite andb_true_r in Hok|lia|done].
  - destruct xs as [|x [|y xs]]; try done. cbn [map] in Hxs. injection Hxs as Hx Hy Hxs.
    apply Forall_cons in HP as [HP HPl]. cbn [forallb] in Hok. apply andb_true_iff in Hok as [Hv Hl].
    rewrite sjoin_cons in Hn |- *. rewrite !slen_app in Hn. simpl (String.length ", ") in Hn.
    destruct n as [|n]; [lia|]. cbn [pelems].
    rewrite !sapp_assoc. rewrite (HP x) by first [done|lia].
    assert (opens (sjoin ", " (y :: xs) +:+ String "]" rest) = true) as Ho.
    { apply Forall_cons in HPl as [_ _]. cbn [forallb] in Hl. apply andb_true_iff in Hl as [Hw _].
      destruct xs; [|rewrite sjoin_cons, sapp_assoc]; apply opens_app; by eapply dumps_opens. }
    destruct (opens_skip _ Ho) as (Hs & _ & _).
    change (", " +:+ sjoin ", " (y :: xs) +:+ String "]" rest)
      with (String "," (String " " (sjoin ", " (y :: xs) +:+ String "]" rest))).
    cbn -[sjoin pelems skip_ws]. rewrite skip_ws_cons by done. cbn -[sjoin pelems skip_ws].
    assert (∀ t, skip_ws (String " " t) = skip_ws t) as Hsp by done. rewrite Hsp, Hs.
    rewrite (IH w HPl Hl (y :: xs)); [done|cbn [map]; congruence|lia].
Qed.

Definition print_member (p : string * pyval) : res string :=
  let '(k, x) := p in t ← dumps x; Ok (json_string k +:+ ": " +:+ t).

Lemma skip_space t : skip_ws (String " " t) = skip_ws t.
Proof. done. Qed.

(** One printed member, read back up to what follows its value. *)
Lemma member_dumps k v x n rest d acc :
  print_member (k, v) = Ok x → parses v → json_ok v = true → no_number_char rest = true →
  (2 * String.length x ≤ n)%nat → NoDup (dkeys (acc ++ (k, v) :: d)) →
  pmembers (S n) (x +:+ rest) acc
  = match expect "}" (skip_ws rest) with
    | Some r' => Some (acc ++ [(k, v)], r')
    | None => r' ← expect "," (skip_ws rest); pmembers n (skip_ws r') (acc ++ [(k, v)])
    end.
Proof.
  unfold print_member. intros (t & Ht & [= <-])%res_bind_ok HP Hok Hr Hn Hnd.
  unfold json_string in *. cbn [String.append String.length] in Hn. rewrite !slen_app in Hn.
  simpl (String.length (": " +:+ t)) in Hn.
  cbn [pmembers String.append]. rewrite !sapp_assoc. cbn [String.append expect].
  rewrite Ascii.eqb_refl. cbn -[pvalue skip_ws pmembers expect]. rewrite pstring_json.
  cbn -[pvalue skip_ws pmembers expect]. rewrite skip_ws_cons by done.
  change (expect ":" (String ":" (String " " (t +:+ rest)))) with (Some (String " " (t +:+ rest))).
  cbn -[pvalue skip_ws pmembers expect]. rewrite skip_space.
  assert (opens (t +:+ rest) = true) as Ho by (apply opens_app; by eapply dumps_opens).
  destruct (opens_skip _ Ho) as (-> & _ & _).
  cbn [String.length] in Hn. rewrite (HP t) by first [done|lia]. cbn -[pvalue skip_ws pmembers expect].
  rewrite dset_append; [done|].
  unfold dkeys in *. rewrite fmap_app in Hnd. apply NoDup_app in Hnd as (_ & Hn' & _).
  intros Hin. apply (Hn' k Hin). by left.
Qed.

Lemma print_member_opens k v x : print_member (k, v) = Ok x → opens x = true.
Proof. unfold print_member. by intros (t & Ht & [= <-])%res_bind_ok. Qed.

Lemma pmembers_dumps k v d acc :
  Forall (λ p, parses p.2) ((k, v) :: d) → forallb (λ '(_, x), json_ok x) ((k, v) :: d) = true →
  NoDup (dkeys (acc ++ (k, v) :: d)) →
  ∀ xs, map print_member ((k, v) :: d) = map Ok xs →
  ∀ n rest, (2 * String.length (sjoin ", " xs) + 1 ≤ n)%nat →
  pmembers n (sjoin ", " xs +:+ String "}" rest) acc = Some (acc ++ (k, v) :: d, rest).
Proof.
  revert k v acc. induction d as [|[k2 v2] d IH]; intros k v acc HP Hok Hnd xs Hxs n rest Hn.
  - destruct xs as [|x [|]]; try done. cbn [map] in Hxs. injection Hxs as Hx.
    apply Forall_cons in HP as [HP _]. simpl in HP, Hok. rewrite andb_true_r in Hok.
    destruct n as [|n]; [lia|]. cbn [sjoin] in *.
    rewrite (member_dumps k v x n (String "}" rest) [] acc); first [done|lia].
  - destruct xs as [|x [|y xs]]; try done. cbn [map] in Hxs. injection Hxs as Hx Hy Hxs.
    apply Forall_cons in HP as [HP HPl]. cbn [forallb] in Hok. apply andb_true_iff in Hok as [Hv Hl].
    rewrite sjoin_cons in Hn |- *. rewrite !slen_app in Hn. simpl (String.length ", ") in Hn.
    destruct n as [|n]; [lia|]. rewrite !sapp_assoc.
    rewrite (member_dumps k v x n (", " +:+ sjoin ", " (y :: xs) +:+ String "}" rest) ((k2, v2) :: d) acc Hx HP Hv eq_refl); [|lia|done].
    change (", " +:+ sjoin ", " (y :: xs) +:+ String "}" rest)
      with (String "," (String " " (sjoin ", " (y :: xs) +:+ String "}" rest))).
    rewrite skip_ws_cons by done. cbn -[sjoin pmembers skip_ws].
    assert (opens (sjoin ", " (y :: xs) +:+ String "}" rest) = true) as Ho.
    { destruct xs; [|rewrite sjoin_cons, sapp_assoc]; apply opens_app; exact (print_member_opens _ _ _ Hy). }
    destruct (opens_skip _ Ho) as (Hs & _ & _). rewrite skip_space, Hs.
    rewrite (IH k2 v2 (acc ++ [(k, v)]) HPl Hl); [by rewrite <-app_assoc|by rewrite <-app_assoc| |lia].
    cbn [map]. f_equal; [exact Hy|exact Hxs].
Qed.

Lemma parses_all v : parses v.
Proof.
  induction v as [|b|z|f|str|l IH|d IH|cls d IH] using pyval_ind'; intros s Hs Hok n rest Hn Hr;
    try discriminate Hok; cbn [dumps] in Hs.
  - injection Hs as <-. destruct n; [simpl in Hn; lia|done].
  - injection Hs as <-. destruct n; [destruct b; simpl in Hn; lia|by destruct b].
  - injection Hs as <-. destruct n; [|by apply pvalue_int].
    pose proof (dumps_opens (VInt z) _ eq_refl eq_refl). destruct (str_of_Z z); [done|].
    simpl in Hn. lia.
  - injection Hs as <-. destruct n; [simpl in Hn; lia|]. cbn [pvalue json_string String.append].
    unfold json_string. cbn [String.append]. rewrite sapp_assoc. cbn [String.append].
    change (code dquote =? 34) with true. cbn iota. by rewrite pstring_json.
  - apply res_bind_ok in Hs as (xs & Hxs%res_all_ok & [= <-]). cbn [String.append] in *.
    cbn [String.length] in Hn. rewrite slen_app in Hn. simpl (String.length "]") in Hn.
    destruct n as [|n]; [lia|]. cbn [pvalue]. change (code "[" =? 34) with false.
    change (code "[" =? 91) with true. cbn iota. rewrite sapp_assoc. cbn [String.append].
    destruct l as [|v l].
    + by destruct xs.
    + assert (opens (sjoin ", " xs +:+ String "]" rest) = true) as Ho.
      { destruct xs as [|x xs]; [done|]. cbn [map] in Hxs. injection Hxs as Hx _.
        simpl in Hok. apply andb_true_iff in Hok as [Hv _].
        destruct xs; [|rewrite sjoin_cons, sapp_assoc]; apply opens_app; by eapply dumps_opens. }
      destruct (opens_skip _ Ho) as (-> & -> & _).
      rewrite (pelems_dumps v l IH Hok xs Hxs); [done|lia].
  - apply res_bind_ok in Hs as (xs & Hxs%res_all_ok & [= <-]). cbn [String.append] in *.
    cbn [String.length] in Hn. rewrite slen_app in Hn. simpl (String.length "}") in Hn.
    destruct n as [|n]; [lia|]. cbn [pvalue]. change (code "{" =? 34) with false.
    change (code "{" =? 91) with false. change (code "{" =? 123) with true. cbn iota.
    rewrite sapp_assoc. cbn [String.append]. change (map print_member d = map Ok xs) in Hxs.
    simpl in Hok. apply andb_true_iff in Hok as [Hnd%bool_decide_eq_true Hok].
    destruct d as [|[k v] d].
    + by destruct xs.
    + assert (opens (sjoin ", " xs +:+ String "}" rest) = true) as Ho.
      { destruct xs as [|x xs]; [done|]. cbn [map] in Hxs. injection Hxs as Hx _.
        destruct xs; [|rewrite sjoin_cons, sapp_assoc]; apply opens_app; exact (print_member_opens _ _ _ Hx). }
      destruct (opens_skip _ Ho) as (-> & _ & ->).
      rewrite (pmembers_dumps k v d [] IH Hok Hnd xs Hxs); [done|lia].
Qed.

(** [json.loads] inverts [json.dumps]. *)
Lemma loads_dumps v s : dumps v = Ok s → json_ok v = true → loads s = Some v.
Proof.
  intros Hs Hok. unfold loads. destruct (opens_skip s) as (-> & _ & _); [by eapply dumps_opens|].
  pose proof (parses_all v s Hs Hok (2 * String.length s + 2)%nat "") as Hp. rewrite sapp_nil_r in Hp.
  rewrite Hp; [done|lia|done].
Qed.

Lemma dumps_total v : json_ok v = true → ∃ s, dumps v = Ok s.
Proof.
  induction v as [|b|z|f|str|l IH|d IH|cls d IH] using pyval_ind'; intros Hok; try discriminate Hok; eauto.
  - cbn [dumps]. assert (∃ xs, res_all (map dumps l) = Ok xs) as [xs ->]; [|simpl; eauto].
    induction IH as [|v l Hv _ IHl]; simpl; [eauto|].
    simpl in Hok. apply andb_true_iff in Hok as [Hv' Hl]. destruct (Hv Hv') as [s ->].
    destruct (IHl Hl) as [xs ->]. simpl. eauto.
  - cbn [dumps]. apply andb_true_iff in Hok as [_ Hok].
    assert (∃ xs, res_all (map print_member d) = Ok xs) as [xs Hxs].
    { induction IH as [|[k v] l Hv _ IHl]; simpl; [eauto|].
      simpl in Hok. apply andb_true_iff in Hok as [Hv' Hl]. simpl in Hv. destruct (Hv Hv') as [s ->].
      destruct (IHl Hl) as [xs ->]. simpl. eauto. }
    unfold print_member in Hxs. rewrite Hxs. simpl. eauto.
Qed.
