(* ===== verification/Float.v ===== *)
(** * Binary64 numbers

    Arithmetic, rounding to decimals, [float(x)] of a value, and the printer
    [json.dump(..., indent=2)].  [float] of a decimal text follows Python's
    grammar: white space around it, a sign, underscores between digits. *)
From Corelib Require Import SpecFloat.
From S2P Require Export Json.

Definition of_int (z : Z) : spec_float := binary_normalize 53 1024 z 0 false.
Definition fadd := SFadd 53 1024.
Definition fsub := SFsub 53 1024.
Definition fmul := SFmul 53 1024.
Definition fdiv := SFdiv 53 1024.
Definition fhalf : spec_float := dec_to_float false 5 (-1).
Definition fzero : spec_float := S754_zero false.
(** [round(x, k)]: the nearest multiple of [10^-k], ties to even, as a double. *)
Definition round_dec (k : Z) (x : spec_float) : spec_float :=
  match x with
  | S754_finite s m e => dec_to_float s (round_at (Zpos m) e (- k)) (- k)
  | _ => x
  end.
Definition round4 (x : spec_float) : spec_float := round_dec 4 x.
Definition round2 (x : spec_float) : spec_float := round_dec 2 x.
Example round4_third : round4 (fdiv (of_int 1) (of_int 3)) = dec_to_float false 3333 (-4).
Proof. reflexivity. Qed.

(** ** [float(x)] *)

(** Digits with single underscores between them. *)
Fixpoint udigits (s : string) (n : nat) (acc : Z) : nat * Z * string :=
  match s with
  | String c s' =>
      if is_digit c then udigits s' (S n) (acc * 10 + (code c - 48))
      else if (code c =? 95) && negb (n =? 0)%nat then
        match s' with
        | String d s'' => if is_digit d then udigits s'' (S n) (acc * 10 + (code d - 48)) else (n, acc, s)
        | EmptyString => (n, acc, s)
        end
      else (n, acc, s)
  | EmptyString => (n, acc, s)
  end.
(** The exponent after [e] or [E]. *)
Definition exponent_part (s : string) : Z * string :=
  match s with
  | String c s' =>
      if (code c =? 101) || (code c =? 69) then
        let '(sg, s'') := match s' with
                          | String d t => if code d =? 45 then (-1, t) else if code d =? 43 then (1, t) else (1, s')
                          | EmptyString => (1, s')
                          end in
        let '(ne, x, r) := udigits s'' 0 0 in if (ne =? 0)%nat then (0, s) else (sg * x, r)
      else (0, s)
  | EmptyString => (0, s)
  end.
Definition unsigned_float (neg : bool) (s : string) : option spec_float :=
  let l := lower s in
  if String.eqb l "inf" || String.eqb l "infinity" then Some (S754_infinity neg)
  else if String.eqb l "nan" then Some S754_nan
  else
    let '(ni, i, s1) := udigits s 0 0 in
    let '(nf, f, s2) :=
      match s1 with
      | String c s' => if code c =? 46 then udigits s' 0 i else (0%nat, i, s1)
      | EmptyString => (0%nat, i, s1)
      end in
    if ((ni + nf) =? 0)%nat then None
    else let '(x, s3) := exponent_part s2 in
         if sempty s3 then Some (dec_to_float neg f (x - Z.of_nat nf)) else None.
Definition float_of_str (s : string) : option spec_float :=
  match strip s with
  | String c t => if code c =? 45 then unsigned_float true t else if code c =? 43 then unsigned_float false t
                  else unsigned_float false (strip s)
  | EmptyString => None
  end.
Example float_of_str_1 :
  map float_of_str [" 1_0.5e1 "; ".5"; "1__0"; ""; "-Inf"; "."]
  = [Some (of_int 105); Some fhalf; None; None; Some (S754_infinity true); None].
Proof. vm_compute. reflexivity. Qed.

Definition py_float (v : pyval) : res spec_float :=
  match v with
  | VFloat f => Ok f
  | VInt z => match of_int z with
              | S754_infinity _ => Raise (OverflowError "int too large to convert to float")
              | f => Ok f
              end
  | VBool b => Ok (of_int (if b then 1 else 0))
  | VStr s => match float_of_str s with
              | Some f => Ok f
              | None => Raise (ValueError ("could not convert string to float: " +:+ repr_str s))
              end
  | _ => Raise (TypeError "float() argument must be a string or a real number")
  end.
(** A number used in arithmetic; a bool is an int. *)
Definition py_num (v : pyval) : res spec_float :=
  match v with
  | VStr _ => Raise (TypeError "unsupported operand type(s)")
  | _ => py_float v
  end.
(** [a + b] on numbers: ints add exactly. *)
Definition py_add (a b : pyval) : res pyval :=
  match a, b with
  | VInt x, VInt y => Ok (VInt (x + y))
  | _, _ => x ← py_num a; y ← py_num b; Ok (VFloat (fadd x y))
  end.

(** ** [json.dump(v, indent=2)] *)
Definition indentation (n : nat) : string := String newline (String.concat "" (repeat "  "%string n)).
Fixpoint dumps_indent (n : nat) (v : pyval) : string :=
  match v with
  | VNone => "null"
  | VBool b => if b then "true" else "false"
  | VInt z => str_of_Z z
  | VFloat f => json_float f
  | VStr s => json_string s
  | VList [] => "[]"
  | VList l =>
      "[" +:+ indentation (S n) +:+ sjoin ("," +:+ indentation (S n)) (map (dumps_indent (S n)) l)
      +:+ indentation n +:+ "]"
  | VDict [] => "{}"
  | VDict d =>
      "{" +:+ indentation (S n)
      +:+ sjoin ("," +:+ indentation (S n)) (map (λ '(k, x), json_string k +:+ ": " +:+ dumps_indent (S n) x) d)
      +:+ indentation n +:+ "}"
  | VObj cls _ => json_string cls
  end.
Example dumps_indent_loads :
  let v := VDict [("docs", VDict [("a.md", VList [VInt 3; VNone])]); ("n", VFloat fhalf); ("e", VDict [])] in
  loads (dumps_indent 0 v) = Some v.
Proof. vm_compute. reflexivity. Qed.
