(* ===== verification/JsonIndent.v ===== *)
(** * Indented JSON reads back

    [json.dump(v, indent=2)] writes the caches and indexes of the program and
    [json.load] reads them: the text of a value that JSON carries faithfully is
    parsed to that value.  The steps are those of Json.v, with white space
    between the tokens. *)
From S2P Require Export Float.

Lemma skip_ws_app w s : sforall is_ws w = true → skip_ws (w +:+ s) = skip_ws s.
Proof.
  induction w as [|c w IH]; [done|]. cbn [sforall]. intros [Hc Hw]%andb_true_iff.
  cbn [String.append skip_ws]. rewrite Hc. by apply IH.
Qed.
Lemma indentation_ws n : sforall is_ws (indentation n) = true.
Proof.
  unfold indentation. cbn [sforall]. change (is_ws newline) with true. cbn [andb].
  induction n as [|n IH]; [done|]. cbn [repeat String.concat]. destruct n as [|n]; [done|].
  cbn [repeat] in *. change ("  " ++ "" ++ String.concat "" ("  " :: repeat "  " n))%string with ("  " +:+ String.concat "" ("  " :: repeat "  " n)).
  rewrite sforall_app. by rewrite IH.
Qed.
Lemma indentation_cons n : ∃ w, indentation n = String newline w.
Proof. by eexists. Qed.

Lemma dumps_indent_opens k v : json_ok v = true → opens (dumps_indent k v) = true.
Proof.
  destruct v as [|[]|z|f|t|[|x l]|[|p d]|c d]; intros Hok; try discriminate Hok; try done.
  eapply (dumps_opens (VInt z)); done.
Qed.

Section round_trip.
Definition parses_indent (v : pyval) : Prop :=
  ∀ k, json_ok v = true → ∀ n rest,
    (2 * String.length (dumps_indent k v) ≤ n)%nat → no_number_char rest = true →
    pvalue n (dumps_indent k v +:+ rest) = Some (v, rest).

Context (w w' : string) (Hw : sforall is_ws w = true) (Hw' : sforall is_ws w' = true).
Lemma ws_no_number rest : no_number_char rest = true → no_number_char (w' +:+ rest) = true.
Proof using Hw'.
  destruct w' as [|c x]; [done|]. cbn [sforall] in Hw'. apply andb_true_iff in Hw' as [Hc _]. clear -Hc.
  by destruct c as [[] [] [] [] [] [] [] []].
Qed.

Lemma pelems_indent k v l : Forall parses_indent (v :: l) → forallb json_ok (v :: l) = true → ∀ n rest,
  (2 * String.length (sjoin (String "," w) (map (dumps_indent k) (v :: l))) + 1 ≤ n)%nat →
  pelems n (sjoin (String "," w) (map (dumps_indent k) (v :: l)) +:+ w' +:+ String "]" rest) = Some (v :: l, rest).
Proof using Hw Hw'.
  revert v. induction l as [|x l IH]; intros v HP Hok n rest Hn; cbn [forallb] in Hok; apply andb_true_iff in Hok as [Hv Hl];
    apply Forall_cons in HP as [HP HPl]; (destruct n as [|n]; [lia|]); cbn [pelems].
  - cbn [map sjoin] in *. rewrite HP by (try done; try lia; by apply ws_no_number).
    cbn [mbind option_bind]. by rewrite skip_ws_app.
  - cbn [map] in *. rewrite sjoin_cons in Hn |- *. rewrite !slen_app in Hn. cbn [String.length] in Hn.
    rewrite !sapp_assoc. rewrite HP by first [done|lia].
    cbn [mbind option_bind String.append]. rewrite skip_ws_cons by done. cbn [expect Ascii.eqb Bool.eqb mbind option_bind].
    rewrite skip_ws_app by done.
    assert (opens (sjoin (String "," w) (dumps_indent k x :: map (dumps_indent k) l) +:+ w' +:+ String "]" rest) = true) as Ho.
    { cbn [forallb] in Hl. apply andb_true_iff in Hl as [Hx _].
      destruct l; cbn [map]; [|rewrite sjoin_cons, sapp_assoc]; by apply opens_app, dumps_indent_opens. }
    destruct (opens_skip _ Ho) as (-> & _ & _).
    rewrite IH; [done|done|done|]. cbn [map]. lia.
Qed.

Definition member_text (k : nat) (p : string * pyval) : string := let '(key, x) := p in json_string key +:+ ": " +:+ dumps_indent k x.

Lemma member_indent k key v n rest d acc : parses_indent v → json_ok v = true → no_number_char rest = true →
  (2 * String.length (member_text k (key, v)) ≤ n)%nat → NoDup (dkeys (acc ++ (key, v) :: d)) →
  pmembers (S n) (member_text k (key, v) +:+ rest) acc
  = match expect "}" (skip_ws rest) with
    | Some r' => Some (acc ++ [(key, v)], r')
    | None => r' ← expect "," (skip_ws rest); pmembers n (skip_ws r') (acc ++ [(key, v)])
    end.
Proof.
  intros HP Hok Hr Hn Hnd. unfold member_text, json_string in *. cbn [String.append String.length] in Hn. rewrite !slen_app in Hn.
  cbn [String.length] in Hn. cbn [pmembers String.append]. rewrite !sapp_assoc. cbn [String.append expect].
  rewrite Ascii.eqb_refl. cbn [mbind option_bind]. rewrite pstring_json.
  cbn [mbind option_bind]. rewrite skip_ws_cons by done. cbn [String.append].
  change (expect ":" (String ":" (String " " (dumps_indent k v +:+ rest)))) with (Some (String " " (dumps_indent k v +:+ rest))).
  cbn [mbind option_bind]. rewrite skip_space.
  assert (opens (dumps_indent k v +:+ rest) = true) as Ho by (by apply opens_app, dumps_indent_opens).
  destruct (opens_skip _ Ho) as (-> & _ & _). rewrite HP by first [done|lia]. cbn [mbind option_bind].
  rewrite dset_append; [done|].
  unfold dkeys in *. rewrite fmap_app in Hnd. apply NoDup_app in Hnd as (_ & Hn' & _).
  intros Hin. apply (Hn' key Hin). by left.
Qed.

Lemma pmembers_indent k key v d acc : Forall (λ p, parses_indent p.2) ((key, v) :: d) →
  forallb (λ '(_, x), json_ok x) ((key, v) :: d) = true → NoDup (dkeys (acc ++ (key, v) :: d)) → ∀ n rest,
  (2 * String.length (sjoin (String "," w) (map (member_text k) ((key, v) :: d))) + 1 ≤ n)%nat →
  pmembers n (sjoin (String "," w) (map (member_text k) ((key, v) :: d)) +:+ w' +:+ String "}" rest) acc
  = Some (acc ++ (key, v) :: d, rest).
Proof using Hw Hw'.
  revert key v acc. induction d as [|[key2 v2] d IH]; intros key v acc HP Hok Hnd n rest Hn; cbn [forallb] in Hok;
    apply andb_true_iff in Hok as [Hv Hl]; apply Forall_cons in HP as [HP HPl]; (destruct n as [|n]; [lia|]).
  - cbn [map sjoin] in *. rewrite (member_indent k key v n _ [] acc); [|done|done|by apply ws_no_number|lia|done].
    by rewrite skip_ws_app.
  - cbn [map] in *. rewrite sjoin_cons in Hn |- *. rewrite !slen_app in Hn. cbn [String.length] in Hn.
    rewrite !sapp_assoc. rewrite (member_indent k key v n _ ((key2, v2) :: d) acc); [|done|done|done|lia|done].
    cbn [String.append]. rewrite skip_ws_cons by done. cbn [expect Ascii.eqb Bool.eqb mbind option_bind].
    rewrite skip_ws_app by done.
    assert (opens (sjoin (String "," w) (member_text k (key2, v2) :: map (member_text k) d) +:+ w' +:+ String "}" rest) = true) as Ho.
    { destruct d; cbn [map]; [|rewrite sjoin_cons, sapp_assoc]; by apply opens_app. }
    destruct (opens_skip _ Ho) as (-> & _ & _).
    rewrite IH; [by rewrite <-app_assoc|done|done|by rewrite <-app_assoc|cbn [map]; lia].
Qed.
End round_trip.

Lemma parses_indent_all v : parses_indent v.
Proof.
  induction v as [|b|z|f|str|l IH|d IH|cls d IH] using pyval_ind'; intros k Hok n rest Hn Hr; try discriminate Hok.
  1-4: by eapply (parses_all _ (dumps_indent k _)).
  - destruct l as [|v l]; [destruct n as [|[|n]]; try (cbn in Hn; lia); done|].
    cbn [dumps_indent] in *. cbn [String.append] in Hn |- *. cbn [String.length] in Hn. rewrite !slen_app in Hn. cbn [String.length] in Hn.
    destruct n as [|n]; [lia|]. cbn [pvalue]. change (code "[" =? 34) with false. change (code "[" =? 91) with true. cbn iota.
    rewrite !sapp_assoc, skip_ws_app by apply indentation_ws. cbn [String.append].
    assert (opens (sjoin (String "," (indentation (S k))) (map (dumps_indent (S k)) (v :: l)) +:+ indentation k +:+ String "]" rest) = true) as Ho.
    { cbn [json_ok forallb] in Hok. apply andb_true_iff in Hok as [Hv _].
      destruct l; cbn [map]; [|rewrite sjoin_cons, sapp_assoc]; by apply opens_app, dumps_indent_opens. }
    destruct (opens_skip _ Ho) as (-> & -> & _).
    rewrite pelems_indent; [done|apply indentation_ws|apply indentation_ws|done|exact Hok|lia].
  - destruct d as [|[key v] d]; [destruct n as [|[|n]]; try (cbn in Hn; lia); done|].
    cbn [dumps_indent] in *. cbn [String.append] in Hn |- *. cbn [String.length] in Hn. rewrite !slen_app in Hn. cbn [String.length] in Hn.
    destruct n as [|n]; [lia|]. cbn [pvalue]. change (code "{" =? 34) with false. change (code "{" =? 91) with false.
    change (code "{" =? 123) with true. cbn iota.
    rewrite !sapp_assoc, skip_ws_app by apply indentation_ws. cbn [String.append].
    change (map _ ((key, v) :: d)) with (map (member_text (S k)) ((key, v) :: d)) in Hn |- *.
    assert (opens (sjoin (String "," (indentation (S k))) (map (member_text (S k)) ((key, v) :: d)) +:+ indentation k +:+ String "}" rest) = true) as Ho.
    { destruct d; cbn [map]; [|rewrite sjoin_cons, sapp_assoc]; by apply opens_app. }
    destruct (opens_skip _ Ho) as (-> & _ & ->).
    cbn [json_ok] in Hok. apply andb_true_iff in Hok as [Hnd%bool_decide_eq_true Hok].
    rewrite pmembers_indent; [done|apply indentation_ws|apply indentation_ws|done|done|done|lia].
Qed.

(** [json.loads] inverts [json.dump(v, indent=2)]. *)
Lemma loads_indent v : json_ok v = true → loads (dumps_indent 0 v) = Some v.
Proof.
  intros Hok. unfold loads. destruct (opens_skip (dumps_indent 0 v)) as (-> & _ & _); [by apply dumps_indent_opens|].
  pose proof (parses_indent_all v 0%nat Hok (2 * String.length (dumps_indent 0 v) + 2)%nat EmptyString) as Hp.
  rewrite sapp_nil_r in Hp. rewrite Hp; [done|lia|done].
Qed.
