(* ===== verification/Table.v ===== *)
(** * SQL tables

    A table is the list of its rows in rowid order.  [select], [select_one],
    [update_where] and [delete_where] are the statements the stores issue; a
    primary key is a function of the row on which the rows are distinct.  The
    lemmas relate a keyed table to a finite map. *)
From S2P Require Export PyStr.

Section table.
Context {A : Type}.
Implicit Types (p : A → bool) (f : A → A) (rows : list A).

Definition select p rows : list A := List.filter p rows.
(** [fetchone] on an unordered SELECT. *)
Fixpoint select_one p rows : option A :=
  match rows with
  | [] => None
  | r :: rows' => if p r then Some r else select_one p rows'
  end.
Definition update_where p f rows : list A := map (λ r, if p r then f r else r) rows.
Definition delete_where p rows : list A := List.filter (λ r, negb (p r)) rows.
(** [cursor.rowcount] *)
Definition rowcount p rows : nat := length (List.filter p rows).
(** [LIMIT n]; a negative limit is no limit. *)
Definition limit (n : Z) rows : list A := if n <? 0 then rows else take (Z.to_nat n) rows.

Lemma elem_of_select p rows r : r ∈ select p rows ↔ r ∈ rows ∧ p r = true.
Proof. unfold select. by rewrite !list_elem_of_In, filter_In. Qed.
Lemma select_one_Some p rows r : select_one p rows = Some r → r ∈ rows ∧ p r = true.
Proof.
  induction rows as [|r' rows IH]; simpl; [done|]. destruct (p r') eqn:E.
  - intros [= ->]. split; [left|done].
  - intros [? ?]%IH. split; [by right|done].
Qed.
Lemma select_one_None p rows : select_one p rows = None ↔ ∀ r, r ∈ rows → p r = false.
Proof.
  induction rows as [|r' rows IH]; simpl; [set_solver|]. destruct (p r') eqn:E.
  - split; [done|]. intros H. specialize (H r'). rewrite H in E by left. done.
  - rewrite IH. set_solver.
Qed.
Lemma rowcount_pos p rows :
  bool_decide (0 < rowcount p rows)%nat = bool_decide (is_Some (select_one p rows)).
Proof.
  unfold rowcount. induction rows as [|r rows IH]; simpl; [done|].
  destruct (p r); simpl; [done|]. exact IH.
Qed.
End table.

Section sorted_unique.
Context {A : Type} (leb : A → A → bool).
Lemma sorted_perm_eq l1 l2 :
  (∀ x y, x ∈ l1 → y ∈ l1 → leb x y = true → leb y x = true → x = y) →
  StronglySorted (λ a b, leb a b = true) l1 → StronglySorted (λ a b, leb a b = true) l2 →
  l1 ≡ₚ l2 → l1 = l2.
Proof.
  intros Hanti H1. revert l2. induction H1 as [|x l1 H1 IH Hx]; intros l2 H2 Hp.
  { symmetry. by apply Permutation_nil. }
  destruct H2 as [|y l2 H2 Hy].
  { symmetry in Hp. by apply Permutation_nil in Hp. }
  assert (x = y) as ->.
  { assert (y ∈ x :: l1) as Hy1 by (rewrite Hp; left).
    assert (x ∈ y :: l2) as Hx2 by (rewrite <-Hp; left).
    apply elem_of_cons in Hy1 as [->|Hy1]; [done|].
    apply elem_of_cons in Hx2 as [->|Hx2]; [done|].
    rewrite Forall_forall in Hx, Hy. apply Hanti; [left|by right|auto|auto]. }
  f_equal. apply IH; [|done|by apply Permutation_cons_inv in Hp].
  intros a b Ha Hb. apply Hanti; by right.
Qed.

Context (leb_total : ∀ x y, leb x y = false → leb y x = true).
Context (leb_trans : ∀ x y z, leb x y = true → leb y z = true → leb x z = true).
Lemma sort_by_perm_eq l1 l2 :
  (∀ x y, x ∈ l1 → y ∈ l1 → leb x y = true → leb y x = true → x = y) →
  l1 ≡ₚ l2 → sort_by leb l1 = sort_by leb l2.
Proof.
  intros Hanti Hp. apply sorted_perm_eq.
  - intros x y Hx Hy. apply Hanti; by apply (elem_of_sort_by leb).
  - by apply sort_by_sorted.
  - by apply sort_by_sorted.
  - by rewrite !sort_by_perm.
Qed.
End sorted_unique.

(** ** Tables with a string primary key, as finite maps *)
Section keyed.
Context {A : Type} (key : A → string).
Implicit Types (rows : list A) (k : string).

Definition keyed rows : Prop := NoDup (map key rows).
Definition has_key k (r : A) : bool := String.eqb (key r) k.
Definition to_map rows : gmap string A := list_to_map (map (λ r, (key r, r)) rows).

Lemma to_map_select k rows : to_map rows !! k = select_one (has_key k) rows.
Proof.
  unfold to_map, has_key. induction rows as [|r rows IH]; simpl; [apply lookup_empty|].
  destruct (String.eqb_spec (key r) k) as [<-|].
  - by rewrite lookup_insert_eq.
  - by rewrite lookup_insert_ne.
Qed.

Lemma to_map_update k f rows : (∀ r, key (f r) = key r) →
  to_map (update_where (has_key k) f rows) = alter f k (to_map rows).
Proof.
  intros Hf. apply map_eq. intros k'. rewrite to_map_select.
  destruct (decide (k = k')) as [<-|Hne].
  - rewrite lookup_alter_eq, to_map_select. unfold has_key.
    induction rows as [|r rows IH]; simpl; [done|].
    destruct (String.eqb (key r) k) eqn:E; simpl; [by rewrite Hf, E|by rewrite E].
  - rewrite lookup_alter_ne, to_map_select by done. unfold has_key.
    induction rows as [|r rows IH]; simpl; [done|].
    destruct (String.eqb_spec (key r) k) as [He|]; simpl.
    + rewrite Hf. destruct (String.eqb_spec (key r) k') as [|]; [congruence|]. exact IH.
    + destruct (String.eqb (key r) k'); [done|]. exact IH.
Qed.

Lemma to_map_delete k rows : to_map (delete_where (has_key k) rows) = delete k (to_map rows).
Proof.
  apply map_eq. intros k'. rewrite to_map_select.
  destruct (decide (k = k')) as [<-|Hne].
  - rewrite lookup_delete_eq. apply select_one_None. intros r.
    unfold delete_where. rewrite list_elem_of_In, filter_In. intros [_ H]. by bool_prop.
  - rewrite lookup_delete_ne, to_map_select by done. unfold has_key.
    induction rows as [|r rows IH]; simpl; [done|].
    destruct (String.eqb_spec (key r) k) as [He|]; simpl.
    + destruct (String.eqb_spec (key r) k') as [|]; [congruence|]. exact IH.
    + destruct (String.eqb (key r) k'); [done|]. exact IH.
Qed.

Lemma to_map_snoc rows r : to_map rows !! key r = None → to_map (rows ++ [r]) = <[key r := r]> (to_map rows).
Proof.
  rewrite to_map_select. intros H. apply map_eq. intros k. rewrite to_map_select.
  destruct (decide (key r = k)) as [<-|Hne].
  - rewrite lookup_insert_eq. unfold has_key in *. induction rows as [|r' rows IH]; simpl in *.
    + by rewrite String.eqb_refl.
    + destruct (String.eqb (key r') (key r)); [done|]. auto.
  - rewrite lookup_insert_ne, to_map_select by done. unfold has_key.
    clear H. induction rows as [|r' rows IH]; simpl.
    + by apply String.eqb_neq in Hne as ->.
    + destruct (String.eqb (key r') k); [done|]. exact IH.
Qed.

Lemma keyed_update p f rows : (∀ r, key (f r) = key r) →
  keyed rows → keyed (update_where p f rows).
Proof.
  unfold keyed, update_where. intros Hf H. rewrite map_map. erewrite map_ext; [exact H|].
  intros r. simpl. by destruct (p r).
Qed.
Lemma keyed_filter p rows : keyed rows → keyed (List.filter p rows).
Proof.
  unfold keyed. induction rows as [|r rows IH]; simpl; [done|].
  intros [Hr H]%NoDup_cons. destruct (p r); simpl; [|by apply IH].
  apply NoDup_cons. split; [|by apply IH]. intros Hin. apply Hr.
  apply list_elem_of_In, in_map_iff in Hin as (r' & <- & [? _]%filter_In).
  by apply list_elem_of_In, in_map.
Qed.
Lemma keyed_snoc rows r : keyed rows → to_map rows !! key r = None → keyed (rows ++ [r]).
Proof.
  rewrite to_map_select, select_one_None. unfold keyed. intros H Hn. rewrite map_app. simpl.
  apply NoDup_app. split_and!; [done| |apply NoDup_singleton].
  intros k Hk ->%list_elem_of_singleton. apply list_elem_of_In, in_map_iff in Hk as (r' & He & Hr').
  apply list_elem_of_In, Hn in Hr'. unfold has_key in Hr'. by bool_prop.
Qed.

Lemma keyed_inj rows x y : keyed rows → x ∈ rows → y ∈ rows → key x = key y → x = y.
Proof.
  unfold keyed. induction rows as [|r rows IH]; simpl; [set_solver|].
  intros [Hr H]%NoDup_cons [->|Hx]%elem_of_cons [->|Hy]%elem_of_cons He; [done| | |auto].
  - exfalso. apply Hr. rewrite He. by apply list_elem_of_In, in_map, list_elem_of_In.
  - exfalso. apply Hr. rewrite <-He. by apply list_elem_of_In, in_map, list_elem_of_In.
Qed.

(** The rows of a keyed table are the values of its map. *)
Lemma to_map_rows rows : keyed rows → (map_to_list (to_map rows)).*2 ≡ₚ rows.
Proof.
  intros H. unfold to_map. rewrite map_to_list_to_map.
  - induction rows as [|r rows IH]; simpl; [done|].
    unfold keyed in H. simpl in H. apply NoDup_cons in H as [_ H]. by rewrite IH.
  - unfold keyed in H. clear -H. replace (_.*1) with (map key rows); [done|].
    induction rows as [|r rows IH]; simpl; [done|]. f_equal. apply IH. by inversion H.
Qed.

Lemma to_map_Some_key k rows r : to_map rows !! k = Some r → key r = k ∧ r ∈ rows.
Proof.
  rewrite to_map_select. intros [? ?]%select_one_Some. unfold has_key in *. by bool_prop.
Qed.
Lemma to_map_self rows r : keyed rows → r ∈ rows → to_map rows !! key r = Some r.
Proof.
  intros Hk Hr. rewrite to_map_select. destruct (select_one (has_key (key r)) rows) as [x|] eqn:E.
  - apply select_one_Some in E as [Hx E]. f_equal. unfold has_key in E. bool_prop. by eapply keyed_inj.
  - rewrite select_one_None in E. specialize (E r Hr). unfold has_key in E. by rewrite String.eqb_refl in E.
Qed.
End keyed.
