(* ===== verification/Paths.v ===== *)
(** * Paths and the filesystem (pathlib)

    Pure paths are a flag and their components; the filesystem is a finite map
    from absolute component lists to directories, files and symbolic links, the
    root being always a directory.  [realpath] is [Path.resolve()]: it follows
    links and removes ".." whether or not the components exist.  [walk] is the
    kernel's lookup, which fails on a missing component.  Both run on fuel, one
    unit a step; running out stands for a loop of links.  Text files hold the
    decoded text. *)
From S2P Require Export PyStr.

Notation path := (list string).
Record purepath := mkPath { absolute : bool; components : path }.

Definition parse_path (s : string) : purepath :=
  mkPath (startswith "/" s)
    (List.filter (λ c, negb (sempty c || String.eqb c ".")) (split_char "/" s)).

(** [base / p] for an absolute [base]. *)
Definition join_path (base : path) (p : purepath) : path :=
  if absolute p then components p else base ++ components p.

Definition as_posix (p : path) : string := sjoin "/" p.
Definition abs_str (p : path) : string := "/" +:+ sjoin "/" p.

(** [path.name] *)
Definition path_name (p : path) : string := default "" (last p).
Definition path_parent (p : path) : path := removelast p.

(** [name.rpartition(".")]: the text before the last dot, and after it. *)
Fixpoint split_last_dot (s : string) : option (string * string) :=
  match s with
  | EmptyString => None
  | String c s' =>
      match split_last_dot s' with
      | Some (a, b) => Some (String c a, b)
      | None => if Ascii.eqb c "." then Some ("", s') else None
      end
  end.
(** [path.suffix]: a last dot that is neither the first nor the last character. *)
Definition stem_suffix (name : string) : string * string :=
  match split_last_dot name with
  | Some (a, b) => if sempty a || sempty b then (name, "") else (a, "." +:+ b)
  | None => (name, "")
  end.
(** [path.with_suffix(suffix)]; a path without a name has none to change. *)
Definition with_suffix (suffix : string) (p : path) : res path :=
  if sempty (path_name p) then Raise (ValueError "PosixPath('/') has an empty name")
  else Ok (path_parent p ++ [(stem_suffix (path_name p)).1 +:+ suffix]).

Inductive fsnode := NDir | NFile (content : string) (mtime : Z) | NLink (target : purepath).
Notation fs := (gmap (list string) fsnode).

Definition lookup_node (f : fs) (p : path) : option fsnode :=
  match p with [] => Some NDir | _ => f !! p end.

Fixpoint realpath_go (fuel : nat) (f : fs) (done : path) (rest : path) : option path :=
  match fuel with
  | O => None
  | S n =>
      match rest with
      | [] => Some done
      | c :: r =>
          if String.eqb c ".." then realpath_go n f (path_parent done) r
          else match lookup_node f (done ++ [c]) with
               | Some (NLink t) => realpath_go n f (if absolute t then [] else done) (components t ++ r)
               | _ => realpath_go n f (done ++ [c]) r
               end
      end
  end.

Fixpoint walk_go (fuel : nat) (f : fs) (done : path) (rest : path) : res path :=
  match fuel with
  | O => Raise (OtherError "OSError: too many levels of symbolic links")
  | S n =>
      match rest with
      | [] => Ok done
      | c :: r =>
          match lookup_node f done with
          | Some NDir =>
              if String.eqb c ".." then walk_go n f (path_parent done) r
              else match lookup_node f (done ++ [c]) with
                   | Some (NLink t) => walk_go n f (if absolute t then [] else done) (components t ++ r)
                   | Some _ => walk_go n f (done ++ [c]) r
                   | None => match r with
                             | [] => walk_go n f (done ++ [c]) []
                             | _ => Raise (OtherError "FileNotFoundError")
                             end
                   end
          | _ => Raise (OtherError "NotADirectoryError")
          end
      end
  end.

Section filesystem.
Context (fuel : nat).
Implicit Types (f : fs) (p : path).

(** [Path(p).resolve()] *)
Definition realpath f p : res path :=
  match realpath_go fuel f [] p with
  | Some q => Ok q
  | None => Raise (RuntimeError "Symlink loop")
  end.

Definition walk f p : res path := walk_go fuel f [] p.

(** The node a path leads to, links followed. *)
Definition stat f p : res fsnode :=
  q ← walk f p;
  match lookup_node f q with Some x => Ok x | None => Raise (OtherError "FileNotFoundError") end.
Definition exists_ f p : bool := is_ok (stat f p).
Definition is_dir f p : bool := match stat f p with Ok NDir => true | _ => false end.
Definition is_file f p : bool := match stat f p with Ok (NFile _ _) => true | _ => false end.

(** [path.read_text()], with universal newlines. *)
Fixpoint universal_newlines (s : string) : string :=
  match s with
  | EmptyString => EmptyString
  | String c s' =>
      if code c =? 13 then
        match s' with
        | String d s'' => if code d =? 10 then String newline (universal_newlines s'')
                          else String newline (universal_newlines s')
        | EmptyString => nl
        end
      else String c (universal_newlines s')
  end.
Definition read_text f p : res string :=
  x ← stat f p;
  match x with
  | NFile content _ => Ok (universal_newlines content)
  | _ => Raise (OtherError "IsADirectoryError")
  end.

(** [open(path, "w")] and a write of [text] at time [now]. *)
Definition write_text (now : Z) f p (text : string) : res fs :=
  q ← walk f p;
  match lookup_node f q with
  | None | Some (NFile _ _) => Ok (<[q := NFile text now]> f)
  | _ => Raise (OtherError "IsADirectoryError")
  end.
(** [open(path, "a")]. *)
Definition append_text (now : Z) f p (text : string) : res fs :=
  q ← walk f p;
  match lookup_node f q with
  | None => Ok (<[q := NFile text now]> f)
  | Some (NFile old _) => Ok (<[q := NFile (old +:+ text) now]> f)
  | _ => Raise (OtherError "IsADirectoryError")
  end.

(** [path.mkdir(parents=True, exist_ok=True)] of a resolved path: the missing
    prefixes become directories, from the top. *)
Fixpoint mkdirs_go (done : path) (rest : path) f : res fs :=
  match rest with
  | [] => Ok f
  | c :: r =>
      let p := done ++ [c] in
      match lookup_node f p with
      | None => mkdirs_go p r (<[p := NDir]> f)
      | Some NDir => mkdirs_go p r f
      | Some (NLink _) => if is_dir f p then mkdirs_go p r f else Raise (OtherError "FileExistsError")
      | Some (NFile _ _) => Raise (OtherError (if bool_decide (r = []) then "FileExistsError" else "NotADirectoryError"))
      end
  end.
Definition mkdirs p f : res fs := mkdirs_go [] p f.
End filesystem.

(** [path.relative_to(root)], purely lexical. *)
Fixpoint relative_parts (root p : path) : option path :=
  match root, p with
  | [], _ => Some p
  | a :: root', b :: p' => if String.eqb a b then relative_parts root' p' else None
  | _ :: _, [] => None
  end.
Definition is_relative_to (root p : path) : bool := bool_decide (is_Some (relative_parts root p)).

(** ** Lemmas *)
Lemma relative_parts_Some root p r : relative_parts root p = Some r ↔ p = root ++ r.
Proof.
  revert p. induction root as [|a root IH]; intros p; simpl; [naive_solver|].
  destruct p as [|b p]; [naive_solver|]. destruct (String.eqb_spec a b) as [->|Hne].
  - rewrite IH. naive_solver.
  - naive_solver.
Qed.
Lemma is_relative_to_spec root p : is_relative_to root p = true ↔ ∃ r, p = root ++ r.
Proof.
  unfold is_relative_to. rewrite bool_decide_eq_true. split.
  - intros [r Hr%relative_parts_Some]. eauto.
  - intros [r Hr]. exists r. by apply relative_parts_Some.
Qed.

(** A path no link occurs on, without "..". *)
Definition canonical (f : fs) (p : path) : Prop :=
  ".." ∉ p ∧ ∀ q r t, p = q ++ r → lookup_node f q ≠ Some (NLink t).

Lemma canonical_nil f : canonical f [].
Proof. split; [set_solver|]. intros q r t H. destruct q; [done|discriminate]. Qed.

Lemma app_eq_snoc {A} (p : list A) c q r : p ++ [c] = q ++ r →
  (r = [] ∧ q = p ++ [c]) ∨ ∃ r', r = r' ++ [c] ∧ p = q ++ r'.
Proof.
  destruct r as [|x r _] using rev_ind; intros H.
  - left. by rewrite app_nil_r in H.
  - right. rewrite app_assoc in H. apply app_inj_tail in H as [-> ->]. eauto.
Qed.

Lemma canonical_snoc f p c : canonical f p → c ≠ ".." → (∀ t, lookup_node f (p ++ [c]) ≠ Some (NLink t)) →
  canonical f (p ++ [c]).
Proof.
  intros [Hd Hl] Hc Hn. split; [set_solver|]. intros q r t [[-> ->]|(r' & -> & ->)]%app_eq_snoc; [apply Hn|by eapply Hl].
Qed.
Lemma canonical_app f p r : canonical f (p ++ r) → canonical f p.
Proof. intros [Hd Hl]. split; [set_solver|]. intros q r' t ->. rewrite <-app_assoc in Hl. by eapply Hl. Qed.
Lemma canonical_parent f p : canonical f p → canonical f (path_parent p).
Proof.
  unfold path_parent. destruct p as [|c p _] using rev_ind; [done|]. rewrite removelast_last. apply canonical_app.
Qed.

Lemma realpath_go_canonical fuel f : ∀ d r q, canonical f d → realpath_go fuel f d r = Some q → canonical f q.
Proof.
  induction fuel as [|n IH]; intros d r q Hd; simpl; [done|]. destruct r as [|c r]; [by intros [= <-]|].
  destruct (String.eqb_spec c "..") as [->|Hc]; [apply IH; by apply canonical_parent|].
  destruct (lookup_node f (d ++ [c])) as [[|b mt|t]|] eqn:E.
  - apply IH, canonical_snoc; [done..|]. by rewrite E.
  - apply IH, canonical_snoc; [done..|]. by rewrite E.
  - apply IH. destruct (absolute t); [apply canonical_nil|done].
  - apply IH, canonical_snoc; [done..|]. by rewrite E.
Qed.
Lemma realpath_canonical fuel f p q : realpath fuel f p = Ok q → canonical f q.
Proof.
  unfold realpath. destruct (realpath_go _ _ _ _) as [x|] eqn:E; [|done]. intros [= <-].
  eapply realpath_go_canonical; [apply canonical_nil|exact E].
Qed.

(** The kernel's lookup leads a canonical path to itself. *)
Lemma walk_go_canonical fuel f : ∀ d r q, canonical f (d ++ r) → walk_go fuel f d r = Ok q → q = d ++ r.
Proof.
  induction fuel as [|n IH]; intros d r q Hc; simpl; [done|]. destruct r as [|c r]; [rewrite app_nil_r; by intros [= <-]|].
  assert (canonical f ((d ++ [c]) ++ r)) as Hc' by (by rewrite <-app_assoc).
  destruct (lookup_node f d) as [[|b mt|t]|]; try done.
  destruct (String.eqb_spec c "..") as [->|Hne]; [destruct Hc as [Hd _]; set_solver|].
  destruct (lookup_node f (d ++ [c])) as [[|b mt|t]|] eqn:E.
  - intros H. rewrite (IH _ _ _ Hc' H). by rewrite <-app_assoc.
  - intros H. rewrite (IH _ _ _ Hc' H). by rewrite <-app_assoc.
  - exfalso. destruct Hc' as [_ Hl]. by eapply Hl.
  - destruct r; [|done]. intros H. rewrite (IH _ _ _ Hc' H). by rewrite <-app_assoc.
Qed.
Lemma walk_canonical fuel f p q : canonical f p → walk fuel f p = Ok q → q = p.
Proof. intros Hc H. by apply walk_go_canonical in H. Qed.

Lemma lookup_node_insert f p q x : p ≠ [] →
  lookup_node (<[p := x]> f) q = if decide (q = p) then Some x else lookup_node f q.
Proof.
  intros Hp. destruct q as [|c q]; unfold lookup_node.
  - by rewrite decide_False.
  - destruct (decide _) as [<-|]; [apply lookup_insert_eq|by apply lookup_insert_ne].
Qed.
Lemma lookup_node_cons f p : p ≠ [] → lookup_node f p = f !! p.
Proof. by destruct p. Qed.

(** A frame: outside the given paths nothing changes. *)
Definition unchanged (f f' : fs) (inside : path → Prop) : Prop :=
  ∀ p, f' !! p = f !! p ∨ inside p.

Lemma mkdirs_go_spec fuel r : ∀ d f f', canonical f (d ++ r) → mkdirs_go fuel d r f = Ok f' →
  (∀ p, f' !! p = f !! p ∨ (f !! p = None ∧ f' !! p = Some NDir ∧ ∃ a b, a ≠ [] ∧ r = a ++ b ∧ p = d ++ a)) ∧
  canonical f' (d ++ r).
Proof.
  induction r as [|c r IH]; intros d f f' Hc; cbn [mkdirs_go]; [intros [= <-]; split; [by left|done]|].
  assert (canonical f ((d ++ [c]) ++ r)) as Hc' by (by rewrite <-app_assoc).
  assert (∀ g, mkdirs_go fuel (d ++ [c]) r g = Ok f' → canonical g ((d ++ [c]) ++ r) →
    (∀ p, f' !! p = g !! p ∨ (g !! p = None ∧ f' !! p = Some NDir ∧ ∃ a b, a ≠ [] ∧ c :: r = a ++ b ∧ p = d ++ a)) ∧
    canonical f' (d ++ c :: r)) as Hrec.
  { intros g Hm Hg. destruct (IH _ _ _ Hg Hm) as [H1 H2]. rewrite <-app_assoc in H2. split; [|exact H2].
    intros p. destruct (H1 p) as [?|(? & ? & a & b & ? & -> & ->)]; [by left|right]. split_and!; [done..|].
    exists (c :: a), b. by rewrite <-app_assoc. }
  destruct (lookup_node f (d ++ [c])) as [[|b mt|t]|] eqn:E; [by intros; apply Hrec|done| |].
  - exfalso. destruct Hc' as [_ Hl]. by eapply Hl.
  - assert (d ++ [c] ≠ []) as Hne by (by destruct d).
    assert (f !! (d ++ [c]) = None) as Hnone by (by rewrite <-lookup_node_cons).
    intros Hm. destruct (Hrec _ Hm) as [H1 H2].
    { destruct Hc' as [Hd Hl]. split; [done|]. intros q s t Hq.
      rewrite lookup_node_insert by done. case_decide; [done|by eapply Hl]. }
    split; [|done]. intros p. destruct (decide (p = d ++ [c])) as [->|Hpn].
    + right. split_and!; [done| |exists [c], r; by split_and!].
      destruct (H1 (d ++ [c])) as [->|(_ & -> & _)]; [by rewrite lookup_insert_eq|done].
    + specialize (H1 p). rewrite lookup_insert_ne in H1 by done. exact H1.
Qed.
