(* ===== verification/FileTree.v ===== *)
(** * Directory trees (shutil, os.replace)

    Copying, moving and removing a whole subtree of the filesystem of Paths.v,
    with the lookups of the result. *)
From S2P Require Export Paths.

(** The descendants of a directory, itself excluded, in the order of
    [sorted(path.rglob("*"))]: paths compare component by component. *)
Fixpoint path_leb (a b : path) : bool :=
  match a, b with
  | [], _ => true
  | _ :: _, [] => false
  | x :: a', y :: b' => if String.eqb x y then path_leb a' b' else str_leb x y
  end.
Definition strictly_under (p q : path) : bool :=
  match relative_parts p q with Some (_ :: _) => true | _ => false end.
Definition descendants (f : fs) (p : path) : list path :=
  sort_by path_leb (List.filter (strictly_under p) (map fst (map_to_list f))).

(** [shutil.rmtree(p)] *)
Definition rmtree (p : path) (f : fs) : fs := filter (λ kv, is_relative_to p kv.1 = false) f.

(** The nodes at and below [src], moved to [dst]. *)
Definition graft (src dst : path) (f : fs) : fs :=
  list_to_map (omap (λ kv, r ← relative_parts src kv.1; Some (dst ++ r, kv.2)) (map_to_list f)).
Definition copy_nodes (src dst : path) (f : fs) : fs := graft src dst f ∪ f.
(** [os.replace(src, dst)] of a directory onto a name that is free. *)
Definition rename_tree (src dst : path) (f : fs) : fs := graft src dst f ∪ rmtree src f.
(** [os.replace(src, dst)] of a file. *)
Definition rename_file (src dst : path) (f : fs) : res fs :=
  match f !! src with
  | Some x => Ok (<[dst := x]> (delete src f))
  | None => Raise (OtherError "FileNotFoundError")
  end.

Lemma rmtree_lookup p f q : rmtree p f !! q = if is_relative_to p q then None else f !! q.
Proof.
  unfold rmtree. destruct (is_relative_to p q) eqn:E.
  - apply map_lookup_filter_None. right. intros x _. cbn. by rewrite E.
  - destruct (f !! q) as [x|] eqn:Eq.
    + by apply map_lookup_filter_Some.
    + apply map_lookup_filter_None. by left.
Qed.

Lemma graft_lookup src dst f p :
  graft src dst f !! p = match relative_parts dst p with Some r => f !! (src ++ r) | None => None end.
Proof.
  unfold graft. set (l := omap _ _).
  assert (NoDup l.*1) as Hn.
  { unfold l. assert (∀ m : list (path * fsnode), NoDup m.*1 →
      NoDup (omap (λ kv, r ← relative_parts src kv.1; Some (dst ++ r, kv.2)) m).*1 ∧
      ∀ r, dst ++ r ∈ (omap (λ kv : path * fsnode, r ← relative_parts src kv.1; Some (dst ++ r, kv.2)) m).*1 → src ++ r ∈ m.*1) as H.
    { induction m as [|[q x] m IH]; [split; [constructor|by intros r ?%not_elem_of_nil]|]. cbn [fmap list_fmap]. intros [Hq Hm]%NoDup_cons.
      destruct (IH Hm) as [IH1 IH2]. cbn [omap list_omap fst]. destruct (relative_parts src q) as [r|] eqn:E; cbn [mbind option_bind].
      - apply relative_parts_Some in E as ->. cbn [fmap list_fmap fst]. split.
        + apply NoDup_cons. split; [|done]. intros Hin. by apply IH2 in Hin.
        + intros r' [E|Hin]%elem_of_cons; [apply app_inv_head in E as ->; by left|right; auto].
      - split; [done|]. intros r Hin. right. auto. }
    apply H, NoDup_fst_map_to_list. }
  destruct (relative_parts dst p) as [r|] eqn:E.
  - apply relative_parts_Some in E as ->. apply option_eq. intros x. rewrite <-elem_of_list_to_map by done.
    unfold l. rewrite list_elem_of_omap. split.
    + intros ([q y] & Hin%elem_of_map_to_list & H). cbn in H. destruct (relative_parts src q) as [r'|] eqn:E; [|done].
      apply relative_parts_Some in E as ->. cbn in H. injection H as Hr <-. by apply app_inv_head in Hr as ->.
    + intros H. exists (src ++ r, x). split; [by apply elem_of_map_to_list|]. cbn.
      by rewrite (proj2 (relative_parts_Some src (src ++ r) r) eq_refl).
  - apply not_elem_of_list_to_map. intros ([p' x] & -> & Hin)%list_elem_of_fmap. unfold l in Hin.
    apply list_elem_of_omap in Hin as ([q y] & _ & H). cbn in H. destruct (relative_parts src q) as [r|]; [|done].
    injection H as <- <-. cbn in E. by rewrite (proj2 (relative_parts_Some dst (dst ++ r) r) eq_refl) in E.
Qed.

Lemma union_lookup (m1 m2 : fs) p : (m1 ∪ m2) !! p = match m1 !! p with Some x => Some x | None => m2 !! p end.
Proof. rewrite lookup_union. destruct (m1 !! p), (m2 !! p); done. Qed.

Lemma copy_nodes_lookup src dst f p :
  copy_nodes src dst f !! p =
  match relative_parts dst p with
  | Some r => match f !! (src ++ r) with Some x => Some x | None => f !! p end
  | None => f !! p
  end.
Proof. unfold copy_nodes. rewrite union_lookup, graft_lookup. by destruct (relative_parts dst p). Qed.
Lemma rename_tree_lookup src dst f p :
  rename_tree src dst f !! p =
  match relative_parts dst p with
  | Some r => match f !! (src ++ r) with Some x => Some x | None => rmtree src f !! p end
  | None => rmtree src f !! p
  end.
Proof. unfold rename_tree. rewrite union_lookup, graft_lookup. by destruct (relative_parts dst p). Qed.
