(* ===== verification/Recurrence.v ===== *)
(** * Recurrence of schedules (agent_os/schedule_recurrence.py)

    Times are instants in microseconds since the epoch, as [datetime] holds
    them (aware, UTC); durations are [timedelta]s in microseconds.  Both are
    bounded, and arithmetic beyond the bounds raises [OverflowError].  The cron
    calendar ([croniter], a third-party package) and the zone database are
    parameters. *)
From S2P Require Export PyVal PyRe.

Definition usec : Z := 1000000.
(** [datetime.min] and [datetime.max], as instants. *)
Definition dt_min : Z := -62135596800 * usec.
Definition dt_max : Z := 253402300799 * usec + 999999.
(** [timedelta.max] in days; the constructor and arithmetic check it. *)
Definition max_days : Z := 999999999.

Definition timedelta_ok (d : Z) : bool :=
  (- max_days * 86400 * usec <=? d) && (d <=? max_days * 86400 * usec + 86399 * usec + 999999).
Definition timedelta (d : Z) : res Z :=
  if timedelta_ok d then Ok d
  else Raise (OverflowError "days out of range; must have magnitude <= 999999999").
Definition datetime_ok (t : Z) : bool := (dt_min <=? t) && (t <=? dt_max).
(** [t + d] *)
Definition dt_add (t d : Z) : res Z :=
  if datetime_ok (t + d) then Ok (t + d) else Raise (OverflowError "date value out of range").

(** [^(?P<value>\d+)\s*(?P<unit>[smhd])?$], ignoring case. *)
Definition unit_char (c : ascii) : bool := existsb (Ascii.eqb (lower_char c)) ["s"; "m"; "h"; "d"]%char.
Definition INTERVAL_RE : re :=
  Seqs [Bos; Grp 1 (Plus (Cls is_digit)); Star (Cls is_space); Opt (Grp 2 (Cls unit_char)); Eos].

Definition unit_seconds (u : string) : Z :=
  if String.eqb u "s" then 1 else if String.eqb u "m" then 60
  else if String.eqb u "h" then 3600 else 86400.

(** [int(s)] on decimal digits; Python refuses more than 4300 of them. *)
Definition digits_val (s : string) : Z :=
  (fix go (s : string) (acc : Z) := match s with
     | EmptyString => acc | String c s' => go s' (acc * 10 + (code c - 48)) end) s 0.
Definition int_of_digits (s : string) : res Z :=
  if (4300 <? String.length s)%nat then Raise (ValueError "Exceeds the limit (4300 digits) for integer string conversion")
  else Ok (digits_val s).

Definition parse_interval (value : string) : res Z :=
  match re_match INTERVAL_RE (strip value) with
  | None => Raise (ValueError ("Invalid interval " +:+ repr_str value +:+
              "; expected a positive integer with optional unit (s/m/h/d)"))
  | Some g =>
      num ← int_of_digits (default "" (group 1 g));
      let unit := lower (default "s"%string (group 2 g)) in
      let total_seconds := num * unit_seconds unit in
      if total_seconds <=? 0 then Raise (ValueError ("Interval must be positive, got " +:+ repr_str value))
      else timedelta (total_seconds * usec)
  end.

(** croniter and the zone database: whether a zone is known, whether an
    expression is accepted (else the message), and the next occurrence of an
    expression in a zone after an instant. *)
Class Cron := {
  zone_known : string → bool;
  cron_error : string → option string;
  cron_next : string → string → Z → res Z }.

Section recurrence.
Context `{Cron}.

Definition validate_cron (expression timezone : string) : res unit :=
if negb (zone_known timezone) then Raise (ValueError ("Unknown timezone " +:+ repr_str timezone))
else if negb (length (split_ws expression) =? 5)%nat then
  Raise (ValueError ("Invalid cron expression " +:+ repr_str expression +:+ ": must have exactly 5 fields"))
else match cron_error expression with
     | Some exc => Raise (ValueError ("Invalid cron expression " +:+ repr_str expression +:+ ": " +:+ exc))
     | None => Ok tt
     end.

Definition unknown_kind (k : string) : exn := ValueError ("Unknown trigger_kind " +:+ repr_str k).

Definition next_run_at (trigger_kind trigger_value timezone : string) (after : Z) : res Z :=
if String.eqb trigger_kind "cron" then cron_next trigger_value timezone after
else if String.eqb trigger_kind "interval" then
  delta ← parse_interval trigger_value; dt_add after delta
else Raise (unknown_kind trigger_kind).

Definition coalesce_next_run (trigger_kind trigger_value timezone : string) (persisted now : Z)
  : res Z :=
if now <? persisted then Ok persisted
else if String.eqb trigger_kind "cron" then next_run_at trigger_kind trigger_value timezone now
else if String.eqb trigger_kind "interval" then
  delta ← parse_interval trigger_value;
  let elapsed := now - persisted in
  let skips := elapsed / delta + 1 in
  d ← timedelta (delta * skips);
  dt_add persisted d
else Raise (unknown_kind trigger_kind).

(** ** Theorems *)

(** What the documentation of [croniter] says of the next occurrence. *)
Definition cron_strict : Prop :=
∀ e tz t t', cron_next e tz t = Ok t' → t < t'.

Lemma parse_interval_pos v d : parse_interval v = Ok d → 0 < d ∧ timedelta_ok d = true.
Proof.
unfold parse_interval. destruct (re_match _ _) as [g|]; [|done].
intros (num & _ & Hd)%res_bind_ok. destruct (Z.leb_spec (num * unit_seconds (lower (default "s" (group 2 g)))) 0);
  [done|]. unfold timedelta in Hd. destruct (timedelta_ok _) eqn:E; [|done]. injection Hd as <-.
split; [unfold usec; lia|done].
Qed.

(** Coalescing missed fires of an interval: the next run is the first
  instant after now that lies a whole number of intervals after the
  persisted one, or the persisted one itself if that is still ahead. *)
Theorem coalesce_interval_first v tz persisted now t d :
coalesce_next_run "interval" v tz persisted now = Ok t → parse_interval v = Ok d →
now < t ∧ (∃ n, 0 ≤ n ∧ t = persisted + n * d) ∧
(∀ n, 0 ≤ n → now < persisted + n * d → t ≤ persisted + n * d).
Proof.
unfold coalesce_next_run. intros Ht Hd. pose proof (parse_interval_pos v d Hd) as [Hpos _].
destruct (Z.ltb_spec now persisted).
- injection Ht as <-. split; [done|]. split; [exists 0; lia|]. intros n Hn _. nia.
- simpl in Ht. rewrite Hd in Ht. simpl in Ht. apply res_bind_ok in Ht as (d' & Hd' & Ht).
  unfold timedelta in Hd'. destruct (timedelta_ok _); [|done]. injection Hd' as <-.
  unfold dt_add in Ht. destruct (datetime_ok _); [|done]. injection Ht as <-.
  pose proof (Z.div_mod (now - persisted) d). pose proof (Z.mod_pos_bound (now - persisted) d Hpos).
  assert (0 ≤ (now - persisted) / d) by (apply Z.div_pos; lia).
  split; [nia|]. split; [exists ((now - persisted) / d + 1); lia|].
  intros n Hn Hlt. assert ((now - persisted) / d + 1 ≤ n) by nia. nia.
Qed.

(** The next fire of any trigger is strictly later. *)
Lemma coalesce_after k v tz persisted now t : cron_strict →
coalesce_next_run k v tz persisted now = Ok t → now < t.
Proof.
intros Hc. unfold coalesce_next_run. destruct (Z.ltb_spec now persisted); [by intros [= <-]|].
destruct (String.eqb_spec k "cron") as [->|]; [apply Hc|].
destruct (String.eqb_spec k "interval") as [->|]; [|done].
intros (d & Hd & H')%res_bind_ok. pose proof (parse_interval_pos v d Hd) as [Hpos _].
apply res_bind_ok in H' as (d' & Hd' & Ht).
unfold timedelta in Hd'. destruct (timedelta_ok _); [|done]. injection Hd' as <-.
unfold dt_add in Ht. destruct (datetime_ok _); [|done]. injection Ht as <-.
pose proof (Z.div_mod (now - persisted) d). pose proof (Z.mod_pos_bound (now - persisted) d Hpos). nia.
Qed.

Lemma next_run_after k v tz after t : cron_strict → next_run_at k v tz after = Ok t → after < t.
Proof.
intros Hc. unfold next_run_at. destruct (String.eqb k "cron"); [apply Hc|].
destruct (String.eqb k "interval"); [|done]. intros (d & Hd & Ht)%res_bind_ok.
pose proof (parse_interval_pos v d Hd) as [Hpos _].
unfold dt_add in Ht. destruct (datetime_ok _); [|done]. injection Ht as <-. lia.
Qed.
End recurrence.

(** ** Intervals *)
Lemma interval_match ds ws u :
  ds ≠ "" → sforall is_digit ds = true → sforall is_space ws = true →
  u = "" ∨ (∃ c, u = String c "" ∧ unit_char c = true) →
  re_match INTERVAL_RE (ds +:+ ws +:+ u)
  = Some ((if sempty u then [] else [(2%nat, u)]) ++ [(1%nat, ds)]).
Proof.
  intros Hne Hds Hws Hu. unfold re_match, INTERVAL_RE, Seqs. cbn [foldr].
  assert (match head_char (ws +:+ u) with Some c => is_digit c = false | None => True end) as Hh.
  { destruct ws as [|w ws].
    - destruct Hu as [->|(c & -> & Hc)]; simpl; [done|].
      destruct c as [[] [] [] [] [] [] [] []]; try discriminate Hc; done.
    - simpl in *. apply andb_true_iff in Hws as [Hw _].
      destruct w as [[] [] [] [] [] [] [] []]; try discriminate Hw; done. }
  assert (match head_char u with Some c => is_space c = false | None => True end) as Hu2.
  { destruct Hu as [->|(c & -> & Hc)]; simpl; [done|].
    destruct c as [[] [] [] [] [] [] [] []]; try discriminate Hc; done. }
  change (m (Seq (Grp 1 (Plus (Cls is_digit)))
            (Seq (Star (Cls is_space)) (Seq (Opt (Grp 2 (Cls unit_char))) (Seq Eos Eps))))
          None (ds +:+ ws +:+ u) [] (λ _ _ g, Some g)
    = Some ((if sempty u then [] else [(2%nat, u)]) ++ [(1%nat, ds)])).
  cbn [m]. apply plus_cls_greedy; [done|done|done|].
  assert (stake (String.length (ds +:+ ws +:+ u) - String.length (ws +:+ u)) (ds +:+ ws +:+ u) = ds) as ->.
  { rewrite slen_app, Nat.add_sub. apply stake_app. }
  apply star_cls_greedy; [done|rewrite slen_app; lia|done|].
  destruct Hu as [->|(c & -> & Hc)]; simpl; [done|]. by rewrite Hc.
Qed.

(** The default unit is the second. *)
Definition unit_of (u : string) : string := if sempty u then "s" else lower u.

(** [parse_interval] accepts exactly decimal digits, optional white space
    and an optional unit among [smhd] in either case (after stripping), and
    returns their product in microseconds; it must be positive and within the
    range of [timedelta]. *)
Theorem parse_interval_spec v d :
  parse_interval v = Ok d ↔
  ∃ ds ws u, strip v = ds +:+ ws +:+ u ∧ ds ≠ "" ∧ sforall is_digit ds = true ∧
    (String.length ds ≤ 4300)%nat ∧ sforall is_space ws = true ∧
    (u = "" ∨ ∃ c, u = String c "" ∧ unit_char c = true) ∧
    d = digits_val ds * unit_seconds (unit_of u) * usec ∧ 0 < d ∧ timedelta_ok d = true.
Proof.
  assert (∀ ds ws u, strip v = ds +:+ ws +:+ u → ds ≠ "" → sforall is_digit ds = true →
    sforall is_space ws = true → (u = "" ∨ ∃ c, u = String c "" ∧ unit_char c = true) →
    parse_interval v = num ← int_of_digits ds;
      let total := num * unit_seconds (unit_of u) in
      if total <=? 0 then Raise (ValueError ("Interval must be positive, got " +:+ repr_str v))
      else timedelta (total * usec)) as Hp.
  { intros ds ws u Hs Hne Hds Hws Hu. unfold parse_interval. rewrite Hs, (interval_match ds ws u) by done.
    destruct Hu as [->|(c & -> & _)]; reflexivity. }
  split.
  - intros H. assert (∃ ds ws u, strip v = ds +:+ ws +:+ u ∧ ds ≠ "" ∧ sforall is_digit ds = true ∧
      sforall is_space ws = true ∧ (u = "" ∨ ∃ c, u = String c "" ∧ unit_char c = true))
      as (ds & ws & u & Hs & Hne & Hds & Hws & Hu).
    { unfold parse_interval in H. destruct (re_match INTERVAL_RE (strip v)) as [g|] eqn:E; [|done].
      apply m_sound in E as (s & t & g' & Hst & Hl & _). unfold INTERVAL_RE, Seqs in Hl. cbn [foldr] in Hl.
      apply lang_seq_inv in Hl as (s0 & s1 & -> & ->%lang_bos_inv & Hl).
      apply lang_seq_inv in Hl as (ds & s2 & -> & [Hne Hds]%lang_grp_inv%lang_plus_cls_inv & Hl).
      apply lang_seq_inv in Hl as (ws & s3 & -> & H2%lang_star_cls_inv & Hl).
      apply lang_seq_inv in Hl as (u & s4 & -> & H3 & Hl).
      apply lang_seq_inv in Hl as (s5 & s6 & -> & [-> Ht]%lang_eos_inv & ->%lang_eps_inv).
      simpl in Hst. rewrite sapp_nil_r in Hst. simpl in Ht.
      assert (u = "" ∨ ∃ c, u = String c "" ∧ unit_char c = true) as Hu.
      { apply lang_alt_inv in H3 as [H3%lang_grp_inv%lang_cls_inv|H3%lang_eps_inv]; auto. }
      exists ds, ws, u. split_and!; try done. destruct Ht as [->| ->]; [by rewrite Hst, !sapp_assoc, sapp_nil_r|].
      exfalso.
      assert (strip v = (ds +:+ ws +:+ u) +:+ String newline "") as Hn by (by rewrite Hst, !sapp_assoc).
      apply strip_last in Hn. by vm_compute in Hn. }
    rewrite (Hp ds ws u) in H by done. apply res_bind_ok in H as (num & Hnum & H).
    unfold int_of_digits in Hnum. destruct (Nat.ltb_spec 4300 (String.length ds)) as [|Hle]; [done|].
    injection Hnum as <-. cbn zeta in H.
    destruct (Z.leb_spec (digits_val ds * unit_seconds (unit_of u)) 0); [done|].
    unfold timedelta in H. destruct (timedelta_ok _) eqn:Et; [|done]. injection H as <-.
    exists ds, ws, u. split_and!; try done. unfold usec. lia.
  - intros (ds & ws & u & Hs & Hne & Hds & Hlen & Hws & Hu & -> & Hpos & Hok).
    rewrite (Hp ds ws u) by done. unfold int_of_digits.
    rewrite (proj2 (Nat.ltb_ge 4300 (String.length ds))) by lia. simpl.
    destruct (Z.leb_spec (digits_val ds * unit_seconds (unit_of u)) 0); [unfold usec in Hpos; nia|].
    unfold timedelta. by rewrite Hok.
Qed.

(** A number of days beyond [timedelta] raises [OverflowError], which is no
    [ValueError]. *)
Lemma parse_interval_overflow :
  parse_interval "1000000000d" = Raise (OverflowError "days out of range; must have magnitude <= 999999999").
Proof. by vm_compute. Qed.

(** Instances for the witnesses: no zone known, and a fire every minute. *)
Definition no_cron : Cron := {| zone_known _ := false; cron_error _ := None; cron_next _ _ _ := Ok 0 |}.
Definition minutely : Cron :=
  {| zone_known := String.eqb "UTC"; cron_error _ := None; cron_next _ _ t := Ok (t + 60 * usec) |}.
Lemma minutely_strict : cron_strict (H:=minutely).
Proof. intros e tz t t' [= <-]. unfold usec. lia. Qed.
Lemma coalesce_interval_first_witness :
  coalesce_next_run (H:=no_cron) "interval" " 5m" "UTC" 1000 (1000 + 7 * 60 * usec)
    = Ok (1000 + 10 * 60 * usec) ∧
  1000 + 7 * 60 * usec < 1000 + 10 * 60 * usec.
Proof.
  split; [reflexivity|].
  apply (coalesce_interval_first (H:=no_cron) " 5m" "UTC" 1000 (1000 + 7 * 60 * usec)
    (1000 + 10 * 60 * usec) (300 * usec)); reflexivity.
Defined.
