(* ===== verification/Schemas.v ===== *)
(** * The shared data of the agents (agent_os/schemas.py, agent_os/connectors.py)

    Action proposals, execution results, policy decisions and memory-write
    results.  A pydantic [Literal] is an inductive type: a value of the model
    has passed its validation. *)
From S2P Require Export PyVal.

Inductive SideEffect :=
  | se_none | se_read | se_write | se_network | se_payment | se_communication | se_privileged.
#[export] Instance SideEffect_eq_dec : EqDecision SideEffect.
Proof. solve_decision. Defined.

Definition side_effect_str (s : SideEffect) : string :=
  match s with
  | se_none => "none" | se_read => "read" | se_write => "write" | se_network => "network"
  | se_payment => "payment" | se_communication => "communication" | se_privileged => "privileged"
  end.

Definition MEMORY_WRITE_MODES : list string := ["append"; "create"; "overwrite"].
Definition mem_str (s : string) (l : list string) : bool := existsb (String.eqb s) l.

Record ActionProposal := mkProposal {
  ap_tool : string;
  ap_arguments : pydict;
  ap_reason : string;
  ap_side_effect : SideEffect;
  ap_connector : option string }.

Record MemoryWriteProposal := mkMemProposal {
  mp_connector : string;
  mp_ref : string;
  mp_mode : string;
  mp_content_preview : string;
  mp_side_effect : string }.

Inductive exec_status := completed | failed | cancelled | waiting.
#[export] Instance exec_status_eq_dec : EqDecision exec_status.
Proof. solve_decision. Defined.
Definition exec_status_str (s : exec_status) : string :=
  match s with
  | completed => "completed" | failed => "failed" | cancelled => "cancelled" | waiting => "waiting"
  end.

Record ExecutionResult := mkExec {
  er_status : exec_status;
  er_outputs : pydict;
  er_artifacts : list string;
  er_errors : list string }.

Inductive verdict := allow | deny | require_approval.
#[export] Instance verdict_eq_dec : EqDecision verdict.
Proof. solve_decision. Defined.

Record PolicyDecision := mkDecision {
  pd_decision : verdict;
  pd_policy_id : string;
  pd_reason : string }.

(** [MemoryWriteResult] of connectors.py. *)
Record MemoryWriteResult := mkWriteResult {
  wr_ref : string;
  wr_mode : string;
  wr_bytes_written : option Z;
  wr_committed : bool;
  wr_status : string;
  wr_error : option string }.

(** The result object as a Python value, for [ExecutionResult.outputs]. *)
Definition write_result_val (w : MemoryWriteResult) : pyval :=
  VObj "MemoryWriteResult"
    [("ref", VStr (wr_ref w)); ("mode", VStr (wr_mode w));
     ("bytes_written", from_option VInt VNone (wr_bytes_written w));
     ("committed", VBool (wr_committed w)); ("status", VStr (wr_status w));
     ("error", from_option VStr VNone (wr_error w))].

Lemma mem_str_iff s l : mem_str s l = true ↔ s ∈ l.
Proof.
  unfold mem_str. rewrite existsb_exists. split.
  - intros (x & Hx & E). bool_prop. subst. by apply list_elem_of_In.
  - intros H. exists s. split; [by apply list_elem_of_In|by apply String.eqb_eq].
Qed.
