(* ===== verification/Sandbox.v ===== *)
(** * The sandbox and the tools confined to it (agent_os/sandbox.py, agent_os/tools/)

    The environment variable, the working directory and the override of the
    context variable are a record; every tool takes it with the filesystem.
    What [os.walk], [iterdir] and a subprocess do is a parameter.  An [OSError]
    is named by its class. *)
From S2P Require Import Json.
From S2P Require Export OutputLimits Schemas Paths.

(** [os.environ["AGENT_OS_SANDBOX"]], the working directory, and the value of
    the context variable. *)
Record senv := mkSenv {
  agent_os_sandbox : option string;
  cwd : path;
  sandbox_override : option path }.

Definition set_override (o : option path) (e : senv) : senv :=
  mkSenv (agent_os_sandbox e) (cwd e) o.

(** The outcome of [subprocess.run]: texts are code points. *)
Inductive process :=
  | Exited (returncode : Z) (stdout stderr : list Z)
  | TimeoutExpired (stdout stderr : list Z)
  | NoProgram (msg : string)
  | ProcessError (e : exn).

Record BashResult := mkBash {
  args : list string; returncode : option Z; b_stdout : list Z; b_stderr : list Z;
  timed_out : bool; truncated : bool }.
Record GrepMatch := mkMatch { gm_path : string; gm_line : Z; gm_text : string }.

Section sandbox.
Context (fuel : nat).
Implicit Types (e : senv) (f : fs).

Definition configured_sandbox_root e f : res path :=
  realpath fuel f (join_path (cwd e) (parse_path (default "./sandbox" (agent_os_sandbox e)))).

Definition get_sandbox_root e f : res path :=
  match sandbox_override e with
  | Some override => Ok override
  | None => configured_sandbox_root e f
  end.

Definition get_read_root e f : res path :=
  match sandbox_override e with
  | Some override => Ok override
  | None =>
      match agent_os_sandbox e with
      | Some s => if truthy s then realpath fuel f (join_path (cwd e) (parse_path s)) else realpath fuel f (cwd e)
      | None => realpath fuel f (cwd e)
      end
  end.

Definition workspace_repr (workspace : option string) : string := from_option repr_str "None" workspace.

Definition resolve_workspace_root (workspace : option string) e f : res path :=
  base ← configured_sandbox_root e f;
  let requested :=
    match workspace with
    | Some w => if truthy w && truthy (strip w) then join_path base (parse_path w) else base
    | None => base
    end in
  resolved ← realpath fuel f requested;
  if negb (is_relative_to base resolved) then
    Raise (ValueError ("Workspace " +:+ workspace_repr workspace +:+ " resolves outside the sandbox"))
  else if negb (is_dir fuel f resolved) then
    Raise (ValueError ("Workspace " +:+ workspace_repr workspace +:+ " is not an existing directory"))
  else Ok resolved.

(** [with sandbox_scope(workspace) as root: body]; the token restores the
    override of before, however the body ends. *)
Definition sandbox_scope {A} (workspace : option string)
    (body : path → senv * fs → res A * (senv * fs)) (st : senv * fs) : res A * (senv * fs) :=
  let '(e, f) := st in
  match resolve_workspace_root workspace e f with
  | Raise exc => (Raise exc, st)
  | Ok resolved =>
      let '(r, (e', f')) := body resolved (set_override (Some resolved) e, f) in
      (r, (set_override (sandbox_override e) e', f'))
  end.

Definition resolve_sandbox_path (p : string) e f : res path :=
  sandbox_root ← get_sandbox_root e f;
  resolved_path ← realpath fuel f (join_path sandbox_root (parse_path p));
  if is_relative_to sandbox_root resolved_path then Ok resolved_path
  else Raise (ValueError ("Path " +:+ p +:+ " resolves outside the sandbox")).

(** ** The tools *)
Definition byte_length (s : string) : Z := Z.of_nat (String.length (utf8 s)).

(** [edit_file]: the path of the result and the bytes written. *)
Definition edit_file (now : Z) (p content : string) e f : res (string * Z) * fs :=
  match resolve_sandbox_path p e f with
  | Raise exc => (Raise exc, f)
  | Ok resolved_path =>
      if is_dir fuel f resolved_path then
        (Raise (ValueError ("Path " +:+ p +:+ " resolves to a directory, cannot edit file")), f)
      else
        match mkdirs fuel (path_parent resolved_path) f with
        | Raise exc => (Raise exc, f)
        | Ok f1 =>
            match write_text fuel now f1 resolved_path content with
            | Raise exc => (Raise exc, f1)
            | Ok f2 => (Ok (p, byte_length content), f2)
            end
        end
  end.

Definition outside_project : exn := ValueError "Path is outside project root".

Definition read_file (p : string) e f : res (string * string) :=
  root ← get_read_root e f;
  target ← realpath fuel f (join_path root (parse_path p));
  if negb (is_relative_to root target) then Raise outside_project
  else if negb (is_file fuel f target) then Raise (OtherError ("FileNotFoundError: File not found: " +:+ p))
  else content ← read_text fuel f target; Ok (p, content).

(** The lines of a text file, each with its newline. *)
Fixpoint text_lines (s : string) : list string :=
  match s with
  | EmptyString => []
  | String c s' =>
      if Ascii.eqb c newline then nl :: text_lines s'
      else match text_lines s' with
           | l :: ls => String c l :: ls
           | [] => [String c EmptyString]
           end
  end.
Fixpoint rstrip_newlines (s : string) : string :=
  match s with
  | EmptyString => EmptyString
  | String c s' =>
      match rstrip_newlines s' with
      | EmptyString => if Ascii.eqb c newline then EmptyString else String c EmptyString
      | r => String c r
      end
  end.

Definition skipped_dirs : list string := [".git"; "__pycache__"; ".venv"].
Definition dir_skipped (dp : path) : bool := existsb (λ d, mem_str d dp) skipped_dirs.

(** The matches of one file.  An exception that the loop does not catch
    escapes. *)
Definition grep_file (query : string) (root fpath : path) f : res (list GrepMatch) :=
  match read_text fuel f fpath with
  | Ok content =>
      res_all (List.concat (map (λ '(i, line),
        if contains query line then
          [match relative_parts root fpath with
           | Some rel => Ok (mkMatch (as_posix rel) i (rstrip_newlines line))
           | None => Raise (ValueError (abs_str fpath +:+ " is not in the subpath of " +:+ abs_str root))
           end]
        else [])
        (imap (λ i line, (Z.of_nat i + 1, line)) (text_lines content))))
  | Raise exc =>
      if mem_str (exn_msg exc) ["IsADirectoryError"; "PermissionError"] then Ok [] else Raise exc
  end.

(** Keep the paths whose resolution is under the root. *)
Fixpoint resolved_under (root : path) (l : list path) f : res (list path) :=
  match l with
  | [] => Ok []
  | fpath :: l' =>
      q ← realpath fuel f fpath;
      r ← resolved_under root l' f;
      Ok (if is_relative_to root q then fpath :: r else r)
  end.

Definition files_below (os_walk : fs → path → list (path * list string)) (root target_dir : path) f
    : res (list path) :=
  resolved_under root
    (flat_map (λ '(dp, filenames), if dir_skipped dp then [] else map (λ n, dp ++ [n]) filenames)
       (os_walk f target_dir)) f.

Definition grep (os_walk : fs → path → list (path * list string)) (query p : string) e f : res (list GrepMatch) :=
  root ← get_read_root e f;
  target_dir ← realpath fuel f (join_path root (parse_path p));
  if negb (is_relative_to root target_dir) then Raise outside_project
  else
    files_to_search ← (if is_file fuel f target_dir then Ok [target_dir] else files_below os_walk root target_dir f);
    matches ← res_all (map (λ fpath, grep_file query root fpath f) files_to_search);
    Ok (concat matches).

(** ** Subprocesses *)
(** [bash]; [run args cwd timeout_seconds f] is what the process does. *)
Definition bash (run : list string → path → Z → fs → process * fs) (cmd_args : list string)
    (timeout_seconds : Z) e f : res BashResult * fs :=
  match cmd_args with
  | [] => (Raise (ValueError "Args list cannot be empty"), f)
  | _ =>
      match (root ← get_sandbox_root e f; f1 ← mkdirs fuel root f; Ok (root, f1)) with
      | Raise exc => (Raise exc, f)
      | Ok (root, f1) =>
          let '(out, f2) := run cmd_args root timeout_seconds f1 in
          (match out with
           | Exited code stdout stderr =>
               '(stdout, trunc_out) ← truncate_utf8 stdout BASH_OUTPUT_MAX_BYTES;
               '(stderr, trunc_err) ← truncate_utf8 stderr BASH_OUTPUT_MAX_BYTES;
               Ok (mkBash cmd_args (Some code) stdout stderr false (trunc_out || trunc_err))
           | TimeoutExpired stdout stderr =>
               '(stdout, trunc_out) ← truncate_utf8 stdout BASH_OUTPUT_MAX_BYTES;
               '(stderr, trunc_err) ← truncate_utf8 stderr BASH_OUTPUT_MAX_BYTES;
               Ok (mkBash cmd_args None stdout stderr true (trunc_out || trunc_err))
           | NoProgram msg =>
               '(stderr, cut) ← truncate_utf8 (codes msg) BASH_OUTPUT_MAX_BYTES;
               Ok (mkBash cmd_args (Some (-1)) [] stderr false cut)
           | ProcessError exc => Raise exc
           end, f2)
      end
  end.

Definition run_tests (run : list string → path → Z → fs → process * fs) (sys_executable : string)
    (pytest_args : option (list string)) (timeout_seconds : Z) e f : res BashResult * fs :=
  bash run ([sys_executable; "-m"; "pytest"]%string ++ default [] pytest_args) timeout_seconds e f.

(** ** The filesystem connector *)
Definition FilesystemConnector_invoke (iterdir : fs → path → list string) (dir_size : fs → path → Z)
    (action : string) (a : pydict) e f : res ExecutionResult :=
  let fail msg := Ok (mkExec failed [] [] [msg]) in
  if negb (mem_str action ["read"; "list"; "stat"]) then fail ("Unsupported action: " +:+ action)
  else
    match dget "path" a with
    | None => fail "Missing argument: path"
    | Some v =>
        if negb (py_truthy v) then fail "Missing argument: path"
        else match v with
        | VStr p =>
            match resolve_sandbox_path p e f with
            | Raise (ValueError msg) => fail msg
            | Raise exc => Raise exc
            | Ok resolved =>
                let outputs :=
                  if String.eqb action "read" then
                    content ← read_text fuel f resolved; Ok [("content", VStr content)]
                  else
                    x ← stat fuel f resolved;
                    if String.eqb action "list" then
                      match x with
                      | NDir => Ok [("items", VList (map VStr (iterdir f resolved)))]
                      | _ => Raise (OtherError "NotADirectoryError")
                      end
                    else
                      Ok [("size", VInt (match x with NFile content _ => byte_length content | _ => dir_size f resolved end));
                          ("is_dir", VBool (is_dir fuel f resolved))] in
                match outputs with
                | Ok o => Ok (mkExec completed o [] [])
                | Raise exc => fail ("Filesystem error: " +:+ exn_msg exc)
                end
            end
        | _ => Raise (TypeError "expected str, bytes or os.PathLike object")
        end
    end.
End sandbox.

(** ** Confinement *)
Section confinement.
Context (fuel : nat).
Implicit Types (e : senv) (f : fs) (p q root : path).

Lemma resolve_sandbox_path_Ok s e f q : resolve_sandbox_path fuel s e f = Ok q →
  canonical f q ∧ ∃ root rel, get_sandbox_root fuel e f = Ok root ∧ q = root ++ rel.
Proof.
  unfold resolve_sandbox_path. intros (root & Hroot & (q' & Hq & H)%res_bind_ok)%res_bind_ok.
  destruct (is_relative_to root q') eqn:E; [|done]. injection H as ->.
  apply is_relative_to_spec in E as [rel ->]. split; [by eapply realpath_canonical|eauto].
Qed.

(** The paths that lead nowhere else. *)
Definition same_links f f' : Prop :=
  ∀ p t, lookup_node f p = Some (NLink t) ↔ lookup_node f' p = Some (NLink t).

Lemma realpath_go_same_links f f' : same_links f f' → ∀ n d r, realpath_go n f d r = realpath_go n f' d r.
Proof.
  intros Hl n. induction n as [|n IH]; intros d r; simpl; [done|]. destruct r as [|c r]; [done|].
  destruct (String.eqb c ".."); [apply IH|].
  destruct (lookup_node f (d ++ [c])) as [[|b mt|t]|] eqn:E; destruct (lookup_node f' (d ++ [c])) as [[|b' mt'|t']|] eqn:E';
    try apply IH; try (apply Hl in E; congruence); try (apply Hl in E'; congruence).
  apply Hl in E. assert (t = t') as -> by congruence. apply IH.
Qed.
Lemma realpath_same_links f f' p : same_links f f' → realpath fuel f p = realpath fuel f' p.
Proof. intros H. unfold realpath. by rewrite (realpath_go_same_links f f' H). Qed.

(** What [edit_file] may have changed once the target is [q]: the missing
    directories above [q] and [q] itself. *)
Definition edited f f' q (content : string) (now : Z) : Prop :=
  ∀ p, f' !! p = f !! p
    ∨ (p = q ∧ f' !! p = Some (NFile content now) ∧ (f !! p = None ∨ ∃ old mt, f !! p = Some (NFile old mt)))
    ∨ (f !! p = None ∧ f' !! p = Some NDir ∧ ∃ c r, q = p ++ c :: r).

Lemma path_parent_app q : q ≠ [] → q = path_parent q ++ [path_name q].
Proof.
  intros Hq. unfold path_parent, path_name. destruct q as [|c q _] using rev_ind; [done|].
  by rewrite removelast_last, last_snoc.
Qed.

Lemma mkdirs_parent f f1 q : canonical f q → mkdirs fuel (path_parent q) f = Ok f1 →
  (∀ p, f1 !! p = f !! p ∨ (f !! p = None ∧ f1 !! p = Some NDir ∧ ∃ c r, q = p ++ c :: r)) ∧ canonical f1 q.
Proof.
  intros Hc Hm. destruct (mkdirs_go_spec fuel (path_parent q) [] f f1) as [H1 H2]; [by apply canonical_parent|done|].
  assert (∀ p, f1 !! p = f !! p ∨ (f !! p = None ∧ f1 !! p = Some NDir ∧ ∃ c r, q = p ++ c :: r)) as H.
  { intros p. destruct (H1 p) as [?|(Hn & Hd & a & b & Ha & Heq & ->)]; [by left|right]. split_and!; [done..|].
    destruct (decide (q = [])) as [->|Hq]; [by destruct a|]. rewrite (path_parent_app q Hq), Heq.
    destruct b as [|x b]; simpl; [exists (path_name q), []; by rewrite !app_nil_r|].
    exists x, (b ++ [path_name q]). by rewrite <-app_assoc. }
  split; [done|]. destruct (decide (q = [])) as [->|Hq]; [apply canonical_nil|].
  rewrite (path_parent_app q Hq). apply canonical_snoc; [exact H2| |].
  - intros E. destruct Hc as [Hd _]. apply Hd. rewrite (path_parent_app q Hq), E. set_solver.
  - rewrite <-path_parent_app by done. intros t. rewrite lookup_node_cons by done.
    destruct (H q) as [->|(_ & -> & _)]; [|done]. destruct Hc as [_ Hl]. rewrite <-lookup_node_cons by done.
    by apply (Hl q []); rewrite app_nil_r.
Qed.

Lemma edited_same_links f f' q content now : edited f f' q content now → same_links f f'.
Proof.
  intros H p t. destruct p as [|c p]; [done|]. simpl. specialize (H (c :: p)).
  destruct H as [->|[(_ & -> & [->|(? & ? & ->)])|(-> & -> & _)]]; done.
Qed.

Lemma edited_dirs f f1 q content now :
  (∀ p, f1 !! p = f !! p ∨ (f !! p = None ∧ f1 !! p = Some NDir ∧ ∃ c r, q = p ++ c :: r)) → edited f f1 q content now.
Proof. intros H p. destruct (H p); [by left|by do 2 right]. Qed.

Lemma write_text_canonical now f q content f' : canonical f q → write_text fuel now f q content = Ok f' →
  walk fuel f q = Ok q ∧ q ≠ [] ∧ f' = <[q := NFile content now]> f ∧
  (f !! q = None ∨ ∃ old mt, f !! q = Some (NFile old mt)).
Proof.
  intros Hc. unfold write_text. intros (q' & Hw & H)%res_bind_ok. pose proof (walk_canonical _ _ _ _ Hc Hw) as ->.
  destruct q as [|c q]; [done|]. simpl in H. destruct (f !! (c :: q)) as [[|old mt|t]|] eqn:E; try done;
    injection H as <-; naive_solver.
Qed.

Lemma edit_file_spec now s content e f :
  let '(r, f') := edit_file fuel now s content e f in
  match resolve_sandbox_path fuel s e f with
  | Raise exc => r = Raise exc ∧ f' = f
  | Ok q =>
      edited f f' q content now ∧ canonical f q ∧
      (∃ root rel, get_sandbox_root fuel e f = Ok root ∧ q = root ++ rel) ∧
      (is_dir fuel f q = true → f' = f ∧ ∃ msg, r = Raise (ValueError msg)) ∧
      ∀ out, r = Ok out → out = (s, byte_length content) ∧ f' !! q = Some (NFile content now)
  end.
Proof.
  unfold edit_file. destruct (resolve_sandbox_path fuel s e f) as [q|exc] eqn:E; [|done].
  destruct (resolve_sandbox_path_Ok _ _ _ _ E) as [Hc Hroot].
  destruct (is_dir fuel f q) eqn:Ed; [split_and!; [by left|done..|naive_solver|naive_solver]|].
  destruct (mkdirs fuel (path_parent q) f) as [f1|exc] eqn:Em; [|split_and!; [by left|done..]].
  destruct (mkdirs_parent f f1 q Hc Em) as [H1 Hc1].
  destruct (write_text fuel now f1 q content) as [f2|exc] eqn:Ew;
    [|split_and!; [by apply edited_dirs|done..]].
  destruct (write_text_canonical _ _ _ _ _ Hc1 Ew) as (_ & Hq & -> & Hold).
  split_and!; [|done..|].
  - intros p. destruct (decide (p = q)) as [->|Hne].
    + right; left. rewrite lookup_insert_eq. split_and!; [done..|].
      destruct (H1 q) as [Hs|(? & ? & ?)]; [by rewrite <-Hs|by left].
    + rewrite lookup_insert_ne by done. destruct (H1 p); [by left|by do 2 right].
  - intros out [= <-]. by rewrite lookup_insert_eq.
Qed.

(** The outcome of [edit_file] on every branch, and what it leaves alone: a
    path that does not resolve under the sandbox root changes nothing; else
    only the resolved path, which has the root as a prefix and passes through
    no link, and missing directories above it are touched, and a success means
    that the file holds exactly the content. *)
Theorem edit_file_confined now s content e f :
  let '(r, f') := edit_file fuel now s content e f in
  match resolve_sandbox_path fuel s e f with
  | Raise exc => r = Raise exc ∧ f' = f
  | Ok q =>
      edited f f' q content now ∧ canonical f q ∧
      (∃ root rel, get_sandbox_root fuel e f = Ok root ∧ q = root ++ rel) ∧
      (is_dir fuel f q = true → f' = f ∧ ∃ msg, r = Raise (ValueError msg)) ∧
      ∀ out, r = Ok out → out = (s, byte_length content) ∧ f' !! q = Some (NFile content now)
  end.
Proof. apply edit_file_spec. Qed.

(** A file that was written is found again. *)
Lemma walk_go_insert f q content now : canonical f q → ∀ n d r, q = d ++ r → r ≠ [] →
  walk_go n f d r = Ok q → walk_go n (<[q := NFile content now]> f) d r = Ok q.
Proof.
  intros Hc n. induction n as [|n IH]; intros d r -> Hr; [done|]. destruct r as [|c r]; [done|]. cbn [walk_go].
  rewrite !lookup_node_insert by (by destruct d). rewrite decide_False by (intros E; apply (f_equal length) in E; rewrite length_app in E; simpl in E; lia).
  destruct (lookup_node f d) as [[|b mt|t]|]; try done.
  destruct (String.eqb_spec c "..") as [->|Hne]; [destruct Hc as [Hd _]; set_solver|].
  destruct (decide (r = [])) as [->|Hr'].
  - rewrite decide_True by done. destruct n as [|n]; [|done]. by destruct (lookup_node f (d ++ [c])) as [[| |]|].
  - rewrite decide_False by (intros E; apply app_inv_head in E; by destruct r).
    assert (∀ x, d ++ c :: x = (d ++ [c]) ++ x) as Hx by (intros; by rewrite <-app_assoc).
    destruct (lookup_node f (d ++ [c])) as [[|b mt|t]|] eqn:El.
    + intros H. apply IH; [apply Hx|done|done].
    + intros H. apply IH; [apply Hx|done|done].
    + exfalso. destruct Hc as [_ Hl]. by apply (Hl (d ++ [c]) r t).
    + by destruct r.
Qed.

Lemma sandbox_root_same_links e f f' : same_links f f' → get_sandbox_root fuel e f = get_sandbox_root fuel e f'.
Proof.
  intros H. unfold get_sandbox_root, configured_sandbox_root. destruct (sandbox_override e); [done|].
  by apply realpath_same_links.
Qed.
Lemma read_root_same_links e f f' : same_links f f' → get_read_root fuel e f = get_read_root fuel e f'.
Proof.
  intros H. unfold get_read_root. destruct (sandbox_override e); [done|]. destruct (agent_os_sandbox e) as [s|].
  - destruct (truthy s); by apply realpath_same_links.
  - by apply realpath_same_links.
Qed.

(** What [edit_file] wrote, [read_file] reads back under the same name, up to
    the newline translation of text mode, whenever both tools work from the
    same root. *)
Theorem edit_then_read now s content e f out f' :
  get_read_root fuel e f = get_sandbox_root fuel e f →
  edit_file fuel now s content e f = (Ok out, f') →
  read_file fuel s e f' = Ok (s, universal_newlines content).
Proof.
  intros Hroots H. pose proof (edit_file_spec now s content e f) as Hs. rewrite H in Hs. revert H. unfold edit_file.
  unfold resolve_sandbox_path in *. destruct (get_sandbox_root fuel e f) as [root|] eqn:Er; [|done]. cbn [mbind res_bind] in *.
  destruct (realpath fuel f (join_path root (parse_path s))) as [q|] eqn:Eq; [|done]. cbn [mbind res_bind] in *.
  destruct (is_relative_to root q) eqn:Erel; [|done]. destruct Hs as (Hed & Hc & _ & _ & Hok).
  destruct (Hok _ eq_refl) as [_ Hfile]. pose proof (edited_same_links _ _ _ _ _ Hed) as Hl.
  destruct (is_dir fuel f q); [done|]. destruct (mkdirs fuel (path_parent q) f) as [f1|] eqn:Em; [|done].
  destruct (mkdirs_parent f f1 q Hc Em) as [_ Hc1].
  destruct (write_text fuel now f1 q content) as [f2|] eqn:Ew; [|done]. intros [= _ <-].
  destruct (write_text_canonical _ _ _ _ _ Hc1 Ew) as (Hw & Hq & -> & _).
  assert (stat fuel (<[q := NFile content now]> f1) q = Ok (NFile content now)) as Hstat.
  { unfold stat, walk. rewrite (walk_go_insert f1 q content now Hc1 fuel [] q eq_refl Hq Hw). cbn [mbind res_bind].
    by rewrite lookup_node_cons, Hfile. }
  unfold read_file. rewrite <-(read_root_same_links e _ _ Hl), Hroots. cbn [mbind res_bind].
  rewrite <-(realpath_same_links _ _ _ Hl), Eq. cbn [mbind res_bind]. rewrite Erel. unfold is_file, read_text. by rewrite Hstat.
Qed.

(** ** A run in its workspace *)
Lemma walk_go_dirs f n : ∀ d r q, canonical f (d ++ r) → walk_go n f d r = Ok q →
  ∀ a b, r = a ++ b → b ≠ [] → lookup_node f (d ++ a) = Some NDir.
Proof.
  induction n as [|n IH]; intros d r q Hc; [done|]. destruct r as [|c r]; [intros _ a b E Hb; by destruct a, b|]. cbn [walk_go].
  destruct (lookup_node f d) as [[|b mt|t]|] eqn:Ed; try done.
  destruct (String.eqb_spec c "..") as [->|Hne]; [destruct Hc as [Hd _]; set_solver|].
  assert (canonical f ((d ++ [c]) ++ r)) as Hc' by (by rewrite <-app_assoc).
  assert (∀ x, walk_go n f (d ++ [c]) r = Ok x → ∀ a b, c :: r = a ++ b → b ≠ [] → lookup_node f (d ++ a) = Some NDir) as Hrec.
  { intros x Hx a b E Hb. destruct a as [|c' a]; [by rewrite app_nil_r|]. injection E as <- E.
    change (c :: a) with ([c] ++ a). rewrite app_assoc. by eapply IH. }
  destruct (lookup_node f (d ++ [c])) as [[|b mt|t]|] eqn:El; [apply Hrec..| |].
  - exfalso. destruct Hc as [_ Hl]. apply (Hl (d ++ [c]) r t); [by rewrite <-app_assoc|done].
  - destruct r; [apply Hrec|done].
Qed.
Lemma is_dir_prefixes f root : canonical f root → is_dir fuel f root = true →
  ∀ a b, root = a ++ b → lookup_node f a = Some NDir.
Proof.
  intros Hc. unfold is_dir, stat. destruct (walk fuel f root) as [q|] eqn:Ew; [|done]. cbn [mbind res_bind].
  pose proof (walk_canonical _ _ _ _ Hc Ew) as ->. destruct (lookup_node f root) as [[| |]|] eqn:E; try done.
  intros _ a b ->. destruct (decide (b = [])) as [->|Hb]; [by rewrite app_nil_r in E|].
  by eapply (walk_go_dirs f fuel [] (a ++ b)).
Qed.

(** Any sequence of edits, those that raise included. *)
Definition edits (l : list (Z * string * string)) (st : senv * fs) : senv * fs :=
  fold_left (λ st '(now, s, content), (st.1, (edit_file fuel now s content st.1 st.2).2)) l st.

Lemma edits_inside root l : ∀ e f, sandbox_override e = Some root →
  (∀ a b, root = a ++ b → lookup_node f a = Some NDir) →
  (edits l (e, f)).1 = e ∧
  ∀ p, lookup_node (edits l (e, f)).2 p = lookup_node f p ∨ ∃ c r, p = root ++ c :: r.
Proof.
  induction l as [|[[now s] content] l IH]; intros e f He Hd; [by split; [|left]|]. cbn [edits fold_left fst snd].
  pose proof (edit_file_spec now s content e f) as Hs.
  destruct (edit_file fuel now s content e f) as [r f1] eqn:Ee. cbn [snd].
  assert (∀ p, lookup_node f1 p = lookup_node f p ∨ ∃ c r, p = root ++ c :: r) as H1.
  { destruct (resolve_sandbox_path fuel s e f) as [q|]; [|intros p; left; by destruct Hs as [_ ->]].
    destruct Hs as (Hed & Hc & (root' & rel & Hroot & ->) & Hdir & _).
    unfold get_sandbox_root in Hroot. rewrite He in Hroot. injection Hroot as <-.
    assert (∀ p, p ≠ [] → f !! p ≠ Some NDir → ∀ b, root ≠ p ++ b) as Hnd.
    { intros p Hp Hn b E. specialize (Hd p b E). by rewrite lookup_node_cons in Hd. }
    assert (∀ p b, root ++ rel = p ++ b → p ≠ [] → f !! p ≠ Some NDir → ∃ c r, p = root ++ c :: r) as Hin.
    { intros p b E Hp Hn. destruct (app_eq_inv _ _ _ _ E) as [(k & Hk & _)|(k & -> & _)]; [exfalso; by apply (Hnd p Hp Hn k)|].
      destruct k as [|c k]; [|eauto]. rewrite app_nil_r in *. exfalso. apply (Hnd root Hp Hn []). by rewrite app_nil_r. }
    intros p. destruct (decide (p = [])) as [->|Hp]; [by left|]. rewrite !lookup_node_cons by done.
    destruct (Hed p) as [?|[(-> & _ & Hf)|(Hn & _ & c & r' & E)]]; [by left|right..].
    - apply (Hin _ []); [by rewrite app_nil_r|done|]. destruct Hf as [->|(? & ? & ->)]; done.
    - apply (Hin _ (c :: r')); [done|done|by rewrite Hn]. }
  destruct (IH e f1) as [IH1 IH2]; [done| |].
  - intros a b E. specialize (Hd a b E).
    destruct (H1 a) as [->|(c & r' & ->)]; [done|]. exfalso. apply (f_equal length) in E.
    rewrite !length_app in E. simpl in E. lia.
  - split; [exact IH1|]. intros p. destruct (IH2 p) as [Hp|?]; [|by right]. destruct (H1 p) as [E|?]; [left|by right].
    unfold edits in Hp. rewrite Hp. exact E.
Qed.

(** C3. However the agent edits while a run is bound to its workspace, every path
    that ends up different lies strictly below the workspace, the workspace is
    below the configured sandbox root, and the binding of before is back when
    the scope ends. *)
Theorem workspace_confines ws l root e f : resolve_workspace_root fuel ws e f = Ok root →
  let '(r, (e', f')) := sandbox_scope fuel ws (λ _ st, (Ok tt, edits l st)) (e, f) in
  e' = e ∧ (∃ base rel, configured_sandbox_root fuel e f = Ok base ∧ root = base ++ rel) ∧
  ∀ p, lookup_node f' p ≠ lookup_node f p → ∃ c rel, p = root ++ c :: rel.
Proof.
  intros H. unfold sandbox_scope. rewrite H. revert H. unfold resolve_workspace_root.
  destruct (configured_sandbox_root fuel e f) as [base|]; [|done]. cbn [mbind res_bind].
  match goal with |- context [realpath fuel f ?x] => destruct (realpath fuel f x) as [q|] eqn:Eq; [|done] end. cbn [mbind res_bind].
  destruct (is_relative_to base q) eqn:Er; [|done]. destruct (is_dir fuel f q) eqn:Ed; [|done]. intros [= ->].
  pose proof (realpath_canonical _ _ _ _ Eq) as Hc.
  destruct (edits_inside root l (set_override (Some root) e) f) as [H1 H2]; [done|by apply is_dir_prefixes|].
  destruct (edits l (set_override (Some root) e, f)) as [e' f']. simpl in *. subst e'.
  split; [by destruct e|]. split.
  - apply is_relative_to_spec in Er as [rel ->]. eauto.
  - intros p Hp. destruct (H2 p) as [E|Hx]; [by rewrite E in Hp|exact Hx].
Qed.

(** ** Reading under the root *)
Lemma walk_go_realpath f n : ∀ d r q, walk_go n f d r = Ok q → realpath_go n f d r = Some q.
Proof.
  induction n as [|n IH]; intros d r q; simpl; [done|]. destruct r as [|c r]; [by intros [= ->]|].
  destruct (lookup_node f d) as [[| |]|]; try done. destruct (String.eqb c ".."); [apply IH|].
  destruct (lookup_node f (d ++ [c])) as [[| |]|]; try apply IH. destruct r; [apply IH|done].
Qed.
Lemma read_text_realpath f p q content : realpath fuel f p = Ok q → read_text fuel f p = Ok content →
  ∃ raw mt, lookup_node f q = Some (NFile raw mt) ∧ content = universal_newlines raw.
Proof.
  unfold realpath, read_text, stat. intros Hq (x & (q' & Hw & Hx)%res_bind_ok & H)%res_bind_ok.
  apply walk_go_realpath in Hw. rewrite Hw in Hq. injection Hq as ->.
  destruct (lookup_node f q) as [y|]; [|done]. injection Hx as ->. destruct x; try done. injection H as <-. eauto.
Qed.

Lemma res_all_Ok {A} (l : list (res A)) r : res_all l = Ok r → ∀ x, x ∈ r → Ok x ∈ l.
Proof.
  revert r. induction l as [|[a|exc] l IH]; intros r; simpl; [intros [= <-]; set_solver| |done].
  intros (r' & Hr & [= <-])%res_bind_ok x [->|Hx]%elem_of_cons; [by left|right; by eapply IH].
Qed.

Lemma resolved_under_spec root l f r : resolved_under fuel root l f = Ok r →
  ∀ fpath, fpath ∈ r → ∃ rel, realpath fuel f fpath = Ok (root ++ rel).
Proof.
  revert r. induction l as [|x l IH]; intros r; simpl; [intros [= <-]; set_solver|].
  intros (q & Hq & (r' & Hr & [= <-])%res_bind_ok)%res_bind_ok fpath. destruct (is_relative_to root q) eqn:E; [|by apply IH].
  intros [->|Hf]%elem_of_cons; [|by eapply IH]. apply is_relative_to_spec in E as [rel ->]. eauto.
Qed.

Lemma grep_file_match query root fpath f ms m : grep_file fuel query root fpath f = Ok ms → m ∈ ms →
  ∃ content line, read_text fuel f fpath = Ok content ∧ text_lines content !! Z.to_nat (gm_line m - 1) = Some line
    ∧ contains query line = true ∧ gm_text m = rstrip_newlines line.
Proof.
  unfold grep_file. destruct (read_text fuel f fpath) as [content|exc]; [|case_match; [intros [= <-]; set_solver|done]].
  intros H Hm. apply (res_all_Ok _ _ H) in Hm. apply list_elem_of_In, in_concat in Hm as (l & Hl & Hm).
  apply in_map_iff in Hl as ([i line] & <- & Hl). apply list_elem_of_In, elem_of_lookup_imap in Hl as (k & x & E & Hk).
  injection E as -> ->. destruct (contains query x) eqn:Ec; [|done]. destruct Hm as [Hm|[]].
  destruct (relative_parts root fpath); [|done]. injection Hm as <-. exists content, x. split_and!; [done| |done..].
  simpl. by replace (Z.to_nat (Z.of_nat k + 1 - 1)) with k by lia.
Qed.

(** Every match that [grep] reports is a line, containing the query, of a file
    whose real path is below the read root: links that lead out are not
    followed, wherever the walk finds them. *)
Theorem grep_confined os_walk query s e f ms root :
  get_read_root fuel e f = Ok root → grep fuel os_walk query s e f = Ok ms →
  ∀ m, m ∈ ms → ∃ rel raw mt line, lookup_node f (root ++ rel) = Some (NFile raw mt) ∧
    text_lines (universal_newlines raw) !! Z.to_nat (gm_line m - 1) = Some line ∧
    contains query line = true ∧ gm_text m = rstrip_newlines line.
Proof.
  intros Hr. unfold grep. rewrite Hr. intros H m Hm. cbn [mbind res_bind] in H. apply res_bind_ok in H as (t & Ht & H).
  destruct (is_relative_to root t) eqn:Erel; [|done]. cbn [negb] in H.
  apply res_bind_ok in H as (files & Hfiles & (mss & Hms & [= <-])%res_bind_ok).
  apply list_elem_of_In, in_concat in Hm as (ms & Hin & Hm). apply list_elem_of_In in Hin, Hm.
  apply (res_all_Ok _ _ Hms) in Hin. apply list_elem_of_In, in_map_iff in Hin as (fpath & Hg & Hin%list_elem_of_In).
  destruct (grep_file_match _ _ _ _ _ _ Hg Hm) as (content & line & Hread & Hline & Hq & Htext).
  assert (∃ rel, realpath fuel f fpath = Ok (root ++ rel)) as [rel Hreal].
  { destruct (is_file fuel f t) eqn:Ef.
    - injection Hfiles as <-. apply list_elem_of_singleton in Hin as ->. apply is_relative_to_spec in Erel as [rel ->].
      exists rel. revert Hread. unfold read_text, stat. intros (x & (q & Hw & _)%res_bind_ok & _)%res_bind_ok.
      pose proof (walk_canonical _ _ _ _ (realpath_canonical _ _ _ _ Ht) Hw) as ->.
      unfold realpath. by rewrite (walk_go_realpath _ _ _ _ _ Hw).
    - by eapply resolved_under_spec. }
  destruct (read_text_realpath _ _ _ _ Hreal Hread) as (raw & mt & Hn & ->). exists rel, raw, mt, line. done.
Qed.
End confinement.

Definition demo_fs : fs := {[ ["w"] := NDir; ["w"; "sandbox"] := NDir; ["etc"] := NDir;
  ["etc"; "passwd"] := NFile "root" 0; ["w"; "sandbox"; "out"] := NLink (parse_path "/etc") ]}.
Definition demo_env : senv := mkSenv (Some "sandbox") ["w"] None.

Lemma edit_then_read_witness :
  read_file 20 "src/../a/b.txt" demo_env (edit_file 20 7 "src/../a/b.txt" "hi" demo_env demo_fs).2
  = Ok ("src/../a/b.txt", "hi").
Proof.
  apply (edit_then_read 20 7 "src/../a/b.txt" "hi" demo_env demo_fs ("src/../a/b.txt", 2)).
  - vm_compute. reflexivity.
  - rewrite (surjective_pairing (edit_file 20 7 "src/../a/b.txt" "hi" demo_env demo_fs)) at 1.
    f_equal.
Defined.

Lemma workspace_confines_witness :
  let '(r, (e', f')) := sandbox_scope 20 None (λ _ st, (Ok tt, edits 20 [(1, "a", "x"); (2, "../b", "y")] st)) (demo_env, demo_fs) in
  e' = demo_env ∧ (∃ base rel, configured_sandbox_root 20 demo_env demo_fs = Ok base ∧ ["w"; "sandbox"] = base ++ rel) ∧
  ∀ p, lookup_node f' p ≠ lookup_node demo_fs p → ∃ c rel, p = ["w"; "sandbox"] ++ c :: rel.
Proof. apply (workspace_confines 20 None _ ["w"; "sandbox"]). vm_compute. reflexivity. Defined.

Definition demo_walk (f : fs) (p : path) : list (path * list string) := [(p, ["a.txt"; "out"])].
Lemma grep_confined_witness :
  let f := (edit_file 20 7 "a.txt" "root it" demo_env demo_fs).2 in
  grep 20 demo_walk "root" "." demo_env f = Ok [mkMatch "a.txt" 1 "root it"] ∧
  ∀ m, m ∈ [mkMatch "a.txt" 1 "root it"] → ∃ rel raw mt line,
    lookup_node f (["w"; "sandbox"] ++ rel) = Some (NFile raw mt) ∧
    text_lines (universal_newlines raw) !! Z.to_nat (gm_line m - 1) = Some line ∧
    contains "root" line = true ∧ gm_text m = rstrip_newlines line.
Proof.
  split; [vm_compute; reflexivity|].
  apply (grep_confined 20 demo_walk "root" "." demo_env _ _ ["w"; "sandbox"]); vm_compute; reflexivity.
Defined.

(** A link out of the sandbox is refused, and so is "..". *)
Example escape_refused :
  map (λ p, is_ok (edit_file 20 7 p "x" demo_env demo_fs).1) ["out/passwd"; "../x"; "/etc/passwd"; "/w/sandbox/x"; "."]
  = [false; false; false; true; false].
Proof. vm_compute. reflexivity. Qed.
