(* ===== verification/CliBackends.v ===== *)
(** * Coding CLIs as subprocesses (agent_os/cli_backends.py)

    The process environment is a dict of strings; [shutil.which], what a
    subprocess does and the decoding of captured bytes are parameters.  A
    command that is spawned is a record, so that what every command carries can
    be stated.  The text of a [JSONDecodeError] is left out of messages. *)
From S2P Require Export PyRe Float Sandbox FileTree.

Definition environ := (list (string * string)).

(** [CliBackendError] and its two subclasses. *)
Definition CliBackendError (msg : string) : exn := OtherError ("CliBackendError: " +:+ msg).
Definition CliBackendAuthenticationError (msg : string) : exn := OtherError ("CliBackendAuthenticationError: " +:+ msg).
Definition CliBackendTimeout (msg : string) : exn := OtherError ("CliBackendTimeout: " +:+ msg).

(** ** Arguments *)
Definition FORBIDDEN_CLI_ARGS : list string :=
  [ "-C"; "--add-dir"; "--allow-dangerously-skip-permissions"; "--cd"; "--cwd";
    "--dangerously-bypass-approvals-and-sandbox"; "--dangerously-skip-permissions"; "--workdir";
    "--working-directory" ].
Definition FORBIDDEN_CLI_ARG_PREFIXES : list string :=
  map (λ option, option +:+ "=") (List.filter (startswith "--") FORBIDDEN_CLI_ARGS).

Definition forbidden_arg (arg : string) : bool :=
  mem_str arg FORBIDDEN_CLI_ARGS || existsb (λ p, startswith p arg) FORBIDDEN_CLI_ARG_PREFIXES.
Definition is_arg (next_arg : option string) (value : string) : bool := bool_decide (next_arg = Some value).
Definition forbidden_sandbox : exn := CliBackendError "CLI sandbox mode 'danger-full-access' is forbidden".
Definition forbidden_permission : exn := CliBackendError "CLI permission mode 'bypassPermissions' is forbidden".

Fixpoint validate_cli_args (args : list string) : res unit :=
  match args with
  | [] => Ok tt
  | arg :: rest =>
      let next_arg := head rest in
      if forbidden_arg arg then
        Raise (CliBackendError ("CLI argument '" +:+ arg +:+ "' is forbidden because it can expand sandbox access"))
      else if mem_str arg ["-s"; "--sandbox"] && is_arg next_arg "danger-full-access" then Raise forbidden_sandbox
      else if String.eqb arg "--permission-mode" && is_arg next_arg "bypassPermissions" then Raise forbidden_permission
      else if String.eqb arg "--sandbox=danger-full-access" then Raise forbidden_sandbox
      else if String.eqb arg "--permission-mode=bypassPermissions" then Raise forbidden_permission
      else validate_cli_args rest
  end.

(** ** The environment *)
Definition sensitive_substrings : list string := ["API_KEY"; "TOKEN"; "SECRET"; "PASSWORD"; "CREDENTIAL"; "AUTH"].
Definition is_sensitive_key (key : string) : bool := existsb (λ sub, contains sub (upper key)) sensitive_substrings.

Definition build_safe_subprocess_env (env : environ) : environ :=
  foldl (λ safe_env '(key, value), if negb (is_sensitive_key key) then dset key value safe_env else safe_env) [] env.

(** The second substitution, case-insensitive: a secret-looking name, an equals
    sign or a colon between optional spaces, and a run without space, quote,
    semicolon or comma. *)
Definition SECRET_ASSIGNMENT_RE : re :=
  Seqs [ Grp 1 (Alts (Str_i "auth")
                  [ Seqs [Str_i "api"; Opt (Cls (λ c, Ascii.eqb c "_" || Ascii.eqb c "-")); Str_i "key"];
                    Str_i "token"; Str_i "secret"; Str_i "password"; Str_i "credential" ]);
         Grp 2 (Seqs [Star (Cls is_space); Cls (λ c, Ascii.eqb c "=" || Ascii.eqb c ":"); Star (Cls is_space)]);
         Grp 3 (Plus (Cls (λ c, negb (is_space c || Ascii.eqb c squote || Ascii.eqb c dquote || Ascii.eqb c ";" || Ascii.eqb c ",")))) ].

Definition redact_value (redacted_text : string) (entry : string * string) : string :=
  let '(key, value) := entry in
  if is_sensitive_key key && truthy value && (3 <? Z.of_nat (String.length value))
  then str_replace value "[REDACTED]" redacted_text else redacted_text.
Definition redact_secrets_in_text (env : environ) (text : string) : string :=
  if negb (truthy text) then text
  else re_sub SECRET_ASSIGNMENT_RE
         (λ g, default EmptyString (group 1 g) +:+ default EmptyString (group 2 g) +:+ "[REDACTED]")
         (foldl redact_value text env).
Example redact_example :
  redact_secrets_in_text [("MY_TOKEN", "hunter22"); ("HOME", "/root")] "got hunter22 in /root; Api-Key : abc, ok"
  = "got [REDACTED] in /root; Api-Key : [REDACTED], ok".
Proof. vm_compute. reflexivity. Qed.

(** ** Schemas *)
Definition is_dict (v : option pyval) : bool := match v with Some (VDict _) => true | _ => false end.
Definition is_text (t : string) (v : option pyval) : bool :=
  match v with Some (VStr s) => String.eqb s t | _ => false end.
Definition is_object (node : pydict) : bool :=
  is_text "object" (dget "type" node) || is_dict (dget "properties" node).
Definition required_of (node : pydict) : pyval :=
  VList (match dget "properties" node with Some (VDict properties) => map VStr (dkeys properties) | _ => [] end).
Definition close_object (node : pydict) : pydict :=
  if is_object node then
    let node := dset "additionalProperties" (VBool false) node in
    dset "required" (required_of node) node
  else node.
Fixpoint visit (node : pyval) : pyval :=
  match node with
  | VList items => VList (map visit items)
  | VDict d => VDict (close_object (map (λ '(k, value), (k, visit value)) d))
  | _ => node
  end.
(** [strict_json_schema] of the schema that pydantic generates. *)
Definition strict_json_schema (model_json_schema : pydict) : pyval := visit (VDict model_json_schema).

(** Every object node requires all its properties and forbids others. *)
Inductive strict : pyval → Prop :=
  | strict_list l : Forall strict l → strict (VList l)
  | strict_dict d :
      (is_object d = true →
        dget "additionalProperties" d = Some (VBool false) ∧ dget "required" d = Some (required_of d)) →
      Forall (λ p, strict p.2) d → strict (VDict d)
  | strict_leaf v : (∀ l, v ≠ VList l) → (∀ d, v ≠ VDict d) → strict v.

(** [write_schema_file]: the schema is in the file while the body runs, and the
    file is gone afterwards, however the body ends; [log] is what the model
    records of the body. *)
Definition unlink_if_exists (fuel : nat) (p : path) (f : fs) : res fs :=
  if exists_ fuel f p then
    match lookup_node f p with Some NDir => Raise (OtherError "IsADirectoryError") | _ => Ok (delete p f) end
  else Ok f.
Definition write_schema_file {A W} (fuel : nat) (now : Z) (temp_path : path) (schema : pyval)
    (body : fs → res A * W * fs) (f : fs) : res A * W * fs :=
  let '(r, log, f') := body (<[temp_path := NFile (dumps_indent 0 schema) now]> f) in
  match unlink_if_exists fuel temp_path f' with
  | Ok f'' => (r, log, f'')
  | Raise exc => (Raise exc, log, f')
  end.

(** ** Running a command *)
Inductive captured := CNone | CText (s : string) | CBytes (bytes : string).
(** What is asked of [subprocess.run], and what it does. *)
Record spawn := mkSpawn {
  sp_cmd : list string; sp_cwd : path; sp_timeout : Z; sp_env : environ }.
Inductive spawned :=
  | Completed (returncode : Z) (stdout stderr : string)
  | Expired (stderr : captured)
  | SpawnError (e : exn).
Record CompletedProcess := mkCompleted { cp_returncode : Z; cp_stdout : string; cp_stderr : string }.

Definition auth_indicators : list string :=
  [ "authentication_failed"; "oauth session expired"; "invalid_api_key"; "not logged in";
    "authentication required"; "unauthorized" ].
Definition auth_guidance (binary : string) : string :=
  if String.eqb binary "claude" then "Run `claude auth login` before starting agent-os."
  else if String.eqb binary "codex" then "Run `codex login` before starting agent-os."
  else "Authenticate " +:+ binary +:+ " before starting agent-os.".

Section commands.
Context (fuel : nat) (which : string → option string) (decode : string → string)
  (run : spawn → fs → spawned * fs) (env : environ).

Definition ensure_binary (binary_name : string) : res string :=
  match which binary_name with
  | Some p => Ok p
  | None => Raise (ValueError ("Binary '" +:+ binary_name +:+ "' not found on PATH. Please ensure it is installed and authenticated."))
  end.

Definition coerce_text (value : captured) : string :=
  match value with CNone => EmptyString | CText s => s | CBytes b => decode b end.

(** How [run_cli_command] ends for each outcome of the process. *)
Definition timed_out_error (binary : string) (timeout_seconds : Z) (stderr : captured) : exn :=
  CliBackendTimeout ("Command '" +:+ binary +:+ "' timed out after " +:+ str_of_Z timeout_seconds
    +:+ " seconds. Stderr excerpt: " +:+ redact_secrets_in_text env (slast 500 (coerce_text stderr))).
Definition exit_error (binary : string) (returncode : Z) (stderr : string) : exn :=
  let stderr_excerpt := redact_secrets_in_text env (slast 1000 stderr) in
  if existsb (λ indicator, contains indicator (lower stderr)) auth_indicators then
    CliBackendAuthenticationError ("Command '" +:+ binary +:+ "' failed due to authentication. " +:+ auth_guidance binary
      +:+ " Subprocesses are noninteractive and cannot complete login. Stderr excerpt: " +:+ stderr_excerpt)
  else
    CliBackendError ("Command '" +:+ binary +:+ "' failed with return code " +:+ str_of_Z returncode
      +:+ ". Stderr excerpt: " +:+ stderr_excerpt).
Definition finish (binary : string) (timeout_seconds : Z) (out : spawned) : res CompletedProcess :=
  match out with
  | Expired stderr => Raise (timed_out_error binary timeout_seconds stderr)
  | SpawnError exc => Raise exc
  | Completed code stdout stderr =>
      if negb (code =? 0) then Raise (exit_error binary code stderr) else Ok (mkCompleted code stdout stderr)
  end.

(** [run_cli_command]; the second component lists what was spawned. *)
Definition run_cli_command (binary : string) (args : list string) (timeout_seconds : Z) (e : senv) (f : fs)
    : res CompletedProcess * list spawn * fs :=
  let before :=
    _ ← validate_cli_args args;
    binary_path ← ensure_binary binary;
    sandbox_root ← get_sandbox_root fuel e f;
    f1 ← mkdirs fuel sandbox_root f;
    Ok (mkSpawn (binary_path :: args) sandbox_root timeout_seconds (build_safe_subprocess_env env), f1) in
  match before with
  | Raise exc => (Raise exc, [], f)
  | Ok (request, f1) =>
      let '(out, f2) := run request f1 in (finish binary timeout_seconds out, [request], f2)
  end.

(** ** Answers *)
Definition type_name (v : pyval) : string :=
  match v with
  | VNone => "NoneType" | VBool _ => "bool" | VInt _ => "int" | VFloat _ => "float" | VStr _ => "str"
  | VList _ => "list" | VDict _ => "dict" | VObj cls _ => cls
  end.
Definition parse_codex_output_file (p : path) (f : fs) : res pydict :=
  if negb (exists_ fuel f p) then Raise (ValueError ("Codex output file not found: " +:+ abs_str p))
  else
    match read_text fuel f p with
    | Raise exc => Raise (ValueError ("Failed to read Codex output file: " +:+ exn_msg exc))
    | Ok content =>
        match loads content with
        | None => Raise (ValueError ("Failed to parse Codex JSON output. Excerpt: " +:+ redact_secrets_in_text env (stake 200 content)))
        | Some (VDict data) => Ok data
        | Some data => Raise (ValueError ("Expected Codex output to be a JSON object, got " +:+ type_name data))
        end
    end.

(** The first fenced block of a text, as [re.search] with [DOTALL] finds it. *)
Definition fence : re := Str "```".
Definition FENCED_RE : re :=
  Seqs [ fence; Opt (Str "json"); Star (Cls is_space); Grp 1 (LStar (Cls (λ _, true))); Star (Cls is_space); fence ].
Definition parse_json_text_payload (text : string) : option pydict :=
  let text := strip text in
  if negb (truthy text) then None
  else
    let text := match re_search FENCED_RE text with
                | Some (_, g) => strip (default EmptyString (group 1 g))
                | None => text
                end in
    match loads text with Some (VDict parsed) => Some parsed | _ => None end.

Fixpoint first_some {A B} (g : A → option B) (l : list A) : option B :=
  match l with [] => None | x :: l' => match g x with Some y => Some y | None => first_some g l' end end.
Definition text_block (block : pyval) : option pydict :=
  match block with
  | VDict b =>
      if is_text "text" (dget "type" b) then parse_json_text_payload (py_str (default (VStr EmptyString) (dget "text" b)))
      else None
  | _ => None
  end.
(** A [type] that is a list or a dict cannot be looked up in the set of
    message types. *)
Definition extract_claude_event_payload (event : pydict) : res (option pydict) :=
  let event_type := dget "type" event in
  if is_text "result" event_type then
    Ok (match dget "structured_output" event, dget "result" event with
        | Some (VDict structured_output), _ => Some structured_output
        | _, Some (VDict result_content) => Some result_content
        | _, Some (VStr result_content) => parse_json_text_payload result_content
        | _, _ => None
        end)
  else
    match event_type with
    | Some (VList _) => Raise (TypeError "unhashable type: 'list'")
    | Some (VDict _) => Raise (TypeError "unhashable type: 'dict'")
    | Some VNone | None => Ok (Some event)
    | Some (VStr t) =>
        if mem_str t ["assistant"; "message"] then
          Ok (match dget "message" event with
              | Some (VDict message) =>
                  match dget "content" message with
                  | Some (VList content) => first_some text_block (rev content)
                  | _ => None
                  end
              | _ => None
              end)
        else Ok None
    | Some _ => Ok None
    end.

Definition parsed_events (stdout : string) : list pydict :=
  omap (λ line, match loads line with Some (VDict parsed) => Some parsed | _ => None end)
       (nonblank_lines (strip stdout)).
Fixpoint first_payload (events : list pydict) : res (option pydict) :=
  match events with
  | [] => Ok None
  | event :: rest =>
      payload ← extract_claude_event_payload event;
      match payload with Some p => Ok (Some p) | None => first_payload rest end
  end.
Definition parse_claude_stream_json (stdout : string) : res pydict :=
  if negb (truthy stdout) then Raise (ValueError "Claude CLI provided no stdout")
  else
    payload ← first_payload (rev (parsed_events stdout));
    match payload with
    | Some p => Ok p
    | None => Raise (ValueError ("No valid JSON payload found in Claude output. Excerpt: "
                                 +:+ redact_secrets_in_text env (slast 500 stdout)))
    end.
End commands.
Example parse_claude_example :
  parse_claude_stream_json [] (strip (dumps_indent 0 (VDict [])) +:+ nl +:+ "noise" +:+ nl
    +:+ (λ v, match dumps v with Ok t => t | Raise _ => EmptyString end) (VDict [("type", VStr "assistant"); ("message", VDict [("content", VList [VDict [("type", VStr "text");
          ("text", VStr ("Here:" +:+ nl +:+ "```json" +:+ nl +:+ (λ v, match dumps v with Ok t => t | Raise _ => EmptyString end) (VDict [("summary", VStr "s")]) +:+ nl +:+ "```"))]])])])
    +:+ nl +:+ (λ v, match dumps v with Ok t => t | Raise _ => EmptyString end) (VDict [("type", VStr "system")]))
  = Ok [("summary", VStr "s")].
Proof. vm_compute. reflexivity. Qed.

(** ** The argument guard *)
Definition arg_allowed (arg : string) (next_arg : option string) : Prop :=
  arg ∉ FORBIDDEN_CLI_ARGS ∧ (∀ opt t, opt ∈ FORBIDDEN_CLI_ARGS → startswith "--" opt = true → arg ≠ opt +:+ "=" +:+ t) ∧
  (arg = "-s" ∨ arg = "--sandbox" → next_arg ≠ Some "danger-full-access") ∧
  (arg = "--permission-mode" → next_arg ≠ Some "bypassPermissions") ∧
  arg ≠ "--sandbox=danger-full-access" ∧ arg ≠ "--permission-mode=bypassPermissions".

Lemma forbidden_arg_iff (arg : string) : forbidden_arg arg = false ↔
  arg ∉ FORBIDDEN_CLI_ARGS ∧ ∀ opt t, opt ∈ FORBIDDEN_CLI_ARGS → startswith "--" opt = true → arg ≠ opt +:+ "=" +:+ t.
Proof.
  unfold forbidden_arg. rewrite orb_false_iff, <-!not_true_iff_false, mem_str_iff. apply and_iff_compat_l.
  rewrite existsb_exists. split.
  - intros H opt t Hin Hs ->. apply H. exists (opt +:+ "="). split; [|rewrite <-sapp_assoc; apply startswith_app].
    unfold FORBIDDEN_CLI_ARG_PREFIXES. apply in_map_iff. exists opt. split; [done|].
    apply filter_In. split; [by apply list_elem_of_In|done].
  - intros H (p & Hp & Hs). unfold FORBIDDEN_CLI_ARG_PREFIXES in Hp. apply in_map_iff in Hp as (opt & <- & Hin).
    apply filter_In in Hin as [Hin Hd]. apply startswith_iff in Hs as [t ->].
    refine (H opt t _ Hd (sapp_assoc _ _ _)). by apply list_elem_of_In.
Qed.

Lemma validate_cli_args_cons (arg : string) (rest : list string) :
  validate_cli_args (arg :: rest) = Ok tt ↔ arg_allowed arg (head rest) ∧ validate_cli_args rest = Ok tt.
Proof.
  unfold arg_allowed. rewrite (and_assoc (arg ∉ _)), <-forbidden_arg_iff. cbn [validate_cli_args].
  destruct (forbidden_arg arg); [naive_solver|].
  unfold is_arg. cbn [mem_str existsb]. rewrite orb_false_r.
  destruct (String.eqb_spec arg "-s"), (String.eqb_spec arg "--sandbox"), (String.eqb_spec arg "--permission-mode"),
    (String.eqb_spec arg "--sandbox=danger-full-access"), (String.eqb_spec arg "--permission-mode=bypassPermissions");
    simplify_eq; simpl; repeat case_bool_decide;
    (split; [intros Hv; first [discriminate Hv | split; [split_and!|]; naive_solver]
            |intros ((_ & ? & ? & ? & ?) & ?); try done; exfalso; naive_solver]).
Qed.

Lemma validate_cli_args_iff args : validate_cli_args args = Ok tt ↔
  ∀ i arg, args !! i = Some arg → arg_allowed arg (args !! S i).
Proof.
  induction args as [|arg rest IH]; [done|]. rewrite validate_cli_args_cons, IH. split.
  - intros [Ha Hr] [|i] x; simpl; [intros [= <-]; by destruct rest|apply Hr].
  - intros H. split; [specialize (H 0%nat arg eq_refl); by destruct rest|intros i x Hx; apply (H (S i) x Hx)].
Qed.
Lemma validate_cli_args_error args exc : validate_cli_args args = Raise exc →
  ∃ msg, exc = CliBackendError msg.
Proof.
  induction args as [|arg rest IH]; simpl; [done|].
  repeat case_match; try done; intros [= <-]; eexists; reflexivity.
Qed.

(** ** The environment of a command *)
Lemma safe_env_elem (env : environ) : ∀ (acc : environ) (k v : string),
  (k, v) ∈ foldl (λ safe_env '(key, value), if negb (is_sensitive_key key) then dset key value safe_env else safe_env) acc env →
  (k, v) ∈ acc ∨ ((k, v) ∈ env ∧ is_sensitive_key k = false).
Proof.
  induction env as [|[k' v'] env IH]; intros acc k v H; simpl in H; [by left|].
  apply IH in H as [H|[H Hk]]; [|right; split; [by right|done]].
  destruct (is_sensitive_key k') eqn:E; simpl in H; [by left|]. apply dset_elem in H as [[= -> ->]|H]; [|by left].
  right. split; [by left|done].
Qed.
Lemma build_safe_subprocess_env_elem (env : environ) (k v : string) : (k, v) ∈ build_safe_subprocess_env env →
  (k, v) ∈ env ∧ is_sensitive_key k = false.
Proof. intros H. apply safe_env_elem in H as [H|H]; [by apply not_elem_of_nil in H|done]. Qed.

(** ** What a command may do *)
Definition spawn_confined (env : environ) (root : path) (request : spawn) : Prop :=
  sp_cwd request = root ∧ validate_cli_args (tail (sp_cmd request)) = Ok tt ∧
  (∀ k v, (k, v) ∈ sp_env request → (k, v) ∈ env ∧ is_sensitive_key k = false).

Section command_lemmas.
Context (fuel : nat) (which : string → option string) (decode : string → string)
  (run : spawn → fs → spawned * fs) (env : environ).
Notation run_cli_command := (run_cli_command fuel which decode run env).

Lemma run_cli_command_cases binary args timeout e f :
  let '(r, spawns, f') := run_cli_command binary args timeout e f in
  (spawns = [] ∧ f' = f ∧ ∃ exc, r = Raise exc) ∨
  ∃ request root f1, spawns = [request] ∧ get_sandbox_root fuel e f = Ok root ∧
    spawn_confined env root request ∧ tail (sp_cmd request) = args ∧ which binary = head (sp_cmd request) ∧
    mkdirs fuel root f = Ok f1 ∧ f' = (run request f1).2 ∧ r = finish decode env binary timeout (run request f1).1.
Proof.
  unfold CliBackends.run_cli_command, ensure_binary.
  destruct (validate_cli_args args) as [[]|] eqn:Ev; cbn [mbind res_bind]; [|left; eauto].
  destruct (which binary) as [bp|] eqn:Ew; cbn [mbind res_bind]; [|left; eauto].
  destruct (get_sandbox_root fuel e f) as [root|] eqn:Er; cbn [mbind res_bind]; [|left; eauto].
  destruct (mkdirs fuel root f) as [f1|] eqn:Em; cbn [mbind res_bind]; [|left; eauto].
  destruct (run _ f1) as [out f2] eqn:Eo. right. eexists _, root, f1. rewrite Eo. split_and!; try done.
  split_and!; [done|done|]. intros k v. apply build_safe_subprocess_env_elem.
Qed.

Lemma run_cli_command_ok binary args timeout e f p spawns f' :
  run_cli_command binary args timeout e f = (Ok p, spawns, f') →
  ∃ request root f1, spawns = [request] ∧ get_sandbox_root fuel e f = Ok root ∧ spawn_confined env root request ∧
    tail (sp_cmd request) = args ∧ run request f1 = (Completed 0 (cp_stdout p) (cp_stderr p), f') ∧ cp_returncode p = 0.
Proof.
  intros H. pose proof (run_cli_command_cases binary args timeout e f) as Hc. rewrite H in Hc.
  destruct Hc as [(_ & _ & exc & [=])|(request & root & f1 & -> & Hr & Hs & Ha & _ & _ & -> & Hp)].
  exists request, root, f1. split_and!; try done; destruct (run request f1) as [[code out err|?|?] f2]; simpl in Hp; try done;
    destruct (Z.eqb_spec code 0) as [->|]; simpl in Hp; try done; by injection Hp as ->.
Qed.
End command_lemmas.

(** ** The last answer wins *)
Lemma first_payload_Some events p : first_payload events = Ok (Some p) ↔
  ∃ pre event post, events = pre ++ event :: post ∧ extract_claude_event_payload event = Ok (Some p) ∧
    Forall (λ e, extract_claude_event_payload e = Ok None) pre.
Proof.
  induction events as [|event rest IH]; simpl.
  { split; [done|]. intros ([|? ?] & ? & ? & [=] & _). }
  split.
  - destruct (extract_claude_event_payload event) as [[q|]|] eqn:E; cbn [mbind res_bind]; [|intros H|done].
    + intros [= ->]. by exists [], event, rest.
    + apply IH in H as (pre & ev & post & -> & Hp & Hf). exists (event :: pre), ev, post. by repeat constructor.
  - intros ([|e0 pre] & ev & post & [= -> ->] & Hp & Hf); [by rewrite Hp|].
    apply Forall_cons in Hf as [-> Hf]. cbn [mbind res_bind]. apply IH. by exists pre, ev, post.
Qed.

(** The answer of the Claude CLI is the payload of the last event that carries
    one: no later event of the stream has any. *)
Theorem parse_claude_last env stdout p :
  parse_claude_stream_json env stdout = Ok p ↔
  ∃ pre event post, parsed_events stdout = pre ++ event :: post ∧
    extract_claude_event_payload event = Ok (Some p) ∧
    Forall (λ e, extract_claude_event_payload e = Ok None) post.
Proof.
  unfold parse_claude_stream_json. destruct (truthy stdout) eqn:Et; cbn [negb].
  2:{ destruct stdout; [|done]. split; [done|]. intros ([|? ?] & ? & ? & [=] & _). }
  split.
  - destruct (first_payload _) as [[q|]|] eqn:E; cbn [mbind res_bind]; [|done..]. intros [= ->].
    apply first_payload_Some in E as (pre & ev & post & Hr & Hp & Hf).
    exists (rev post), ev, (rev pre). split_and!; [|done|].
    + rewrite <-(rev_involutive (parsed_events stdout)), Hr, rev_app_distr. simpl. by rewrite <-app_assoc.
    + by apply Forall_rev.
  - intros (pre & ev & post & Hr & Hp & Hf).
    assert (first_payload (rev (parsed_events stdout)) = Ok (Some p)) as ->; [|done].
    apply first_payload_Some. exists (rev post), ev, (rev pre). split_and!; [|done|].
    + rewrite Hr, rev_app_distr. simpl. by rewrite <-app_assoc.
    + by apply Forall_rev.
Qed.

(** ** Strict schemas *)
Lemma strict_bool b : strict (VBool b).
Proof. by apply strict_leaf. Qed.
Lemma required_of_dset k v d : k ≠ "properties" → required_of (dset k v d) = required_of d.
Proof. intros H. unfold required_of. by rewrite dget_dset_ne. Qed.
Lemma strict_required d : strict (required_of d).
Proof.
  unfold required_of. apply strict_list. repeat case_match; try constructor.
  apply Forall_map, Forall_true. intros x. by apply strict_leaf.
Qed.
Lemma Forall_dset (P : pyval → Prop) k v d : P v → Forall (λ p, P p.2) d → Forall (λ p, P p.2) (dset k v d).
Proof.
  intros Hv Hd. apply Forall_forall. intros x [-> | Hx]%dset_elem; [done|]. by apply (proj1 (Forall_forall _ _) Hd).
Qed.
Lemma is_object_dset k v d : k ≠ "type" → k ≠ "properties" → is_object (dset k v d) = is_object d.
Proof. intros H1 H2. unfold is_object. by rewrite !dget_dset_ne. Qed.

Lemma close_object_strict d : Forall (λ p, strict p.2) d → strict (VDict (close_object d)).
Proof.
  intros Hd. unfold close_object. destruct (is_object d) eqn:Ho.
  - apply strict_dict.
    + intros _. rewrite dget_dset_ne, !dget_dset, !required_of_dset by done. done.
    + apply Forall_dset; [apply strict_required|]. apply Forall_dset; [apply strict_bool|done].
  - apply strict_dict; [by rewrite Ho|done].
Qed.
Lemma visit_strict v : strict (visit v).
Proof.
  induction v using pyval_ind'; try (by apply strict_leaf).
  - apply strict_list, Forall_map. done.
  - simpl. apply close_object_strict, Forall_map. eapply Forall_impl; [eassumption|]. by intros [].
Qed.

(** A schema that is strict already is left as it is, so a node that is
    reachable along two ways may be visited twice. *)
Lemma dset_same k (v : pyval) d : dget k d = Some v → dset k v d = d.
Proof.
  induction d as [|[k' v'] d IH]; simpl; [done|]. destruct (String.eqb_spec k' k) as [->|]; [by intros [= ->]|].
  intros H. by rewrite IH.
Qed.
Lemma visit_of_strict v : strict v → visit v = v.
Proof.
  induction v as [| | | | |l IH|d IH|] using pyval_ind'; intros Hs; try done; simpl; f_equal.
  - inversion Hs as [? Hl| |? Hn]; subst; [|by destruct (Hn l)]. clear Hs.
    induction l as [|x l IHl]; [done|]. apply Forall_cons in IH as [Hx IH], Hl as [Hsx Hl]. simpl. rewrite Hx, IHl; done.
  - inversion Hs as [|? Ho Hl|? ? Hn]; subst; [|by destruct (Hn d)]. clear Hs.
    assert (map (λ '(k, value), (k, visit value)) d = d) as ->.
    { clear Ho. induction d as [|[k x] d IHd]; [done|]. apply Forall_cons in IH as [Hx IH], Hl as [Hsx Hl].
      simpl in *. rewrite Hx, IHd; done. }
    unfold close_object. destruct (is_object d) eqn:E; [|done]. destruct (Ho eq_refl) as [H1 H2].
    by rewrite (dset_same _ _ _ H1), dset_same.
Qed.

(** The strict schema has in every object node, at any depth, exactly its
    properties as required ones and forbids others; making it strict again
    changes nothing. *)
Theorem strict_json_schema_spec schema :
  strict (strict_json_schema schema) ∧ visit (strict_json_schema schema) = strict_json_schema schema.
Proof. split; [apply visit_strict|]. apply visit_of_strict, visit_strict. Qed.

(** ** The guard *)

(** The guard accepts an argument list exactly when no argument is a forbidden
    option, alone or with a value, and no sandbox or permission option, in
    either spelling, asks for the unrestricted mode. *)
Theorem cli_args_guard (args : list string) : validate_cli_args args = Ok tt ↔
  ∀ i arg, args !! i = Some arg → arg_allowed arg (args !! S i).
Proof. apply validate_cli_args_iff. Qed.

(** The schema file does not outlive its scope, however the body ends, unless
    the body put a directory in its place. *)
Lemma write_schema_file_removed {A W} (fuel : nat) (now : Z) (p : path) (schema : pyval)
    (body : fs → res A * W * fs) (f : fs) r log f' :
  p ≠ [] → write_schema_file fuel now p schema body f = (r, log, f') →
  exists_ fuel f' p = false ∨ lookup_node f' p = None ∨ r = Raise (OtherError "IsADirectoryError").
Proof.
  intros Hp. unfold write_schema_file. destruct (body _) as [[r0 log0] f0] eqn:E.
  unfold unlink_if_exists. destruct (exists_ fuel f0 p) eqn:Ex; [|intros [= <- <- <-]; by left].
  destruct (lookup_node f0 p) as [[]|] eqn:El; intros [= <- <- <-]; right; try (by right); left;
    rewrite lookup_node_cons by done; apply lookup_delete_eq.
Qed.
