(* ===== verification/Skills.v ===== *)
(** * Skills and Tier-1 requests (agent_os/skills.py, agent_os/default_registry.py)

    The registry maps canonical names to skills in registration order; a task
    that begins with the name or alias of a skill is parsed into a call of it
    without a model.  Of a handler the model keeps the names of its parameters
    and the text of its schema; what it does is the dispatcher's argument. *)
From Corelib Require Import SpecFloat.
From S2P Require Export PyVal Schemas.

Record RegisteredSkill := mkSkill {
  sk_name : string;
  sk_aliases : list string;
  sk_parameters : list string;
  sk_schema : string }.

(** [RegisteredSkill(name=..., aliases=..., handler=...)] *)
Definition new_skill (name : string) (aliases params : list string) (schema : string) : res RegisteredSkill :=
  let n := lower (strip name) in
  let als := map (λ a, lower (strip a)) aliases in
  if sempty n then Raise (ValueError "Skill name must not be empty")
  else if existsb sempty als then Raise (ValueError "Skill aliases must not be empty")
  else if mem_str n als then Raise (ValueError "Skill aliases must not duplicate the canonical name")
  else if negb (bool_decide (NoDup als)) then Raise (ValueError "Skill aliases must be unique")
  else Ok (mkSkill n als params schema).

Definition matches (sk : RegisteredSkill) (command : string) : bool :=
  match split_ws (lower (strip command)) with
  | [] => false
  | first_word :: _ => String.eqb first_word (sk_name sk) || mem_str first_word (sk_aliases sk)
  end.

(** The skills by canonical name, in registration order. *)
Definition registry := list (string * RegisteredSkill).

(** The clash of a skill with a registered one, if any. *)
Definition clash (sk ex : RegisteredSkill) : option string :=
  if mem_str (sk_name sk) (sk_aliases ex) then
    Some ("Skill name '" +:+ sk_name sk +:+ "' is already used as an alias for '" +:+ sk_name ex +:+ "'")
  else
    a ← list_find (λ a, Is_true (String.eqb a (sk_name ex) || mem_str a (sk_aliases ex))) (sk_aliases sk);
    Some ("Alias '" +:+ a.2 +:+ "' already used by '" +:+ sk_name ex +:+ "'").
Fixpoint first_clash (sk : RegisteredSkill) (l : registry) : option string :=
  match l with
  | [] => None
  | (_, ex) :: l' => match clash sk ex with Some m => Some m | None => first_clash sk l' end
  end.

Definition register (sk : RegisteredSkill) (r : registry) : res registry :=
  if dhas (sk_name sk) r then Raise (ValueError ("Skill canonical name already registered: " +:+ sk_name sk))
  else match first_clash sk r with
       | Some m => Raise (ValueError m)
       | None => Ok (dset (sk_name sk) sk r)
       end.

Fixpoint register_all (sks : list RegisteredSkill) (r : registry) : res registry :=
  match sks with [] => Ok r | sk :: sks' => r' ← register sk r; register_all sks' r' end.

(** The shadow registry is built from the live one, then the batch; only then
    is the live registry updated. *)
Definition register_many (sks : list RegisteredSkill) (r : registry) : res registry :=
  shadow ← register_all (map snd r) [];
  _ ← register_all sks shadow;
  Ok (foldl (λ r sk, dset (sk_name sk) sk r) r sks).

Definition get (name : string) (r : registry) : option RegisteredSkill := dget (lower (strip name)) r.
Definition names (r : registry) : list string := dkeys r.
Definition deterministic_match (text : string) (r : registry) : option RegisteredSkill :=
  match List.filter (λ p, matches p.2 text) r with p :: _ => Some p.2 | [] => None end.
Definition router_catalog (r : registry) : list string :=
  map (λ p, "- " +:+ sk_name p.2 +:+ ": " +:+ sk_schema p.2) r.

(** ** shlex.split

    POSIX mode without comments, words split at white space. *)
Inductive shlex_state :=
  | Blank                          (* between words *)
  | Word
  | Quote (q : ascii)
  | Escape (back : shlex_state).   (* after a backslash; the state to go back to *)

Definition shlex_space (c : ascii) : bool := existsb (Ascii.eqb c) [" "; "009"; "010"; "013"]%char.
Definition is_quote (c : ascii) : bool := Ascii.eqb c dquote || Ascii.eqb c squote.
Definition backslash : ascii := chr 92.

(** [tok]: the word so far, [quoted]: whether it had quotes. *)
Fixpoint shlex_go (st : shlex_state) (tok : string) (quoted : bool) (s : string) : res (list string) :=
  let flush (rest : res (list string)) := if truthy tok || quoted then cons tok <$> rest else rest in
  match s with
  | EmptyString =>
      match st with
      | Blank | Word => flush (Ok [])
      | Quote _ => Raise (ValueError "No closing quotation")
      | Escape _ => Raise (ValueError "No escaped character")
      end
  | String c s' =>
      let add := tok +:+ String c "" in
      match st with
      | Blank | Word =>
          if shlex_space c then flush (shlex_go Blank "" false s')
          else if is_quote c then shlex_go (Quote c) tok quoted s'
          else if Ascii.eqb c backslash then shlex_go (Escape Word) tok quoted s'
          else shlex_go Word add quoted s'
      | Quote q =>
          if Ascii.eqb c q then shlex_go Word tok true s'
          else if Ascii.eqb c backslash && Ascii.eqb q dquote then shlex_go (Escape (Quote q)) tok true s'
          else shlex_go (Quote q) add true s'
      | Escape (Quote q) =>
          if Ascii.eqb c backslash || Ascii.eqb c q then shlex_go (Quote q) add quoted s'
          else shlex_go (Quote q) (tok +:+ String backslash (String c "")) quoted s'
      | Escape _ => shlex_go Word add quoted s'
      end
  end.
Definition shlex_split (s : string) : res (list string) := shlex_go Blank "" false s.

(** ** Tier-1 requests *)
Record RouterDecision := mkRouterDecision {
  rd_tool : option string; rd_confidence : spec_float; rd_arguments : pydict }.
Definition one_float : spec_float := S754_finite false 4503599627370496 (-52).

(** [text.strip().split(maxsplit=1)]: the first word and, after the white
    space, the rest. *)
Fixpoint take_word (s : string) : string * string :=
  match s with
  | EmptyString => (EmptyString, EmptyString)
  | String c s' => if is_space c then (EmptyString, lstrip s) else let '(w, r) := take_word s' in (String c w, r)
  end.

Definition single_text_argument_name (sk : RegisteredSkill) : option string :=
  match sk_parameters sk with [p] => Some p | _ => None end.

Definition decided (tool : string) (args : pydict) : res (option RouterDecision) :=
  Ok (Some (mkRouterDecision (Some tool) one_float args)).

Definition parse_write (args : string) : res (option RouterDecision) :=
  match split_once "::" args with
  | None => Raise (ValueError "Malformed write command: missing '::' separator")
  | Some (p, c) =>
      let path := strip p in
      let content := strip c in
      if sempty path then Raise (ValueError "Missing path for write command")
      else if sempty content then Raise (ValueError "Missing content for write command")
      else decided "write_file" [("path", VStr path); ("content", VStr content)]
  end.

Definition parse_bash (args : string) : res (option RouterDecision) :=
  match shlex_split args with
  | Raise e => Raise (ValueError ("Malformed bash command: " +:+ exn_msg e))
  | Ok [] => Raise (ValueError "Empty bash command")
  | Ok l => decided "bash" [("cmd_args", VList (map VStr l))]
  end.

Definition parse_memory_write (args : string) : res (option RouterDecision) :=
  match split_once "::" args with
  | None => Raise (ValueError "Malformed memory write command: missing '::' separator")
  | Some (destination, c) =>
      let content := strip c in
      if sempty content then Raise (ValueError "Missing content for memory write command")
      else
        let finish (mode ref : string) :=
          if sempty ref then Raise (ValueError "Missing ref for memory write command")
          else decided "memory_write" [("ref", VStr ref); ("content", VStr content); ("mode", VStr mode)] in
        let bad := Raise (ValueError ("Malformed memory write command. Use memory_write [{" +:+
                     sjoin "|" MEMORY_WRITE_MODES +:+ "}] <ref> :: <content>")) in
        match split_ws (strip destination) with
        | [ref] => finish "create" ref
        | [mode; ref] => if mem_str mode MEMORY_WRITE_MODES then finish mode ref else bad
        | _ => bad
        end
  end%string.

Definition parse_tier1_request (text : string) (r : registry) : res (option RouterDecision) :=
  match deterministic_match text r with
  | None => Ok None
  | Some sk =>
      let '(_, rest) := take_word (strip text) in
      if sempty rest then Raise (ValueError ("Missing arguments for command '" +:+ sk_name sk +:+ "'"))
      else
        let args := strip rest in
        if String.eqb (sk_name sk) "read_file" then decided "read_file" [("path", VStr args)]
        else if String.eqb (sk_name sk) "write_file" then parse_write args
        else if String.eqb (sk_name sk) "bash" then parse_bash args
        else if String.eqb (sk_name sk) "memory_write" then parse_memory_write args
        else match single_text_argument_name sk with
             | None => Ok None
             | Some p => decided (sk_name sk) [(p, VStr args)]
             end
  end.

(** The native skills, then the MCP tools; a tool that clashes is skipped. *)
Definition native_skills : list RegisteredSkill :=
  [mkSkill "read_file" ["read"] ["path"] ""; mkSkill "write_file" ["write"; "edit"] ["path"; "content"] "";
   mkSkill "bash" [] ["cmd_args"; "timeout_seconds"] "";
   mkSkill "memory_write" ["memory-write"] ["ref"; "content"; "mode"] ""]%string.
Fixpoint add_mcp_tools (tools : list (string * list string * string)) (r : registry) : registry :=
  match tools with
  | [] => r
  | (n, params, schema) :: tools' =>
      add_mcp_tools tools' (match (sk ← new_skill n [] params schema; register sk r) with
                            | Ok r' => r'
                            | Raise _ => r
                            end)
  end.
Definition build_default_registry (tools : list (string * list string * string)) : res registry :=
  r ← register_all native_skills []; Ok (add_mcp_tools tools r).

(** ** The registry is unambiguous *)
Definition words (sk : RegisteredSkill) : list string := sk_name sk :: sk_aliases sk.
Definition apart (a b : RegisteredSkill) : Prop := words a ## words b.

(** Entries are under their names, and no two skills share a word. *)
Inductive registry_ok : registry → Prop :=
  | reg_nil : registry_ok []
  | reg_cons sk r : Forall (λ p, apart sk p.2) r → registry_ok r → registry_ok ((sk_name sk, sk) :: r).

#[export] Instance apart_sym : Symmetric apart.
Proof. intros a b H x Hb Ha. by apply (H x). Qed.

Lemma registry_ok_snoc r sk : registry_ok (r ++ [(sk_name sk, sk)]) ↔
  registry_ok r ∧ Forall (λ p, apart sk p.2) r.
Proof.
  induction r as [|[k x] r IH]; simpl.
  - split; [intros _; split; constructor|intros _; repeat constructor].
  - split.
    + inversion 1 as [|? ? Hf Hr]; subst. apply Forall_app in Hf as [Hf [Hx _]%Forall_cons_1].
      apply IH in Hr as [Hr Hs]. split; [by constructor|]. constructor; [symmetry; exact Hx|done].
    + intros [Hr Hs]. inversion Hr; subst. inversion Hs; subst. constructor; [|by apply IH].
      apply Forall_app. split; [done|]. apply Forall_singleton. cbn in *. by symmetry.
Qed.

Lemma registry_ok_app r x : registry_ok (r ++ x) → registry_ok r.
Proof.
  induction r as [|p r IH]; [constructor|]. inversion 1 as [|? ? Hf Hr]; subst.
  constructor; [by apply Forall_app in Hf as [? _]|by apply IH].
Qed.

Lemma clash_None sk ex : sk_name sk ≠ sk_name ex → clash sk ex = None ↔ apart sk ex.
Proof.
  intros Hne. unfold clash, apart, words. destruct (mem_str (sk_name sk) (sk_aliases ex)) eqn:En.
  - apply mem_str_iff in En. split; [done|]. intros H. exfalso. apply (H (sk_name sk)); [left|by right].
  - destruct (list_find _ (sk_aliases sk)) as [[i a]|] eqn:E; simpl.
    + split; [done|]. intros H. exfalso. apply list_find_Some in E as (Ha & Hp & _).
      apply list_elem_of_lookup_2 in Ha. apply Is_true_true, orb_true_iff in Hp as [Hp|Hp].
      * apply String.eqb_eq in Hp as ->. apply (H (sk_name ex)); [by right|left].
      * apply mem_str_iff in Hp. apply (H a); by right.
    + split; [|done]. intros _ x Hx Hy. apply list_find_None in E. rewrite Forall_forall in E.
      assert (sk_name sk ∉ sk_aliases ex) as Hn by (rewrite <-mem_str_iff; congruence).
      apply elem_of_cons in Hx as [->|Hx]; apply elem_of_cons in Hy as [Hy|Hy]; try done.
      * apply (E x Hx). apply Is_true_true, orb_true_iff. left. by apply String.eqb_eq.
      * apply (E x Hx). apply Is_true_true, orb_true_iff. right. by apply mem_str_iff.
Qed.

Lemma registry_keys r : registry_ok r → dkeys r = map (λ p, sk_name p.2) r.
Proof. induction 1 as [|sk r _ _ IH]; [done|]. unfold dkeys in *. cbn. by rewrite IH. Qed.

Lemma dhas_name sk r : registry_ok r → dhas (sk_name sk) r = false ↔ Forall (λ p, sk_name sk ≠ sk_name p.2) r.
Proof.
  intros Hr. unfold dhas. destruct (dget (sk_name sk) r) eqn:E.
  - split; [done|]. intros H. apply dget_Some_elem in E as Hin.
    assert (sk_name sk ∈ dkeys r) as Hk by (apply list_elem_of_fmap; by eexists (_, _)).
    rewrite registry_keys in Hk by done. apply list_elem_of_In, in_map_iff in Hk as (p & Hp & Hin').
    rewrite Forall_forall in H. exfalso. apply (H p); [by apply list_elem_of_In|done].
  - split; [|done]. intros _. apply dget_None_iff in E. rewrite registry_keys in E by done.
    apply Forall_forall. intros p Hp He. apply E. rewrite He. by apply list_elem_of_In, (in_map (λ p, sk_name p.2)), list_elem_of_In.
Qed.

(** Registration succeeds exactly when the words are new, and appends. *)
Lemma register_iff sk r r' : registry_ok r →
  register sk r = Ok r' ↔ Forall (λ p, apart sk p.2) r ∧ r' = r ++ [(sk_name sk, sk)].
Proof.
  intros Hr. unfold register. destruct (dhas (sk_name sk) r) eqn:E.
  { split; [done|]. intros [Hf _]. exfalso.
    assert (dhas (sk_name sk) r = false); [|congruence]. apply dhas_name; [done|].
    eapply Forall_impl; [exact Hf|]. intros p Hp He. apply (Hp (sk_name sk)); [left|]. rewrite He. left. }
  assert (Forall (λ p, sk_name sk ≠ sk_name p.2) r) as Hne by (by apply dhas_name).
  assert (dset (sk_name sk) sk r = r ++ [(sk_name sk, sk)]) as ->.
  { clear -E. induction r as [|[k x] r IH]; [done|]. unfold dhas in *. cbn in *.
    destruct (String.eqb k (sk_name sk)); [done|]. by rewrite IH. }
  assert (first_clash sk r = None ↔ Forall (λ p, apart sk p.2) r) as Hc.
  { clear -Hne. induction Hne as [|[k x] r Hx Hne IH]; cbn; [by split|].
    rewrite Forall_cons. cbn in *. rewrite <-(clash_None sk x), <-IH by done. destruct (clash sk x); naive_solver. }
  destruct (first_clash sk r) eqn:Ef.
  - split; [done|]. intros [Hf _]. by apply Hc in Hf.
  - split; [intros [= <-]; split; [by apply Hc|done]|]. by intros [_ ->].
Qed.

Definition entries (sks : list RegisteredSkill) : registry := map (λ sk, (sk_name sk, sk)) sks.

Lemma register_all_iff sks : ∀ r r', registry_ok r →
  register_all sks r = Ok r' ↔ r' = r ++ entries sks ∧ registry_ok r'.
Proof.
  induction sks as [|sk sks IH]; intros r r' Hr; cbn [register_all].
  - change (entries []) with (@nil (string * RegisteredSkill)). rewrite app_nil_r. split; [by intros [= <-]|by intros [-> _]].
  - change (entries (sk :: sks)) with ([(sk_name sk, sk)] ++ entries sks). rewrite app_assoc.
    assert (∀ x, registry_ok ((r ++ [(sk_name sk, sk)]) ++ x) → Forall (λ p, apart sk p.2) r ∧ registry_ok (r ++ [(sk_name sk, sk)])) as Hpre.
    { intros x Hx%registry_ok_app. split; [by apply registry_ok_snoc in Hx as [_ ?]|done]. }
    destruct (register sk r) as [r1|e] eqn:E; cbn.
    + apply register_iff in E as [Hf ->]; [|done]. apply IH. apply registry_ok_snoc. by split.
    + split; [done|]. intros [-> [Hf _]%Hpre]. exfalso.
      by rewrite (proj2 (register_iff sk r _ Hr) (conj Hf eq_refl)) in E.
Qed.

Lemma registry_entries r : registry_ok r → entries (map snd r) = r.
Proof. induction 1 as [|sk r _ _ IH]; [done|]. unfold entries in *. cbn. by rewrite IH. Qed.

Lemma foldl_dset sks : ∀ r, registry_ok (r ++ entries sks) →
  foldl (λ r sk, dset (sk_name sk) sk r) r sks = r ++ entries sks.
Proof.
  induction sks as [|sk sks IH]; intros r Hr; cbn [foldl]; [by rewrite app_nil_r|].
  change (entries (sk :: sks)) with ([(sk_name sk, sk)] ++ entries sks) in *. rewrite app_assoc in Hr.
  assert (dset (sk_name sk) sk r = r ++ [(sk_name sk, sk)]) as ->.
  { apply registry_ok_app, registry_ok_snoc in Hr as [Hr Hf]. apply dset_append.
    intros (p & Hp & Hin)%list_elem_of_fmap. rewrite Forall_forall in Hf.
    assert (p.1 = sk_name p.2) as Hn.
    { clear -Hr Hin. induction Hr as [|x r _ _ IH]; [by apply not_elem_of_nil in Hin|].
      apply elem_of_cons in Hin as [->|Hin]; [done|by apply IH]. }
    apply (Hf p Hin (sk_name sk)); [left|]. rewrite Hp, Hn. left. }
  rewrite IH by done. by rewrite <-app_assoc.
Qed.

Lemma register_many_all sks r r' : registry_ok r → register_many sks r = Ok r' ↔ register_all sks r = Ok r'.
Proof.
  intros Hr. unfold register_many.
  rewrite (proj2 (register_all_iff (map snd r) [] r reg_nil)) by (by rewrite registry_entries).
  cbn. destruct (register_all sks r) as [r1|e] eqn:E; [|done]. cbn.
  apply register_all_iff in E as [-> Hok]; [|done]. by rewrite foldl_dset.
Qed.
Lemma register_many_iff sks r r' : registry_ok r →
  register_many sks r = Ok r' ↔ r' = r ++ entries sks ∧ registry_ok r'.
Proof. intros Hr. rewrite register_many_all by done. by apply register_all_iff. Qed.

(** The registry stays unambiguous: a registration succeeds exactly when
    its words are new, a batch is registered as one or not at all, and of the
    skills registered at most one answers to a task, so the first match is the
    only one. *)
Theorem registry_unambiguous r : registry_ok r →
  (∀ sk r', register sk r = Ok r' ↔ (∀ k x, (k, x) ∈ r → apart sk x) ∧ r' = r ++ [(sk_name sk, sk)]) ∧
  (∀ sk r', register sk r = Ok r' → registry_ok r') ∧
  (∀ sks r', register_many sks r = Ok r' ↔ register_all sks r = Ok r') ∧
  (∀ sks r', register_many sks r = Ok r' → registry_ok r') ∧
  (∀ text k sk, (k, sk) ∈ r → matches sk text = true → deterministic_match text r = Some sk).
Proof.
  intros Hr.
  assert (∀ sks r', register_many sks r = Ok r' ↔ register_all sks r = Ok r') as Hmany by (intros; by apply register_many_all).
  split_and!; [| | done| |].
  - intros sk r'. rewrite register_iff by done. rewrite Forall_forall. split.
    + intros [Hf ->]. split; [|done]. intros k x. apply (Hf (k, x)).
    + intros [Hf ->]. split; [|done]. intros [k x]. apply Hf.
  - intros sk r' [Hf ->]%register_iff; [|done]. by apply registry_ok_snoc.
  - intros sks r' H%Hmany. by apply register_all_iff in H as [_ ?].
  - intros text k sk Hin Hm. clear Hmany. unfold deterministic_match. revert Hin.
    induction Hr as [|x r Hf Hr IH]; [by intros ?%not_elem_of_nil|]. cbn.
    intros [[= -> ->]|Hin]%elem_of_cons; [by rewrite Hm|].
    destruct (matches x text) eqn:Ex; [|apply IH, Hin].
    exfalso. rewrite Forall_forall in Hf. specialize (Hf _ Hin). cbn in Hf. unfold matches in Ex, Hm.
    destruct (split_ws _) as [|w ws]; [done|]. apply (Hf w).
    + apply orb_true_iff in Ex as [Ex|Ex]; [apply String.eqb_eq in Ex as ->; left|right; by apply mem_str_iff].
    + apply orb_true_iff in Hm as [E|E]; [apply String.eqb_eq in E as ->; left|right; by apply mem_str_iff].
Qed.

Lemma registry_unambiguous_witness :
  registry_ok (entries native_skills) ∧
  deterministic_match "  EDIT a.txt :: x" (entries native_skills)
  = Some (mkSkill "write_file" ["write"; "edit"] ["path"; "content"] "").
Proof.
  assert (registry_ok (entries native_skills)) as H.
  { apply (register_all_iff native_skills [] (entries native_skills)); [constructor|reflexivity]. }
  split; [exact H|].
  apply (registry_unambiguous (entries native_skills) H) with (k := "write_file"%string); [|reflexivity].
  right. left.
Defined.

(** ** What a Tier-1 write asks for *)
Lemma take_word_app w c rest : sforall (λ c, negb (is_space c)) w = true → is_space c = true →
  take_word (w +:+ String c rest) = (w, lstrip rest).
Proof.
  intros Hw Hc. induction w as [|a w IH]; simpl.
  - by rewrite Hc.
  - simpl in Hw. apply andb_true_iff in Hw as [Ha%negb_true_iff Hw]. by rewrite Ha, IH.
Qed.
