(* ===== verification/Plugins.v ===== *)
(** * Entry-point plugins (agent_os/plugins.py)

    What the installed distributions publish is a parameter: the entry points
    of every group, each with the outcome of its [load()].  The cache of the
    registry is not observable while the distributions stay the same. *)
From S2P Require Export PyVal.

Record entry_point (A : Type) := mkEntryPoint { ep_name : string; ep_load : res A }.
Arguments mkEntryPoint {_} _ _. Arguments ep_name {_} _. Arguments ep_load {_} _.

Section plugins.
Context {A : Type} (entry_points : string → list (entry_point A)).

Definition duplicate_plugin (name group : string) : exn :=
  ValueError ("Duplicate plugin name '" +:+ name +:+ "' discovered in entry point group '" +:+ group +:+ "'.").
Fixpoint add_entry_points (group : string) (eps : list (entry_point A)) (discovered : list (string * entry_point A))
    : res (list (string * entry_point A)) :=
  match eps with
  | [] => Ok discovered
  | ep :: eps' =>
      let name := strip (ep_name ep) in
      if dhas name discovered then Raise (duplicate_plugin name group)
      else add_entry_points group eps' (dset name ep discovered)
  end.
Definition discover (group : string) : res (list (string * entry_point A)) :=
  add_entry_points group (entry_points group) [].

Definition list_available (group : string) : res (list string) :=
  d ← discover group; Ok (sort_by str_leb (dkeys d)).

Definition none_or (l : list string) : string := if sempty (sjoin ", " l) then "none" else sjoin ", " l.
Definition resolve_plugin (group name : string) : res A :=
  discovered ← discover group;
  let clean_name := strip name in
  match dget clean_name discovered with
  | None =>
      available ← list_available group;
      Raise (ValueError ("Plugin '" +:+ clean_name +:+ "' not found in group '" +:+ group +:+ "'. Available plugins: "
                         +:+ none_or available +:+ "."))
  | Some ep =>
      match ep_load ep with
      | Ok x => Ok x
      | Raise exc => Raise (ValueError ("Failed to load plugin '" +:+ clean_name +:+ "' from group '" +:+ group +:+ "': " +:+ exn_msg exc))
      end
  end.

Lemma add_entry_points_spec group eps : ∀ acc,
  NoDup (dkeys acc) →
  match add_entry_points group eps acc with
  | Ok d => d = acc ++ map (λ ep, (strip (ep_name ep), ep)) eps ∧ NoDup (dkeys d)
  | Raise exc => (∃ name, exc = duplicate_plugin name group) ∧
      ¬ NoDup (dkeys (acc ++ map (λ ep, (strip (ep_name ep), ep)) eps))
  end.
Proof.
  induction eps as [|ep eps IH]; intros acc Hn; cbn [add_entry_points map]; [by rewrite app_nil_r|].
  destruct (dhas (strip (ep_name ep)) acc) eqn:E.
  - split; [eauto|]. apply dhas_iff in E. unfold dkeys in *. rewrite fmap_app. simpl. intros [_ [H _]]%NoDup_app.
    apply (H _ E). by left.
  - assert (strip (ep_name ep) ∉ dkeys acc) as Hnin by (intros Hin; apply dhas_iff in Hin; congruence).
    specialize (IH (dset (strip (ep_name ep)) ep acc) ltac:(by apply dset_NoDup)).
    rewrite dset_append in IH |- * by done. rewrite <-app_assoc in IH. exact IH.
Qed.
End plugins.

Lemma resolve_plugin_cases {A} (entry_points : string → list (entry_point A)) group name x :
  resolve_plugin entry_points group name = Ok x →
  NoDup (map (λ ep, strip (ep_name ep)) (entry_points group)) ∧
  ∃ ep, ep ∈ entry_points group ∧ strip (ep_name ep) = strip name ∧ ep_load ep = Ok x.
Proof.
  unfold resolve_plugin, discover. pose proof (add_entry_points_spec group (entry_points group) [] (NoDup_nil_2)) as Hs.
  destruct (add_entry_points group (entry_points group) []) as [d|] eqn:Ed; [|done]. destruct Hs as [-> Hn]. cbn [mbind res_bind app] in *.
  destruct (dget (strip name) _) as [ep|] eqn:Eg; [|by destruct (list_available _ _)].
  apply dget_Some_elem in Eg. apply list_elem_of_fmap in Eg as (ep' & [= Hname <-] & Hin).
  destruct (ep_load ep) as [y|] eqn:El; [|done]. intros [= <-]. split.
  - unfold dkeys in Hn. rewrite <-list_fmap_compose in Hn. exact Hn.
  - exists ep. done.
Qed.

(** A group resolves a plugin only if the stripped names of the whole group are
    distinct, and then to the entry point of that name. *)
Theorem resolve_plugin_spec {A} (entry_points : string → list (entry_point A)) group name x :
  resolve_plugin entry_points group name = Ok x →
  NoDup (map (λ ep, strip (ep_name ep)) (entry_points group)) ∧
  ∃ ep, ep ∈ entry_points group ∧ strip (ep_name ep) = strip name ∧ ep_load ep = Ok x.
Proof. apply resolve_plugin_cases. Qed.
Lemma resolve_plugin_spec_witness :
  let eps (g : string) := [mkEntryPoint " a " (Ok 1); mkEntryPoint "b" (Raise (ValueError "x"))] in
  NoDup (map (λ ep, strip (ep_name ep)) (eps "g"%string)) ∧
  ∃ ep, ep ∈ eps "g"%string ∧ strip (ep_name ep) = strip "a" ∧ ep_load ep = Ok 1.
Proof. intros eps. apply (resolve_plugin_spec eps "g" "a" 1). vm_compute. reflexivity. Defined.
