(* ===== verification/SkillPackages.v ===== *)
(** * Skill packages (agent_os/skill_packages.py, agent_os/skill_authoring_preflight.py)

    A package is a directory with a [manifest.toml]; every handler it declares
    becomes a registered skill, all of them or none.  The TOML parser, the
    execution of a module and the entry points are parameters. *)
From S2P Require Export Plugins Skills Paths.

(** What a module binds a name to. *)
Inductive attribute := Callable (parameters : list string) (schema : string) | NotCallable.
Definition module := string → option attribute.

(** What a factory returns. *)
Inductive factory_result :=
  | FPath (p : string)
  | FSkill (sk : RegisteredSkill)
  | FSkills (sks : list RegisteredSkill)
  | FOther (type_name : string).
(** The object of an entry point of the group [agent_os.skill_packages]. *)
Inductive plugin_target :=
  | TPath (p : string)
  | TSkill (sk : RegisteredSkill)
  | TSkills (sks : list RegisteredSkill)
  | TFactory (result : res factory_result)
  | TOther (type_name : string).

(** [s.count(":")] *)
Fixpoint count_char (c : ascii) (s : string) : nat :=
  match s with
  | EmptyString => 0
  | String d s' => (if Ascii.eqb d c then 1 else 0) + count_char c s'
  end.

(** [s.isidentifier()] on Latin-1. *)
Definition id_start (c : ascii) : bool :=
  let z := code c in
  is_lower_az c || is_upper_az c || (z =? 95) || (z =? 170) || (z =? 181) || (z =? 186)
  || ((192 <=? z) && (z <=? 255) && negb (z =? 215) && negb (z =? 247)).
Definition id_continue (c : ascii) : bool := id_start c || is_digit c || (code c =? 183).
Definition isidentifier (s : string) : bool :=
  match s with EmptyString => false | String c s' => id_start c && sforall id_continue s' end.

Section loader.
Context (fuel : nat) (toml_loads : string → option pydict) (exec_module : path → fs → option module).
Context (iterdir : fs → path → list string).
Implicit Types (f : fs) (reg : registry).

Definition in_manifest (what : string) (manifest_path : path) : exn :=
  ValueError (what +:+ abs_str manifest_path).

Definition nonblank_str (v : option pyval) : bool :=
  match v with Some (VStr s) => truthy (strip s) | _ => false end.

(** The module and the function that an entrypoint names. *)
Definition parse_entrypoint (v : option pyval) : option (list string * string) :=
  match v with
  | Some (VStr entrypoint) =>
      if negb (count_char ":" entrypoint =? 1)%nat then None
      else match split_char ":" entrypoint with
           | [module_name; func_name] =>
               let module_parts := split_char "." module_name in
               if truthy module_name && forallb isidentifier module_parts && isidentifier func_name
               then Some (module_parts, func_name) else None
           | _ => None
           end
  | _ => None
  end.

Definition match_values (v : option pyval) : option (list string) :=
  match v with
  | Some (VList (x :: l)) =>
      if forallb (λ m, nonblank_str (Some m)) (x :: l) then Some (map py_str (x :: l)) else None
  | _ => None
  end.

(** One handler of the manifest. *)
Definition load_handler (package_dir manifest_path : path) (conf : pyval) f : res RegisteredSkill :=
  match conf with
  | VDict handler_conf =>
      match parse_entrypoint (dget "entrypoint" handler_conf) with
      | None => Raise (in_manifest "Invalid entrypoint in " manifest_path)
      | Some (module_parts, func_name) =>
          module_path ← with_suffix ".py" (package_dir ++ module_parts);
          if negb (is_file fuel f module_path) then Raise (in_manifest "Module not found for " manifest_path)
          else
            match exec_module module_path f with
            | None => Raise (in_manifest "Failed to load handler from " manifest_path)
            | Some m =>
                match m func_name with
                | None => Raise (in_manifest "Function not found in " manifest_path)
                | Some NotCallable => Raise (in_manifest "Handler is not callable in " manifest_path)
                | Some (Callable params schema) =>
                    match match_values (dget "match" handler_conf) with
                    | Some (name :: aliases) => new_skill name aliases params schema
                    | _ => Raise (in_manifest "Handler needs non-empty match values in " manifest_path)
                    end
                end
            end
      end
  | _ => Raise (in_manifest "Handler entries must be tables in " manifest_path)
  end.
Fixpoint load_handlers (package_dir manifest_path : path) (confs : list pyval) f : res (list RegisteredSkill) :=
  match confs with
  | [] => Ok []
  | c :: cs => sk ← load_handler package_dir manifest_path c f;
               sks ← load_handlers package_dir manifest_path cs f; Ok (sk :: sks)
  end.

(** The [[skill]] table of the manifest and its handlers. *)
Definition manifest_handlers (manifest_path : path) (manifest : pydict) : res (list pyval) :=
  match dget "skill" manifest with
  | Some (VDict skill) =>
      if negb (nonblank_str (dget "name" skill) && nonblank_str (dget "version" skill)) then
        Raise (in_manifest "[skill].name and version must be non-empty in " manifest_path)
      else match dget "handlers" skill with
           | Some (VList (h :: hs)) => Ok (h :: hs)
           | _ => Raise (in_manifest "[skill] must define at least one handler in " manifest_path)
           end
  | _ => Raise (in_manifest "Missing [skill] table in " manifest_path)
  end.

Definition load_package (package_dir : path) f reg : res registry :=
  let manifest_path := package_dir ++ ["manifest.toml"] in
  if negb (is_file fuel f manifest_path) then Raise (in_manifest "Skill manifest not found: " manifest_path)
  else
    match stat fuel f manifest_path with
    | Ok (NFile content _) =>
        match toml_loads content with
        | None => Raise (in_manifest "Failed to parse manifest " manifest_path)
        | Some manifest =>
            handlers ← manifest_handlers manifest_path manifest;
            loaded ← load_handlers package_dir manifest_path handlers f;
            register_many loaded reg
        end
    | _ => Raise (in_manifest "Failed to parse manifest " manifest_path)
    end.

Fixpoint load_packages (dirs : list path) f reg : res registry :=
  match dirs with [] => Ok reg | d :: ds => reg' ← load_package d f reg; load_packages ds f reg' end.
Definition packages_below (root_dir : path) f : list path :=
  if is_dir fuel f root_dir then
    List.filter (is_dir fuel f) (map (λ n, root_dir ++ [n]) (sort_by str_leb (iterdir f root_dir)))
  else [].
Definition load_from_directories (directories : list path) f reg : res registry :=
  load_packages (flat_map (λ d, packages_below d f) directories) f reg.

(** ** Entry points *)
Context (cwd : path) (entry_points : string → list (entry_point plugin_target)).
Definition skill_package_group : string := "agent_os.skill_packages".

Definition load_plugin_path (ep_name p : string) f reg : res registry :=
  let q := join_path cwd (parse_path p) in
  if is_dir fuel f q && is_file fuel f (q ++ ["manifest.toml"]) then load_package q f reg
  else Raise (ValueError ("Skill package plugin '" +:+ ep_name +:+ "' path '" +:+ p +:+ "' is not a valid skill package directory.")).

Definition load_target (ep_name : string) (t : plugin_target) f reg : res registry :=
  match t with
  | TPath p => load_plugin_path ep_name p f reg
  | TSkill sk => register sk reg
  | TSkills sks => register_many sks reg
  | TFactory (Raise exc) =>
      Raise (ValueError ("Failed to instantiate skill package plugin '" +:+ ep_name +:+ "': " +:+ exn_msg exc))
  | TFactory (Ok (FPath p)) => load_plugin_path ep_name p f reg
  | TFactory (Ok (FSkill sk)) => register sk reg
  | TFactory (Ok (FSkills sks)) => register_many sks reg
  | TFactory (Ok (FOther ty)) =>
      Raise (ValueError ("Skill package plugin '" +:+ ep_name +:+ "' factory returned unsupported type " +:+ ty +:+ "."))
  | TOther ty =>
      Raise (ValueError ("Skill package plugin '" +:+ ep_name +:+ "' returned unsupported object of type " +:+ ty +:+ "."))
  end.

Fixpoint load_plugins (eps : list string) f reg : res registry :=
  match eps with
  | [] => Ok reg
  | ep :: eps' =>
      match resolve_plugin entry_points skill_package_group ep with
      | Raise exc => Raise (ValueError ("Failed to load skill package plugin '" +:+ ep +:+ "': " +:+ exn_msg exc))
      | Ok t => reg' ← load_target ep t f reg; load_plugins eps' f reg'
      end
  end.
Definition load_from_entry_points f reg : res registry :=
  match discover entry_points skill_package_group with
  | Raise exc => Raise (ValueError ("Plugin discovery failed for group 'agent_os.skill_packages': " +:+ exn_msg exc))
  | Ok d => load_plugins (dkeys d) f reg
  end.

(** ** The preflight process *)

(** [_assert_fresh_loader]: an empty registry loads the package and has the
    expected skill afterwards. *)
Definition assert_fresh_loader (package_dir : path) (expected_name : string) f : res registry :=
  reg ← load_package package_dir f [];
  match get expected_name reg with
  | Some _ => Ok reg
  | None => Raise (SkillAuthoringError "Draft did not register the expected skill name in an isolated registry")
  end.
(** [main]: the exit code and the printed line. *)
Definition preflight_main (arguments : list string) f : Z * string :=
  match arguments with
  | [dir; expected_name] =>
      match
        package_dir ← realpath fuel f (join_path cwd (parse_path dir));
        assert_fresh_loader package_dir expected_name f
      with
      | Ok _ => (0, "preflight passed"%string)
      | Raise exc => (1, "preflight failed: " +:+ exn_class exc +:+ ": " +:+ exn_msg exc)
      end
  | _ => (2, "usage: skill_authoring_preflight PACKAGE_DIR EXPECTED_SKILL_NAME"%string)
  end.
End loader.

(** ** Typing *)

(** A skill as [RegisteredSkill] validates it. *)
Definition well_named (sk : RegisteredSkill) : Prop :=
  sk_name sk ≠ "" ∧ Forall (λ a, a ≠ "") (sk_aliases sk) ∧ sk_name sk ∉ sk_aliases sk ∧ NoDup (sk_aliases sk).
Definition registry_typed (reg : registry) : Prop := registry_ok reg ∧ Forall (λ p, well_named p.2) reg.

Lemma new_skill_well_named name aliases params schema sk : new_skill name aliases params schema = Ok sk → well_named sk.
Proof.
  unfold new_skill. destruct (sempty (lower (strip name))) eqn:E1; [done|].
  destruct (existsb sempty _) eqn:E2; [done|]. destruct (mem_str _ _) eqn:E3; [done|]. destruct (negb _) eqn:E4; [done|].
  intros [= <-]. bool_prop. split_and!; cbn.
  - by destruct (lower (strip name)).
  - apply Forall_forall. intros a Ha ->. apply not_true_iff_false in E2. apply E2, existsb_exists. exists "".
    split; [by apply list_elem_of_In|done].
  - rewrite <-mem_str_iff. by rewrite E3.
  - done.
Qed.

Section typing.
Context (fuel : nat) (toml_loads : string → option pydict) (exec_module : path → fs → option module).
Context (iterdir : fs → path → list string).
Implicit Types (f : fs) (reg : registry).

Lemma load_handlers_well_named d m confs f sks : load_handlers fuel exec_module d m confs f = Ok sks →
  Forall well_named sks ∧ length sks = length confs.
Proof.
  revert sks. induction confs as [|c confs IH]; intros sks; cbn [load_handlers]; [intros [= <-]; done|].
  intros (sk & Hsk & (sks' & Hsks & [= <-])%res_bind_ok)%res_bind_ok. destruct (IH _ Hsks) as [Hw Hl].
  split; [|simpl; by rewrite Hl]. constructor; [|done]. revert Hsk. unfold load_handler. destruct c; try done.
  destruct (parse_entrypoint _) as [[parts fn]|]; [|done]. intros (mp & _ & H)%res_bind_ok.
  destruct (negb _); [done|]. destruct (exec_module mp f) as [md|]; [|done]. destruct (md fn) as [[params schema|]|]; try done.
  destruct (match_values _) as [[|n als]|]; [done| |done]. by eapply new_skill_well_named.
Qed.

Lemma load_package_Ok d f reg reg' : registry_ok reg → load_package fuel toml_loads exec_module d f reg = Ok reg' →
  ∃ sks, sks ≠ [] ∧ Forall well_named sks ∧ reg' = reg ++ entries sks ∧ registry_ok reg'.
Proof.
  intros Hr. unfold load_package. destruct (negb _); [done|].
  destruct (stat fuel f (d ++ ["manifest.toml"])) as [[|content mt|t]|]; try done.
  destruct (toml_loads content) as [man|]; [|done].
  intros (hs & Hhs & (sks & Hsks & H)%res_bind_ok)%res_bind_ok.
  apply register_many_iff in H as [-> Hok]; [|done]. destruct (load_handlers_well_named _ _ _ _ _ Hsks) as [Hw Hl].
  exists sks. split_and!; [|done..]. intros ->. revert Hhs. unfold manifest_handlers.
  destruct (dget "skill" man) as [[| | | | | |skill|]|]; try discriminate. destruct (negb _); [done|].
  destruct (dget "handlers" skill) as [[| | | | |[|h hs']| |]|]; try discriminate. intros [= <-]. discriminate Hl.
Qed.

Lemma registry_typed_app reg sks : registry_typed reg → Forall well_named sks → registry_ok (reg ++ entries sks) →
  registry_typed (reg ++ entries sks).
Proof.
  intros [_ H1] H2 H3. split; [done|]. apply Forall_app. split; [done|]. unfold entries. by apply Forall_map.
Qed.

(** A loaded package leaves the registry well-typed: what it adds, at the end,
    are one or more skills with non-empty, distinct words that clash with no
    skill registered before; a package that fails adds nothing. *)
Theorem load_package_typed d f reg reg' : registry_typed reg →
  load_package fuel toml_loads exec_module d f reg = Ok reg' →
  registry_typed reg' ∧ ∃ sks, sks ≠ [] ∧ reg' = reg ++ entries sks.
Proof.
  intros Ht H. destruct (load_package_Ok d f reg reg' (proj1 Ht) H) as (sks & Hne & Hw & -> & Hok).
  split; [by apply registry_typed_app|eauto].
Qed.

Lemma load_directories_typed dirs f reg reg' : registry_typed reg →
  load_from_directories fuel toml_loads exec_module iterdir dirs f reg = Ok reg' → registry_typed reg'.
Proof.
  unfold load_from_directories. generalize (flat_map (λ d, packages_below fuel iterdir d f) dirs).
  intros l. revert reg. induction l as [|d l IH]; intros reg Ht; cbn [load_packages]; [by intros [= <-]|].
  intros (reg1 & H1 & H)%res_bind_ok. destruct (load_package_Ok d f reg reg1 (proj1 Ht) H1) as (sks & _ & Hw & -> & Hok).
  eapply IH; [|exact H]. by apply registry_typed_app.
Qed.

(** The preflight passes exactly when the package, loaded alone, registers the
    expected name. *)
Lemma preflight_spec cwd dir expected_name f :
  (preflight_main fuel toml_loads exec_module cwd [dir; expected_name] f).1 = 0 ↔
  ∃ d reg sk, realpath fuel f (join_path cwd (parse_path dir)) = Ok d ∧
    load_package fuel toml_loads exec_module d f [] = Ok reg ∧ get expected_name reg = Some sk.
Proof.
  unfold preflight_main, assert_fresh_loader.
  destruct (realpath _ _ _) as [d|]; cbn [mbind res_bind]; [|split; [done|by intros (? & ? & ? & [=] & _)]].
  destruct (load_package _ _ _ d f []) as [reg|] eqn:El; cbn [mbind res_bind].
  - destruct (get expected_name reg) as [sk|] eqn:E; [split; [eauto 10|done]|].
    split; [done|]. intros (d' & reg' & sk & [= <-] & H & Hg). rewrite El in H. injection H as <-. congruence.
  - split; [done|]. intros (d' & reg' & sk & [= <-] & H & _). congruence.
Qed.
End typing.

(** A package with one handler. *)
Definition demo_toml (s : string) : option pydict :=
  if String.eqb s "m" then
    Some [("skill", VDict [("name", VStr "pkg"); ("version", VStr "1");
      ("handlers", VList [VDict [("entrypoint", VStr "mod:run"); ("match", VList [VStr "Greet"; VStr "hello"])]])])]
  else None.
Definition demo_module (p : path) (f : fs) : option module :=
  Some (λ n, if String.eqb n "run" then Some (Callable ["name"] "schema") else None).
Definition demo_package : fs := {[ ["p"] := NDir; ["p"; "manifest.toml"] := NFile "m" 0; ["p"; "mod.py"] := NFile "def run" 0 ]}.

Lemma load_package_typed_witness :
  let sk := mkSkill "greet" ["hello"] ["name"] "schema" in
  load_package 10 demo_toml demo_module ["p"] demo_package [] = Ok (entries [sk]) ∧
  registry_typed (entries [sk]) ∧ ∃ sks, sks ≠ [] ∧ entries [sk] = [] ++ entries sks.
Proof.
  intros sk. split; [vm_compute; reflexivity|].
  apply (load_package_typed 10 demo_toml demo_module ["p"] demo_package []); [by repeat constructor|vm_compute; reflexivity].
Defined.
