(* ===== verification/Schedules.v ===== *)
(** * The schedule store (agent_os/schedules.py, agent_os/stores/sqlite_schedules.py)

    The table of schedules; each function is one transaction.  The timestamps
    of a row are instants (microseconds): the source writes them as ISO text of
    UTC datetimes, whose order as text is their order in time. *)
From S2P Require Export Recurrence Json Table Net Schemas.

Record schedule := mkSchedule {
  schedule_id : string;
  sc_name : string;
  sc_kind : string;
  trigger_kind : string;
  trigger_value : string;
  timezone : string;
  sc_payload : string;
  enabled : bool;
  sc_next_run_at : Z;
  last_run_at : option Z;
  last_status : option string;
  last_error : option string;
  sc_created_at : Z;
  sc_updated_at : Z }.

Definition ALLOWED_KINDS : list string := ["app_callback"; "brief"; "run"].
Definition ALLOWED_TRIGGER_KINDS : list string := ["cron"; "interval"].
Definition RUN_PAYLOAD_KEYS : list string := ["task"; "workspace"].
Definition APP_CALLBACK_PAYLOAD_KEYS : list string := ["url"; "method"; "headers"; "body"].
Definition ALLOWED_HTTP_METHODS : list string := ["DELETE"; "GET"; "PATCH"; "POST"; "PUT"].

(** ** Validation *)
Definition url_message : string :=
  "url must start with 'http://' or 'https://' and include a valid host".

Definition validate_app_callback_url (value : pyval) : res string :=
  match value with
  | VStr s =>
      let v := strip s in
      match urlsplit v with
      | None => Raise (ValueError url_message)
      | Some parsed =>
          match port parsed with
          | Raise _ => Raise (ValueError url_message)
          | Ok _ =>
              if negb (mem_str (lower (scheme parsed)) ["http"; "https"])
                 || negb (match hostname parsed with Some h => truthy h | None => false end)
                 || sexists is_space v
              then Raise (ValueError url_message) else Ok v
          end
      end
  | _ => Raise (ValueError url_message)
  end.

(** [set(payload) - keys], sorted. *)
Definition unknown_keys (payload : pydict) (keys : list string) : list string :=
  sort_by str_leb (List.filter (λ k, negb (mem_str k keys)) (dkeys payload)).
Definition keys_repr (l : list string) : string := py_repr (VList (map VStr l)).

Definition reject_unknown (kind : string) (payload : pydict) (keys : list string) : res unit :=
  match unknown_keys payload keys with
  | [] => Ok tt
  | u => Raise (ValueError ("Unknown payload keys for kind=" +:+ kind +:+ ": " +:+ keys_repr u))
  end.

Definition str_pairs (d : pydict) : bool :=
  forallb (λ '(_, v), match v with VStr _ => true | _ => false end) d.

(** The payload of an [app_callback]: url and method are normalised in place. *)
Definition validate_callback (payload : pydict) : res pydict :=
  _ ← reject_unknown "app_callback" payload APP_CALLBACK_PAYLOAD_KEYS;
  match dget "url" payload with
  | Some u =>
      if negb (py_truthy u) then Raise (ValueError "kind=app_callback requires 'url' in payload")
      else
        url ← validate_app_callback_url u;
        let payload := dset "url" (VStr url) payload in
        let method := match dget "method" payload with
                      | Some v => if py_truthy v then v else VStr "POST"
                      | None => VStr "POST"
                      end in
        let bad := Raise (ValueError ("method must be one of " +:+ keys_repr ALLOWED_HTTP_METHODS +:+
                                      ", got " +:+ py_repr method)) in
        match method with
        | VStr me =>
            if negb (mem_str (upper me) ALLOWED_HTTP_METHODS) then bad
            else
              let payload := dset "method" (VStr (upper me)) payload in
              _ ← match dget "headers" payload with
                  | None | Some VNone => Ok tt
                  | Some (VDict h) => if str_pairs h then Ok tt
                                      else Raise (ValueError "headers must be a dict of string key-value pairs")
                  | Some _ => Raise (ValueError "headers must be a dict of string key-value pairs")
                  end;
              _ ← match dget "body" payload with
                  | None | Some VNone | Some (VDict _) => Ok tt
                  | Some _ => Raise (ValueError "body must be a dict")
                  end;
              Ok payload
        | _ => bad
        end
  | None => Raise (ValueError "kind=app_callback requires 'url' in payload")
  end.

Section schedules.
Context `{Cron}.

Definition validate_trigger (trigger_kind trigger_value timezone : string) : res unit :=
  if String.eqb trigger_kind "cron" then validate_cron trigger_value timezone
  else
    _ ← parse_interval trigger_value;
    if negb (String.eqb timezone "UTC") then
      Raise (ValueError ("Interval schedules are elapsed-time and reject non-UTC timezone; got "
                         +:+ repr_str timezone))
    else Ok tt.

Definition validate_schedule_fields (kind trigger_kind trigger_value timezone : string)
    (payload : pydict) : res pydict :=
  if negb (mem_str kind ALLOWED_KINDS) then
    Raise (ValueError ("kind must be one of " +:+ keys_repr ALLOWED_KINDS +:+ ", got " +:+ repr_str kind))
  else if negb (mem_str trigger_kind ALLOWED_TRIGGER_KINDS) then
    Raise (ValueError ("trigger_kind must be one of " +:+ keys_repr ALLOWED_TRIGGER_KINDS +:+
                       ", got " +:+ repr_str trigger_kind))
  else
    _ ← validate_trigger trigger_kind trigger_value timezone;
    if String.eqb kind "run" then
      _ ← reject_unknown "run" payload RUN_PAYLOAD_KEYS;
      if negb (dhas "task" payload) then Raise (ValueError "kind=run requires 'task' in payload")
      else Ok payload
    else if String.eqb kind "brief" then _ ← reject_unknown "brief" payload []; Ok payload
    else validate_callback payload.

(** ** Operations *)
Definition create_schedule (uuid : string) (now : Z) (name kind trigger_kind trigger_value timezone : string)
    (payload : pydict) (enabled : bool) (rows : list schedule) : res (string * list schedule) :=
  payload ← validate_schedule_fields kind trigger_kind trigger_value timezone payload;
  computed_next ← next_run_at trigger_kind trigger_value timezone now;
  text ← dumps (VDict payload);
  match select_one (has_key schedule_id uuid) rows with
  | Some _ => Raise (IntegrityError "UNIQUE constraint failed: schedules.schedule_id")
  | None => Ok (uuid, rows ++ [mkSchedule uuid name kind trigger_kind trigger_value timezone text enabled
                                 computed_next None None None now now])
  end.

(** A decoded row: the row with its payload parsed. *)
Definition decode_row (row : schedule) : res (schedule * pyval) :=
  match loads (sc_payload row) with
  | Some v => Ok (row, v)
  | None => Raise (ValueError "Expecting value")
  end.

Definition get_schedule (sid : string) (rows : list schedule) : res (option (schedule * pyval)) :=
  match select_one (has_key schedule_id sid) rows with
  | Some row => Some <$> decode_row row
  | None => Ok None
  end.

Definition created_desc (a b : schedule) : bool := sc_created_at b <=? sc_created_at a.
Definition list_schedules (kind : option string) (on : option bool) (rows : list schedule)
    : res (list (schedule * pyval)) :=
  res_all (map decode_row (sort_by created_desc
    (select (λ r, match kind with Some k => String.eqb (sc_kind r) k | None => true end &&
                  match on with Some b => Bool.eqb (enabled r) b | None => true end) rows))).

Definition remove_schedule (sid : string) (rows : list schedule) : bool * list schedule :=
  (bool_decide (0 < rowcount (has_key schedule_id sid) rows)%nat,
   delete_where (has_key schedule_id sid) rows).

Definition set_enabled (now : Z) (on : bool) (r : schedule) : schedule :=
  mkSchedule (schedule_id r) (sc_name r) (sc_kind r) (trigger_kind r) (trigger_value r) (timezone r)
    (sc_payload r) on (sc_next_run_at r) (last_run_at r) (last_status r) (last_error r)
    (sc_created_at r) now.
Definition set_schedule_enabled (now : Z) (sid : string) (on : bool) (rows : list schedule)
    : bool * list schedule :=
  (bool_decide (0 < rowcount (has_key schedule_id sid) rows)%nat,
   update_where (has_key schedule_id sid) (set_enabled now on) rows).

(** [WHERE enabled = 1 AND next_run_at <= ? ORDER BY next_run_at LIMIT ?] *)
Definition due (now : Z) (r : schedule) : bool := enabled r && (sc_next_run_at r <=? now).
Definition next_asc (a b : schedule) : bool := sc_next_run_at a <=? sc_next_run_at b.
Definition due_rows (now lim : Z) (rows : list schedule) : list schedule :=
  limit lim (sort_by next_asc (select (due now) rows)).

Definition advance (now next : Z) (r : schedule) : schedule :=
  mkSchedule (schedule_id r) (sc_name r) (sc_kind r) (trigger_kind r) (trigger_value r) (timezone r)
    (sc_payload r) (enabled r) next (Some now) (last_status r) (last_error r) (sc_created_at r) now.

(** The claiming loop inside the transaction. *)
Fixpoint claim_loop (now : Z) (todo rows : list schedule) : res (list (schedule * pyval) * list schedule) :=
  match todo with
  | [] => Ok ([], rows)
  | row :: todo' =>
      decoded ← decode_row row;
      new_next ← coalesce_next_run (trigger_kind row) (trigger_value row) (timezone row)
                   (sc_next_run_at row) now;
      '(claimed, rows') ← claim_loop now todo'
                            (update_where (has_key schedule_id (schedule_id row)) (advance now new_next) rows);
      Ok (decoded :: claimed, rows')
  end.

(** An exception leaves the transaction uncommitted. *)
Definition claim_due_schedules (now lim : Z) (rows : list schedule)
    : res (list (schedule * pyval) * list schedule) :=
  claim_loop now (due_rows now lim rows) rows.

Definition record_result (now : Z) (st : string) (error : option string) (r : schedule) : schedule :=
  mkSchedule (schedule_id r) (sc_name r) (sc_kind r) (trigger_kind r) (trigger_value r) (timezone r)
    (sc_payload r) (enabled r) (sc_next_run_at r) (last_run_at r) (Some st) error (sc_created_at r) now.
Definition record_schedule_result (now : Z) (sid st : string) (error : option string)
    (rows : list schedule) : list schedule :=
  update_where (has_key schedule_id sid) (record_result now st error) rows.
End schedules.

(** ** The claim *)
Section claim.
Context `{Cron} (Hcron : cron_strict).

Lemma claim_loop_spec now todo : ∀ rows cl rows',
  keyed schedule_id rows → NoDup (map schedule_id todo) → claim_loop now todo rows = Ok (cl, rows') →
  cl.*1 = todo ∧ keyed schedule_id rows' ∧
  (∀ k, k ∉ map schedule_id todo → to_map schedule_id rows' !! k = to_map schedule_id rows !! k) ∧
  (∀ row, row ∈ todo → ∃ next, now < next ∧
     to_map schedule_id rows' !! schedule_id row
     = advance now next <$> to_map schedule_id rows !! schedule_id row).
Proof.
  induction todo as [|row todo IH]; intros rows cl rows' Hk Hnd Hc.
  { injection Hc as <- <-. split_and!; [done..|]. intros row. by rewrite elem_of_nil. }
  cbn [map] in Hnd. apply NoDup_cons in Hnd as [Hrow Hnd]. cbn [claim_loop] in Hc.
  apply res_bind_ok in Hc as (d & Hd & Hc). apply res_bind_ok in Hc as (next & Hnext & Hc).
  apply res_bind_ok in Hc as ([cl1 rows1] & Hc1 & Hc). injection Hc as <- <-.
  set (rows0 := update_where _ _ rows) in *.
  assert (keyed schedule_id rows0) as Hk0 by (by apply keyed_update).
  assert (to_map schedule_id rows0 = alter (advance now next) (schedule_id row) (to_map schedule_id rows))
    as Hm by (by apply to_map_update).
  destruct (IH rows0 cl1 rows1 Hk0 Hnd Hc1) as (H1 & H2 & H3 & H4). split_and!.
  - cbn [fmap list_fmap]. rewrite H1. unfold decode_row in Hd. destruct (loads _); [|done].
    by injection Hd as <-.
  - done.
  - intros k. cbn [map]. intros [Hne Hk']%not_elem_of_cons. rewrite H3, Hm by done.
    by rewrite lookup_alter_ne.
  - intros r [->|Hr]%elem_of_cons.
    + exists next. split; [by eapply coalesce_after|]. rewrite H3, Hm by done. by rewrite lookup_alter_eq.
    + destruct (H4 r Hr) as (n & Hn & He). exists n. split; [done|]. rewrite He, Hm.
      assert (schedule_id r ≠ schedule_id row).
      { intros E. apply Hrow. rewrite <-E. by apply list_elem_of_In, in_map, list_elem_of_In. }
      by rewrite lookup_alter_ne.
Qed.

Lemma elem_of_due_rows now lim rows r : r ∈ due_rows now lim rows → r ∈ rows ∧ due now r = true.
Proof.
  unfold due_rows, limit. intros Hr.
  assert (r ∈ sort_by next_asc (select (due now) rows)) as Hr'.
  { destruct (lim <? 0); [done|].
    rewrite <-(take_drop (Z.to_nat lim) (sort_by next_asc _)). apply elem_of_app. by left. }
  by apply elem_of_sort_by, elem_of_select in Hr'.
Qed.

Lemma due_rows_nodup now lim rows : keyed schedule_id rows → NoDup (map schedule_id (due_rows now lim rows)).
Proof.
  intros Hk. assert (NoDup (map schedule_id (sort_by next_asc (select (due now) rows)))) as Hs.
  { assert (map schedule_id (sort_by next_asc (select (due now) rows))
            ≡ₚ map schedule_id (select (due now) rows)) as ->.
    { apply Permutation_map, sort_by_perm. }
    by apply (keyed_filter schedule_id). }
  unfold due_rows, limit. destruct (lim <? 0); [done|].
  rewrite <-(take_drop (Z.to_nat lim) (sort_by next_asc _)) in Hs at 1.
  rewrite map_app in Hs. by apply NoDup_app in Hs as [? _].
Qed.

Lemma due_rows_length now lim rows : 0 ≤ lim → Z.of_nat (length (due_rows now lim rows)) ≤ lim.
Proof.
  intros Hl. unfold due_rows, limit. rewrite (proj2 (Z.ltb_ge lim 0)) by done. rewrite length_take. lia.
Qed.

Lemma due_advanced now next r : now < next → due now (advance now next r) = false.
Proof. intros Hlt. unfold due. simpl. apply andb_false_iff. right. by apply Z.leb_gt. Qed.

Lemma claimed_row now lim rows cl rows' r :
  keyed schedule_id rows → claim_due_schedules now lim rows = Ok (cl, rows') → r ∈ cl.*1 →
  r ∈ rows ∧ enabled r = true ∧ sc_next_run_at r ≤ now ∧
  ∃ next, now < next ∧ to_map schedule_id rows' !! schedule_id r = Some (advance now next r).
Proof.
  intros Hk Hc Hr. destruct (claim_loop_spec now _ _ _ _ Hk (due_rows_nodup now lim rows Hk) Hc)
    as (H1 & _ & _ & H4). rewrite H1 in Hr.
  destruct (elem_of_due_rows _ _ _ _ Hr) as [Hin [He Hd%Z.leb_le]%andb_true_iff].
  split_and!; try done. destruct (H4 r Hr) as (next & Hn & Hm). exists next.
  by rewrite Hm, to_map_self.
Qed.

(** A row due after a claim is none of the claimed. *)
Lemma due_after_claim now lim rows cl rows' r :
  keyed schedule_id rows → claim_due_schedules now lim rows = Ok (cl, rows') →
  r ∈ rows' → due now r = true → schedule_id r ∉ map schedule_id (cl.*1).
Proof.
  intros Hk Hc Hr Hd Hin. apply list_elem_of_In, in_map_iff in Hin as (x & Hx & Hin%list_elem_of_In).
  destruct (claimed_row _ _ _ _ _ x Hk Hc Hin) as (_ & _ & _ & next & Hn & Hm).
  destruct (claim_loop_spec now _ _ _ _ Hk (due_rows_nodup now lim rows Hk) Hc) as (_ & Hk' & _).
  rewrite Hx, to_map_self in Hm by done. injection Hm as ->. by rewrite due_advanced in Hd.
Qed.

(** A claim takes at most [limit] schedules, each enabled and due, each
    once; it moves exactly those strictly past now and leaves every other row
    alone; so a second claim at the same time, by any process, takes none of
    them again, and takes nothing at all if the first was not cut short. *)
Theorem claim_exclusive now lim rows cl rows' :
  keyed schedule_id rows → 0 ≤ lim → claim_due_schedules now lim rows = Ok (cl, rows') →
  Z.of_nat (length cl) ≤ lim ∧ NoDup (map schedule_id (cl.*1)) ∧
  (∀ r, r ∈ cl.*1 → r ∈ rows ∧ enabled r = true ∧ sc_next_run_at r ≤ now ∧
     ∃ next, now < next ∧ to_map schedule_id rows' !! schedule_id r = Some (advance now next r)) ∧
  (∀ k, k ∉ map schedule_id (cl.*1) → to_map schedule_id rows' !! k = to_map schedule_id rows !! k) ∧
  (∀ lim' r, r ∈ due_rows now lim' rows' → schedule_id r ∉ map schedule_id (cl.*1)) ∧
  (Z.of_nat (length cl) < lim → ∀ lim', due_rows now lim' rows' = []).
Proof.
  intros Hk Hl Hc. pose proof (due_rows_nodup now lim rows Hk) as Hnd.
  destruct (claim_loop_spec now _ _ _ _ Hk Hnd Hc) as (H1 & Hk' & H3 & _).
  assert (length cl = length (due_rows now lim rows)) as Hlen by (rewrite <-H1; by rewrite length_fmap).
  rewrite <-H1 in Hnd, H3.
  assert (∀ lim' r, r ∈ due_rows now lim' rows' → schedule_id r ∉ map schedule_id (cl.*1)) as Hno.
  { intros lim' r [Hr Hd]%elem_of_due_rows. exact (due_after_claim now lim rows cl rows' r Hk Hc Hr Hd). }
  split_and!; [by rewrite Hlen; apply due_rows_length|done|intros r; exact (claimed_row now lim rows cl rows' r Hk Hc)|done|done|].
  intros Hlt lim'. destruct (due_rows now lim' rows') as [|r l] eqn:E; [done|]. exfalso.
  assert (r ∈ due_rows now lim' rows') as Hr by (rewrite E; left).
  pose proof (Hno lim' r Hr) as Hni. apply elem_of_due_rows in Hr as [Hr Hd].
  assert (to_map schedule_id rows !! schedule_id r = Some r) as [_ Hm]%to_map_Some_key.
  { rewrite <-H3 by done. by apply to_map_self. }
  apply Hni. rewrite H1. apply list_elem_of_In, in_map, list_elem_of_In. unfold due_rows, limit in Hlen |- *.
  rewrite (proj2 (Z.ltb_ge lim 0)) in Hlen |- * by done. rewrite length_take in Hlen.
  rewrite take_ge by lia. apply elem_of_sort_by, elem_of_select. by split.
Qed.

(** Every operation keeps the primary key. *)
Lemma create_schedule_keyed uuid now n k tk tv tz payload on rows i rows' : keyed schedule_id rows →
  create_schedule uuid now n k tk tv tz payload on rows = Ok (i, rows') →
  keyed schedule_id rows' ∧ ∃ r, schedule_id r = uuid ∧ rows' = rows ++ [r].
Proof.
  intros Hk (p & _ & (t & _ & (x & _ & Hc)%res_bind_ok)%res_bind_ok)%res_bind_ok.
  destruct (select_one _ rows) eqn:E; [done|]. injection Hc as <- <-. split; [|eexists; split; [|reflexivity]; reflexivity].
  apply keyed_snoc; [done|]. rewrite to_map_select. exact E.
Qed.
Lemma claim_keyed now lim rows cl rows' : keyed schedule_id rows →
  claim_due_schedules now lim rows = Ok (cl, rows') → keyed schedule_id rows'.
Proof.
  intros Hk Hc. by destruct (claim_loop_spec now _ _ _ _ Hk (due_rows_nodup now lim rows Hk) Hc) as (_ & ? & _).
Qed.
End claim.

Definition demo_row (i : string) (t : Z) : schedule :=
  mkSchedule i "" "run" "interval" "5m" "UTC" "{}" true t None None None 0 0.
Lemma claim_exclusive_witness :
  ∃ cl rows', claim_due_schedules (H:=minutely) 1000 1 [demo_row "a" 500; demo_row "b" 400] = Ok (cl, rows') ∧
  map schedule_id (cl.*1) = ["b"] ∧ Z.of_nat (length cl) ≤ 1.
Proof.
  eexists _, _. split; [vm_compute; reflexivity|]. split; [reflexivity|].
  apply (claim_exclusive (H:=minutely) minutely_strict 1000 1 [demo_row "a" 500; demo_row "b" 400] _
    [demo_row "a" 500; advance 1000 (400 + 300 * usec) (demo_row "b" 400)]).
  - unfold keyed. simpl. apply NoDup_cons. split; [set_solver|]. apply NoDup_singleton.
  - lia.
  - reflexivity.
Defined.
