(* ===== verification/ScheduleModels.v ===== *)
(** * The input of a schedule (agent_os/schedule_models.py)

    The pydantic model the CLI and the API share.  A raw input has the field
    types of the model; [validate] runs its validators in order (pydantic
    gathers the field errors, the model reports the first) and yields the
    normalised input, from which the trigger and the payload are read. *)
From S2P Require Export Schedules.

Record ScheduleInput := mkInput {
  in_name : string;
  in_kind : string;
  in_cron : option string;
  in_every : option string;
  in_timezone : string;
  in_task : option string;
  in_workspace : option string;
  in_url : option string;
  in_method : option string;
  in_headers : option (list (string * string));
  in_body : option pydict }.

Definition length_ok (lo hi : nat) (s : string) : bool :=
  (lo <=? String.length s)%nat && (String.length s <=? hi)%nat.
Definition opt_truthy (o : option string) : bool := match o with Some s => truthy s | None => false end.

Definition strip_and_check_empty (v : option string) : res (option string) :=
  match v with
  | None => Ok None
  | Some v => if truthy (strip v) then Ok (Some (strip v))
              else Raise (ValueError "String cannot be empty or only whitespace")
  end.

(** The constraints of the fields, then their validators. *)
Definition validate_fields (x : ScheduleInput) : res ScheduleInput :=
  if negb (length_ok 1 255 (in_name x)) then Raise (ValueError "name: String length")
  else if negb (mem_str (in_kind x) ["run"; "brief"; "app_callback"]) then Raise (ValueError "kind: Input should be 'run', 'brief' or 'app_callback'")
  else if match in_task x with Some t => negb (length_ok 1 4096 t) | None => false end
       then Raise (ValueError "task: String length")
  else
    name ← strip_and_check_empty (Some (in_name x));
    task ← strip_and_check_empty (in_task x);
    url ← strip_and_check_empty (in_url x);
    Ok (mkInput (default "" name) (in_kind x) (in_cron x) (in_every x) (in_timezone x) task
          (in_workspace x) url (in_method x) (in_headers x) (in_body x)).

Definition has_callback_field (x : ScheduleInput) : bool :=
  match in_url x, in_method x, in_headers x, in_body x with
  | None, None, None, None => false
  | _, _, _, _ => true
  end.
Definition set_callback (url method : string) (x : ScheduleInput) : ScheduleInput :=
  mkInput (in_name x) (in_kind x) (in_cron x) (in_every x) (in_timezone x) (in_task x)
    (in_workspace x) (Some url) (Some method) (in_headers x) (in_body x).

Definition cross_field_rules (x : ScheduleInput) : res ScheduleInput :=
  if opt_truthy (in_cron x) && opt_truthy (in_every x) then
    Raise (ValueError "Specify exactly one of 'cron' and 'every', not both")
  else if negb (opt_truthy (in_cron x)) && negb (opt_truthy (in_every x)) then
    Raise (ValueError "Specify exactly one of 'cron' and 'every'")
  else if String.eqb (in_kind x) "run" then
    if negb (opt_truthy (in_task x)) then Raise (ValueError "kind=run requires 'task'")
    else if has_callback_field x then
      Raise (ValueError "kind=run does not accept 'url', 'method', 'headers', or 'body'")
    else Ok x
  else if String.eqb (in_kind x) "brief" then
    if bool_decide (is_Some (in_task x)) then Raise (ValueError "kind=brief does not accept 'task'")
    else if bool_decide (is_Some (in_workspace x)) then
      Raise (ValueError "kind=brief does not accept 'workspace'")
    else if has_callback_field x then
      Raise (ValueError "kind=brief does not accept 'url', 'method', 'headers', or 'body'")
    else Ok x
  else if String.eqb (in_kind x) "app_callback" then
    if bool_decide (is_Some (in_task x)) then Raise (ValueError "kind=app_callback does not accept 'task'")
    else if bool_decide (is_Some (in_workspace x)) then
      Raise (ValueError "kind=app_callback does not accept 'workspace'")
    else if negb (opt_truthy (in_url x)) then Raise (ValueError "kind=app_callback requires 'url'")
    else
      url ← validate_app_callback_url (VStr (default "" (in_url x)));
      let method := upper (match in_method x with Some me => if truthy me then me else "POST" | None => "POST" end) in
      if negb (mem_str method ALLOWED_HTTP_METHODS) then
        Raise (ValueError ("method must be one of " +:+ keys_repr ALLOWED_HTTP_METHODS +:+ ", got " +:+
                           match in_method x with Some me => repr_str me | None => "None" end))
      else Ok (set_callback url method x)
  else Ok x.

Definition validate (x : ScheduleInput) : res ScheduleInput := x ← validate_fields x; cross_field_rules x.

(** ** The properties of a validated input *)
Definition trigger_kind (x : ScheduleInput) : string := if opt_truthy (in_cron x) then "cron" else "interval".
Definition trigger_value (x : ScheduleInput) : string :=
  match in_cron x with
  | Some c => if truthy c then c else default "" (in_every x)
  | None => default "" (in_every x)
  end.
Definition opt_item (k : string) (o : option string) : pydict :=
  match o with Some s => if truthy s then [(k, VStr s)] else [] | None => [] end.
Definition payload (x : ScheduleInput) : pydict :=
  if String.eqb (in_kind x) "run" then opt_item "task" (in_task x) ++ opt_item "workspace" (in_workspace x)
  else if String.eqb (in_kind x) "app_callback" then
    opt_item "url" (in_url x) ++ opt_item "method" (in_method x) ++
    match in_headers x with
    | Some h => [("headers"%string, VDict (map (λ '(k, v), (k, VStr v)) h))]
    | None => []
    end ++
    match in_body x with Some b => [("body"%string, VDict b)] | None => [] end
  else [].

(** ** Validated inputs are accepted by the store *)
Lemma validate_callback_url_idem s u : validate_app_callback_url (VStr s) = Ok u →
  validate_app_callback_url (VStr u) = Ok u ∧ u ≠ "".
Proof.
  unfold validate_app_callback_url. cbn zeta. destruct (urlsplit (strip s)) as [parsed|] eqn:E; [|done].
  destruct (port parsed) eqn:Ep; [|done]. destruct (_ || _ || _) eqn:Ec; [done|]. intros [= <-].
  rewrite strip_idem, E, Ep, Ec. split; [done|]. intros Hs. rewrite Hs in E. vm_compute in E.
  injection E as <-. by vm_compute in Ec.
Qed.

Lemma methods_upper me : mem_str me ALLOWED_HTTP_METHODS = true → upper me = me ∧ me ≠ "".
Proof.
  rewrite mem_str_iff. unfold ALLOWED_HTTP_METHODS.
  rewrite !elem_of_cons, elem_of_nil. by intros [->|[->|[->|[->|[->|[]]]]]].
Qed.

Lemma str_pairs_headers (h : list (string * string)) :
  str_pairs (map (λ '(k, v), (k, VStr v)) h) = true.
Proof. induction h as [|[k v] h IH]; [done|]. exact IH. Qed.

Lemma opt_truthy_Some o : opt_truthy o = true → ∃ s, o = Some s ∧ truthy s = true.
Proof. destruct o as [s|]; [eauto|done]. Qed.

(** What the cross-field rules leave of each kind. *)
Lemma cross_field_kind x y : cross_field_rules x = Ok y → mem_str (in_kind x) ["run"; "brief"; "app_callback"] = true →
  (in_kind y = "run" ∧ ∃ t, in_task y = Some t ∧ truthy t = true) ∨
  in_kind y = "brief" ∨
  (in_kind y = "app_callback" ∧ ∃ u me, in_url y = Some u ∧ in_method y = Some me ∧
     validate_app_callback_url (VStr u) = Ok u ∧ u ≠ "" ∧ upper me = me ∧ me ≠ "" ∧
     mem_str me ALLOWED_HTTP_METHODS = true).
Proof.
  intros H Hk. unfold cross_field_rules in H.
  destruct (_ && _); [done|]. destruct (_ && _); [done|].
  destruct (String.eqb_spec (in_kind x) "run") as [E|].
  { destruct (opt_truthy (in_task x)) eqn:Et; [|done]. destruct (has_callback_field x); [done|].
    injection H as <-. left. split; [done|by apply opt_truthy_Some]. }
  destruct (String.eqb_spec (in_kind x) "brief") as [E|].
  { repeat (case_match; [done|]). injection H as <-. auto. }
  destruct (String.eqb_spec (in_kind x) "app_callback") as [E|].
  - do 3 (case_match; [done|]). apply res_bind_ok in H as (u & Hu & H). cbn zeta in H.
    destruct (negb (mem_str _ _)) eqn:Em in H; [done|]. injection H as <-. apply negb_false_iff in Em.
    right. right. split; [done|]. destruct (validate_callback_url_idem _ _ Hu), (methods_upper _ Em).
    eexists _, _. by split_and!.
  - apply mem_str_iff in Hk. set_solver.
Qed.

(** The two layers that validate a schedule do not drift: an input the
    shared model accepts is refused by the store only for its trigger, and the
    store keeps the payload the model normalised as it is. *)
Theorem input_accepted `{Cron} x y : validate x = Ok y →
  validate_schedule_fields (in_kind y) (trigger_kind y) (trigger_value y) (in_timezone y) (payload y)
  = _ ← validate_trigger (trigger_kind y) (trigger_value y) (in_timezone y); Ok (payload y).
Proof.
  intros (x' & Hf & Hc)%res_bind_ok.
  assert (mem_str (in_kind x') ["run"; "brief"; "app_callback"] = true) as Hk.
  { unfold validate_fields in Hf. repeat (case_match; [done|]).
    apply res_bind_ok in Hf as (? & _ & (? & _ & (? & _ & [= <-])%res_bind_ok)%res_bind_ok).
    simpl. by apply negb_false_iff. }
  assert (mem_str (trigger_kind y) ALLOWED_TRIGGER_KINDS = true) as Htk.
  { unfold trigger_kind. by destruct (opt_truthy _). }
  unfold validate_schedule_fields. rewrite Htk. cbn [negb].
  destruct (cross_field_kind _ _ Hc Hk) as [(E & t & Ht & Htt)|[E|(E & u & me & Hu & Hm & Hv & Hne & Hup & Hmne & Hmem)]];
    unfold payload; rewrite E;
    (destruct (validate_trigger _ _ _) as [[]|]; [|done]); cbn -[validate_app_callback_url ALLOWED_HTTP_METHODS].
  - rewrite Ht. cbn [opt_item]. rewrite Htt. destruct (in_workspace y) as [w|]; [|done].
    cbn [opt_item]. by destruct (truthy w).
  - done.
  - rewrite Hu, Hm. cbn [opt_item]. destruct u as [|uc u]; [done|]. destruct me as [|mc me]; [done|].
    destruct (in_headers y) as [h|], (in_body y) as [b|];
      cbn -[validate_app_callback_url ALLOWED_HTTP_METHODS mem_str upper]; unfold validate_callback;
      cbn -[validate_app_callback_url ALLOWED_HTTP_METHODS upper str_pairs];
      rewrite Hv; cbn -[ALLOWED_HTTP_METHODS mem_str upper str_pairs];
      rewrite Hup, Hmem; cbn -[str_pairs]; rewrite ?str_pairs_headers; done.
Qed.

Definition demo_input : ScheduleInput :=
  mkInput " hook " "app_callback" None (Some "5m") "UTC" None None
    (Some " https://example.com/hook ") (Some "post") (Some [("X-A", "1")]) None.
Definition demo_valid : ScheduleInput :=
  mkInput "hook" "app_callback" None (Some "5m") "UTC" None None
    (Some "https://example.com/hook") (Some "POST") (Some [("X-A", "1")]) None.
Lemma input_accepted_witness :
  validate demo_input = Ok demo_valid ∧
  validate_schedule_fields (H:=minutely) "app_callback" "interval" "5m" "UTC" (payload demo_valid)
  = Ok (payload demo_valid).
Proof. split; [reflexivity|]. exact (input_accepted (H:=minutely) demo_input demo_valid eq_refl). Defined.
