(* ===== verification/PermissionStore.v ===== *)
(** * The permission-rule store (agent_os/permission_store.py)

    [PermissionRuleStore] is the protocol; [Sqlite] and [InMemory] implement
    it, the first as a table with primary key [permission_key], the second as a
    Python dict.  Each refines the specification on finite maps of [Spec] while
    the counters stay below 2^63 - 1, so the two then answer every sequence of
    calls alike. *)
From S2P Require Export Schemas Table PyRe.

Record PermissionRule := mkRule {
  permission_key : string;
  effect : string;
  tier_at_creation : string;
  approve_count : Z;
  deny_count : Z;
  created_at : Z;
  updated_at : Z;
  workspace_id : option string;
  taught_by : option string }.
#[export] Instance PermissionRule_eq_dec : EqDecision PermissionRule.
Proof. solve_decision. Defined.

(** [^[a-z0-9_]+:[a-z0-9_]+:(?:[a-z0-9_]+:[a-z0-9_]+:)?[^\s:]+$], ignoring case. *)
Definition key_char (c : ascii) : bool :=
  is_digit c || is_lower_az c || is_upper_az c || (code c =? 95).
Definition ref_char (c : ascii) : bool := negb (is_space c || Ascii.eqb c ":").
Definition PERMISSION_KEY_REGEX : re :=
  Seqs [Bos; Plus (Cls key_char); Lit ":"; Plus (Cls key_char); Lit ":";
        Opt (Seqs [Plus (Cls key_char); Lit ":"; Plus (Cls key_char); Lit ":"]);
        Plus (Cls ref_char); Eos].

Definition valid_key (k : string) : bool := matches (re_fullmatch PERMISSION_KEY_REGEX k).

Definition validate_key (k : string) : res unit :=
  if valid_key k then Ok tt
  else Raise (ValueError ("Invalid permission_key format: " +:+ k)).

(** [a or b] on [created_at]. *)
Definition created_or (c now : Z) : Z := if c =? 0 then now else c.
(** [COALESCE(new, old)]. *)
Definition coalesce {A} (new old : option A) : option A :=
  match new with Some x => Some x | None => old end.

(** One more approval or denial, [succ] being how the store adds one. *)
Definition add_approve (succ : Z → Z) (now : Z) (r : PermissionRule) : PermissionRule :=
  mkRule (permission_key r) (effect r) (tier_at_creation r) (succ (approve_count r)) (deny_count r)
    (created_at r) now (workspace_id r) (taught_by r).
Definition add_deny (succ : Z → Z) (now : Z) (r : PermissionRule) : PermissionRule :=
  mkRule (permission_key r) (effect r) (tier_at_creation r) (approve_count r) (succ (deny_count r))
    (created_at r) now (workspace_id r) (taught_by r).

(** The protocol; [now] is [int(time.time() * 1000)] at the call. *)
Class PermissionRuleStore (S : Type) := {
  ps_get : string → S → res (option PermissionRule);
  ps_upsert : Z → PermissionRule → S → res S;
  ps_list : S → res (list PermissionRule);
  ps_delete : string → S → res (bool * S);
  ps_increment_approve : Z → string → S → res S;
  ps_increment_deny : Z → string → S → res S }.

(** ** The SQLite store *)
Module Sqlite.
Definition t := list PermissionRule.

(** Binding an [int] parameter: SQLite integers have 64 bits. *)
Definition sql_int (z : Z) : res Z :=
  if (- 2 ^ 63 <=? z) && (z <? 2 ^ 63) then Ok z
  else Raise (OverflowError "Python int too large to convert to SQLite INTEGER").

Definition get (k : string) (s : t) : res (option PermissionRule) :=
  _ ← validate_key k; Ok (select_one (has_key permission_key k) s).

(** The [DO UPDATE SET] of the upsert. *)
Definition on_conflict (now : Z) (excluded old : PermissionRule) : PermissionRule :=
  mkRule (permission_key old) (effect excluded) (tier_at_creation excluded)
    (approve_count old) (deny_count old) (created_at old) now
    (coalesce (workspace_id excluded) (workspace_id old))
    (coalesce (taught_by excluded) (taught_by old)).

Definition upsert (now : Z) (r : PermissionRule) (s : t) : res t :=
  _ ← validate_key (permission_key r);
  a ← sql_int (approve_count r);
  d ← sql_int (deny_count r);
  c ← sql_int (created_or (created_at r) now);
  u ← sql_int now;
  match select_one (has_key permission_key (permission_key r)) s with
  | Some _ => Ok (update_where (has_key permission_key (permission_key r)) (on_conflict now r) s)
  | None => Ok (s ++ [mkRule (permission_key r) (effect r) (tier_at_creation r) a d c u
                        (workspace_id r) (taught_by r)])
  end.

Definition key_leb (a b : PermissionRule) : bool :=
  str_leb (permission_key a) (permission_key b).
Definition list (s : t) : res (list PermissionRule) := Ok (sort_by key_leb s).

Definition delete (k : string) (s : t) : res (bool * t) :=
  _ ← validate_key k;
  Ok (bool_decide (0 < rowcount (has_key permission_key k) s)%nat,
      delete_where (has_key permission_key k) s).

(** [column + 1]: an integer that does not fit 64 bits becomes a REAL, which is
    here by its value: 2^63, to which adding one changes nothing. *)
Definition sql_succ (z : Z) : Z := if z <? 2 ^ 63 then z + 1 else z.
Definition increment_approve (now : Z) (k : string) (s : t) : res t :=
  _ ← validate_key k; n ← sql_int now;
  Ok (update_where (has_key permission_key k) (add_approve sql_succ n) s).
Definition increment_deny (now : Z) (k : string) (s : t) : res t :=
  _ ← validate_key k; n ← sql_int now;
  Ok (update_where (has_key permission_key k) (add_deny sql_succ n) s).

#[global] Instance store : PermissionRuleStore t := {
  ps_get := get; ps_upsert := upsert; ps_list := list; ps_delete := delete;
  ps_increment_approve := increment_approve; ps_increment_deny := increment_deny }.
End Sqlite.

(** ** The in-memory store: a dict from keys to mutable rules, in insertion
    order; [get] and [list] hand out copies. *)
Module InMemory.
Definition t := list (string * PermissionRule).

Definition get (k : string) (s : t) : res (option PermissionRule) :=
  _ ← validate_key k; Ok (dget k s).

Definition upsert (now : Z) (r : PermissionRule) (s : t) : res t :=
  _ ← validate_key (permission_key r);
  match dget (permission_key r) s with
  | Some existing =>
      let ws := match workspace_id r with Some w => Some w | None => workspace_id existing end in
      let tb := match taught_by r with Some w => Some w | None => taught_by existing end in
      Ok (dset (permission_key r)
            (mkRule (permission_key existing) (effect r) (tier_at_creation r)
               (approve_count existing) (deny_count existing) (created_at existing) now ws tb) s)
  | None =>
      Ok (dset (permission_key r)
            (mkRule (permission_key r) (effect r) (tier_at_creation r) (approve_count r)
               (deny_count r) (created_or (created_at r) now) now (workspace_id r) (taught_by r)) s)
  end.

Definition list (s : t) : res (list PermissionRule) := Ok (sort_by Sqlite.key_leb (s.*2)).

Definition delete (k : string) (s : t) : res (bool * t) :=
  _ ← validate_key k; Ok (dhas k s, ddel k s).

Definition increment_approve (now : Z) (k : string) (s : t) : res t :=
  _ ← validate_key k;
  match dget k s with Some r => Ok (dset k (add_approve Z.succ now r) s) | None => Ok s end.
Definition increment_deny (now : Z) (k : string) (s : t) : res t :=
  _ ← validate_key k;
  match dget k s with Some r => Ok (dset k (add_deny Z.succ now r) s) | None => Ok s end.

#[global] Instance store : PermissionRuleStore t := {
  ps_get := get; ps_upsert := upsert; ps_list := list; ps_delete := delete;
  ps_increment_approve := increment_approve; ps_increment_deny := increment_deny }.
End InMemory.

(** ** The specification: a finite map from valid keys to rules *)
Module Spec.

Definition merged (now : Z) (r : PermissionRule) (old : option PermissionRule) : PermissionRule :=
  match old with
  | Some o => Sqlite.on_conflict now r o
  | None => mkRule (permission_key r) (effect r) (tier_at_creation r) (approve_count r)
              (deny_count r) (created_or (created_at r) now) now (workspace_id r) (taught_by r)
  end.

#[global] Instance store : PermissionRuleStore (gmap string PermissionRule) := {
  ps_get k m := _ ← validate_key k; Ok (m !! k);
  ps_upsert now r m := _ ← validate_key (permission_key r);
    Ok (<[permission_key r := merged now r (m !! permission_key r)]> m);
  ps_list m := Ok (sort_by Sqlite.key_leb ((map_to_list m).*2));
  ps_delete k m := _ ← validate_key k; Ok (bool_decide (is_Some (m !! k)), delete k m);
  ps_increment_approve now k m := _ ← validate_key k; Ok (alter (add_approve Z.succ now) k m);
  ps_increment_deny now k m := _ ← validate_key k; Ok (alter (add_deny Z.succ now) k m) }.
End Spec.

(** 64-bit integers, the range in which SQLite accepts a parameter. *)
Definition i64 (z : Z) : Prop := - 2 ^ 63 ≤ z < 2 ^ 63.
Definition rule_i64 (r : PermissionRule) : Prop :=
  i64 (approve_count r) ∧ i64 (deny_count r) ∧ i64 (created_at r).

(** What an implementation promises: an abstraction to the specification that
    every operation respects, counting exactly below 2^63 - 1. *)
Class RuleStoreLaws (S : Type) `{PermissionRuleStore S} := {
  ps_inv : S → Prop;
  ps_abs : S → gmap string PermissionRule;
  ps_succ : Z → Z;
  law_succ n : n < 2 ^ 63 - 1 → ps_succ n = Z.succ n;
  law_get k s : ps_inv s → ps_get k s = ps_get k (ps_abs s);
  law_list s : ps_inv s → ps_list s = ps_list (ps_abs s);
  law_upsert now r s : ps_inv s → i64 now → rule_i64 r →
    ps_abs <$> ps_upsert now r s = ps_upsert now r (ps_abs s);
  law_upsert_inv now r s s' : ps_inv s → ps_upsert now r s = Ok s' → ps_inv s';
  law_delete k s : ps_inv s → prod_map id ps_abs <$> ps_delete k s = ps_delete k (ps_abs s);
  law_delete_inv k s b s' : ps_inv s → ps_delete k s = Ok (b, s') → ps_inv s';
  law_approve now k s : ps_inv s → i64 now →
    ps_abs <$> ps_increment_approve now k s = (_ ← validate_key k; Ok (alter (add_approve ps_succ now) k (ps_abs s)));
  law_approve_inv now k s s' : ps_inv s → ps_increment_approve now k s = Ok s' → ps_inv s';
  law_deny now k s : ps_inv s → i64 now →
    ps_abs <$> ps_increment_deny now k s = (_ ← validate_key k; Ok (alter (add_deny ps_succ now) k (ps_abs s)));
  law_deny_inv now k s s' : ps_inv s → ps_increment_deny now k s = Ok s' → ps_inv s' }.

Lemma sql_int_ok z : i64 z → Sqlite.sql_int z = Ok z.
Proof.
  unfold i64, Sqlite.sql_int. intros [? ?].
  destruct (Z.leb_spec (- 2 ^ 63) z), (Z.ltb_spec z (2 ^ 63)); simpl; done || lia.
Qed.
Lemma sql_int_inv z n : Sqlite.sql_int z = Ok n → n = z.
Proof. unfold Sqlite.sql_int. by destruct (_ && _); intros [= <-]. Qed.

Lemma key_leb_total x y : Sqlite.key_leb x y = false → Sqlite.key_leb y x = true.
Proof. apply str_leb_total. Qed.
Lemma key_leb_trans x y z :
  Sqlite.key_leb x y = true → Sqlite.key_leb y z = true → Sqlite.key_leb x z = true.
Proof. apply str_leb_trans. Qed.

Lemma list_law (rows : list PermissionRule) : keyed permission_key rows →
  sort_by Sqlite.key_leb rows
  = sort_by Sqlite.key_leb ((map_to_list (to_map permission_key rows)).*2).
Proof.
  intros Hk. apply sort_by_perm_eq.
  - apply key_leb_total.
  - apply key_leb_trans.
  - intros x y Hx Hy H1 H2. eapply keyed_inj; [exact Hk|done..|]. by apply str_leb_antisym.
  - symmetry. by apply to_map_rows.
Qed.

(** ** The SQLite store refines the specification *)
Section sqlite_laws.
Notation K := permission_key.

Lemma sqlite_upsert_cases now r s s' : Sqlite.upsert now r s = Ok s' →
  s' = match select_one (has_key K (K r)) s with
       | Some _ => update_where (has_key K (K r)) (Sqlite.on_conflict now r) s
       | None => s ++ [Spec.merged now r None]
       end.
Proof.
  unfold Sqlite.upsert. intros (? & _ & H)%res_bind_ok.
  apply res_bind_ok in H as (a & ->%sql_int_inv & H).
  apply res_bind_ok in H as (d & ->%sql_int_inv & H).
  apply res_bind_ok in H as (c & ->%sql_int_inv & H).
  apply res_bind_ok in H as (u & ->%sql_int_inv & H).
  destruct (select_one _ s); by injection H as <-.
Qed.

Lemma sqlite_upsert_abs now r s : keyed K s →
  to_map K (match select_one (has_key K (K r)) s with
            | Some _ => update_where (has_key K (K r)) (Sqlite.on_conflict now r) s
            | None => s ++ [Spec.merged now r None]
            end)
  = <[K r := Spec.merged now r (to_map K s !! K r)]> (to_map K s).
Proof.
  intros Hk. rewrite to_map_select. destruct (select_one (has_key K (K r)) s) as [o|] eqn:E.
  - rewrite to_map_update by done. simpl. apply map_eq. intros k.
    destruct (decide (K r = k)) as [<-|].
    + by rewrite lookup_alter_eq, lookup_insert_eq, to_map_select, E.
    + by rewrite lookup_alter_ne, lookup_insert_ne.
  - rewrite to_map_snoc; [done|]. simpl. by rewrite to_map_select.
Qed.

#[export] Program Instance sqlite_laws : RuleStoreLaws Sqlite.t :=
  {| ps_inv s := keyed K s; ps_abs s := to_map K s; ps_succ := Sqlite.sql_succ |}.
Next Obligation. intros n Hn. simpl. unfold Sqlite.sql_succ. destruct (Z.ltb_spec n (2 ^ 63)); lia. Qed.
Next Obligation. intros k s _. simpl. unfold Sqlite.get. by rewrite to_map_select. Qed.
Next Obligation. intros s Hk. simpl. unfold Sqlite.list. by rewrite (list_law s) by done. Qed.
Next Obligation.
  intros now r s Hk Hn (Ha & Hd & Hc). simpl. destruct (Sqlite.upsert now r s) as [s'|e] eqn:E.
  - pose proof E as ->%sqlite_upsert_cases. apply res_bind_ok in E as ([] & -> & _).
    simpl. by rewrite sqlite_upsert_abs.
  - unfold Sqlite.upsert in E. destruct (validate_key (K r)); simpl in *; [|by simplify_eq].
    assert (i64 (created_or (created_at r) now)) as Ho by (unfold created_or; destruct (_ =? 0); assumption).
    rewrite (sql_int_ok _ Ha), (sql_int_ok _ Hd), (sql_int_ok _ Ho), (sql_int_ok _ Hn) in E.
    simpl in E. by destruct (select_one _ s).
Qed.
Next Obligation.
  intros now r s s' Hk ->%sqlite_upsert_cases.
  destruct (select_one _ s) eqn:E.
  - by apply keyed_update.
  - apply keyed_snoc; [done|]. simpl. by rewrite to_map_select.
Qed.
Next Obligation.
  intros k s Hk. simpl. unfold Sqlite.delete. destruct (validate_key k); simpl; [|done].
  by rewrite to_map_delete, rowcount_pos, to_map_select.
Qed.
Next Obligation.
  intros k s b s' Hk (? & _ & [= _ <-])%res_bind_ok. by apply keyed_filter.
Qed.
Next Obligation.
  intros now k s Hk Hn. simpl. unfold Sqlite.increment_approve.
  destruct (validate_key k); simpl; [|done]. rewrite sql_int_ok by done. simpl.
  by rewrite to_map_update.
Qed.
Next Obligation.
  intros now k s s' Hk (? & _ & (? & _ & [= <-])%res_bind_ok)%res_bind_ok. by apply keyed_update.
Qed.
Next Obligation.
  intros now k s Hk Hn. simpl. unfold Sqlite.increment_deny.
  destruct (validate_key k); simpl; [|done]. rewrite sql_int_ok by done. simpl.
  by rewrite to_map_update.
Qed.
Next Obligation.
  intros now k s s' Hk (? & _ & (? & _ & [= <-])%res_bind_ok)%res_bind_ok. by apply keyed_update.
Qed.
End sqlite_laws.

(** ** The in-memory store refines the specification *)
Section inmemory_laws.
Notation K := permission_key.

(** The dict files every rule under its own key, each key once. *)
Definition inmemory_inv (s : InMemory.t) : Prop :=
  NoDup (dkeys s) ∧ Forall (λ p, K p.2 = p.1) s.

Lemma dget_map k (s : InMemory.t) : (list_to_map s : gmap string _) !! k = dget k s.
Proof.
  induction s as [|[k' v] s IH]; simpl; [apply lookup_empty|].
  destruct (String.eqb_spec k' k) as [->|]; [by rewrite lookup_insert_eq|].
  by rewrite lookup_insert_ne.
Qed.

Lemma dset_map k r (s : InMemory.t) :
  (list_to_map (dset k r s) : gmap string _) = <[k := r]> (list_to_map s).
Proof.
  apply map_eq. intros k'. rewrite dget_map. destruct (decide (k = k')) as [<-|].
  - by rewrite dget_dset, lookup_insert_eq.
  - by rewrite dget_dset_ne, lookup_insert_ne, dget_map.
Qed.

Lemma ddel_map k (s : InMemory.t) : NoDup (dkeys s) →
  (list_to_map (ddel k s) : gmap string _) = delete k (list_to_map s).
Proof.
  unfold dkeys. induction s as [|[k' v] s IH]; simpl; [by rewrite delete_empty|].
  intros [Hk Hs]%NoDup_cons. destruct (String.eqb_spec k' k) as [->|]; simpl.
  - rewrite delete_insert_eq, delete_id; [done|]. by apply not_elem_of_list_to_map_1.
  - by rewrite IH, delete_insert_ne by done.
Qed.

Lemma inmemory_inv_dset k r s : inmemory_inv s → K r = k → inmemory_inv (dset k r s).
Proof.
  intros [Hn Hf] Hr. split; [by apply dset_NoDup|]. clear Hn.
  induction Hf as [|[k' v] s Hv Hf IH]; simpl; [by constructor|].
  destruct (String.eqb_spec k' k) as [->|]; by constructor.
Qed.

Lemma inmemory_get_key k r s : inmemory_inv s → dget k s = Some r → K r = k.
Proof. intros [_ Hf] H%dget_Some_elem. rewrite Forall_forall in Hf. by apply (Hf (k, r)). Qed.

Lemma inmemory_adjust k f s : inmemory_inv s → (∀ r, K (f r) = K r) →
  inmemory_inv (match dget k s with Some r => dset k (f r) s | None => s end) ∧
  list_to_map (match dget k s with Some r => dset k (f r) s | None => s end)
  = alter f k (list_to_map s : gmap string _).
Proof.
  intros Hs Hf. destruct (dget k s) as [r|] eqn:E.
  - split; [apply inmemory_inv_dset; [done|]; rewrite Hf; by eapply inmemory_get_key|].
    rewrite dset_map. symmetry. apply map_eq. intros k'. destruct (decide (k = k')) as [<-|].
    + by rewrite lookup_alter_eq, lookup_insert_eq, dget_map, E.
    + by rewrite lookup_alter_ne, lookup_insert_ne.
  - split; [done|]. symmetry. apply map_eq. intros k'. destruct (decide (k = k')) as [<-|].
    + by rewrite lookup_alter_eq, dget_map, E.
    + by rewrite lookup_alter_ne.
Qed.

Lemma inmemory_rows s : inmemory_inv s →
  keyed K (s.*2) ∧ (list_to_map s : gmap string _) = to_map K (s.*2).
Proof.
  intros [Hn Hf]. unfold keyed, to_map, dkeys in *. induction Hf as [|[k r] s Hk Hf IH]; simpl in *.
  - by split; [constructor|].
  - apply NoDup_cons in Hn as [Hk' Hn]. destruct (IH Hn) as [IH1 IH2]. subst k. split.
    + apply NoDup_cons. split; [|done]. intros Hin. apply Hk'.
      apply list_elem_of_In, in_map_iff in Hin as (r' & He & Hr').
      apply list_elem_of_In, list_elem_of_fmap in Hr' as ([k' r''] & -> & Hin). simpl in He.
      rewrite Forall_forall in Hf. pose proof (Hf _ Hin) as Hf'. simpl in Hf'.
      apply list_elem_of_fmap. exists (k', r''). simpl. by rewrite <-He, Hf'.
    + by rewrite IH2.
Qed.

#[export] Program Instance inmemory_laws : RuleStoreLaws InMemory.t :=
  {| ps_inv s := inmemory_inv s; ps_abs s := list_to_map s; ps_succ := Z.succ |}.
Next Obligation. done. Qed.
Next Obligation. intros k s _. simpl. unfold InMemory.get. by rewrite dget_map. Qed.
Next Obligation.
  intros s [Hk He]%inmemory_rows. simpl. unfold InMemory.list. by rewrite list_law, He by done.
Qed.
Next Obligation.
  intros now r s Hs _ _. simpl. unfold InMemory.upsert. destruct (validate_key (K r)); [|done].
  simpl. rewrite dget_map. destruct (dget (K r) s); simpl; by rewrite dset_map.
Qed.
Next Obligation.
  intros now r s s' Hs (? & _ & H)%res_bind_ok. revert H.
  destruct (dget (K r) s) as [o|] eqn:E; intros [= <-]; apply inmemory_inv_dset; try done.
  simpl. by eapply inmemory_get_key.
Qed.
Next Obligation.
  intros k s [Hn _]. simpl. unfold InMemory.delete. destruct (validate_key k); [|done].
  simpl. rewrite dget_map, ddel_map by done. unfold dhas. by destruct (dget k s).
Qed.
Next Obligation.
  intros k s b s' [Hn Hf] (? & _ & [= _ <-])%res_bind_ok. unfold inmemory_inv, dkeys in *. clear b.
  induction s as [|[k' v] s IH]; simpl in *; [done|].
  apply NoDup_cons in Hn as [Hk Hn]. inversion_clear Hf. destruct (String.eqb k' k); [done|].
  destruct IH as [IH1 IH2]; [done..|]. split; [|by constructor].
  simpl. apply NoDup_cons. split; [|done]. contradict Hk. clear -Hk.
  induction s as [|[k'' v'] s IH]; simpl in *; [done|].
  destruct (String.eqb k'' k); [by right|].
  apply elem_of_cons in Hk as [->|Hk]; [left|right; auto].
Qed.
Next Obligation.
  intros now k s Hs _. simpl. unfold InMemory.increment_approve.
  destruct (validate_key k); [|done]. simpl.
  destruct (inmemory_adjust k (add_approve Z.succ now) s Hs) as [_ <-]; [done|]. by destruct (dget k s).
Qed.
Next Obligation.
  intros now k s s' Hs (? & _ & H)%res_bind_ok.
  destruct (inmemory_adjust k (add_approve Z.succ now) s Hs) as [Hi _]; [done|].
  revert H Hi. by destruct (dget k s); simpl; intros H; injection H as <-.
Qed.
Next Obligation.
  intros now k s Hs _. simpl. unfold InMemory.increment_deny.
  destruct (validate_key k); [|done]. simpl.
  destruct (inmemory_adjust k (add_deny Z.succ now) s Hs) as [_ <-]; [done|]. by destruct (dget k s).
Qed.
Next Obligation.
  intros now k s s' Hs (? & _ & H)%res_bind_ok.
  destruct (inmemory_adjust k (add_deny Z.succ now) s Hs) as [Hi _]; [done|].
  revert H Hi. by destruct (dget k s); simpl; intros H; injection H as <-.
Qed.
End inmemory_laws.

(** ** Sequences of calls *)
Inductive op :=
  | OGet (k : string)
  | OUpsert (now : Z) (r : PermissionRule)
  | OList
  | ODelete (k : string)
  | OApprove (now : Z) (k : string)
  | ODeny (now : Z) (k : string).
Inductive reply :=
  | RRule (r : option PermissionRule)
  | RRules (l : list PermissionRule)
  | RBool (b : bool)
  | RUnit
  | RErr (e : exn).

(** The arguments are 64-bit integers, and [n] increments leave the counters of
    a rule that is written among them. *)
Definition op_fits (n : nat) (o : op) : Prop :=
  match o with
  | OUpsert now r => i64 now ∧ rule_i64 r ∧ approve_count r + Z.of_nat n < 2 ^ 63 ∧ deny_count r + Z.of_nat n < 2 ^ 63
  | OApprove now _ | ODeny now _ => i64 now
  | _ => True
  end.

Section trace.
Context {S : Type} `{PermissionRuleStore S}.

(** One call; a call that raises leaves the store as it was. *)
Definition run_op (o : op) (s : S) : reply * S :=
  let upd m := match m with Ok s' => (RUnit, s') | Raise e => (RErr e, s) end in
  match o with
  | OGet k => (match ps_get k s with Ok r => RRule r | Raise e => RErr e end, s)
  | OUpsert now r => upd (ps_upsert now r s)
  | OList => (match ps_list s with Ok l => RRules l | Raise e => RErr e end, s)
  | ODelete k => match ps_delete k s with Ok (b, s') => (RBool b, s') | Raise e => (RErr e, s) end
  | OApprove now k => upd (ps_increment_approve now k s)
  | ODeny now k => upd (ps_increment_deny now k s)
  end.
Fixpoint run_ops (os : list op) (s : S) : list reply :=
  match os with
  | [] => []
  | o :: os' => let '(r, s') := run_op o s in r :: run_ops os' s'
  end.
End trace.

(** The counters of every rule leave room for [n] increments. *)
Definition room (n : nat) (m : gmap string PermissionRule) : Prop :=
  ∀ k r, m !! k = Some r → approve_count r + Z.of_nat n < 2 ^ 63 ∧ deny_count r + Z.of_nat n < 2 ^ 63.
Lemma op_fits_mono n n' o : (n' ≤ n)%nat → op_fits n o → op_fits n' o.
Proof. intros Hn. destruct o; cbn [op_fits]; try done. intros (? & ? & ? & ?). split_and!; try done; lia. Qed.
Lemma room_alter n f k m : (∀ r, approve_count (f r) ≤ approve_count r + 1 ∧ deny_count (f r) ≤ deny_count r + 1) →
  room (S n) m → room n (alter f k m).
Proof.
  intros Hf Hm k' r' Hr. apply lookup_alter_Some in Hr as [(-> & r & Hr & ->)|[_ Hr]]; apply Hm in Hr; [|lia].
  specialize (Hf r). lia.
Qed.
Lemma room_mono n m : room (S n) m → room n m.
Proof. intros Hm k r Hr. apply Hm in Hr. lia. Qed.
Lemma room_op n o m : room (S n) m → op_fits (S n) o → room n (run_op o m).2.
Proof.
  intros Hm Ho. pose proof (room_mono _ _ Hm) as Hm'. destruct o as [k|now r| |k|now k|now k]; cbn [run_op op_fits] in *.
  - done.
  - cbn. destruct (validate_key _); cbn; [|done]. intros k' r' Hr. apply lookup_insert_Some in Hr as [[<- <-]|[_ Hr]]; [|by apply (Hm' k')].
    destruct (m !! permission_key r) as [old|] eqn:E; cbn; [|lia]. apply Hm in E. lia.
  - done.
  - cbn. destruct (validate_key _); cbn; [|done]. intros k' r' [_ Hr]%lookup_delete_Some. by apply (Hm' k').
  - cbn. destruct (validate_key _); cbn; [|done]. apply room_alter; [|done]. intros r. cbn. lia.
  - cbn. destruct (validate_key _); cbn; [|done]. apply room_alter; [|done]. intros r. cbn. lia.
Qed.

Section trace_laws.
Context {St : Type} `{RuleStoreLaws St}.

Lemma approve_spec now k (s : St) : ps_inv s → i64 now → room 1 (ps_abs s) →
  ps_abs <$> ps_increment_approve now k s = ps_increment_approve now k (ps_abs s).
Proof.
  intros Hs Hn Hr. rewrite law_approve by done. cbn. destruct (validate_key k); cbn; [|done]. f_equal. apply alter_ext.
  intros r Hk. apply Hr in Hk. unfold add_approve. rewrite law_succ by lia. done.
Qed.
Lemma deny_spec now k (s : St) : ps_inv s → i64 now → room 1 (ps_abs s) →
  ps_abs <$> ps_increment_deny now k s = ps_increment_deny now k (ps_abs s).
Proof.
  intros Hs Hn Hr. rewrite law_deny by done. cbn. destruct (validate_key k); cbn; [|done]. f_equal. apply alter_ext.
  intros r Hk. apply Hr in Hk. unfold add_deny. rewrite law_succ by lia. done.
Qed.

Lemma run_op_spec o (s : St) : ps_inv s → op_fits 1 o → room 1 (ps_abs s) →
  run_op o (ps_abs s) = prod_map id ps_abs (run_op o s) ∧ ps_inv (run_op o s).2.
Proof.
  intros Hs. destruct o as [k|now r| |k|now k|now k]; cbn [run_op op_fits]; intros Ho Hroom.
  - by rewrite (law_get k s).
  - destruct Ho as (Hn & Hr & _). pose proof (law_upsert now r s Hs Hn Hr) as <-.
    destruct (ps_upsert now r s) eqn:E; simpl; [|done]. split; [done|by eapply law_upsert_inv].
  - by rewrite (law_list s).
  - pose proof (law_delete k s Hs) as <-.
    destruct (ps_delete k s) as [[b s']|] eqn:E; simpl; [|done].
    split; [done|by eapply law_delete_inv].
  - pose proof (approve_spec now k s Hs Ho Hroom) as <-.
    destruct (ps_increment_approve now k s) eqn:E; simpl; [|done].
    split; [done|by eapply law_approve_inv].
  - pose proof (deny_spec now k s Hs Ho Hroom) as <-.
    destruct (ps_increment_deny now k s) eqn:E; simpl; [|done].
    split; [done|by eapply law_deny_inv].
Qed.

Lemma run_ops_spec os (s : St) : ps_inv s → room (length os) (ps_abs s) → Forall (op_fits (length os)) os →
  run_ops os s = run_ops os (ps_abs s).
Proof.
  revert s. induction os as [|o os IH]; intros s Hs Hroom Ho; simpl; [done|].
  apply Forall_cons in Ho as [Ho Hos]. cbn [length] in *.
  assert (room 1 (ps_abs s)) as Hroom1 by (intros k r Hr; apply Hroom in Hr; lia).
  destruct (run_op_spec o s Hs (op_fits_mono (S (length os)) 1 o ltac:(lia) Ho) Hroom1) as [Hrun Hi].
  pose proof (room_op _ _ _ Hroom Ho) as Hroom'. rewrite Hrun in Hroom' |- *.
  destruct (run_op o s) as [r s']; simpl in *. rewrite IH; [done..|].
  eapply Forall_impl; [exact Hos|]. intros o'. apply op_fits_mono. lia.
Qed.
End trace_laws.

(** C34. The SQLite store and the in-memory store, both opened empty, answer
    every sequence of calls alike, provided that the times and the integers of
    the rules written are in the 64-bit range and that a rule is never written
    with a counter that the calls of the sequence could bring to 2^63: same
    rules, same listings in the same order, same deletions reported, same
    validation errors.  Without that bound they differ ([counters_overflow]). *)
Theorem stores_agree os : Forall (op_fits (length os)) os →
  run_ops os ([] : Sqlite.t) = run_ops os ([] : InMemory.t).
Proof.
  intros H. rewrite (run_ops_spec (St:=Sqlite.t)), (run_ops_spec (St:=InMemory.t)); try done.
  - by split; constructor.
  - by constructor.
Qed.

Definition demo_rule : PermissionRule :=
  mkRule "memory_write:write:vault:append:AI/x.md" "always_approve" "low" 0 0 0 0 None (Some "local:op").
Lemma stores_agree_witness :
  run_ops [OUpsert 5 demo_rule; OApprove 7 (permission_key demo_rule); OList; OGet "bad key"]
    ([] : Sqlite.t)
  = [RUnit; RUnit;
     RRules [mkRule (permission_key demo_rule) "always_approve" "low" 1 0 5 7 None (Some "local:op")];
     RErr (ValueError "Invalid permission_key format: bad key")]
  ∧ run_ops [OUpsert 5 demo_rule; OApprove 7 (permission_key demo_rule); OList; OGet "bad key"]
    ([] : Sqlite.t)
  = run_ops [OUpsert 5 demo_rule; OApprove 7 (permission_key demo_rule); OList; OGet "bad key"]
    ([] : InMemory.t).
Proof.
  split; [vm_compute; reflexivity|].
  apply stores_agree. repeat constructor; vm_compute; congruence.
Defined.
(** Two approvals of a rule written with a full counter: SQLite keeps the REAL
    2^63, the dict counts on. *)
Example counters_overflow :
  let r := mkRule (permission_key demo_rule) "always_approve" "low" (2 ^ 63 - 1) 0 5 0 None None in
  let os := [OUpsert 5 r; OApprove 6 (permission_key r); OApprove 7 (permission_key r); OGet (permission_key r)] in
  let got := mkRule (permission_key r) "always_approve" "low" in
  run_ops os ([] : Sqlite.t) = [RUnit; RUnit; RUnit; RRule (Some (got (2 ^ 63) 0 5 7 None None))] ∧
  run_ops os ([] : InMemory.t) = [RUnit; RUnit; RUnit; RRule (Some (got (2 ^ 63 + 1) 0 5 7 None None))].
Proof. vm_compute. split; reflexivity. Qed.
