(* ===== verification/Policy.v ===== *)
(** * The policy engines (agent_os/policy.py)

    [LocalPolicy.evaluate], [CompositePolicyEngine.evaluate] and
    [apply_policy], with the session grants and the learned rules they read
    and write.  [interrupt] is LangGraph's: without a resume value it suspends
    the node by raising [GraphInterrupt]; resumed, it returns the value. *)
From S2P Require Export PermissionStore.

(** ** Taxonomy and permission keys *)
Definition derive_tier (p : ActionProposal) : string :=
  match ap_side_effect p with
  | se_read | se_none => "trivial"
  | se_write => "low"
  | se_network | se_communication => "medium"
  | se_payment | se_privileged => "high"
  end.

Definition safe_connector_char (c : ascii) : bool :=
  is_digit c || is_lower_az c || (code c =? 95).
Definition SAFE_CONNECTOR_NAME : re := Seqs [Bos; Plus (Cls safe_connector_char); Eos].

Definition permission_connector (v : option string) : option string :=
  match v with
  | Some s => if matches (re_fullmatch SAFE_CONNECTOR_NAME s) then Some s else None
  | None => None
  end.

Definition permission_ref (v : option pyval) : option string :=
  match v with
  | Some (VStr s) =>
      if negb (truthy s) || contains ":" s || sexists is_space s then None else Some s
  | _ => None
  end.

Definition derive_permission_key (p : ActionProposal) : option string :=
  if negb (String.eqb (ap_tool p) "memory.write") || negb (bool_decide (ap_side_effect p = se_write))
  then None
  else
    match permission_connector (ap_connector p), dget "mode" (ap_arguments p),
          permission_ref (dget "ref" (ap_arguments p)) with
    | Some connector, Some (VStr mode), Some ref =>
        if mem_str mode MEMORY_WRITE_MODES
        then Some ("memory_write:write:" +:+ connector +:+ ":" +:+ mode +:+ ":" +:+ ref)
        else None
    | _, _, _ => None
    end.

(** ** Feedback *)

(** [re.sub(r"[\s-]+", "_", s)] *)
Fixpoint collapse (in_run : bool) (s : string) : string :=
  match s with
  | EmptyString => EmptyString
  | String c s' =>
      if is_space c || Ascii.eqb c "-"
      then if in_run then collapse true s' else String "_" (collapse true s')
      else String c (collapse false s')
  end.

Definition feedback_usage : string :=
  "Unsupported policy feedback. Use 'approved', 'rejected: <reason>', 'session', 'always_approve', or 'always_deny'.".

Definition normalize_policy_feedback (value : pyval) : res string :=
  match value with
  | VStr s =>
      let raw := strip s in
      if negb (truthy raw) then Raise (ValueError "Feedback cannot be empty")
      else
        let normalized := collapse false (lower raw) in
        if mem_str normalized ["approved"; "approve"; "y"; "yes"] then Ok "approved"
        else if mem_str normalized ["session"; "approve_session"; "session_approve"] then Ok "session"
        else if String.eqb normalized "always_approve" then Ok "always_approve"
        else if String.eqb normalized "always_deny" then Ok "always_deny"
        else if startswith "rejected:" normalized then
          let reason := strip (from_option snd "" (split_once ":" raw)) in
          Ok ("rejected: " +:+ if truthy reason then reason else "no reason provided")
        else if mem_str normalized ["rejected"; "reject"; "n"; "no"]
        then Ok "rejected: no reason provided"
        else Raise (ValueError feedback_usage)
  | _ => Raise (ValueError "Feedback must be a string")
  end.

(** ** Engines *)
Record LocalPolicy := mkLocal {
  lp_rules : pydict;
  lp_mode : string;
  lp_session_key : option string }.

(** [LocalPolicy.__init__]; the store is part of the state below. *)
Definition LocalPolicy_init (rules : pydict) (mode : string) (session_key : option string)
    : LocalPolicy :=
  mkLocal rules (if mem_str mode ["manual"; "smart"; "off"] then mode else "manual") session_key.

Definition lp_with_session (sk : option string) (p : LocalPolicy) : LocalPolicy :=
  LocalPolicy_init (lp_rules p) (lp_mode p) sk.

(** A policy plugin is code outside the repository: what it answers on a
    proposal, a workspace and a context. *)
Definition plugin := ActionProposal → option string → pyval → res PolicyDecision.

Inductive engine :=
  | ELocal (p : LocalPolicy)
  | EComposite (base : engine) (plugins : list plugin).

Fixpoint with_session (sk : option string) (e : engine) : engine :=
  match e with
  | ELocal p => ELocal (lp_with_session sk p)
  | EComposite b ps => EComposite (with_session sk b) ps
  end.
(** The [mode] and [session_key] properties, delegated to the base. *)
Fixpoint engine_mode (e : engine) : string :=
  match e with ELocal p => lp_mode p | EComposite b _ => engine_mode b end.
Fixpoint session_key (e : engine) : option string :=
  match e with ELocal p => lp_session_key p | EComposite b _ => session_key b end.

(** [LocalPolicy._session_approved], the rule store of the engine if it has
    one, and the world the executed action changes. *)
Record pstate (St W : Type) := mkP {
  session_approved : gmap string (gset string);
  pstore : option St;
  world : W }.
Arguments mkP {_ _} _ _ _.
Arguments session_approved {_ _} _.
Arguments pstore {_ _} _.
Arguments world {_ _} _.

Section policy.
Context {St W : Type} `{PermissionRuleStore St}.
Notation state := (pstate St W).

Definition set_store (f : St) (st : state) : state :=
  mkP (session_approved st) (Some f) (world st).
Definition set_world (w : W) (st : state) : state :=
  mkP (session_approved st) (pstore st) w.

Definition approve_session (sk k : string) (st : state) : state :=
  mkP (<[sk := {[k]} ∪ default ∅ (session_approved st !! sk)]> (session_approved st))
    (pstore st) (world st).
Definition clear_session (sk : string) (st : state) : state :=
  mkP (delete sk (session_approved st)) (pstore st) (world st).

Definition session_granted (sk : option string) (k : string) (st : state) : bool :=
  match sk with
  | Some s => bool_decide (k ∈ default (∅ : gset string) (session_approved st !! s))
  | None => false
  end.

(** [self.store.get(perm_key)] with its [except Exception]. *)
Definition fetch_rule (key : option string) (st : state) : option PermissionRule :=
  match pstore st, key with
  | Some s, Some k => match ps_get k s with Ok r => r | Raise _ => None end
  | _, _ => None
  end.
(** The counters, with their [except Exception]. *)
Definition count_deny (now : Z) (k : string) (st : state) : state :=
  match pstore st with
  | Some s => match ps_increment_deny now k s with Ok s' => set_store s' st | Raise _ => st end
  | None => st
  end.
Definition count_approve (now : Z) (k : string) (st : state) : state :=
  match pstore st with
  | Some s => match ps_increment_approve now k s with Ok s' => set_store s' st | Raise _ => st end
  | None => st
  end.

(** Step 4: the built-in rules for logs and briefs. *)
Definition builtin_decision (p : ActionProposal) : option PolicyDecision :=
  match ap_side_effect p, dget "ref" (ap_arguments p) with
  | se_write, Some r =>
      let ref := py_str r in
      let mode := py_str (default (VStr "") (dget "mode" (ap_arguments p))) in
      let nref := lstrip_slash ref in
      if (startswith "AI/Logs/" nref || startswith "agentos/logs/" nref)
         && String.eqb mode "append"
      then Some (mkDecision allow "builtin-logs" "Logs can be appended automatically")
      else if (startswith "AI/Briefs/" nref || startswith "agentos/briefs/" nref)
              && mem_str mode ["append"; "create"]
      then Some (mkDecision allow "builtin-briefs" "Briefs can be appended/created automatically")
      else None
  | _, _ => None
  end.

(** Step 5 *)
Definition taxonomy_decision (p : ActionProposal) : PolicyDecision :=
  mkDecision (match ap_side_effect p with se_read | se_none => allow | _ => require_approval end)
    "default" ("Default taxonomy for " +:+ side_effect_str (ap_side_effect p)).

Definition taxonomy_denial (p : ActionProposal) : PolicyDecision :=
  mkDecision deny "default" ("Default taxonomy for " +:+ side_effect_str (ap_side_effect p)).

Definition local_evaluate (lp : LocalPolicy) (now : Z) (p : ActionProposal) (st : state)
    : PolicyDecision * state :=
  if String.eqb (lp_mode lp) "off"
  then (mkDecision allow "mode-off" "Policy enforcement disabled (mode=off)", st)
  else if String.eqb (derive_tier p) "high" then (taxonomy_denial p, st)
  else
    let key := derive_permission_key p in
    let rule := fetch_rule key st in
    let rest := (default (taxonomy_decision p) (builtin_decision p), st) in
    match key with
    | None => rest
    | Some k =>
        if bool_decide (effect <$> rule = Some "always_deny"%string)
        then (mkDecision deny "learned" "always_deny", count_deny now k st)
        else if session_granted (lp_session_key lp) k st
        then (mkDecision allow "session" ("Session approval for " +:+ k), st)
        else if bool_decide (effect <$> rule = Some "always_approve"%string)
        then (mkDecision allow "learned" "always_approve", count_approve now k st)
        else rest
    end.

(** The plugin chain: the first failure or denial is final. *)
Fixpoint run_plugins (ps : list plugin) (p : ActionProposal) (ws : option string) (ctx : pyval)
    (d : PolicyDecision) : PolicyDecision :=
  match ps with
  | [] => d
  | pl :: ps' =>
      match pl p ws ctx with
      | Raise exc =>
          mkDecision deny "policy-plugin-error"
            ("Policy plugin evaluation failed: " +:+ exn_msg exc)
      | Ok d' =>
          match pd_decision d' with
          | deny =>
              mkDecision deny
                (if truthy (pd_policy_id d') then pd_policy_id d' else "policy-plugin-denied")
                (if truthy (pd_reason d') then pd_reason d' else "Denied by policy plugin")
          | _ => run_plugins ps' p ws ctx d
          end
      end
  end.

Fixpoint evaluate (e : engine) (now : Z) (ws : option string) (ctx : pyval) (p : ActionProposal)
    (st : state) : PolicyDecision * state :=
  match e with
  | ELocal lp => local_evaluate lp now p st
  | EComposite base plugins =>
      match ap_side_effect p with
      | se_payment | se_privileged => (taxonomy_denial p, st)
      | _ =>
          let '(d, st') := evaluate base now ws ctx p st in
          match pd_decision d with
          | deny => (d, st')
          | _ => (run_plugins plugins p ws ctx d, st')
          end
      end
  end.

(** ** apply_policy *)
Definition cancelled_with (msg : string) : ExecutionResult := mkExec cancelled [] [] [msg].

Definition approval_prompt (p : ActionProposal) (reason : string) : string :=
  "Policy approval required: " +:+ ap_tool p +:+ " with side_effect=" +:+
  side_effect_str (ap_side_effect p) +:+ ". Reason: " +:+ reason +:+ nl +:+
  "Reply 'approved' once, 'rejected: <reason>', 'session', 'always_approve', or 'always_deny'." +:+
  match derive_permission_key p with
  | Some k => " Remembered choices apply only to `" +:+ k +:+ "`."
  | None => " This action cannot safely be remembered; use one-time approval."
  end.

(** Who taught the rule: the context's principal, or the local user. *)
Definition taught_by_of (os_user : string) (ctx : pyval) : string :=
  match ctx with
  | VDict d =>
      match dget "principal" d with
      | None | Some VNone => "local:" +:+ os_user
      | Some (VObj c attrs) => py_str (default (VObj c attrs) (dget "id" attrs))
      | Some v => py_str v
      end
  | _ => "local:" +:+ os_user
  end.

Definition execute_in (f : ActionProposal → W → res ExecutionResult * W) (p : ActionProposal)
    (st : state) : res ExecutionResult * state :=
  let '(r, w) := f p (world st) in (r, set_world w st).

(** The remembered choices [session], [always_approve] and [always_deny]. *)
Definition remember (e : engine) (now : Z) (os_user : string) (ws : option string) (ctx : pyval)
    (p : ActionProposal) (f : ActionProposal → W → res ExecutionResult * W) (feedback : string)
    (st : state) : res ExecutionResult * state :=
  let tier := derive_tier p in
  if String.eqb tier "high" then
    if String.eqb feedback "always_approve" then execute_in f p st
    else (Ok (cancelled_with "High-risk action rejected; remembered approvals are not allowed"), st)
  else
    match derive_permission_key p with
    | None =>
        (Ok (cancelled_with "This action has no safely scoped remembered-permission key. Choose 'approved' for one-time approval."), st)
    | Some k =>
        if String.eqb feedback "session" then
          match session_key e with
          | None =>
              (Ok (cancelled_with "Session approval is unavailable outside a request/session context. Choose 'approved' for one-time approval."), st)
          | Some sk => execute_in f p (approve_session sk k st)
          end
        else
          let eff := if String.eqb feedback "always_approve" then "always_approve"%string
                     else "always_deny"%string in
          match pstore st with
          | None =>
              (Ok (cancelled_with "Persistent approvals are unavailable because no permission store is configured. Choose 'approved' for one-time approval."), st)
          | Some s =>
              let rule := mkRule k eff tier 0 0 0 0 ws (Some (taught_by_of os_user ctx)) in
              match ps_upsert now rule s with
              | Raise _ =>
                  (Ok (cancelled_with "Could not save the remembered permission. Choose 'approved' for one-time approval."), st)
              | Ok s' =>
                  if String.eqb feedback "always_approve"
                  then execute_in f p (set_store s' st)
                  else (Ok (cancelled_with "User rejected"), set_store s' st)
              end
          end
    end.

Definition apply_policy (e : engine) (now : Z) (os_user : string) (ws : option string)
    (ctx : pyval) (p : ActionProposal) (resume : option pyval)
    (execute_fn : ActionProposal → W → res ExecutionResult * W) (st : state)
    : res ExecutionResult * state :=
  let '(d, st1) := evaluate e now ws ctx p st in
  match pd_decision d with
  | allow => execute_in execute_fn p st1
  | require_approval =>
      match resume with
      | None => (Raise (GraphInterrupt (approval_prompt p (pd_reason d))), st1)
      | Some raw =>
          match normalize_policy_feedback raw with
          | Raise exc => (Ok (cancelled_with ("Rejected: " +:+ exn_msg exc)), st1)
          | Ok feedback =>
              if String.eqb feedback "approved" then execute_in execute_fn p st1
              else if startswith "rejected" feedback then (Ok (cancelled_with feedback), st1)
              else remember e now os_user ws ctx p execute_fn feedback st1
          end
      end
  | deny =>
      (Ok (mkExec failed [] []
             [if truthy (pd_reason d) then pd_reason d else "Action denied by policy"]), st1)
  end.
End policy.

(** ** Theorems *)
Lemma derive_tier_high p :
  derive_tier p = "high" ↔ ap_side_effect p = se_payment ∨ ap_side_effect p = se_privileged.
Proof. unfold derive_tier. destruct (ap_side_effect p); naive_solver. Qed.

Lemma derive_permission_key_inv p k : derive_permission_key p = Some k →
  ∃ c mo r, ap_tool p = "memory.write" ∧ ap_side_effect p = se_write ∧
    ap_connector p = Some c ∧ matches (re_fullmatch SAFE_CONNECTOR_NAME c) = true ∧
    dget "mode" (ap_arguments p) = Some (VStr mo) ∧ mem_str mo MEMORY_WRITE_MODES = true ∧
    dget "ref" (ap_arguments p) = Some (VStr r) ∧ permission_ref (Some (VStr r)) = Some r ∧
    k = "memory_write:write:" +:+ c +:+ ":" +:+ mo +:+ ":" +:+ r.
Proof.
  unfold derive_permission_key. destruct (_ || _) eqn:E; [done|]. bool_prop.
  intros Hk. destruct (permission_connector (ap_connector p)) as [c|] eqn:Ec; [|done].
  destruct (dget "mode" _) as [[| | | |mo| | |]|] eqn:Em; try done.
  destruct (permission_ref (dget "ref" _)) as [r|] eqn:Er; [|done].
  destruct (mem_str mo _) eqn:Emo; [|done]. injection Hk as <-.
  unfold permission_connector in Ec. destruct (ap_connector p) as [c'|]; [|done].
  destruct (matches _) eqn:Ecm; [|done]. injection Ec as ->.
  destruct (dget "ref" _) as [[| | | |r'| | |]|] eqn:Edr; try done.
  assert (r' = r) as -> by (unfold permission_ref in Er; destruct (_ || _); congruence).
  exists c, mo, r. split_and!; done.
Qed.

(** The language of a connector name, and of the characters of a reference. *)
Lemma safe_connector_spec c :
  matches (re_fullmatch SAFE_CONNECTOR_NAME c) = true ↔
  c ≠ "" ∧ sforall safe_connector_char c = true.
Proof.
  rewrite re_fullmatch_spec. unfold SAFE_CONNECTOR_NAME, Seqs. cbn [foldr]. split.
  - intros (s1 & s2 & -> & H1 & H2)%lang_seq_inv. inversion H1; subst.
    apply lang_seq_inv in H2 as (s3 & s4 & -> & H3%lang_plus_cls_inv & H4).
    apply lang_seq_inv in H4 as (s5 & s6 & -> & H5 & H6). inversion H6; subst.
    inversion H5; subst. simpl. by rewrite sapp_nil_r.
  - intros [Hne Hf]. eapply (lang_seq_eq _ _ _ _ "" c); [done|constructor|].
    eapply (lang_seq_eq _ _ _ _ c ""); [by rewrite sapp_nil_r|by apply lang_plus_cls|].
    eapply (lang_seq_eq _ _ _ _ "" ""); [done|constructor; by left|constructor].
Qed.

Lemma safe_connector_no_colon c :
  sforall safe_connector_char c = true → sexists (Ascii.eqb ":") c = false.
Proof.
  induction c as [|x c IH]; cbn [sexists sforall]; [done|].
  intros [Hx Hc]%andb_true_iff. rewrite IH by done.
  destruct (Ascii.eqb_spec ":" x) as [<-|]; [|done]. by vm_compute in Hx.
Qed.
Lemma mode_cases mo : mem_str mo MEMORY_WRITE_MODES = true →
  mo = "append" ∨ mo = "create" ∨ mo = "overwrite".
Proof. intros H%mem_str_iff. unfold MEMORY_WRITE_MODES in H. set_solver. Qed.

Lemma contains_char c s : contains (String c "") s = sexists (Ascii.eqb c) s.
Proof.
  induction s as [|x s IH]; simpl; [done|]. rewrite IH. simpl. by rewrite andb_true_r.
Qed.

Lemma permission_ref_chars r : permission_ref (Some (VStr r)) = Some r →
  r ≠ "" ∧ sforall ref_char r = true.
Proof.
  unfold permission_ref. destruct (_ || _) eqn:E; [done|]. intros _.
  apply orb_false_iff in E as [[E1 E2]%orb_false_iff E3]. split; [by destruct r|].
  rewrite contains_char in E2. clear E1. induction r as [|c r IH]; [done|].
  cbn [sexists sforall] in *. apply orb_false_iff in E2 as [E2 E2'], E3 as [E3 E3'].
  rewrite IH by done. unfold ref_char. by rewrite E3, Ascii.eqb_sym, E2.
Qed.

(** Two proposals that share a permission key agree on everything the key is
    about. *)
Lemma permission_key_parts c mo r c' mo' r' :
  sforall safe_connector_char c = true → sforall safe_connector_char c' = true →
  mem_str mo MEMORY_WRITE_MODES = true → mem_str mo' MEMORY_WRITE_MODES = true →
  "memory_write:write:" +:+ c +:+ ":" +:+ mo +:+ ":" +:+ r
  = "memory_write:write:" +:+ c' +:+ ":" +:+ mo' +:+ ":" +:+ r' →
  c = c' ∧ mo = mo' ∧ r = r'.
Proof.
  intros Hc Hc' Hm Hm' He%sapp_inj_l.
  apply sep_cut_inj in He as [-> He]; [|by apply safe_connector_no_colon..].
  apply sep_cut_inj in He as [-> ->]; [done|..].
  - by apply mode_cases in Hm as [->|[->| ->]].
  - by apply mode_cases in Hm' as [->|[->| ->]].
Qed.

Lemma key_regex_five c mo r :
  c ≠ "" → sforall safe_connector_char c = true → mem_str mo MEMORY_WRITE_MODES = true →
  r ≠ "" → sforall ref_char r = true →
  valid_key ("memory_write:write:" +:+ c +:+ ":" +:+ mo +:+ ":" +:+ r) = true.
Proof.
  intros Hc Hcf Hm Hr Hrf. unfold valid_key. apply re_fullmatch_spec.
  assert (∀ s p t, s ≠ "" → sforall safe_connector_char s = true →
            lang (Plus (Cls key_char)) p s t) as Hcl.
  { intros s p t Hs Hsf. apply lang_plus_cls; [done|].
    clear -Hsf. induction s as [|x s IH]; [done|]. cbn [sforall] in *.
    apply andb_true_iff in Hsf as [Hx Hsf]. rewrite IH by done. unfold key_char, safe_connector_char in *.
    destruct (is_digit x), (is_lower_az x), (is_upper_az x), (code x =? 95); done. }
  assert (mo ≠ "" ∧ sforall safe_connector_char mo = true) as [Hm1 Hm2]
    by (by apply mode_cases in Hm as [->|[->| ->]]).
  unfold PERMISSION_KEY_REGEX, Seqs. cbn [foldr].
  eapply (lang_seq_eq _ _ _ _ ""); [reflexivity|constructor|].
  eapply (lang_seq_eq _ _ _ _ "memory_write"); [reflexivity|by apply Hcl|].
  eapply (lang_seq_eq _ _ _ _ ":"); [reflexivity|apply lang_lit|].
  eapply (lang_seq_eq _ _ _ _ "write"); [reflexivity|by apply Hcl|].
  eapply (lang_seq_eq _ _ _ _ ":"); [reflexivity|apply lang_lit|].
  eapply (lang_seq_eq _ _ _ _ (c +:+ ":" +:+ mo +:+ ":") r);
    [by rewrite !sapp_assoc|apply lang_alt_l|].
  - eapply (lang_seq_eq _ _ _ _ c); [reflexivity|by apply Hcl|].
    eapply (lang_seq_eq _ _ _ _ ":"); [reflexivity|apply lang_lit|].
    eapply (lang_seq_eq _ _ _ _ mo); [reflexivity|by apply Hcl|].
    eapply (lang_seq_eq _ _ _ _ ":" ""); [reflexivity|apply lang_lit|constructor].
  - eapply (lang_seq_eq _ _ _ _ r ""); [by rewrite sapp_nil_r|by apply lang_plus_cls|].
    eapply (lang_seq_eq _ _ _ _ "" ""); [done|constructor; by left|constructor].
Qed.

Lemma derived_key_valid p k : derive_permission_key p = Some k → valid_key k = true.
Proof.
  intros (c & mo & r & _ & _ & _ & [??]%safe_connector_spec & _ & Hm & _ &
          [??]%permission_ref_chars & ->)%derive_permission_key_inv.
  by apply key_regex_five.
Qed.

(** C11. A remembered permission covers exactly one connector, write mode and
    reference: its key passes the store's key check, and two proposals with
    the same key are both memory writes to the same connector, in the same
    mode, on the same reference. *)
Theorem permission_key_scope p k : derive_permission_key p = Some k →
  valid_key k = true ∧
  ∀ p', derive_permission_key p' = Some k →
    ap_tool p' = ap_tool p ∧ ap_side_effect p' = ap_side_effect p ∧
    ap_connector p' = ap_connector p ∧
    dget "mode" (ap_arguments p') = dget "mode" (ap_arguments p) ∧
    dget "ref" (ap_arguments p') = dget "ref" (ap_arguments p).
Proof.
  intros Hk. split; [by eapply derived_key_valid|]. intros p' Hk'.
  apply derive_permission_key_inv in Hk
    as (c & mo & r & -> & -> & -> & [_ Hc]%safe_connector_spec & -> & Hm & -> & _ & ->).
  apply derive_permission_key_inv in Hk'
    as (c' & mo' & r' & -> & -> & -> & [_ Hc']%safe_connector_spec & -> & Hm' & -> & _ & He).
  by destruct (permission_key_parts c mo r c' mo' r') as (-> & -> & ->).
Qed.

Definition note_write (connector mode ref : string) : ActionProposal :=
  mkProposal "memory.write" [("ref", VStr ref); ("mode", VStr mode)] "" se_write (Some connector).

Lemma permission_key_scope_witness :
  derive_permission_key (note_write "vault" "append" "Notes/x.md")
    = Some "memory_write:write:vault:append:Notes/x.md" ∧
  valid_key "memory_write:write:vault:append:Notes/x.md" = true.
Proof. split; [reflexivity|]. apply (permission_key_scope (note_write "vault" "append" "Notes/x.md")). reflexivity. Defined.

Section theorems.
Context {St W : Type} `{PermissionRuleStore St}.
Notation state := (pstate St W).
Implicit Types (st : state) (p : ActionProposal) (e : engine).

(** An engine that enforces the high tier: a composition always does, a
    local policy unless its mode is [off]. *)
Definition enforcing (e : engine) : bool :=
  match e with ELocal lp => negb (String.eqb (lp_mode lp) "off") | EComposite _ _ => true end.

Lemma evaluate_high e now ws ctx p st :
  enforcing e = true → derive_tier p = "high" →
  evaluate e now ws ctx p st = (taxonomy_denial p, st).
Proof.
  intros He Hp. destruct e as [lp|b ps]; simpl in *.
  - unfold local_evaluate. bool_prop.
    rewrite (proj2 (String.eqb_neq _ _)) by done. by rewrite Hp.
  - apply derive_tier_high in Hp as [-> | ->]; done.
Qed.

(** C1. Payment and privileged actions are never executed by an enforcing
    engine, whatever was remembered and whatever the user answers: the
    result is the taxonomy's failure, and neither the world, nor the store,
    nor the session grants change. *)
Theorem high_tier_never_executes e now os_user ws ctx p resume f st :
  enforcing e = true → ap_side_effect p = se_payment ∨ ap_side_effect p = se_privileged →
  apply_policy e now os_user ws ctx p resume f st
  = (Ok (mkExec failed [] [] ["Default taxonomy for " +:+ side_effect_str (ap_side_effect p)]), st).
Proof.
  intros He Hp. unfold apply_policy. rewrite evaluate_high; [done|done|].
  by apply derive_tier_high.
Qed.

(** Evaluation touches the store's counters only. *)
Lemma count_deny_frame now k st :
  session_approved (count_deny now k st) = session_approved st ∧
  world (count_deny now k st) = world st.
Proof. unfold count_deny. by repeat case_match. Qed.
Lemma count_approve_frame now k st :
  session_approved (count_approve now k st) = session_approved st ∧
  world (count_approve now k st) = world st.
Proof. unfold count_approve. by repeat case_match. Qed.

Lemma evaluate_frame e now ws ctx p st :
  session_approved (evaluate e now ws ctx p st).2 = session_approved st ∧
  world (evaluate e now ws ctx p st).2 = world st.
Proof.
  induction e as [lp|b IH ps]; simpl.
  - unfold local_evaluate. repeat case_match; simpl;
      auto using count_deny_frame, count_approve_frame.
  - destruct (evaluate b now ws ctx p st) as [d st']; simpl in IH.
    destruct (ap_side_effect p), (pd_decision d); done.
Qed.

(** When an action may run: the engine allows it, or it asked and the user
    granted it, by a choice that could be recorded if it asks to be. *)
Definition granted (e : engine) (now : Z) (os_user : string) (ws : option string) (ctx : pyval)
    (p : ActionProposal) (answer : pyval) (st1 : state) : Prop :=
  normalize_policy_feedback answer = Ok "approved" ∨
  (derive_tier p = "high" ∧ normalize_policy_feedback answer = Ok "always_approve") ∨
  (derive_tier p ≠ "high" ∧ ∃ k, derive_permission_key p = Some k ∧
    ((normalize_policy_feedback answer = Ok "session" ∧ is_Some (session_key e)) ∨
     (normalize_policy_feedback answer = Ok "always_approve" ∧
      ∃ s s', pstore st1 = Some s ∧
        ps_upsert now (mkRule k "always_approve" (derive_tier p) 0 0 0 0 ws
                         (Some (taught_by_of os_user ctx))) s = Ok s'))).
Definition authorised e now os_user ws ctx p resume st : Prop :=
  let '(d, st1) := evaluate e now ws ctx p st in
  pd_decision d = allow ∨
  (pd_decision d = require_approval ∧ ∃ v, resume = Some v ∧ granted e now os_user ws ctx p v st1).

(** Nothing ran: a denial, a cancellation with its reason, or a pending
    question. *)
Definition refused (r : res ExecutionResult) (st st' : state) : Prop :=
  world st' = world st ∧
  ((∃ msg, r = Raise (GraphInterrupt msg)) ∨
   ∃ er, r = Ok er ∧ (er_status er = failed ∨ er_status er = cancelled) ∧ er_errors er ≠ []).
(** The action ran once, in the world of the state before. *)
Definition ran (f : ActionProposal → W → res ExecutionResult * W) p
    (r : res ExecutionResult) (st st' : state) : Prop :=
  (r, world st') = f p (world st).

Lemma execute_in_ran f p st st1 : world st1 = world st →
  ran f p (execute_in f p st1).1 st (execute_in f p st1).2.
Proof. unfold ran, execute_in. intros <-. by destruct (f p (world st1)). Qed.
Lemma refused_cancel msg st st' : world st' = world st →
  refused (Ok (cancelled_with msg)) st st'.
Proof. intros ?. split; [done|]. right. eexists. split_and!; [done|by right|done]. Qed.

Lemma feedback_cases v fb : normalize_policy_feedback v = Ok fb →
  fb = "approved" ∨ fb = "session" ∨ fb = "always_approve" ∨ fb = "always_deny" ∨
  startswith "rejected" fb = true.
Proof.
  destruct v; try done. unfold normalize_policy_feedback.
  repeat (match goal with |- (if ?b then _ else _) = _ → _ => destruct b end;
          [intros E; by (injection E as <-; tauto) || done|]); done.
Qed.

Lemma granted_iff e now os_user ws ctx p v fb st1 :
  normalize_policy_feedback v = Ok fb →
  granted e now os_user ws ctx p v st1 ↔
  fb = "approved" ∨ (derive_tier p = "high" ∧ fb = "always_approve") ∨
  (derive_tier p ≠ "high" ∧ ∃ k, derive_permission_key p = Some k ∧
    ((fb = "session" ∧ is_Some (session_key e)) ∨
     (fb = "always_approve" ∧
      ∃ s s', pstore st1 = Some s ∧
        ps_upsert now (mkRule k "always_approve" (derive_tier p) 0 0 0 0 ws
                         (Some (taught_by_of os_user ctx))) s = Ok s'))).
Proof.
  intros Hfb. unfold granted. rewrite Hfb.
  assert (∀ x, Ok fb = Ok x ↔ fb = x) as Hok by (intros x; split; [by intros [= ->]|by intros ->]).
  by setoid_rewrite Hok.
Qed.

Lemma remember_spec e now os_user ws ctx p f v fb st1 :
  normalize_policy_feedback v = Ok fb → fb ≠ "approved" → startswith "rejected" fb = false →
  let '(r, st') := remember e now os_user ws ctx p f fb st1 in
  (granted e now os_user ws ctx p v st1 ∧ ran f p r st1 st') ∨
  (¬ granted e now os_user ws ctx p v st1 ∧ refused r st1 st').
Proof.
  intros Hfb Hna Hrej. unfold remember.
  pose proof (granted_iff e now os_user ws ctx p v fb st1 Hfb) as HG.
  set (G := granted _ _ _ _ _ _ _ _) in *. clearbody G.
  destruct (String.eqb_spec (derive_tier p) "high") as [Ht|Ht].
  { destruct (String.eqb_spec fb "always_approve") as [->|Hn].
    - destruct (execute_in f p st1) as [r st'] eqn:E. left. rewrite HG. split; [naive_solver|].
      pose proof (execute_in_ran f p st1 st1 eq_refl) as R. by rewrite E in R.
    - right. rewrite HG. split; [naive_solver|by apply refused_cancel]. }
  destruct (derive_permission_key p) as [k|]; [|right; rewrite HG; split; [naive_solver|by apply refused_cancel]].
  destruct (String.eqb_spec fb "session") as [->|Hns].
  { destruct (session_key e) as [sk|]; [|right; rewrite HG; split; [naive_solver|by apply refused_cancel]].
    destruct (execute_in f p (approve_session sk k st1)) as [r st'] eqn:E. left. rewrite HG. split; [eauto 10|].
    pose proof (execute_in_ran f p st1 (approve_session sk k st1) eq_refl) as R. by rewrite E in R. }
  destruct (pstore st1) as [s|] eqn:Hs; [|right; rewrite HG; split; [naive_solver|by apply refused_cancel]].
  destruct (String.eqb_spec fb "always_approve") as [->|Hn].
  - destruct (ps_upsert _ _ s) as [s'|] eqn:Hu.
    2:{ right. rewrite HG. split; [|by apply refused_cancel].
        intros [?|[[? _]|(_ & k' & [= <-] & [[? _]|(_ & ? & s' & [= <-] & Hu')])]]; try done.
        by rewrite Hu in Hu'. }
    destruct (execute_in f p (set_store s' st1)) as [r st'] eqn:E. left. rewrite HG.
    split; [right; right; split; [done|]; eauto 10|].
    pose proof (execute_in_ran f p st1 (set_store s' st1) eq_refl) as R. by rewrite E in R.
  - destruct (ps_upsert _ _ s) as [s'|] eqn:Hu; right; rewrite HG;
      (split; [naive_solver|by apply refused_cancel]).
Qed.

(** C2. [apply_policy] runs the action exactly when it is authorised, once
    and in the world it found; otherwise the world is untouched and the
    caller gets a suspended question, or a failed or cancelled result that
    carries an error. *)
Theorem apply_policy_spec e now os_user ws ctx p resume f st :
  let '(r, st') := apply_policy e now os_user ws ctx p resume f st in
  (authorised e now os_user ws ctx p resume st ∧ ran f p r st st') ∨
  (¬ authorised e now os_user ws ctx p resume st ∧ refused r st st').
Proof.
  unfold apply_policy, authorised. pose proof (evaluate_frame e now ws ctx p st) as [_ Hw].
  destruct (evaluate e now ws ctx p st) as [d st1]; simpl in Hw.
  destruct (pd_decision d) eqn:Hd.
  - destruct (execute_in f p st1) as [r st'] eqn:E. left. split; [by left|].
    pose proof (execute_in_ran f p st st1 Hw) as R. by rewrite E in R.
  - right. split; [by intros [?|[? _]]|]. split; [done|]. right. eexists. split_and!; [done|by left|done].
  - destruct resume as [v|];
      [|right; split; [by intros [?|(_ & ? & ? & _)]|split; [done|left; eauto]]].
    destruct (normalize_policy_feedback v) as [fb|exc] eqn:Hfb.
    2:{ right. split; [|by apply refused_cancel]. unfold granted.
        intros [?|(_ & ? & [= <-] & Hg)]; [done|]. rewrite Hfb in Hg. naive_solver. }
    destruct (String.eqb_spec fb "approved") as [->|Hna].
    { destruct (execute_in f p st1) as [r st'] eqn:E. left.
      split; [right; split; [done|]; exists v; split; [done|by left]|].
      pose proof (execute_in_ran f p st st1 Hw) as R. by rewrite E in R. }
    destruct (startswith "rejected" fb) eqn:Hrej.
    { right. split; [|by apply refused_cancel].
      intros [?|(_ & ? & [= <-] & Hg)]; [done|]. rewrite (granted_iff _ _ _ _ _ _ _ fb) in Hg by done.
      destruct Hg as [->|[[_ ->]|(_ & k & _ & [[-> _]|[-> _]])]]; done. }
    pose proof (remember_spec e now os_user ws ctx p f v fb st1 Hfb Hna Hrej) as Hr.
    destruct (remember _ _ _ _ _ _ _ _ _) as [r st'].
    unfold ran, refused in *. rewrite Hw in Hr. destruct Hr as [[Hg Hr]|[Hg Hr]]; [left|right].
    + split; [|done]. right. split; [done|]. by exists v.
    + split; [|done]. by intros [?|(_ & ? & [= <-] & ?)].
Qed.

(** C6. A composition only restricts: it executes nothing its base would not
    (every non-denial is the base's own decision, with every plugin
    consenting), a base denial is final, and a plugin that raises or denies
    turns any other decision into a denial. *)
Theorem composite_only_restricts base plugins now ws ctx p st :
  let '(d, st') := evaluate (EComposite base plugins) now ws ctx p st in
  let '(db, stb) := evaluate base now ws ctx p st in
  (pd_decision d ≠ deny →
     d = db ∧ st' = stb ∧ derive_tier p ≠ "high" ∧
     Forall (λ pl : plugin, ∃ d', pl p ws ctx = Ok d' ∧ pd_decision d' ≠ deny) plugins) ∧
  (derive_tier p ≠ "high" → pd_decision db = deny → d = db) ∧
  (Exists (λ pl : plugin, ∀ d', pl p ws ctx = Ok d' → pd_decision d' = deny) plugins →
     pd_decision d = deny).
Proof.
  assert (∀ db, pd_decision db ≠ deny →
    let d := run_plugins plugins p ws ctx db in
    (pd_decision d ≠ deny → d = db ∧
       Forall (λ pl : plugin, ∃ d', pl p ws ctx = Ok d' ∧ pd_decision d' ≠ deny) plugins) ∧
    (Exists (λ pl : plugin, ∀ d', pl p ws ctx = Ok d' → pd_decision d' = deny) plugins →
       pd_decision d = deny)) as Hrun.
  { intros db Hdb. induction plugins as [|pl ps IH]; simpl; [split; [done|by inversion 1]|].
    destruct (pl p ws ctx) as [d'|exc] eqn:E; [|done].
    destruct (pd_decision d') eqn:Ed; [|done|].
    - destruct IH as [IH1 IH2]. split.
      + intros Hd. destruct (IH1 Hd). split; [done|]. constructor; [|done]. exists d'. by rewrite Ed.
      + intros [Hpl|?]%Exists_cons; [|by apply IH2]. rewrite (Hpl d') in Ed; done.
    - destruct IH as [IH1 IH2]. split.
      + intros Hd. destruct (IH1 Hd). split; [done|]. constructor; [|done]. exists d'. by rewrite Ed.
      + intros [Hpl|?]%Exists_cons; [|by apply IH2]. rewrite (Hpl d') in Ed; done. }
  cbn [evaluate]. destruct (evaluate base now ws ctx p st) as [db stb].
  destruct (decide (derive_tier p = "high")) as [Hh|Hh].
  { apply derive_tier_high in Hh as [Hh|Hh]; rewrite Hh; split_and!; try done;
      rewrite ?(proj2 (derive_tier_high p)) by auto; done. }
  assert (∀ (x y : PolicyDecision * state),
    match ap_side_effect p with se_payment | se_privileged => x | _ => y end = y) as ->.
  { intros x y. rewrite derive_tier_high in Hh. destruct (ap_side_effect p); naive_solver. }
  destruct (pd_decision db) eqn:Hdb; [|naive_solver|];
    (destruct (Hrun db) as [H1 H2]; [by rewrite Hdb|]); naive_solver.
Qed.
End theorems.

(** ** Learned rules and session grants *)
Section learned.
Context {St W : Type} `{RuleStoreLaws St}.
Notation state := (pstate St W).
Implicit Types (st : state) (p : ActionProposal) (e : engine).

(** The store of a state is well formed; its rules, as a map. *)
Definition store_ok (st : state) : Prop :=
  match pstore st with Some s => ps_inv s | None => True end.
Definition rules_of (st : state) : gmap string PermissionRule :=
  match pstore st with Some s => ps_abs s | None => ∅ end.

Lemma fetch_rule_spec k st : store_ok st → valid_key k = true →
  fetch_rule (Some k) st = rules_of st !! k.
Proof.
  unfold store_ok, rules_of, fetch_rule. intros Hi Hk. destruct (pstore st) as [s|]; [|done].
  rewrite law_get by done. simpl. unfold validate_key. by rewrite Hk.
Qed.

(** The decision depends on the state through the effect of the rule for the
    proposal's key and the engine's session grant only. *)
Lemma evaluate_ext e now now' ws ctx p st st' :
  effect <$> fetch_rule (derive_permission_key p) st
  = effect <$> fetch_rule (derive_permission_key p) st' →
  (∀ k, derive_permission_key p = Some k →
     session_granted (session_key e) k st = session_granted (session_key e) k st') →
  (evaluate e now ws ctx p st).1 = (evaluate e now' ws ctx p st').1.
Proof.
  intros Hr Hs. induction e as [lp|b IH ps]; simpl in *.
  - unfold local_evaluate. rewrite Hr.
    destruct (String.eqb _ "off"); [done|]. destruct (String.eqb _ "high"); [done|].
    destruct (derive_permission_key p) as [k|]; [|done]. rewrite (Hs k) by done.
    destruct (bool_decide _); [done|]. destruct (session_granted _ _ st'); [done|].
    by destruct (bool_decide _).
  - specialize (IH Hs). destruct (evaluate b now ws ctx p st) as [d s1], (evaluate b now' ws ctx p st') as [d' s2].
    simpl in IH. subst. destruct (ap_side_effect p), (pd_decision d'); done.
Qed.

Lemma key_not_high p k : derive_permission_key p = Some k → ap_side_effect p = se_write.
Proof. by intros (?&?&?&_&?&_)%derive_permission_key_inv. Qed.

Lemma evaluate_always_deny e now ws ctx p k st :
  engine_mode e ≠ "off" → derive_permission_key p = Some k →
  effect <$> fetch_rule (Some k) st = Some "always_deny"%string →
  evaluate e now ws ctx p st = (mkDecision deny "learned" "always_deny", count_deny now k st).
Proof.
  intros Hm Hk Hr. pose proof (key_not_high p k Hk) as Hw.
  induction e as [lp|b IH ps]; simpl in *.
  - unfold local_evaluate. rewrite (proj2 (String.eqb_neq _ _) Hm), Hk.
    unfold derive_tier. rewrite Hw. simpl. by rewrite Hr.
  - rewrite IH, Hw by done. done.
Qed.

Lemma count_deny_rules now k st : store_ok st → i64 now →
  store_ok (count_deny now k st) ∧
  ∀ k', effect <$> rules_of (count_deny now k st) !! k' = effect <$> rules_of st !! k'.
Proof.
  unfold store_ok, rules_of, count_deny. intros Hi Hn. destruct (pstore st) as [s|] eqn:Es.
  2:{ rewrite Es. done. }
  pose proof (law_deny now k s Hi Hn) as Hl.
  destruct (ps_increment_deny now k s) as [s'|] eqn:E; simpl; [|by rewrite Es].
  split; [by eapply law_deny_inv|]. intros k'. simpl in Hl.
  destruct (validate_key k); simpl in Hl; [|done]. injection Hl as ->.
  destruct (decide (k = k')) as [<-|]; [|by rewrite lookup_alter_ne].
  rewrite lookup_alter_eq. by destruct (ps_abs s !! k).
Qed.

(** C4. A rule [always_deny] is final: unless the engine is switched off,
    the action fails without running, whatever the session granted, the
    user answers or the plugins say; and the rule stays. *)
Theorem always_deny_final e now os_user ws ctx p k resume f st rule :
  engine_mode e ≠ "off" → store_ok st → i64 now →
  derive_permission_key p = Some k → rules_of st !! k = Some rule → effect rule = "always_deny" →
  let '(r, st') := apply_policy e now os_user ws ctx p resume f st in
  r = Ok (mkExec failed [] [] ["always_deny"]) ∧ world st' = world st ∧
  session_approved st' = session_approved st ∧ store_ok st' ∧
  ∀ k', effect <$> rules_of st' !! k' = effect <$> rules_of st !! k'.
Proof.
  intros Hm Hi Hn Hk Hr He. unfold apply_policy.
  rewrite (evaluate_always_deny e now ws ctx p k st); [|done|done|].
  2:{ rewrite fetch_rule_spec, Hr by (done || by eapply derived_key_valid). simpl. by rewrite He. }
  simpl. destruct (count_deny_frame now k st). destruct (count_deny_rules now k st); done.
Qed.

Lemma upsert_rules now r s s' : ps_inv s → i64 now → rule_i64 r → ps_upsert now r s = Ok s' →
  ps_inv s' ∧ effect <$> ps_abs s' !! permission_key r = Some (effect r) ∧
  ∀ k, k ≠ permission_key r → ps_abs s' !! k = ps_abs s !! k.
Proof.
  intros Hi Hn Hr Hu. pose proof (law_upsert now r s Hi Hn Hr) as Hl. rewrite Hu in Hl.
  split; [by eapply law_upsert_inv|]. simpl in Hl.
  destruct (validate_key (permission_key r)); simpl in Hl; [|done]. injection Hl as ->. split.
  - rewrite lookup_insert_eq. by destruct (ps_abs s !! permission_key r).
  - intros k Hk. by rewrite lookup_insert_ne.
Qed.

(** A lawful store accepts a rule whose key is valid. *)
Lemma upsert_accepts now r s : ps_inv s → i64 now → rule_i64 r →
  valid_key (permission_key r) = true → ∃ s', ps_upsert now r s = Ok s'.
Proof.
  intros Hi Hn Hr Hk. pose proof (law_upsert now r s Hi Hn Hr) as Hl. simpl in Hl.
  unfold validate_key in Hl. rewrite Hk in Hl. destruct (ps_upsert now r s); [eauto|done].
Qed.

(** C15. A remembered answer takes effect and stays in its scope: once the
    user has answered [always_deny] (or [always_approve]) to a memory write,
    the rule for its key is stored; every later proposal with that key is
    denied (or allowed, short of a plugin) without a question, and the
    decision on every other proposal is what it was. *)
Theorem remembered_rule_scope lp now os_user ws ctx p k answer f st eff :
  answer = VStr eff → eff = "always_deny" ∨ eff = "always_approve" →
  lp_mode lp ≠ "off" → store_ok st → i64 now → is_Some (pstore st) →
  derive_permission_key p = Some k →
  pd_decision (evaluate (ELocal lp) now ws ctx p st).1 = require_approval →
  let st' := (apply_policy (ELocal lp) now os_user ws ctx p (Some answer) f st).2 in
  store_ok st' ∧ effect <$> rules_of st' !! k = Some eff ∧
  (∀ lp' now' ws' ctx' p', lp_mode lp' ≠ "off" → lp_session_key lp' = None →
     derive_permission_key p' = Some k →
     pd_decision (evaluate (ELocal lp') now' ws' ctx' p' st').1
     = if String.eqb eff "always_deny" then deny else allow) ∧
  (∀ e' now' ws' ctx' p', derive_permission_key p' ≠ Some k →
     (evaluate e' now' ws' ctx' p' st').1 = (evaluate e' now' ws' ctx' p' st).1).
Proof.
  intros -> Heff Hm Hi Hn [s Hs] Hk Hd. pose proof (key_not_high p k Hk) as Hw.
  assert (evaluate (ELocal lp) now ws ctx p st
          = ((evaluate (ELocal lp) now ws ctx p st).1, st)) as He.
  { revert Hd. simpl. unfold local_evaluate. repeat case_match; done. }
  intros st'.
  assert (∃ s', ps_upsert now (mkRule k eff (derive_tier p) 0 0 0 0 ws
            (Some (taught_by_of os_user ctx))) s = Ok s' ∧
            pstore st' = Some s' ∧ session_approved st' = session_approved st)
    as (s' & Hu & Hs' & Hse).
  { destruct (upsert_accepts now (mkRule k eff (derive_tier p) 0 0 0 0 ws
      (Some (taught_by_of os_user ctx))) s) as [s' Hu].
    - unfold store_ok in Hi. by rewrite Hs in Hi.
    - done.
    - by repeat split.
    - by eapply derived_key_valid.
    - exists s'. split; [done|]. subst st'. unfold apply_policy. rewrite He, Hd.
      assert (normalize_policy_feedback (VStr eff) = Ok eff) as -> by (by destruct Heff as [->| ->]).
      unfold remember. assert (String.eqb (derive_tier p) "high" = false) as ->
        by (unfold derive_tier; by rewrite Hw).
      rewrite Hk, Hs. destruct Heff as [->| ->]; simpl; rewrite Hu; simpl; [done|].
      unfold execute_in. by destruct (f p (world _)). }
  assert (ps_inv s) as Hsi by (unfold store_ok in Hi; by rewrite Hs in Hi).
  apply upsert_rules in Hu as (Hi' & Hek & Hne); [|done|done|by repeat split].
  assert (store_ok st') as Hok by (unfold store_ok; by rewrite Hs').
  assert (rules_of st' = ps_abs s') as Hru by (unfold rules_of; by rewrite Hs').
  simpl in Hek, Hne. rewrite Hru. split_and!; [done|done| |].
  - intros lp' now' ws' ctx' p' Hm' Hsk Hk'. simpl. unfold local_evaluate.
    rewrite (proj2 (String.eqb_neq _ _) Hm'), Hk', fetch_rule_spec, Hru, Hek, Hsk
      by (done || by eapply derived_key_valid).
    unfold derive_tier. rewrite (key_not_high p' k Hk'). by destruct Heff as [->| ->].
  - intros e' now' ws' ctx' p' Hk'. apply evaluate_ext; [|by intros; unfold session_granted; rewrite Hse].
    destruct (derive_permission_key p') as [k'|] eqn:Ek'.
    + rewrite !fetch_rule_spec by (done || by eapply derived_key_valid).
      rewrite Hru, Hne by congruence. unfold rules_of. by rewrite Hs.
    + unfold fetch_rule. by destruct (pstore st'), (pstore st).
Qed.
End learned.

(** ** Session grants *)
Section sessions.
Context {St W : Type} `{PermissionRuleStore St}.
Notation state := (pstate St W).

Lemma session_granted_approve sk k sk' k' (st : state) :
  session_granted sk' k' (approve_session sk k st)
  = bool_decide (sk' = Some sk ∧ k' = k) || session_granted sk' k' st.
Proof.
  unfold session_granted, approve_session. destruct sk' as [s|]; cbn [session_approved].
  2:{ by rewrite bool_decide_eq_false_2 by naive_solver. }
  destruct (decide (sk = s)) as [<-|Hne].
  - rewrite lookup_insert_eq. simpl.
    destruct (decide (k' = k)) as [->|Hk].
    + rewrite (bool_decide_eq_true_2 (Some sk = Some sk ∧ _)) by done.
      apply bool_decide_eq_true. set_solver.
    + rewrite (bool_decide_eq_false_2 (Some sk = Some sk ∧ _)) by naive_solver.
      simpl. apply bool_decide_ext. set_solver.
  - rewrite lookup_insert_ne by done.
    by rewrite (bool_decide_eq_false_2 (Some s = Some sk ∧ _)) by naive_solver.
Qed.

(** A session grant is scoped: after [approve_session sk k], an engine of
    session [sk] allows a proposal with key [k] unless a rule denies it; the
    decisions of any other session, and on any other key, are unchanged; and
    [clear_session] takes the grant back for every engine of the session. *)
Theorem session_grant_scope sk k (st : state) :
  (∀ lp now ws ctx p, lp_session_key lp = Some sk → derive_permission_key p = Some k →
     effect <$> fetch_rule (Some k) st ≠ Some "always_deny"%string →
     pd_decision (evaluate (ELocal lp) now ws ctx p (approve_session sk k st)).1 = allow) ∧
  (∀ e now ws ctx p, session_key e ≠ Some sk ∨ derive_permission_key p ≠ Some k →
     (evaluate e now ws ctx p (approve_session sk k st)).1 = (evaluate e now ws ctx p st).1) ∧
  (∀ k', session_granted (Some sk) k' (clear_session sk (approve_session sk k st)) = false).
Proof.
  split_and!.
  - intros lp now ws ctx p Hsk Hk Hr. simpl. unfold local_evaluate.
    destruct (String.eqb (lp_mode lp) "off"); [done|].
    unfold derive_tier. rewrite (key_not_high p k Hk). simpl. rewrite Hk.
    unfold fetch_rule in *. simpl in *.
    rewrite bool_decide_eq_false_2 by done.
    by rewrite Hsk, session_granted_approve, bool_decide_eq_true_2.
  - intros e now ws ctx p Hne. apply evaluate_ext; [done|]. intros k' Hk'.
    rewrite session_granted_approve, bool_decide_eq_false_2; [done|]. naive_solver.
  - intros k'. unfold session_granted, clear_session. simpl. by rewrite lookup_delete_eq.
Qed.
End sessions.

(** ** Witnesses *)
Definition demo_engine : LocalPolicy := LocalPolicy_init [] "manual" (Some "thread-1"%string).
Definition demo_state (s : Sqlite.t) : pstate Sqlite.t nat := mkP ∅ (Some s) 0%nat.
Definition demo_execute (p : ActionProposal) (w : nat) : res ExecutionResult * nat :=
  (Ok (mkExec completed [] [] []), S w).
Definition demo_deny : PermissionRule :=
  mkRule "memory_write:write:vault:append:AI/x.md" "always_deny" "low" 0 0 5 5 None None.

Lemma high_tier_never_executes_witness :
  apply_policy (ELocal demo_engine) 9 "op" None VNone
    (mkProposal "pay" [] "" se_payment None) (Some (VStr "approved")) demo_execute (demo_state [])
  = (Ok (mkExec failed [] [] ["Default taxonomy for payment"]), demo_state []).
Proof. apply high_tier_never_executes; [reflexivity|left; reflexivity]. Defined.

Lemma always_deny_final_witness :
  (apply_policy (ELocal demo_engine) 9 "op" None VNone (note_write "vault" "append" "AI/x.md")
    (Some (VStr "approved")) demo_execute
    (approve_session "thread-1" (permission_key demo_deny) (demo_state [demo_deny]))).1
  = Ok (mkExec failed [] [] ["always_deny"]).
Proof.
  pose proof (always_deny_final (ELocal demo_engine) 9 "op" None VNone
    (note_write "vault" "append" "AI/x.md") (permission_key demo_deny) (Some (VStr "approved"))
    demo_execute (approve_session "thread-1" (permission_key demo_deny) (demo_state [demo_deny]))
    demo_deny) as T.
  destruct (apply_policy _ _ _ _ _ _ _ _ _) as [r st']. apply T; try reflexivity.
  - discriminate.
  - apply NoDup_singleton.
  - split; vm_compute; congruence.
Defined.

Lemma remembered_rule_scope_witness :
  let st := demo_state [] in
  let p := note_write "vault" "append" "Notes/x.md" in
  let st' := (apply_policy (ELocal demo_engine) 9 "op" None VNone p (Some (VStr "always_deny"))
                demo_execute st).2 in
  pd_decision (evaluate (ELocal (LocalPolicy_init [] "smart" None)) 12 None VNone p st').1 = deny.
Proof.
  intros st p st'.
  pose proof (remembered_rule_scope demo_engine 9 "op" None VNone p
    "memory_write:write:vault:append:Notes/x.md" (VStr "always_deny") demo_execute st
    "always_deny") as T.
  apply T; try reflexivity.
  - by left.
  - discriminate.
  - apply NoDup_nil_2.
  - split; vm_compute; congruence.
  - by eexists.
  - discriminate.
Defined.
