(* ===== verification/MemoryGate.v ===== *)
(** * Gated memory writes (agent_os/memory_gate.py)

    [gated_write] sends a memory write through the policy path and reports
    what became of it; [evaluate_write_policy] asks the policy only. *)
From S2P Require Export Policy.

(** A [WritableMemory] connector: its name and supported modes when it has
    those attributes, and [write_note] on the world [W]. *)
Record connector (W : Type) := mkConnector {
  mc_name : option string;
  mc_supported_write_modes : option (list string);
  mc_write_note : string → string → pydict → string → W → res MemoryWriteResult * W }.
Arguments mkConnector {_} _ _ _.
Arguments mc_name {_} _.
Arguments mc_supported_write_modes {_} _.
Arguments mc_write_note {_} _ _ _ _ _ _.

Section gate.
Context {St W : Type} `{PermissionRuleStore St}.

(** [engine or current_policy_engine() or LocalPolicy(store=..., mode=...,
    session_key=...)]; the state's store is the store of the result. *)
Definition resolve_engine (explicit current : option engine) (policy_mode : string)
    (sk : option string) : engine :=
  match explicit with
  | Some e => e
  | None => match current with Some e => e | None => ELocal (LocalPolicy_init [] policy_mode sk) end
  end.

Definition write_action (name ref mode : string) : ActionProposal :=
  mkProposal "memory.write" [("ref", VStr ref); ("mode", VStr mode)] "" se_write (Some name).

Definition evaluate_write_policy {W'} (e : engine) (now : Z) (ref mode name : string)
    (st : pstate St W') : string * pstate St W' :=
  let '(d, st') := evaluate e now None VNone (write_action name ref mode) st in
  (match pd_decision d with allow => "auto" | _ => "gate" end%string, st').

(** [_execute], with the captured [write_result] in the state. *)
Definition gate_execute (c : connector W) (mp : MemoryWriteProposal) (content : string)
    (fm : pydict) (p : ActionProposal) (w : W * option MemoryWriteResult)
    : res ExecutionResult * (W * option MemoryWriteResult) :=
  match mc_write_note c (mp_ref mp) content fm (mp_mode mp) w.1 with
  | (Ok wr, w') => (Ok (mkExec completed [("result", write_result_val wr)] [] []), (w', Some wr))
  | (Raise e, w') => (Raise e, (w', w.2))
  end.

Definition blank (s : string) : bool := sempty (strip s).

Definition gate_error (er : ExecutionResult) : string :=
  let error := sjoin "; " (List.filter (λ s, negb (blank s)) (er_errors er)) in
  if truthy error then error
  else "Memory write " +:+ exec_status_str (er_status er) +:+ " before it reached the connector.".

Definition gated_write (c : connector W) (mp : MemoryWriteProposal) (content : string)
    (fm : pydict) (e : engine) (now : Z) (os_user : string) (resume : option pyval)
    (st : pstate St (W * option MemoryWriteResult))
    : res MemoryWriteResult * pstate St (W * option MemoryWriteResult) :=
  if negb (mem_str (mp_mode mp) MEMORY_WRITE_MODES) then
    (Raise (ValueError ("Unsupported memory write mode: " +:+ repr_str (mp_mode mp))), st)
  else if negb (mem_str (mp_mode mp) (default MEMORY_WRITE_MODES (mc_supported_write_modes c))) then
    (Ok (mkWriteResult (mp_ref mp) (mp_mode mp) None false "failed"
           (Some ("Memory connector '" +:+ default "unknown" (mc_name c) +:+
                  "' does not safely support mode '" +:+ mp_mode mp +:+ "'."))), st)
  else
    let action := write_action (default (mp_connector mp) (mc_name c)) (mp_ref mp) (mp_mode mp) in
    let st0 := set_world ((world st).1, None) st in
    match apply_policy e now os_user None VNone action resume (gate_execute c mp content fm) st0 with
    | (Raise exc, st') => (Raise exc, st')
    | (Ok er, st') =>
        match er_status er, (world st').2 with
        | completed, Some wr => (Ok wr, st')
        | _, _ =>
            (Ok (mkWriteResult (mp_ref mp) (mp_mode mp) None false (exec_status_str (er_status er))
                   (Some (gate_error er))), st')
        end
    end.

(** A gated write that the connector supports. *)
Definition supported (c : connector W) (mp : MemoryWriteProposal) : bool :=
  mem_str (mp_mode mp) MEMORY_WRITE_MODES
  && mem_str (mp_mode mp) (default MEMORY_WRITE_MODES (mc_supported_write_modes c)).

Lemma gate_error_truthy er : gate_error er ≠ "".
Proof. unfold gate_error. by destruct (sjoin _ _); [destruct (er_status er)|]. Qed.

Lemma gated_write_cases c mp content fm e now os_user resume st :
  let st0 := set_world ((world st).1, None) st in
  let p := write_action (default (mp_connector mp) (mc_name c)) (mp_ref mp) (mp_mode mp) in
  let '(r, st') := gated_write c mp content fm e now os_user resume st in
  if bool_decide (supported c mp = true) then
    (authorised e now os_user None VNone p resume st0 ∧
     (r, (world st').1) = mc_write_note c (mp_ref mp) content fm (mp_mode mp) (world st).1) ∨
    (¬ authorised e now os_user None VNone p resume st0 ∧ (world st').1 = (world st).1 ∧
     ((∃ msg, r = Raise (GraphInterrupt msg)) ∨
      ∃ status error, r = Ok (mkWriteResult (mp_ref mp) (mp_mode mp) None false status (Some error))
        ∧ (status = "failed" ∨ status = "cancelled") ∧ error ≠ ""))
  else st' = st ∧
    ((∃ msg, r = Raise (ValueError msg)) ∨
     ∃ error, r = Ok (mkWriteResult (mp_ref mp) (mp_mode mp) None false "failed" (Some error))).
Proof.
  intros st0 p. unfold gated_write, supported.
  destruct (mem_str (mp_mode mp) MEMORY_WRITE_MODES); simpl; [|eauto].
  destruct (mem_str (mp_mode mp) _); simpl; [|eauto]. fold st0. fold p.
  pose proof (apply_policy_spec e now os_user None VNone p resume (gate_execute c mp content fm) st0)
    as Hs.
  destruct (apply_policy _ _ _ _ _ _ _ _ _) as [[er|exc] st'].
  - destruct Hs as [[Ha Hr]|[Ha [Hw Hr]]].
    + unfold ran, gate_execute in Hr. simpl in Hr.
      destruct (mc_write_note _ _ _ _ _ _) as [[wr|exc] w'] eqn:Ew; [|by simplify_eq].
      injection Hr as -> Hw. rewrite Hw. simpl. left. by rewrite Hw.
    + destruct Hr as [[msg [=]]|(er' & [= <-] & Hst & _)].
      rewrite Hw. simpl. destruct (er_status er) eqn:Est; [naive_solver|..];
        right; (split; [done|]); (split; [by rewrite Hw|]); right;
        eexists _, _; (split; [done|]); (split; [naive_solver|apply gate_error_truthy]).
  - destruct Hs as [[Ha Hr]|[Ha [Hw Hr]]].
    + unfold ran, gate_execute in Hr. simpl in Hr.
      destruct (mc_write_note _ _ _ _ _ _) as [[wr|exc'] w'] eqn:Ew; [by simplify_eq|].
      injection Hr as -> Hw. left. by rewrite Hw.
    + right. rewrite Hw. split; [done|]. split; [done|].
      destruct Hr as [[msg [= ->]]|(? & [=] & _)]. left. by exists msg.
Qed.

(** C25. A gated write reaches the connector exactly when the mode is
    supported and the policy authorises the write under the name of the
    connector that executes it; then the caller gets the connector's own
    result or exception.  Otherwise the connector is not called, and the
    caller gets the suspension, the rejected mode, or an uncommitted result
    (failed or cancelled) with a non-empty error. *)
Theorem gated_write_spec c mp content fm e now os_user resume st :
  let st0 := set_world ((world st).1, None) st in
  let p := write_action (default (mp_connector mp) (mc_name c)) (mp_ref mp) (mp_mode mp) in
  let '(r, st') := gated_write c mp content fm e now os_user resume st in
  if bool_decide (supported c mp = true) then
    (authorised e now os_user None VNone p resume st0 ∧
     (r, (world st').1) = mc_write_note c (mp_ref mp) content fm (mp_mode mp) (world st).1) ∨
    (¬ authorised e now os_user None VNone p resume st0 ∧ (world st').1 = (world st).1 ∧
     ((∃ msg, r = Raise (GraphInterrupt msg)) ∨
      ∃ status error, r = Ok (mkWriteResult (mp_ref mp) (mp_mode mp) None false status (Some error))
        ∧ (status = "failed" ∨ status = "cancelled") ∧ error ≠ ""))
  else st' = st ∧
    ((∃ msg, r = Raise (ValueError msg)) ∨
     ∃ error, r = Ok (mkWriteResult (mp_ref mp) (mp_mode mp) None false "failed" (Some error))).
Proof. apply gated_write_cases. Qed.

(** The write policy answers [auto] exactly for the writes the engine
    allows outright: such a write reaches the connector, once, without a
    question to the user. *)
Theorem auto_write_not_asked c mp content fm e now os_user resume st :
  let name := default (mp_connector mp) (mc_name c) in
  supported c mp = true →
  (evaluate_write_policy e now (mp_ref mp) (mp_mode mp) name
     (set_world ((world st).1, None) st)).1 = "auto" →
  let '(r, st') := gated_write c mp content fm e now os_user resume st in
  (r, (world st').1) = mc_write_note c (mp_ref mp) content fm (mp_mode mp) (world st).1.
Proof.
  intros name Hs Ha. pose proof (gated_write_cases c mp content fm e now os_user resume st) as Hg.
  destruct (gated_write _ _ _ _ _ _ _ _ _) as [r st']. rewrite Hs in Hg. simpl in Hg.
  destruct Hg as [[_ Hg]|[Hn _]]; [done|]. exfalso. apply Hn. unfold authorised.
  unfold evaluate_write_policy in Ha. fold name.
  destruct (evaluate _ _ _ _ _ _) as [d st1]. left. simpl in Ha. by destruct (pd_decision d).
Qed.
End gate.

Definition demo_connector : connector (list string) :=
  mkConnector (Some "vault"%string) None
    (λ ref content fm mode w, (Ok (mkWriteResult ref mode (Some 2) true "completed" None), content :: w)).

Lemma auto_write_not_asked_witness :
  let st : pstate Sqlite.t _ := mkP ∅ None ([], None) in
  let '(r, st') := gated_write demo_connector (mkMemProposal "x" "AI/Logs/today.md" "append" "" "write")
    "hi" [] (ELocal demo_engine) 9 "op" None st in
  (r, (world st').1)
  = mc_write_note demo_connector "AI/Logs/today.md" "hi" [] "append" [].
Proof.
  intros st. apply (auto_write_not_asked demo_connector
    (mkMemProposal "x" "AI/Logs/today.md" "append" "" "write") "hi" [] (ELocal demo_engine) 9 "op" None st);
    reflexivity.
Defined.
