(* ===== verification/Vault.v ===== *)
(** * The markdown vault (agent_os/connectors.py)

    Frontmatter, titles and wikilinks of a note; the [MarkdownVaultConnector]
    on the filesystem of Paths.v: [write_note], [read_note], [list_notes]; and
    the connector behind the memory gate.  [rglob] is a parameter: the listing
    of the files named [*.md] below a directory. *)
From S2P Require Import Json PyRe.
From S2P Require Export Sandbox MemoryGate.

(** ** Frontmatter *)
Definition has_newline (s : string) : bool := sexists (λ c, Ascii.eqb c newline) s.

(** [re.match(r"^---\n(.*?)\n---", content, re.DOTALL)]: the group. *)
Definition frontmatter_block (content : string) : option string :=
  if startswith ("---" +:+ nl) content then fst <$> split_once (nl +:+ "---") (sdrop 4 content) else None.

Definition parse_line (d : pydict) (line : string) : pydict :=
  match split_once ":" line with
  | Some (k, v) => dset (strip k) (VStr (strip v)) d
  | None => d
  end.
Definition parse_frontmatter (content : string) : pydict :=
  match frontmatter_block content with
  | None => []
  | Some fm => fold_left parse_line (split_char newline fm) []
  end.

Definition frontmatter_line (p : string * pyval) : string := p.1 +:+ ": " +:+ py_str p.2.
Definition serialize_markdown_with_frontmatter (content : string) (frontmatter : pydict) : string :=
  match frontmatter with
  | [] => content
  | _ => sjoin nl (["---"%string] ++ map frontmatter_line frontmatter ++ ["---"; ""; content]%string)
  end.

(** A frontmatter that its text determines: keys without a colon that do not
    open with the closing fence, keys and values on one line, and keys that
    stay apart when they are stripped. *)
Definition no_char (c : ascii) (s : string) : bool := sforall (λ d, negb (Ascii.eqb d c)) s.
Definition fm_entry_ok (p : string * pyval) : bool :=
  no_char newline p.1 && no_char ":" p.1 && negb (startswith "---" p.1) && no_char newline (py_str p.2).
Definition fm_ok (fm : pydict) : Prop :=
  fm ≠ [] ∧ Forall (λ p, fm_entry_ok p = true) fm ∧ NoDup (map (λ p, strip p.1) fm).

(** ** Titles and links *)

(** [re.finditer] of a multi-line pattern that starts with [^]: the start and
    the end of each match with its groups. *)
Fixpoint finditer_bol (r : re) (at_start : bool) (skip off : nat) (s : string) : list (nat * nat * groups) :=
  match s with
  | EmptyString => []
  | String c s' =>
      let next := finditer_bol r (Ascii.eqb c newline) in
      match skip with
      | S k => next k (S off) s'
      | O =>
          match (if at_start then m r None s [] (λ _ t g, Some (String.length s - String.length t, g)%nat) else None) with
          | Some (n, g) => (off, off + n, g)%nat :: next (pred n) (S off) s'
          | None => next O (S off) s'
          end
      end
  end.

Definition dot_re : re := Cls (λ c, negb (Ascii.eqb c newline)).
(** [^#\s+(.+)$]: a greedy [.+] stops at the end of the line. *)
Definition H1_RE : re := Seqs [Lit "#"; Plus (Cls is_space); Grp 1 (Plus dot_re)].

Definition h1_title (content : string) : pyval :=
  match finditer_bol H1_RE true 0 0 content with
  | (_, _, g) :: _ => VStr (strip (default "" (group 1 g)))
  | [] => VNone
  end.
(** [fm.get("title")], else the first heading. *)
Definition note_title (content : string) : pyval :=
  match dget "title" (parse_frontmatter content) with
  | Some t => if py_truthy t then t else h1_title content
  | None => h1_title content
  end.

(** [re.findall(r"\[\[(.*?)\]\]", content)] *)
Fixpoint findall_links (skip : nat) (s : string) : list string :=
  match s with
  | EmptyString => []
  | String _ s' =>
      match skip with
      | S k => findall_links k s'
      | O =>
          match (if startswith "[[" s then split_once "]]" (sdrop 2 s) else None) with
          | Some (a, _) => if has_newline a then findall_links O s' else a :: findall_links (String.length a + 3) s'
          | None => findall_links O s'
          end
      end
  end.
Definition wikilinks (content : string) : list string := findall_links 0 content.

(** ** The connector *)
Definition vault_write_modes : list string := ["append"; "create"; "overwrite"].

Definition describe_write_side_effect (ref mode : string) : string :=
  if String.eqb mode "append" then "append to note '" +:+ ref +:+ "' (creates if missing)"
  else if String.eqb mode "overwrite" then "OVERWRITE note '" +:+ ref +:+ "' - existing content lost"
  else "create note '" +:+ ref +:+ "'".

(** [root / ref], with [.md] for a name that does not end in it. *)
Definition note_path (root : path) (ref : string) : res path :=
  let p := join_path root (parse_path ref) in
  if endswith ".md" (path_name p) then Ok p else with_suffix ".md" p.

Definition is_indexable_note_path (p root : path) : bool :=
  match relative_parts root p with
  | None => false
  | Some rel =>
      forallb (λ part, negb (startswith "." part)) rel
      && String.eqb (lower (stem_suffix (path_name p)).2) ".md"
  end.

Section vault.
Context (fuel : nat) (root : path).
Implicit Types (f : fs).

Definition traversal (ref : string) : exn := ValueError ("Path traversal detected: " +:+ ref).

(** The resolved path of a note, checked against the root. *)
Definition resolve_note (ref : string) f : res path :=
  p ← note_path root ref;
  match realpath fuel f p with
  | Raise (ValueError _) => Raise (traversal ref)
  | Raise exc => Raise exc
  | Ok q => if is_relative_to root q then Ok q else Raise (traversal ref)
  end.

Definition final_content (content : string) (frontmatter : pydict) (mode : string) : string :=
  if mem_str mode ["create"; "overwrite"] then serialize_markdown_with_frontmatter content frontmatter
  else content.

(** [path.exists() and path.stat().st_size > 0] *)
Definition file_exists f (q : path) : bool :=
  match stat fuel f q with
  | Ok (NFile old _) => truthy old
  | Ok _ => true
  | Raise _ => false
  end.

Definition slength (s : string) : Z := Z.of_nat (String.length s).

Definition write_note (now : Z) (ref content : string) (frontmatter : pydict) (mode : string) f
    : res MemoryWriteResult * fs :=
  match resolve_note ref f with
  | Raise exc => (Raise exc, f)
  | Ok q =>
      match mkdirs fuel (path_parent q) f with
      | Raise exc => (Raise exc, f)
      | Ok f1 =>
          if String.eqb mode "create" && exists_ fuel f1 q then
            (Raise (OtherError ("FileExistsError: Note already exists: " +:+ ref)), f1)
          else
            let text0 := final_content content frontmatter mode in
            let '(text, written) :=
              if String.eqb mode "append" then
                let text := if file_exists f1 q then nl +:+ text0 else text0 in
                (text, append_text fuel now f1 q text)
              else (text0, write_text fuel now f1 q text0) in
            match written with
            | Raise exc => (Raise exc, f1)
            | Ok f2 =>
                (Ok (mkWriteResult (as_posix (default [] (relative_parts root q))) mode (Some (slength text)) true
                       "completed" None), f2)
            end
      end
  end.

(** [read_note]: the fields [content], [frontmatter] and [links]. *)
Definition read_note (ref : string) f : res (string * pydict * list string) :=
  p ← note_path root ref;
  match read_text fuel f p with
  | Ok content => Ok (content, parse_frontmatter content, wikilinks content)
  | Raise (OtherError msg) =>
      if String.eqb msg "FileNotFoundError" then Raise (ValueError ("Note not found: " +:+ ref))
      else Raise (OtherError msg)
  | Raise exc => Raise exc
  end.

(** [list_notes]: reference and title. *)
Definition list_notes (rglob : fs → path → list path) f : list (string * pyval) :=
  map (λ p, (as_posix (default [] (relative_parts root p)),
             match read_text fuel f p with Ok content => note_title content | Raise _ => VNone end))
    (List.filter (λ p, is_indexable_note_path p root) (rglob f root)).

Definition vault_connector (now : Z) : connector fs :=
  mkConnector (Some "markdown_vault"%string) (Some vault_write_modes)
    (λ ref content fm mode f, write_note now ref content fm mode f).
End vault.

(** ** Frontmatter read back *)

Lemma split_once_char c k r : no_char c k = true →
  split_once (String c "") (k +:+ String c r) = Some (k, r).
Proof.
  unfold no_char. induction k as [|d k IH]; simpl.
  - intros _. rewrite Ascii.eqb_refl. by destruct r.
  - intros [H1 H2]%andb_true_iff. apply negb_true_iff in H1. rewrite Ascii.eqb_sym, H1. simpl. by rewrite IH.
Qed.

Lemma split_char_line c l r : no_char c l = true → split_char c (l +:+ String c r) = l :: split_char c r.
Proof.
  unfold no_char. induction l as [|d l IH]; simpl; [by rewrite Ascii.eqb_refl|].
  intros [H1 H2]%andb_true_iff. apply negb_true_iff in H1. by rewrite H1, IH.
Qed.
Lemma split_char_last c l : no_char c l = true → split_char c l = [l].
Proof.
  unfold no_char. induction l as [|d l IH]; simpl; [done|].
  intros [H1 H2]%andb_true_iff. apply negb_true_iff in H1. by rewrite H1, IH.
Qed.
Lemma split_char_join c ls : ls ≠ [] → Forall (λ l, no_char c l = true) ls →
  split_char c (sjoin (String c "") ls) = ls.
Proof.
  intros Hne H. induction H as [|l ls Hl H IH]; [done|]. destruct ls as [|l' ls]; [by apply split_char_last|].
  change (sjoin (String c "") (l :: l' :: ls)) with (l +:+ String c (sjoin (String c "") (l' :: ls))).
  by rewrite split_char_line, IH.
Qed.

Lemma startswith_dashes k r : startswith "---" (k +:+ String ":" r) = startswith "---" k.
Proof. destruct k as [|c1 [|c2 [|c3 k]]]; cbn; rewrite ?andb_false_r, ?andb_true_r; try done. Qed.

Lemma split_block_line l r : no_char newline l = true →
  split_once (nl +:+ "---") (l +:+ r)
  = match split_once (nl +:+ "---") r with Some (a, b) => Some (l +:+ a, b) | None => None end.
Proof.
  unfold no_char. induction l as [|c l IH]; cbn [sforall String.append].
  - intros _. by destruct (split_once _ r) as [[]|].
  - intros [H1 H2]%andb_true_iff. apply negb_true_iff in H1. rewrite Ascii.eqb_sym in H1.
    cbn [split_once]. change (nl +:+ "---") with (String newline "---"). cbn [startswith]. rewrite H1. cbn [andb].
    change (String newline "---") with (nl +:+ "---"). rewrite IH by done. by destruct (split_once _ r) as [[]|].
Qed.

Definition fm_line_ok (l : string) : Prop := no_char newline l = true ∧ ∀ r, startswith "---" (l +:+ r) = false.

Lemma split_block ls l rest : Forall fm_line_ok ls → no_char newline l = true →
  split_once (nl +:+ "---") (sjoin nl (l :: ls) +:+ nl +:+ "---" +:+ rest) = Some (sjoin nl (l :: ls), rest).
Proof.
  intros H. revert l. induction H as [|l' ls [Hl' Hd] H IH]; intros l Hl.
  - cbn [sjoin]. rewrite split_block_line by done.
    assert (split_once (nl +:+ "---") (nl +:+ "---" +:+ rest) = Some ("", rest)) as ->.
    { unfold nl. simpl. by destruct rest. }
    by rewrite sapp_nil_r.
  - rewrite sjoin_cons, !sapp_assoc, split_block_line by done.
    specialize (IH l' Hl'). set (t := sjoin nl (l' :: ls) +:+ nl +:+ "---" +:+ rest) in *.
    assert (startswith "---" t = false) as Ht.
    { unfold t. destruct ls; [apply Hd|]. rewrite sjoin_cons, !sapp_assoc. apply Hd. }
    assert (split_once (nl +:+ "---") (nl +:+ t) = Some (nl +:+ sjoin nl (l' :: ls), rest)) as ->; [|done].
    change (nl +:+ t) with (String newline t). cbn [split_once].
    change (startswith (nl +:+ "---") (String newline t)) with (startswith "---" t). rewrite Ht.
    change (split_once (nl +:+ "---") t) with (split_once (nl +:+ "---") t). by rewrite IH.
Qed.

Lemma no_char_app c a b : no_char c (a +:+ b) = no_char c a && no_char c b.
Proof. apply sforall_app. Qed.

Lemma frontmatter_line_ok p : fm_entry_ok p = true → fm_line_ok (frontmatter_line p).
Proof.
  unfold fm_entry_ok, frontmatter_line. intros H. bool_prop. split.
  - rewrite !no_char_app. by repeat (apply andb_true_iff; split).
  - intros r. rewrite !sapp_assoc. by change (": " +:+ py_str p.2 +:+ r) with (String ":" (" " +:+ py_str p.2 +:+ r)); rewrite startswith_dashes.
Qed.
Lemma parse_frontmatter_line d p : fm_entry_ok p = true →
  parse_line d (frontmatter_line p) = dset (strip p.1) (VStr (strip (py_str p.2))) d.
Proof.
  unfold fm_entry_ok, frontmatter_line, parse_line. intros H. bool_prop.
  change (": " +:+ py_str p.2) with (String ":" (" " +:+ py_str p.2)). by rewrite split_once_char.
Qed.
Lemma fold_parse_lines fm : Forall (λ p, fm_entry_ok p = true) fm → ∀ acc,
  NoDup (dkeys acc ++ map (λ p, strip p.1) fm) →
  fold_left parse_line (map frontmatter_line fm) acc
  = acc ++ map (λ p, (strip p.1, VStr (strip (py_str p.2)))) fm.
Proof.
  induction 1 as [|p fm Hp H IH]; intros acc Hnd; simpl; [by rewrite app_nil_r|].
  rewrite parse_frontmatter_line by done. rewrite dset_append.
  - rewrite IH; [by rewrite <-app_assoc|]. unfold dkeys in *. rewrite fmap_app, <-app_assoc. exact Hnd.
  - simpl in Hnd. apply NoDup_app in Hnd as (_ & Hn & _). intros Hin. apply (Hn _ Hin). by left.
Qed.

Lemma parse_serialize content fm : fm_ok fm →
  parse_frontmatter (serialize_markdown_with_frontmatter content fm)
  = map (λ p, (strip p.1, VStr (strip (py_str p.2)))) fm.
Proof.
  intros (Hne & Hok & Hnd). destruct fm as [|p fm]; [done|]. unfold parse_frontmatter, frontmatter_block.
  unfold serialize_markdown_with_frontmatter. set (ls := map frontmatter_line (p :: fm)).
  assert (Forall fm_line_ok ls) as Hls.
  { unfold ls. apply Forall_map. eapply Forall_impl; [exact Hok|]. intros x Hx. by apply frontmatter_line_ok. }
  assert (sjoin nl (["---"] ++ ls ++ ["---"; ""; content])
          = "---" +:+ nl +:+ sjoin nl ls +:+ nl +:+ "---" +:+ nl +:+ nl +:+ content) as ->.
  { assert (∀ l, l ≠ [] → sjoin nl (l ++ ["---"; ""; content]) = sjoin nl l +:+ nl +:+ "---" +:+ nl +:+ nl +:+ content) as Hj.
    { intros l Hl. induction l as [|x l IH]; [done|]. destruct l as [|y l]; [done|].
      cbn [app]. rewrite !sjoin_cons, !sapp_assoc. by rewrite <-IH. }
    unfold ls. cbn [map app]. rewrite sjoin_cons. rewrite <-Hj by done. done. }
  rewrite <-(sapp_assoc "---" nl), startswith_app. change 4%nat with (String.length ("---" +:+ nl)). rewrite sdrop_app.
  unfold ls in *. cbn [map] in *. apply Forall_cons in Hls as [[Hl _] Hls].
  rewrite split_block by done. cbn [fmap option_fmap option_map fst].
  change (frontmatter_line p :: map frontmatter_line fm) with (map frontmatter_line (p :: fm)).
  change nl with (String newline ""). rewrite split_char_join; [|done|].
  - by apply fold_parse_lines.
  - apply Forall_map. eapply Forall_impl; [exact Hok|]. intros x Hx. by apply frontmatter_line_ok.
Qed.

(** The frontmatter that [serialize] puts before any content is what [parse]
    reads from the note, keys and values stripped and in order. *)
Theorem frontmatter_roundtrip content fm : fm_ok fm →
  parse_frontmatter (serialize_markdown_with_frontmatter content fm)
  = map (λ p, (strip p.1, VStr (strip (py_str p.2)))) fm.
Proof. apply parse_serialize. Qed.
Lemma frontmatter_roundtrip_witness :
  fm_ok [("title", VStr " A: b"); ("n", VInt 3)] ∧
  parse_frontmatter (serialize_markdown_with_frontmatter ("---" +:+ nl +:+ "body") [("title", VStr " A: b"); ("n", VInt 3)])
  = [("title", VStr "A: b"); ("n", VStr "3")].
Proof.
  assert (fm_ok [("title", VStr " A: b"); ("n", VInt 3)]) as H.
  { split_and!; [done|repeat constructor|]. vm_compute map. repeat constructor; set_solver. }
  split; [exact H|]. exact (frontmatter_roundtrip ("---" +:+ nl +:+ "body") _ H).
Defined.

(** ** What a write does to the vault *)
Section vault_spec.
Context (fuel : nat) (root : path).
Implicit Types (f : fs).

Lemma resolve_note_Ok ref f q : resolve_note fuel root ref f = Ok q → canonical f q ∧ ∃ rel, q = root ++ rel.
Proof.
  unfold resolve_note. intros (p & _ & H)%res_bind_ok. destruct (realpath fuel f p) as [q'|[]] eqn:E; try done.
  destruct (is_relative_to root q') eqn:Er; [|done]. injection H as ->.
  split; [by eapply realpath_canonical|by apply is_relative_to_spec].
Qed.

(** The text that a successful write leaves, given the node of before. *)
Definition note_after (old : option fsnode) (content : string) (frontmatter : pydict) (mode : string) : string :=
  let text := final_content content frontmatter mode in
  if String.eqb mode "append" then
    match old with
    | Some (NFile o _) => if truthy o then o +:+ nl +:+ text else text
    | _ => text
    end
  else text.

(** What is left ends in the content, and an append keeps the old text. *)
Lemma final_content_ends content fm mode : ∃ before, final_content content fm mode = before +:+ content.
Proof.
  unfold final_content, serialize_markdown_with_frontmatter. destruct (mem_str _ _); [|by exists EmptyString].
  destruct fm as [|p fm]; [by exists EmptyString|].
  set (l := ["---"%string] ++ map frontmatter_line (p :: fm) ++ ["---"; ""]%string).
  exists (sjoin nl l +:+ nl). rewrite sapp_assoc, <-sjoin_snoc by done. unfold l. by rewrite <-!app_assoc.
Qed.
Lemma note_after_ends old content fm mode : ∃ before, note_after old content fm mode = before +:+ content.
Proof.
  unfold note_after. destruct (final_content_ends content fm mode) as [before ->].
  destruct (String.eqb mode "append"); [|by exists before]. destruct old as [x|]; [|by exists before].
  destruct x as [|o mt|]; [by exists before| |by exists before].
  destruct (truthy o); [|by exists before]. exists (o +:+ nl +:+ before). by rewrite !sapp_assoc.
Qed.
Lemma note_after_keeps o mt content fm : ∃ after, note_after (Some (NFile o mt)) content fm "append" = o +:+ after.
Proof. unfold note_after. cbn [String.eqb Ascii.eqb Bool.eqb]. destruct o as [|a o]; cbn; by eexists. Qed.

Lemma append_text_canonical now f q text f' : canonical f q → append_text fuel now f q text = Ok f' →
  walk fuel f q = Ok q ∧ q ≠ [] ∧
  ((f !! q = None ∧ f' = <[q := NFile text now]> f) ∨
   ∃ old mt, f !! q = Some (NFile old mt) ∧ f' = <[q := NFile (old +:+ text) now]> f).
Proof.
  intros Hc. unfold append_text. intros (q' & Hw & H)%res_bind_ok. pose proof (walk_canonical _ _ _ _ Hc Hw) as ->.
  destruct q as [|c q]; [done|]. simpl in H. destruct (f !! (c :: q)) as [[|old mt|t]|] eqn:E; try done;
    injection H as <-; split_and!; [done|done| |done|done|]; [right; eauto|by left].
Qed.

Lemma edited_insert f f1 q text now :
  (∀ p, f1 !! p = f !! p ∨ (f !! p = None ∧ f1 !! p = Some NDir ∧ ∃ c r, q = p ++ c :: r)) →
  (f1 !! q = None ∨ ∃ old mt, f1 !! q = Some (NFile old mt)) →
  edited f (<[q := NFile text now]> f1) q text now ∧ f !! q = f1 !! q.
Proof.
  intros H1 Hold. assert (f !! q = f1 !! q) as Hq.
  { destruct (H1 q) as [->|(_ & E & _)]; [done|]. rewrite E in Hold. naive_solver. }
  split; [|done]. intros p. destruct (decide (p = q)) as [->|Hne].
  - right; left. rewrite lookup_insert_eq, Hq. done.
  - rewrite lookup_insert_ne by done. destruct (H1 p); [by left|by do 2 right].
Qed.

(** The text an append adds, then what the file holds. *)
Lemma append_note now f1 q content fm f2 text :
  canonical f1 q →
  text = (if file_exists fuel f1 q then nl +:+ final_content content fm "append" else final_content content fm "append") →
  append_text fuel now f1 q text = Ok f2 →
  f2 = <[q := NFile (note_after (f1 !! q) content fm "append") now]> f1 ∧
  (f1 !! q = None ∨ ∃ old mt, f1 !! q = Some (NFile old mt)).
Proof.
  intros Hc Htext Ha. destruct (append_text_canonical _ _ _ _ _ Hc Ha) as (Hw & Hq & Hcase).
  assert (file_exists fuel f1 q = match f1 !! q with Some (NFile o _) => truthy o | Some _ => true | None => false end) as Hfe.
  { unfold file_exists, stat. rewrite Hw. cbn [mbind res_bind]. rewrite lookup_node_cons by done. by destruct (f1 !! q) as [[]|]. }
  unfold note_after. cbn [String.eqb Ascii.eqb Bool.eqb].
  destruct Hcase as [[Hn ->]|(old & mt & Ho & ->)]; rewrite Hfe in Htext; [rewrite Hn in *|rewrite Ho in *].
  - subst text. by split; [|left].
  - split; [|right; eauto]. subst text. destruct old; done.
Qed.

Lemma write_note_spec now ref content fm mode f :
  let '(r, f') := write_note fuel root now ref content fm mode f in
  match resolve_note fuel root ref f with
  | Raise exc => r = Raise exc ∧ f' = f
  | Ok q =>
      canonical f q ∧ (∃ text, edited f f' q text now) ∧
      ∀ out, r = Ok out →
        (mode = "create" → f !! q = None) ∧
        f' !! q = Some (NFile (note_after (f !! q) content fm mode) now) ∧
        wr_committed out = true ∧ wr_mode out = mode ∧ ∃ rel, q = root ++ rel ∧ wr_ref out = as_posix rel
  end.
Proof.
  unfold write_note. destruct (resolve_note fuel root ref f) as [q|exc] eqn:E; [|done].
  destruct (resolve_note_Ok _ _ _ E) as [Hc [rel ->]]. set (q := root ++ rel) in *.
  destruct (mkdirs fuel (path_parent q) f) as [f1|exc] eqn:Em; [|split_and!; [done|by exists ""; left|done]].
  destruct (mkdirs_parent fuel f f1 q Hc Em) as [H1 Hc1].
  assert (relative_parts root q = Some rel) as Hrel by (by apply relative_parts_Some). rewrite Hrel. cbn [default].
  assert (∀ exc : exn, (∃ text, edited f f1 q text now)) as Hdirs by (intros _; exists ""; by apply edited_dirs).
  destruct (String.eqb mode "create" && exists_ fuel f1 q) eqn:Ecreate;
    [split_and!; [done|by apply Hdirs, (OtherError "")|done]|].
  destruct (String.eqb_spec mode "append") as [->|Hna]; cbn zeta.
  - set (text := if file_exists fuel f1 q then _ else _).
    destruct (append_text fuel now f1 q text) as [f2|exc] eqn:Ew; [|split_and!; [done|by apply Hdirs, (OtherError "")|done]].
    destruct (append_note now f1 q content fm f2 text Hc1 eq_refl Ew) as [-> Hold].
    destruct (edited_insert f f1 q (note_after (f1 !! q) content fm "append") now H1 Hold) as [Hed Hq].
    split_and!; [done|eauto|]. intros out [= <-]. rewrite lookup_insert_eq, Hq. split_and!; [done..|eauto].
  - destruct (write_text fuel now f1 q (final_content content fm mode)) as [f2|exc] eqn:Ew;
      [|split_and!; [done|by apply Hdirs, (OtherError "")|done]].
    destruct (write_text_canonical fuel _ _ _ _ _ Hc1 Ew) as (Hw & Hqn & -> & Hold).
    destruct (edited_insert f f1 q (final_content content fm mode) now H1 Hold) as [Hed Hq].
    split_and!; [done|eauto|]. intros out [= <-]. rewrite lookup_insert_eq, Hq. split_and!; [|unfold note_after|done..|eauto].
    + intros ->. cbn [String.eqb Ascii.eqb Bool.eqb andb] in Ecreate.
      destruct Hold as [?|(old & mt & Ho)]; [done|]. exfalso. revert Ecreate. unfold exists_, stat. rewrite Hw. cbn [mbind res_bind].
      by rewrite lookup_node_cons, Ho.
    + by apply String.eqb_neq in Hna as ->.
Qed.
End vault_spec.

(** ** Behind the memory gate *)
Section gated_vault.
Context {St : Type} `{PermissionRuleStore St} (fuel : nat) (root : path).

(** C39. A write through the gate into the vault, whatever the engine, the learned
    rules and the user's answer: the vault changes only if the policy
    authorised the write of that reference and mode, and then only at one note
    below the root and the directories leading to it; a committed result means
    that the note holds the old text it was to keep and the new text: it ends in
    the content, and an appended note starts with what it held; without
    authorisation, or on a refused mode, the filesystem is the one of before. *)
Theorem gated_vault_write (now : Z) (mp : MemoryWriteProposal) (content : string) (fm : pydict)
    (e : engine) (os_user : string) (resume : option pyval) (st : pstate St (fs * option MemoryWriteResult)) :
  let c := vault_connector fuel root now in
  let p := write_action "markdown_vault" (mp_ref mp) (mp_mode mp) in
  let f := (world st).1 in
  let '(r, st') := gated_write c mp content fm e now os_user resume st in
  let f' := (world st').1 in
  ((f' ≠ f ∨ ∃ wr, r = Ok wr ∧ wr_committed wr = true) →
    mp_mode mp ∈ vault_write_modes ∧
    authorised e now os_user None VNone p resume (set_world (f, None) st) ∧
    ∃ rel text, edited f f' (root ++ rel) text now) ∧
  ∀ wr, r = Ok wr → wr_committed wr = true →
    ∃ rel, wr_ref wr = as_posix rel ∧
      f' !! (root ++ rel) = Some (NFile (note_after (f !! (root ++ rel)) content fm (mp_mode mp)) now) ∧
      (mp_mode mp = "create" → f !! (root ++ rel) = None) ∧
      (∃ text, f' !! (root ++ rel) = Some (NFile text now) ∧ (∃ before, text = before +:+ content) ∧
         (mp_mode mp = "append" → ∀ old mt, f !! (root ++ rel) = Some (NFile old mt) → ∃ after, text = old +:+ after)).
Proof.
  intros c p f. pose proof (gated_write_cases c mp content fm e now os_user resume st) as Hg. fold f in Hg.
  destruct (gated_write c mp content fm e now os_user resume st) as [r st']. intros f'. cbn zeta in Hg.
  case_bool_decide as Hs.
  - unfold supported in Hs. apply andb_true_iff in Hs as [Hmode _]. apply mem_str_iff in Hmode.
    assert (mp_mode mp ∈ vault_write_modes) as Hm by exact Hmode.
    destruct Hg as [[Ha Hw]|(_ & Hw & Hr)].
    + pose proof (write_note_spec fuel root now (mp_ref mp) content fm (mp_mode mp) f) as Hn.
      change (mc_write_note c) with (λ ref content fm mode f, write_note fuel root now ref content fm mode f) in Hw.
      cbn beta in Hw. rewrite <-Hw in Hn. fold f' in Hn.
      destruct (resolve_note fuel root (mp_ref mp) f) as [q|exc] eqn:Eq.
      * destruct (resolve_note_Ok _ _ _ _ _ Eq) as [_ [rel ->]]. destruct Hn as (_ & [text Hed] & Hok). split; [eauto 10|].
        intros wr Hr _. destruct (Hok wr Hr) as (H1 & H2 & _ & _ & rel' & Hrel & H3). apply app_inv_head in Hrel as <-.
        exists rel. split_and!; [done..|]. eexists. split; [done|]. split; [apply note_after_ends|].
        intros -> old mt ->. apply note_after_keeps.
      * destruct Hn as [-> ->]. split; [intros [?|(? & [=] & _)]; done|done].
    + fold f' in Hw. change ((world st).1) with f in Hw. rewrite Hw. split.
      * intros [?|(wr & -> & Hwr)]; [done|]. destruct Hr as [[? [=]]|(? & ? & [= ->] & _)]. done.
      * intros wr -> Hwr. destruct Hr as [[? [=]]|(? & ? & [= ->] & _)]. done.
  - destruct Hg as [-> Hr]. change f' with f. split.
    + intros [?|(wr & -> & Hwr)]; [done|]. destruct Hr as [[? [=]]|(? & [= ->])]. done.
    + intros wr -> Hwr. destruct Hr as [[? [=]]|(? & [= ->])]. done.
Qed.
End gated_vault.

(** The vault has no traversal check on reads. *)
Example read_note_escapes :
  read_note 20 ["w"; "vault"] "../../etc/x.md" {[ ["w"] := NDir; ["w"; "vault"] := NDir; ["etc"] := NDir;
    ["etc"; "x.md"] := NFile "secret" 0 ]} = Ok ("secret"%string, [], []).
Proof. vm_compute. reflexivity. Qed.
(** Two references of one note. *)
Example refs_collide : note_path ["v"] "v1.2" = note_path ["v"] "v1.3".
Proof. reflexivity. Qed.
