(* ===== verification/MemoryIndex.v ===== *)
(** * The index and the search of the vault (agent_os/connectors.py)

    [index], [reindex], [index_status] and [search] over the JSON file
    [.agentos_vault_index.json].  The natural logarithm, the time of a file as
    a double and the clock's text are parameters, like the listing [rglob]. *)
From Corelib Require Import SpecFloat.
From S2P Require Import PyRe.
From S2P Require Export Float Vault.

(** ** Tokens, headings and snippets *)

(** [re.findall(r"\w+", s)]: the maximal runs of word characters. *)
Fixpoint word_runs (s : string) : string * list string :=
  match s with
  | EmptyString => (EmptyString, [])
  | String c s' =>
      let '(w, ws) := word_runs s' in
      if is_word c then (String c w, ws) else (EmptyString, if sempty w then ws else w :: ws)
  end.
Definition tokenize (text : string) : list string :=
  let '(w, ws) := word_runs (lower text) in if sempty w then ws else w :: ws.

(** [tf[t] = tf.get(t, 0) + 1] over the tokens. *)
Definition count_token (tf : list (string * Z)) (t : string) : list (string * Z) :=
  dset t (default 0 (dget t tf) + 1) tf.
Definition term_freqs (tokens : list string) : list (string * Z) := fold_left count_token tokens [].

(** [^(#{1,6})\s+(.+)$] *)
Fixpoint up_to (n : nat) (r : re) : re :=
  match n with O => Eps | S n' => Opt (Seq r (up_to n' r)) end.
Definition HEADING_RE : re :=
  Seqs [Grp 1 (Seq (Lit "#") (up_to 5 (Lit "#"))); Plus (Cls is_space); Grp 2 (Plus dot_re)].

Record heading := mkHeading { level : nat; h_heading : string; h_start : nat; h_end : nat }.
Definition extract_headings (content : string) : list heading :=
  map (λ '(a, b, g), mkHeading (String.length (default "" (group 1 g))) (strip (default "" (group 2 g))) a b)
    (finditer_bol HEADING_RE true 0 0 content).

(** [s.find(sub)]: the first position, [None] for -1. *)
Fixpoint sfind (sub s : string) : option nat :=
  if startswith sub s then Some O
  else match s with EmptyString => None | String _ s' => S <$> sfind sub s' end.
(** [s[a:b]] for [0 <= a <= b]. *)
Definition slice (a b : nat) (s : string) : string := stake (b - a) (sdrop a s).

(** The earliest position of a query token. *)
Definition best_position (lowered : string) (query_tokens : list string) : option nat :=
  fold_left (λ best token,
    match sfind token lowered with
    | Some pos => match best with Some b => if (pos <? b)%nat then Some pos else best | None => Some pos end
    | None => best
    end) query_tokens None.

(** The last heading that starts no later than the match. *)
Fixpoint heading_before (pos : nat) (hs : list heading) (found : option string) : option string :=
  match hs with
  | [] => found
  | h :: hs' => if (h_start h <=? pos)%nat then heading_before pos hs' (Some (h_heading h)) else found
  end.

Definition generate_match_snippet (content : string) (query_tokens : list string) (max_len : nat)
    : string * option string :=
  let headings := extract_headings content in
  match best_position (lower content) query_tokens with
  | None => (strip (slice 0 max_len content), h_heading <$> head headings)
  | Some best_pos =>
      let half := (max_len / 2)%nat in
      let start := (best_pos - half)%nat in
      let stop := Nat.min (String.length content) (best_pos + half) in
      let snippet := strip (slice start stop content) in
      let snippet := if (0 <? start)%nat then "..." +:+ snippet else snippet in
      let snippet := if (stop <? String.length content)%nat then snippet +:+ "..." else snippet in
      (snippet,
       match heading_before best_pos headings None with
       | Some h => if truthy h then Some h else h_heading <$> head headings
       | None => h_heading <$> head headings
       end)
  end.

(** ** The index *)
Definition MAX_AUTO_INDEX_FILES : Z := 50.
Definition MAX_AUTO_INDEX_BYTES : Z := 1000000.

Record IndexResult := mkIndexResult {
  indexed_count : Z; deleted_count : Z; ir_errors : list string; ir_metadata : pydict }.

Definition attribute_error : exn := OtherError "AttributeError".

Section index.
Context (fuel : nat) (root : path) (rglob : fs → path → list path) (dir_size : fs → path → Z).
Context (st_mtime : Z → spec_float) (math_log : spec_float → spec_float).
Implicit Types (f : fs) (docs : pydict).

Definition index_path : path := root ++ [".agentos_vault_index.json"].
Definition rel_posix (p : path) : string := as_posix (default [] (relative_parts root p)).
Definition notes f : list path := List.filter (λ p, is_indexable_note_path p root) (rglob f root).

(** The count and size of the notes, until a limit is exceeded. *)
Fixpoint within_limits (l : list path) (note_count total_bytes : Z) f : bool :=
  match l with
  | [] => true
  | p :: l' =>
      if MAX_AUTO_INDEX_FILES <? note_count + 1 then false
      else
        match stat fuel f p with
        | Ok x =>
            let total_bytes := total_bytes + match x with NFile content _ => byte_length content | _ => dir_size f p end in
            if MAX_AUTO_INDEX_BYTES <? total_bytes then false else within_limits l' (note_count + 1) total_bytes f
        | Raise _ => within_limits l' (note_count + 1) total_bytes f
        end
  end.
Definition should_auto_build_index f : bool := within_limits (notes f) 0 0 f.

(** The entry of a note. *)
Definition doc_entry (content : string) (mtime : Z) : pyval :=
  let tokens := tokenize content in
  VDict [("mtime", VFloat (st_mtime mtime)); ("doc_len", VInt (Z.of_nat (length tokens)));
         ("title", note_title content);
         ("term_freqs", VDict (map (λ '(t, n), (t, VInt n)) (term_freqs tokens)))].
Definition index_note f (p : path) : res pyval :=
  content ← read_text fuel f p;
  x ← stat fuel f p;
  Ok (doc_entry content (match x with NFile _ mt => mt | _ => 0 end)).

Record progress := mkProgress { docs : pydict; indexed : Z; deleted : Z; errors : list string }.

(** One note that is present: its entry or an error. *)
Definition put_note f (label : string) (p : path) (s : progress) : progress :=
  match index_note f p with
  | Ok entry => mkProgress (dset (rel_posix p) entry (docs s)) (indexed s + 1) (deleted s) (errors s)
  | Raise exc => mkProgress (docs s) (indexed s) (deleted s)
                   (errors s ++ ["Failed to index " +:+ label +:+ ": " +:+ exn_msg exc])
  end.
Definition drop_note (k : string) (s : progress) : progress :=
  if dhas k (docs s) then mkProgress (ddel k (docs s)) (indexed s) (deleted s + 1) (errors s) else s.

(** One reference of [index(refs=...)]. *)
Definition index_ref f (ref : string) (s : progress) : res progress :=
  p ← note_path root ref;
  match relative_parts root p with
  | None => Raise (ValueError (abs_str p +:+ " is not in the subpath of " +:+ abs_str root))
  | Some _ =>
      Ok (if negb (is_file fuel f p) || negb (is_indexable_note_path p root)
          then drop_note (rel_posix p) s else put_note f ref p s)
  end.
Fixpoint index_refs f (refs : list string) (s : progress) : res progress :=
  match refs with
  | [] => Ok s
  | ref :: refs' => s' ← index_ref f ref s; index_refs f refs' s'
  end.

(** The whole vault: every note present, then the entries without a note. *)
Definition index_all f (s : progress) : progress :=
  let s1 := fold_left (λ s p, put_note f (rel_posix p) p s) (notes f) s in
  fold_left (λ s k, if mem_str k (map rel_posix (notes f)) then s else drop_note k s) (dkeys (docs s1)) s1.

(** The documents of the index file: nothing for a file that is absent or
    does not parse; a document that is no dict has no [get]. *)
Definition loaded_docs f : res pydict :=
  let index_data :=
    if is_file fuel f index_path then
      match read_text fuel f index_path with Ok t => default (VDict []) (loads t) | Raise _ => VDict [] end
    else VDict [] in
  match index_data with
  | VDict d =>
      match dget "docs" d with
      | None => Ok []
      | Some (VDict docs) => Ok docs
      | Some _ => Raise attribute_error
      end
  | _ => Raise attribute_error
  end.

(** [sum(d.get("doc_len", 0) for d in docs.values())] *)
Fixpoint sum_doc_len (l : list (string * pyval)) (acc : pyval) : res pyval :=
  match l with
  | [] => Ok acc
  | (_, VDict d) :: l' => acc' ← py_add acc (default (VInt 0) (dget "doc_len" d)); sum_doc_len l' acc'
  | _ => Raise attribute_error
  end.
Definition avg_doc_len (l : pydict) : res spec_float :=
  total ← sum_doc_len l (VInt 0);
  match l with
  | [] => Ok fzero
  | _ => t ← py_num total; Ok (fdiv t (of_int (Z.of_nat (length l))))
  end.

Definition index (now : Z) (now_iso : string) (refs : option (list string)) f : res IndexResult * fs :=
  match
    docs0 ← loaded_docs f;
    let s0 := mkProgress docs0 0 0 [] in
    s ← match refs with Some l => index_refs f l s0 | None => Ok (index_all f s0) end;
    avg ← avg_doc_len (docs s);
    Ok (s, avg)
  with
  | Raise exc => (Raise exc, f)
  | Ok (s, avg) =>
      let doc_count := VInt (Z.of_nat (length (docs s))) in
      let new_index :=
        VDict [("version", VInt 1); ("updated_at", VStr now_iso); ("doc_count", doc_count);
               ("avg_doc_len", VFloat (round2 avg)); ("docs", VDict (docs s))] in
      let '(errs, f') :=
        match write_text fuel now f index_path (dumps_indent 0 new_index) with
        | Ok f' => (errors s, f')
        | Raise exc => (errors s ++ ["Failed to save index file: " +:+ exn_msg exc], f)
        end in
      (Ok (mkIndexResult (indexed s) (deleted s) errs
             [("doc_count", doc_count); ("avg_doc_len", VFloat (round2 avg))]), f')
  end.

Definition unlink f (p : path) : fs :=
  match walk fuel f p with Ok q => match lookup_node f q with Some (NFile _ _) => delete q f | _ => f end | Raise _ => f end.
Definition reindex (now : Z) (now_iso : string) f : res IndexResult * fs :=
  index now now_iso None (if is_file fuel f index_path then unlink f index_path else f).

(** ** Status *)
Record status_report := mkStatus {
  status : string; document_count : Z; last_indexed_at : pyval }.

(** Some note is missing from the index or newer than its entry; the number of
    notes seen until then. *)
Fixpoint scan_stale f (indexed : pydict) (l : list path) (found : Z) : res (bool * Z) :=
  match l with
  | [] => Ok (false, found)
  | p :: l' =>
      match dget (rel_posix p) indexed with
      | None => Ok (true, found + 1)
      | Some (VDict d) =>
          x ← stat fuel f p;
          mtime ← py_num (default (VInt 0) (dget "mtime" d));
          if SFltb mtime (st_mtime (match x with NFile _ mt => mt | _ => 0 end)) then Ok (true, found + 1)
          else scan_stale f indexed l' (found + 1)
      | Some _ => Raise attribute_error
      end
  end.

(** "docs" is a sequence: [found] tells whether the first note occurs in it. *)
Definition status_without_entries f (found : bool) (n : nat) (data : pydict) : res status_report :=
  if found then Raise (TypeError "indices must be integers")
  else
    let is_stale := match notes f with [] => negb (n =? 0)%nat | _ => true end in
    Ok (mkStatus (if is_stale then "stale" else "ready") (Z.of_nat n) (default VNone (dget "updated_at" data))).

Definition index_status f : status_report :=
  if negb (is_file fuel f index_path) then mkStatus "unindexed" 0 VNone
  else
    match
      t ← read_text fuel f index_path;
      match loads t with
      | Some (VDict data) =>
          match default (VDict []) (dget "docs" data) with
          | VDict indexed =>
              '(stale, found) ← scan_stale f indexed (notes f) 0;
              let is_stale := stale || negb (found =? Z.of_nat (length indexed)) in
              Ok (mkStatus (if is_stale then "stale" else "ready") (Z.of_nat (length indexed))
                    (default VNone (dget "updated_at" data)))
          | VList l =>
              status_without_entries f (existsb (λ v, match v with VStr s => bool_decide (s ∈ map rel_posix (take 1 (notes f))) | _ => false end) l)
                (length l) data
          | VStr s => status_without_entries f (existsb (λ r, contains r s) (map rel_posix (take 1 (notes f)))) (String.length s) data
          | _ => Raise (TypeError "object has no len()")
          end
      | Some _ => Raise attribute_error
      | None => Raise (ValueError "JSONDecodeError")
      end
    with
    | Ok s => s
    | Raise _ => mkStatus "error" 0 VNone
    end.

(** ** Search *)
Definition empty_index : pyval :=
  VDict [("version", VInt 1); ("doc_count", VInt 0); ("avg_doc_len", VFloat fzero); ("docs", VDict [])].

Definition load_index f : option pyval :=
  if is_file fuel f index_path then
    match read_text fuel f index_path with Ok t => loads t | Raise _ => None end
  else None.
Definition load_or_build_index (now : Z) (now_iso : string) f : res pyval * fs :=
  let build :=
    if should_auto_build_index f then
      match index now now_iso None f with
      | (Raise exc, f') => (Raise exc, f')
      | (Ok _, f') => (Ok (default empty_index (load_index f')), f')
      end
    else (Ok empty_index, f) in
  match load_index f with
  | Some (VDict d) => if dhas "docs" d then (Ok (VDict d), f) else build
  | _ => build
  end.

Definition k1 : spec_float := dec_to_float false 15 (-1).
Definition b : spec_float := dec_to_float false 75 (-2).
Definition one : spec_float := of_int 1.

Definition entry_get (d : pyval) (k : string) (dflt : pyval) : res pyval :=
  match d with VDict d => Ok (default dflt (dget k d)) | _ => Raise attribute_error end.
Definition has_term (token : string) (d : pyval) : res bool :=
  tf ← entry_get d "term_freqs" (VDict []);
  match tf with
  | VDict tf => Ok (dhas token tf)
  | VList l => Ok (existsb (λ v, match v with VStr s => String.eqb s token | _ => false end) l)
  | VStr s => Ok (contains token s)
  | _ => Raise (TypeError "argument is not iterable")
  end.

(** [sum(1 for d in docs.values() if token in d.get("term_freqs", {}))] *)
Fixpoint docs_with (token : string) (l : pydict) : res Z :=
  match l with
  | [] => Ok 0
  | (_, d) :: l' => h ← has_term token d; n ← docs_with token l'; Ok ((if h : bool then 1 else 0) + n)
  end.
Definition idf (doc_count : Z) (n_q : Z) : spec_float :=
  math_log (fadd (fdiv (fadd (of_int (doc_count - n_q)) fhalf) (fadd (of_int n_q) fhalf)) one).

Fixpoint idf_table (docs : pydict) (tokens : list string) : res (list (string * spec_float)) :=
  match tokens with
  | [] => Ok []
  | t :: ts => n_q ← docs_with t docs; r ← idf_table docs ts;
               Ok ((t, idf (Z.of_nat (length docs)) n_q) :: r)
  end.

Definition py_div (x y : spec_float) : res spec_float :=
  match y with S754_zero _ => Raise (OtherError "ZeroDivisionError") | _ => Ok (fdiv x y) end.

(** The BM25 score of one document. *)
Fixpoint score_doc (idfs : list (string * spec_float)) (tf_dict : pydict) (doc_len : pyval) (avg : spec_float)
    (tokens : list string) (score : spec_float) : res spec_float :=
  match tokens with
  | [] => Ok score
  | t :: ts =>
      tf ← py_num (default (VInt 0) (dget t tf_dict));
      if SFltb fzero tf then
        dl ← py_num doc_len;
        ratio ← py_div dl avg;
        let denom := fadd tf (fmul k1 (fadd (fsub one b) (fmul b ratio))) in
        gain ← py_div (fmul (default fzero (dget t idfs)) (fmul tf (fadd k1 one))) denom;
        score_doc idfs tf_dict doc_len avg ts (fadd score gain)
      else score_doc idfs tf_dict doc_len avg ts score
  end.

Record scored := mkScored { sc_score : spec_float; sc_ref : string; sc_title : pyval }.
Fixpoint score_all (idfs : list (string * spec_float)) (avg : spec_float) (query_tokens : list string)
    (docs : pydict) : res (list scored) :=
  match docs with
  | [] => Ok []
  | (ref, d) :: docs' =>
      doc_len ← entry_get d "doc_len" (VInt 0);
      tfs ← entry_get d "term_freqs" (VDict []);
      tf_dict ← match tfs with VDict t => Ok t | _ => Raise attribute_error end;
      title ← entry_get d "title" VNone;
      score ← score_doc idfs tf_dict doc_len avg query_tokens fzero;
      r ← score_all idfs avg query_tokens docs';
      Ok (if SFltb fzero score then mkScored score ref title :: r else r)
  end.

(** [l[:n]] *)
Definition slice_to {A} (n : Z) (l : list A) : list A :=
  take (Z.to_nat (if n <? 0 then Z.of_nat (length l) + n else n)) l.
(** [scored.sort(key=score, reverse=True)], stable. *)
Definition by_score (x y : scored) : bool := negb (SFltb (sc_score x) (sc_score y)).

Record search_hit := mkHit {
  hit_ref : string; hit_title : pyval; hit_snippet : string; hit_score : spec_float;
  hit_heading : option string }.
Definition make_hit f (query_tokens : list string) (s : scored) : search_hit :=
  let '(snippet, heading) :=
    match read_text fuel f (join_path root (parse_path (sc_ref s))) with
    | Ok content => generate_match_snippet content query_tokens 200
    | Raise _ => (EmptyString, None)
    end in
  mkHit (sc_ref s) (sc_title s) snippet (round4 (sc_score s))
    (match heading with Some h => if truthy h then Some h else None | None => None end).

Definition search (now : Z) (now_iso query : string) (limit : Z) f : res (list search_hit) * fs :=
  let query_tokens := tokenize query in
  match query_tokens with
  | [] => (Ok [], f)
  | _ =>
      match load_or_build_index now now_iso f with
      | (Raise exc, f') => (Raise exc, f')
      | (Ok (VDict data), f') =>
          (match default (VDict []) (dget "docs" data) with
           | VDict [] | VList [] | VStr EmptyString => Ok []
           | VDict docs =>
               avg ← (let v := default (VFloat one) (dget "avg_doc_len" data) in
                      py_float (if py_truthy v then v else VFloat one));
               idfs ← idf_table docs query_tokens;
               scored ← score_all idfs avg query_tokens docs;
               Ok (map (make_hit f' query_tokens) (slice_to limit (sort_by by_score scored)))
           | _ => Raise attribute_error
           end, f')
      | (Ok _, f') => (Raise attribute_error, f')
      end
  end.
End index.

(** ** The index after a full pass *)
Section index_spec.
Context (fuel : nat) (root : path) (rglob : fs → path → list path) (st_mtime : Z → spec_float).
Implicit Types (f : fs) (s : progress).
Notation rel_posix := (rel_posix root).
Notation notes := (notes root rglob).
Notation index_note := (index_note fuel st_mtime).
Notation put_note := (put_note fuel root st_mtime).
Notation index_all := (index_all fuel root rglob st_mtime).

(** The note of a list that an index key names. *)
Definition note_of (l : list path) (k : string) : option path := List.find (λ p, String.eqb (rel_posix p) k) l.
Definition readable f (p : path) : bool := is_ok (index_note f p).

Lemma note_of_None l k : note_of l k = None ↔ k ∉ map rel_posix l.
Proof.
  induction l as [|p l IH]; simpl; [set_solver|]. unfold note_of in *. simpl.
  destruct (String.eqb_spec (rel_posix p) k) as [->|Hne]; [set_solver|]. rewrite IH. set_solver.
Qed.

Lemma put_notes f l : NoDup (map rel_posix l) → ∀ s, NoDup (dkeys (docs s)) →
  let s' := fold_left (λ s p, put_note f (rel_posix p) p s) l s in
  NoDup (dkeys (docs s')) ∧
  (∀ k, dget k (docs s') =
    match note_of l k with
    | Some p => match index_note f p with Ok d => Some d | Raise _ => dget k (docs s) end
    | None => dget k (docs s)
    end) ∧
  (∀ g : string → bool, (∀ k, k ∈ map rel_posix l → g k = false) →
    List.filter g (dkeys (docs s')) = List.filter g (dkeys (docs s))) ∧
  indexed s' = indexed s + Z.of_nat (length (List.filter (readable f) l)) ∧
  length (errors s') = (length (errors s) + length (List.filter (λ p, negb (readable f p)) l))%nat ∧
  deleted s' = deleted s.
Proof.
  induction l as [|p l IH]; intros Hl s Hs; cbn zeta.
  { simpl. split_and!; try done; lia. }
  cbn [map] in Hl. apply NoDup_cons in Hl as [Hp Hl]. cbn [fold_left].
  destruct (IH Hl (put_note f (rel_posix p) p s)) as (H1 & H2 & H3 & H4 & H5 & H6).
  { unfold MemoryIndex.put_note. destruct (index_note f p); [by apply dset_NoDup|done]. }
  cbn zeta in *. split_and!; [exact H1| | | | |].
  - intros k. rewrite H2. unfold note_of. cbn [List.find].
    destruct (String.eqb_spec (rel_posix p) k) as [<-|Hne].
    + assert (List.find (λ q, String.eqb (rel_posix q) (rel_posix p)) l = None) as -> by (by apply note_of_None).
      unfold MemoryIndex.put_note. destruct (index_note f p); simpl; [by rewrite dget_dset|done].
    + assert (dget k (docs (put_note f (rel_posix p) p s)) = dget k (docs s)) as ->; [|done].
      unfold MemoryIndex.put_note. destruct (index_note f p); simpl; [by apply dget_dset_ne|done].
  - intros g Hg. rewrite H3 by (intros k Hk; apply Hg; by right).
    unfold MemoryIndex.put_note. destruct (index_note f p); simpl; [|done].
    destruct (decide (rel_posix p ∈ dkeys (docs s))); [by rewrite dkeys_dset_in|].
    rewrite dkeys_dset_notin, List.filter_app by done. cbn [List.filter]. rewrite Hg by (by left). by rewrite app_nil_r.
  - rewrite H4. unfold MemoryIndex.put_note. cbn [List.filter]. unfold readable at 2.
    destruct (index_note f p); simpl; lia.
  - rewrite H5. unfold MemoryIndex.put_note. cbn [List.filter]. unfold readable at 2.
    destruct (index_note f p); simpl; rewrite ?length_app; simpl; lia.
  - rewrite H6. unfold MemoryIndex.put_note. by destruct (index_note f p).
Qed.

Lemma drop_notes (keep : string → bool) ks : NoDup ks → ∀ s, NoDup (dkeys (docs s)) → (∀ k, k ∈ ks → k ∈ dkeys (docs s)) →
  let s' := fold_left (λ s k, if keep k then s else drop_note k s) ks s in
  (∀ k, dget k (docs s') = if bool_decide (k ∈ ks) && negb (keep k) then None else dget k (docs s)) ∧
  deleted s' = deleted s + Z.of_nat (length (List.filter (λ k, negb (keep k)) ks)) ∧
  indexed s' = indexed s ∧ errors s' = errors s.
Proof.
  induction ks as [|k0 ks IH]; intros Hn s Hs Hin; cbn zeta; [simpl; split_and!; [done|lia|done..]|].
  apply NoDup_cons in Hn as [Hk0 Hn]. cbn [fold_left].
  set (s1 := if keep k0 then s else drop_note k0 s).
  assert (dhas k0 (docs s) = true) as Hhas by (apply dhas_iff, Hin; by left).
  assert (NoDup (dkeys (docs s1)) ∧ (∀ k, k ≠ k0 → dget k (docs s1) = dget k (docs s)) ∧
    dget k0 (docs s1) = (if keep k0 then dget k0 (docs s) else None) ∧
    deleted s1 = deleted s + (if keep k0 then 0 else 1) ∧ indexed s1 = indexed s ∧ errors s1 = errors s)
    as (A1 & A2 & A3 & A4 & A5 & A6).
  { unfold s1. destruct (keep k0); [split_and!; [done..|lia|done|done]|]. unfold drop_note. rewrite Hhas. simpl.
    split_and!; [by apply ddel_NoDup| |by apply dget_ddel|lia|done..]. intros k Hk. by apply dget_ddel_ne. }
  destruct (IH Hn s1 A1) as (B1 & B2 & B3 & B4).
  { intros k Hk. apply dhas_iff. unfold dhas. rewrite A2 by (by intros ->).
    assert (dhas k (docs s) = true) as Hx by (apply dhas_iff, Hin; by right). exact Hx. }
  cbn zeta in *. split_and!; [| |by rewrite B3|by rewrite B4].
  - intros k. rewrite B1. destruct (decide (k = k0)) as [->|Hne].
    + rewrite (bool_decide_eq_false_2 (k0 ∈ ks)) by done. cbn [andb]. rewrite A3.
      rewrite (bool_decide_eq_true_2 (k0 ∈ k0 :: ks)) by (by left). by destruct (keep k0).
    + rewrite A2 by done. rewrite (bool_decide_ext (k ∈ k0 :: ks) (k ∈ ks)); [done|]. rewrite elem_of_cons. naive_solver.
  - rewrite B2, A4. cbn [List.filter]. destruct (keep k0); simpl; lia.
Qed.

(** C40. A full pass against its specification: whatever the old index held, the
    entry under a key afterwards is that of the note with this reference; a
    note that cannot be read keeps its old entry; a key without a note is
    gone.  The three counts are exact. *)
Theorem index_all_spec f docs0 :
  NoDup (dkeys docs0) → NoDup (map rel_posix (notes f)) →
  let s := index_all f (mkProgress docs0 0 0 []) in
  (∀ k, dget k (docs s) =
    match note_of (notes f) k with
    | Some p => match index_note f p with Ok d => Some d | Raise _ => dget k docs0 end
    | None => None
    end) ∧
  indexed s = Z.of_nat (length (List.filter (readable f) (notes f))) ∧
  length (errors s) = length (List.filter (λ p, negb (readable f p)) (notes f)) ∧
  deleted s = Z.of_nat (length (List.filter (λ k, negb (mem_str k (map rel_posix (notes f)))) (dkeys docs0))).
Proof.
  intros H0 Hl s.
  destruct (put_notes f (notes f) Hl (mkProgress docs0 0 0 []) H0) as (P1 & P2 & P3 & P4 & P5 & P6). cbn zeta in *.
  unfold s, MemoryIndex.index_all. set (s1 := fold_left _ (notes f) _) in *.
  destruct (drop_notes (λ k, mem_str k (map rel_posix (notes f))) (dkeys (docs s1)) P1 s1 P1) as (D1 & D2 & D3 & D4); [done|].
  cbn zeta in *. split_and!.
  - intros k. rewrite D1, P2. cbn [docs]. destruct (note_of (notes f) k) as [p|] eqn:En.
    + assert (mem_str k (map rel_posix (notes f)) = true) as ->.
      { apply mem_str_iff. destruct (decide (k ∈ map rel_posix (notes f))) as [|Hn]; [done|]. apply note_of_None in Hn. congruence. }
      by rewrite andb_false_r.
    + assert (mem_str k (map rel_posix (notes f)) = false) as ->.
      { apply not_true_iff_false. rewrite mem_str_iff. by apply note_of_None. }
      rewrite andb_true_r. case_bool_decide as Hk; [done|].
      destruct (dget k docs0) eqn:E; [|done]. exfalso. apply Hk, dhas_iff. unfold dhas. rewrite P2, En. cbn [docs]. by rewrite E.
  - rewrite D3, P4. cbn [indexed]. lia.
  - by rewrite D4, P5.
  - rewrite D2, P6. cbn [deleted]. rewrite P3; [cbn [docs]; lia|]. intros k Hk. apply mem_str_iff in Hk. cbv beta. by rewrite Hk.
Qed.
End index_spec.

Definition demo_vault : fs := {[ ["v"] := NDir; ["v"; "a.md"] := NFile ("# Alpha" +:+ nl +:+ "beta beta") 5;
  ["v"; "b.md"] := NFile "gamma" 6; ["v"; ".hidden"] := NDir; ["v"; ".hidden"; "c.md"] := NFile "beta" 7 ]}.
Definition demo_rglob (f : fs) (p : path) : list path := [["v"; "a.md"]; ["v"; "b.md"]; ["v"; ".hidden"; "c.md"]].
Definition demo_log (x : spec_float) : spec_float := x.

Lemma index_all_spec_witness :
  let docs0 := [("old.md", VDict []); ("b.md", VDict [])] in
  let s := index_all 20 ["v"] demo_rglob of_int demo_vault (mkProgress docs0 0 0 []) in
  map fst (docs s) = ["b.md"; "a.md"] ∧
  deleted s = Z.of_nat (length (List.filter (λ k, negb (mem_str k (map (rel_posix ["v"]) (notes ["v"] demo_rglob demo_vault)))) (dkeys docs0))).
Proof.
  intros docs0 s. split; [vm_compute; reflexivity|].
  assert (NoDup (dkeys docs0)) as H0 by (vm_compute; repeat constructor; set_solver).
  assert (NoDup (map (rel_posix ["v"]) (notes ["v"] demo_rglob demo_vault))) as H1
    by (vm_compute; repeat constructor; set_solver).
  apply (index_all_spec 20 ["v"] demo_rglob of_int demo_vault docs0 H0 H1).
Defined.

(** Index, then status and search; the hidden note is left out. *)
Example index_then_search :
  let f1 := (index 20 ["v"] demo_rglob of_int 9 "t" None demo_vault).2 in
  index_status 20 ["v"] demo_rglob of_int f1 = mkStatus "ready" 2 (VStr "t") ∧
  (λ l, map hit_ref l) <$> (search 20 ["v"] demo_rglob (λ _ _, 0) of_int demo_log 9 "t" "Beta" 10 f1).1 = Ok ["a.md"%string].
Proof. split; vm_compute; reflexivity. Qed.

(** An index file that holds a JSON document other than an object: [index]
    raises, so neither it nor [search] rebuilds the file; [reindex] does. *)
Example index_of_a_list :
  let f1 := <[index_path ["v"] := NFile "[]" 1]> demo_vault in
  (index 20 ["v"] demo_rglob of_int 9 "t" None f1).1 = Raise attribute_error ∧
  (search 20 ["v"] demo_rglob (λ _ _, 0) of_int demo_log 9 "t" "Beta" 10 f1).1 = Raise attribute_error ∧
  is_ok (reindex 20 ["v"] demo_rglob of_int 9 "t" f1).1 = true.
Proof. split_and!; vm_compute; reflexivity. Qed.
