(* ===== verification/Connectors.v ===== *)
(** * Connectors: registry, search hits, gbrain, the memory_write skill
    (agent_os/connectors.py, agent_os/tools/memory_write.py)

    The gbrain server is a function [rpc] from the request's JSON text to the
    outcome of [urlopen], on a world [W]. *)
From S2P Require Import PyRe.
From S2P Require Export MemoryIndex.

(** ** The registry *)
Section registry.
Context {C : Type}.
Definition register (name : string) (c : C) (reg : list (string * C)) : res (list (string * C)) :=
  if dhas name reg then Raise (ValueError ("Connector '" +:+ name +:+ "' is already registered."))
  else Ok (dset name c reg).
Definition resolve (name : string) (reg : list (string * C)) : res C :=
  match dget name reg with
  | Some c => Ok c
  | None => Raise (ValueError ("Connector '" +:+ name +:+ "' not found in registry."))
  end.
Definition list_connectors (reg : list (string * C)) : list string := dkeys reg.
End registry.

(** ** Search hits *)
Record MemoryHit := mkMemoryHit {
  mh_ref : string; mh_title : option string; mh_snippet : string; mh_score : option SpecFloat.spec_float;
  mh_source : pydict }.

Definition hit_known_keys : list string :=
  ["ref"; "path"; "slug"; "title"; "snippet"; "content"; "score"; "source"].

(** [normalize_memory_hit] of a value that is not a [MemoryHit] yet. *)
Definition normalize_memory_hit (hit : pyval) : res MemoryHit :=
  match hit with
  | VDict d =>
      let get k dflt := default dflt (dget k d) in
      let ref := py_str (get "ref" (get "path" (get "slug" (VStr "unknown")))) in
      let title := match dget "title" d with None | Some VNone => None | Some t => Some (py_str t) end in
      let snippet := py_str (get "snippet" (get "content" (VStr ""))) in
      score ← match dget "score" d with
              | None | Some VNone => Ok None
              | Some v => match py_float v with
                          | Ok x => Ok (Some x)
                          | Raise (ValueError _) | Raise (TypeError _) => Ok None
                          | Raise exc => Raise exc
                          end
              end;
      let source := match dget "source" d with
                    | Some (VDict s) => s
                    | _ => List.filter (λ p, negb (mem_str p.1 hit_known_keys)) d
                    end in
      Ok (mkMemoryHit ref title snippet score source)
  | v => Ok (mkMemoryHit (py_str v) None (py_str v) None [])
  end.

(** A score that is an integer too large for a double escapes the [except]. *)
Example normalize_overflow :
  normalize_memory_hit (VDict [("ref", VStr "a"); ("score", VInt (10 ^ 400))])
  = Raise (OverflowError "int too large to convert to float").
Proof. vm_compute. reflexivity. Qed.

(** ** gbrain *)
Inductive http := Body (content : string) | URLError (msg : string) | HttpFailure (e : exn).

Section gbrain.
Context {W : Type} (token : option string) (rpc : string → W → http * W).

(** [if "result" in data: return data["result"]] *)
Definition rpc_result (data : pyval) : res (option pyval) :=
  match data with
  | VDict d => Ok (dget "result" d)
  | VList l =>
      if existsb (λ v, match v with VStr s => String.eqb s "result" | _ => false end) l
      then Raise (TypeError "list indices must be integers or slices, not str") else Ok None
  | VStr s =>
      if contains "result" s then Raise (TypeError "string indices must be integers, not 'str'") else Ok None
  | _ => Raise (TypeError "argument is not iterable")
  end.

(** The first [data:] line with a result. *)
Fixpoint sse_result (lines : list string) : res (option pyval) :=
  match lines with
  | [] => Ok None
  | line :: lines' =>
      if startswith "data: " line then
        match loads (sdrop 6 line) with
        | Some data => o ← rpc_result data; match o with Some v => Ok (Some v) | None => sse_result lines' end
        | None => sse_result lines'
        end
      else sse_result lines'
  end.
Definition parse_response (content : string) : res pyval :=
  o ← sse_result (split_char newline content);
  match o with
  | Some v => Ok v
  | None =>
      match loads content with
      | Some data => o ← rpc_result data; Ok (default (VStr content) o)
      | None => Ok (VStr content)
      end
  end.

Definition rpc_payload (method : string) (params : pydict) : pyval :=
  VDict [("jsonrpc", VStr "2.0"); ("method", VStr method); ("params", VDict params); ("id", VInt 1)].
Definition call_rpc (method : string) (params : pydict) (w : W) : res pyval * W :=
  if negb (truthy (default "" token)) then (Raise (RuntimeError "gbrain not configured"), w)
  else
    match dumps (rpc_payload method params) with
    | Raise exc => (Raise exc, w)
    | Ok payload =>
        match rpc payload w with
        | (Body content, w') => (parse_response content, w')
        | (URLError msg, w') => (Raise (RuntimeError ("Gbrain error: " +:+ msg)), w')
        | (HttpFailure exc, w') => (Raise exc, w')
        end
    end.

(** The text of the first content item of a tool result, when it has one. *)
Definition content_text (result : pydict) : option (res pyval) :=
  match dget "content" result with
  | Some (VList (VDict item :: _)) => Some (Ok (default (VStr "") (dget "text" item)))
  | Some (VList (_ :: _)) => Some (Raise attribute_error)
  | _ => None
  end.

(** The list under a key of the parsed text, or the parsed list itself. *)
Definition listed (key : string) (answer : pyval) : res pyval :=
  match answer with
  | VDict result =>
      match content_text result with
      | None => Ok (VList [])
      | Some (Raise exc) => Raise exc
      | Some (Ok (VStr text)) =>
          match loads text with
          | Some (VDict parsed) => Ok (default (VList []) (dget key parsed))
          | Some (VList l) => Ok (VList l)
          | _ => Ok (VList [])
          end
      | Some (Ok _) => Ok (VList [])
      end
  | VList l => Ok (VList l)
  | _ => Ok (VList [])
  end.

(** [v[:200]] *)
Definition slice_200 (v : pyval) : res pyval :=
  match v with
  | VStr s => Ok (VStr (stake 200 s))
  | VList l => Ok (VList (take 200 l))
  | _ => Raise (TypeError "object is not subscriptable")
  end.
Fixpoint gbrain_hits (hits : list pyval) : res (list pydict) :=
  match hits with
  | [] => Ok []
  | VDict hit :: hits' =>
      snippet ← slice_200 (default (VStr "") (dget "chunk_text" hit));
      r ← gbrain_hits hits';
      Ok ([("ref", default (VStr "") (dget "slug" hit)); ("title", default VNone (dget "title" hit));
           ("snippet", snippet); ("score", default VNone (dget "score" hit))] :: r)
  | _ :: hits' => gbrain_hits hits'
  end.
Definition tool_call (name : string) (arguments : pydict) (w : W) : res pyval * W :=
  call_rpc "tools/call" [("name", VStr name); ("arguments", VDict arguments)] w.

Definition gbrain_search (query : string) (limit : Z) (w : W) : res (list pydict) * W :=
  let '(answer, w') := tool_call "query" [("query", VStr query); ("limit", VInt limit)] w in
  (a ← answer; hits ← listed "hits" a; match hits with VList l => gbrain_hits l | _ => Ok [] end, w').

Definition gbrain_list_notes (filters : pydict) (w : W) : res (list pydict) * W :=
  let '(answer, w') := tool_call "list_pages" filters w in
  (a ← answer;
   pages ← listed "pages" a;
   match pages with
   | VList l =>
       Ok (omap (λ page, match page with
                         | VDict d => Some [("ref", default (VStr "") (dget "slug" d)); ("title", default VNone (dget "title" d))]
                         | _ => None
                         end) l)
   | _ => Ok []
   end, w').

(** [dict(v or {})]; a list of pairs is not modelled. *)
Definition frontmatter_dict (v : pyval) : res pydict :=
  if negb (py_truthy v) then Ok []
  else match v with
       | VDict d => Ok d
       | VStr _ | VList _ => Raise (ValueError "dictionary update sequence element #0 has a wrong length")
       | _ => Raise (TypeError "object is not iterable")
       end.
(** Body and frontmatter of a page from the text of the answer. *)
Definition page_of (text : pyval) : res (pyval * pydict) :=
  match text with
  | VStr t =>
      match loads t with
      | Some (VDict parsed) =>
          let truth := default VNone (dget "compiled_truth" parsed) in
          let content := if py_truthy truth then truth else default (VStr "") (dget "content" parsed) in
          match frontmatter_dict (default VNone (dget "frontmatter" parsed)) with
          | Ok fm =>
              let title := default VNone (dget "title" parsed) in
              Ok (content, if py_truthy title && negb (dhas "title" fm) then dset "title" title fm else fm)
          | Raise (TypeError _) => Ok (text, [])
          | Raise exc => Raise exc
          end
      | _ => Ok (text, [])
      end
  | _ => Ok (text, [])
  end.
Definition gbrain_read_note (ref : string) (w : W) : res (string * pydict * list string) * W :=
  let '(answer, w') := tool_call "get_page" [("slug", VStr ref)] w in
  (a ← answer;
   '(content, fm) ← match a with
                    | VDict result =>
                        match content_text result with
                        | None => Ok (VStr "", [])
                        | Some (Raise exc) => Raise exc
                        | Some (Ok text) => page_of text
                        end
                    | VStr s => Ok (VStr s, [])
                    | _ => Ok (VStr "", [])
                    end;
   match content with
   | VStr c => Ok (c, match fm with [] => parse_frontmatter c | _ => fm end, wikilinks c)
   | _ => Raise (TypeError "expected string or bytes-like object")
   end, w').

Definition gbrain_describe (ref mode : string) : string :=
  if String.eqb mode "overwrite" then "OVERWRITE gbrain page '" +:+ ref +:+ "' via put_page upsert"
  else "Gbrain does not support safe " +:+ mode +:+ " for '" +:+ ref +:+
       "'; its available write primitive is an upsert".

Definition setdefault (k : string) (v : pyval) (d : pydict) : pydict := if dhas k d then d else dset k v d.
Definition provenance (now_iso : string) (fm : pydict) : pydict :=
  setdefault "source" (VStr "default") (setdefault "via" (VStr "agent-os-v1.4")
    (setdefault "created" (VStr now_iso) (setdefault "agent" (VStr "agent-os") fm))).
Definition gbrain_slug (ref : string) : string := if startswith "agentos/" ref then ref else "agentos/" +:+ ref.

Definition gbrain_write_note (now_iso ref content : string) (frontmatter : pydict) (mode : string) (w : W)
    : res MemoryWriteResult * W :=
  if negb (String.eqb mode "overwrite") then
    (Raise (OtherError "NotImplementedError: GbrainConnector only supports explicit overwrite"), w)
  else
    let slug := gbrain_slug ref in
    let text := serialize_markdown_with_frontmatter content (provenance now_iso frontmatter) in
    match tool_call "put_page" [("slug", VStr slug); ("content", VStr text)] w with
    | (Raise exc, w') => (Raise exc, w')
    | (Ok _, w') => (Ok (mkWriteResult slug mode (Some (byte_length text)) true "completed" None), w')
    end.
Definition gbrain_connector (now_iso : string) : connector W :=
  mkConnector (Some "gbrain"%string) (Some ["overwrite"%string]) (gbrain_write_note now_iso).
End gbrain.

(** ** The memory_write skill *)
Inductive memory_choice := UseGbrain | UseVault (root : string).
Definition default_memory_connector (env_connector env_vault : option string) (sandbox_root : path) : memory_choice :=
  if String.eqb (lower (strip (default "" env_connector))) "gbrain" then UseGbrain
  else UseVault (let v := default "" env_vault in if truthy v then v else abs_str sandbox_root).

Definition content_preview (content : string) : string :=
  stake 100 content +:+ (if (100 <? String.length content)%nat then "..." else "").

Section memory_write.
Context {St W : Type} `{PermissionRuleStore St}.

Definition memory_proposal (name : string) (describe : string → string → string) (ref content mode : string)
    : MemoryWriteProposal :=
  mkMemProposal name ref mode (content_preview content) (describe ref mode).

(** What the handler makes of the result of the gate. *)
Definition write_outcome (r : MemoryWriteResult) : ExecutionResult :=
  if wr_committed r then
    mkExec completed [("ref", VStr (wr_ref r)); ("mode", VStr (wr_mode r));
                      ("bytes_written", from_option VInt VNone (wr_bytes_written r))] [] []
  else
    let errors := match wr_error r with Some e => if truthy e then [e] else [] | None => [] end in
    mkExec (if String.eqb (wr_status r) "failed" then failed else cancelled)
      [("ref", VStr (wr_ref r)); ("mode", VStr (wr_mode r))] []
      (match errors with [] => ["Memory write was not committed"%string] | _ => errors end).

Definition memory_write (c : connector W) (describe : string → string → string) (ref content mode : string)
    (e : engine) (now : Z) (os_user : string) (resume : option pyval)
    (st : pstate St (W * option MemoryWriteResult))
    : res ExecutionResult * pstate St (W * option MemoryWriteResult) :=
  let '(r, st') := gated_write c (memory_proposal (default "" (mc_name c)) describe ref content mode) content []
                     e now os_user resume st in
  (write_outcome <$> r, st').
End memory_write.

(** ** What the skill reports *)
Section memory_write_spec.
Context {St W : Type} `{PermissionRuleStore St}.

Lemma write_outcome_committed r : er_status (write_outcome r) = completed → wr_committed r = true.
Proof. unfold write_outcome. destruct (wr_committed r); [done|]. simpl. by destruct (String.eqb _ _). Qed.
Lemma write_outcome_errors r : er_status (write_outcome r) ≠ completed → er_errors (write_outcome r) ≠ [].
Proof. unfold write_outcome. destruct (wr_committed r); [done|]. intros _. simpl. destruct (wr_error r) as [x|]; [by destruct (truthy x)|done]. Qed.

(** The skill reports completion exactly when the connector itself committed
    the note, which needs the authorisation of the policy for this connector,
    reference and mode; every other report carries an error, and without
    authorisation the memory is untouched. *)
Theorem memory_write_completed (c : connector W) (describe : string → string → string) (ref content mode : string)
    (e : engine) (now : Z) (os_user : string) (resume : option pyval) (st : pstate St (W * option MemoryWriteResult)) :
  let p := write_action (default (default "" (mc_name c)) (mc_name c)) ref mode in
  let auth := authorised e now os_user None VNone p resume (set_world ((world st).1, None) st) in
  let '(r, st') := memory_write c describe ref content mode e now os_user resume st in
  (∀ er, r = Ok er → er_status er = completed →
    auth ∧ ∃ wr, mc_write_note c ref content [] mode (world st).1 = (Ok wr, (world st').1) ∧ wr_committed wr = true) ∧
  (∀ er, r = Ok er → er_status er ≠ completed → er_errors er ≠ []) ∧
  (¬ auth → (world st').1 = (world st).1).
Proof.
  intros p auth. unfold memory_write.
  pose proof (gated_write_cases c (memory_proposal (default "" (mc_name c)) describe ref content mode) content [] e now os_user resume st) as Hg.
  destruct (gated_write _ _ _ _ _ _ _ _ _) as [r st']. cbn zeta in Hg. cbn [mp_ref mp_mode mp_connector memory_proposal] in Hg.
  fold p auth in Hg. split_and!.
  - intros er Her Hst. destruct r as [wr|exc]; [|done]. injection Her as <-. apply write_outcome_committed in Hst.
    case_bool_decide.
    + destruct Hg as [[Ha Hw]|(_ & _ & [[? Hr]|(? & ? & Hr & _)])]; [|done|by simplify_eq]. split; [done|]. exists wr. by rewrite <-Hw.
    + destruct Hg as [_ [[? [=]]|(? & [= ->])]]. done.
  - intros er Her. destruct r as [wr|exc]; [|done]. injection Her as <-. apply write_outcome_errors.
  - intros Hn. case_bool_decide.
    + destruct Hg as [[Ha _]|(_ & Hw & _)]; done.
    + by destruct Hg as [-> _].
Qed.

(** gbrain's only write is an upsert: a gated write in another mode neither
    reaches the server nor changes anything else. *)
Theorem gbrain_overwrite_only (token : option string) (rpc : string → W → http * W) (now_iso : string)
    (mp : MemoryWriteProposal) (content : string) (fm : pydict) (e : engine) (now : Z) (os_user : string)
    (resume : option pyval) (st : pstate St (W * option MemoryWriteResult)) :
  mp_mode mp ≠ "overwrite" →
  let '(r, st') := gated_write (gbrain_connector token rpc now_iso) mp content fm e now os_user resume st in
  st' = st ∧ ∀ wr, r = Ok wr → wr_committed wr = false.
Proof.
  intros Hm. pose proof (gated_write_cases (gbrain_connector token rpc now_iso) mp content fm e now os_user resume st) as Hg.
  destruct (gated_write _ _ _ _ _ _ _ _ _) as [r st']. cbn zeta in Hg.
  assert (supported (gbrain_connector token rpc now_iso) mp = false) as Hs.
  { unfold supported. apply andb_false_iff. right. apply not_true_iff_false. rewrite mem_str_iff. simpl.
    by intros E%list_elem_of_singleton. }
  rewrite Hs in Hg. simpl in Hg. destruct Hg as [-> [[? ->]|[? ->]]]; (split; [done|]); [done|by intros wr [= <-]].
Qed.
End memory_write_spec.

Lemma gbrain_overwrite_only_witness :
  let st : pstate Sqlite.t (list string * option MemoryWriteResult) := mkP ∅ None ([], None) in
  let '(r, st') := gated_write (gbrain_connector (Some "t") (λ p w, (Body "{}", p :: w)) "now")
    (mkMemProposal "x" "page" "append" "" "write") "hi" [] (ELocal demo_engine) 9 "op" None st in
  st' = st ∧ ∀ wr, r = Ok wr → wr_committed wr = false.
Proof. intros st. apply gbrain_overwrite_only. simpl. done. Defined.

(** ** Provenance of gbrain pages *)
Lemma dget_setdefault k k' v d :
  dget k' (setdefault k v d) = match dget k' d with Some x => Some x | None => if String.eqb k k' then Some v else None end.
Proof.
  unfold setdefault, dhas. destruct (dget k d) as [y|] eqn:E.
  - destruct (String.eqb_spec k k') as [<-|]; [by rewrite E|]. by destruct (dget k' d).
  - destruct (String.eqb_spec k k') as [<-|Hne]; [by rewrite dget_dset, E|]. rewrite dget_dset_ne by done.
    by destruct (dget k' d).
Qed.

(** A page keeps every frontmatter key of its caller and has the four
    provenance keys, with the defaults where the caller set none. *)
Lemma provenance_spec now_iso fm k :
  dget k (provenance now_iso fm) =
  match dget k fm with
  | Some v => Some v
  | None => dget k [("agent", VStr "agent-os"); ("created", VStr now_iso); ("via", VStr "agent-os-v1.4"); ("source", VStr "default")]
  end.
Proof.
  unfold provenance. rewrite !dget_setdefault. destruct (dget k fm); [done|]. cbn [dget].
  destruct (String.eqb_spec "agent" k), (String.eqb_spec "created" k), (String.eqb_spec "via" k), (String.eqb_spec "source" k);
    subst; done.
Qed.
