(* ===== verification/HotContext.v ===== *)
(** * Hot context and conversation memory (agent_os/hot_context.py, summarize.py)

    A memory connector is seen through its listing and its reads; file times
    and parsed dates are doubles given by functions, as is the clock.  [fnmatch]
    is the standard library's translation to a regular expression. *)
From S2P Require Export PyRe Float.
From Corelib Require Import SpecFloat.

(** ** [fnmatch.fnmatch] *)

(** The members of a bracket set after the negation sign: a hyphen between two
    characters makes a range, which is empty when it is reversed. *)
Fixpoint in_set (n : nat) (stuff : string) (c : ascii) : bool :=
  match n, stuff with
  | S n', String a (String "-" (String b rest)) => ((code a <=? code c) && (code c <=? code b)) || in_set n' rest c
  | S n', String a rest => Ascii.eqb a c || in_set n' rest c
  | _, _ => false
  end.
Definition set_re (stuff : string) : re :=
  match stuff with
  | String "!" EmptyString => Cls (λ _, true)
  | String "!" stuff' => Cls (λ c, negb (in_set (String.length stuff') stuff' c))
  | _ => Cls (in_set (String.length stuff) stuff)
  end.
(** The text up to the closing bracket; a bracket right after the opening or the
    negation belongs to the set. *)
Definition bracket_set (s : string) : option (string * string) :=
  let split_from (taken : string) (t : string) :=
    match split_once "]" t with Some (a, b) => Some (taken +:+ a, b) | None => None end in
  match s with
  | String "!" (String "]" t) => split_from "!]" t
  | String "!" t => split_from "!" t
  | String "]" t => split_from "]" t
  | _ => split_from EmptyString s
  end.
Fixpoint translate (n : nat) (pat : string) : re :=
  match n, pat with
  | S n', String c rest =>
      if Ascii.eqb c "*" then Seq (Star (Cls (λ _, true))) (translate n' rest)
      else if Ascii.eqb c "?" then Seq (Cls (λ _, true)) (translate n' rest)
      else if Ascii.eqb c "[" then
        match bracket_set rest with
        | Some (stuff, rest') => Seq (set_re stuff) (translate n' rest')
        | None => Seq (Lit c) (translate n' rest)
        end
      else Seq (Lit c) (translate n' rest)
  | _, _ => Eps
  end.
Definition fnmatch (name pat : string) : bool := matches (re_fullmatch (translate (String.length pat) pat) name).
Example fnmatch_examples :
  map (λ p, fnmatch "AI/Memory/a.md" p) ["AI/Memory/*.md"; "*.md"; "hot.md"; "AI/?emory/[!b-z].md"; "AI/Memory/[]a-c].md"; "[AI"]
  = [true; true; false; true; true; false].
Proof. vm_compute. reflexivity. Qed.

(** ** [load_hot_context] *)
Definition default_sources : list string := ["system.md"; "invariants.md"; "goals.md"; "hot.md"; "AI/Memory/*.md"].
Record note := mkNote { note_content : string; note_frontmatter : pydict }.

Fixpoint add_matching (src : string) (refs : list string) (matching_refs : list string) : list string :=
  match refs with
  | [] => matching_refs
  | ref :: refs' =>
      add_matching src refs'
        (if truthy ref && fnmatch ref src && negb (existsb (String.eqb ref) matching_refs) then matching_refs ++ [ref] else matching_refs)
  end.
Definition matching (sources refs : list string) : list string :=
  foldl (λ matching_refs src, add_matching src refs matching_refs) [] sources.

Section hot_context.
Context (read_note : string → res note) (now : spec_float).
(** The file time of a note, for the markdown vault; the timestamp of an ISO
    date, [None] when it does not parse. *)
Context (vault_mtime : option (string → option spec_float)) (timestamp : string → option spec_float).

Definition older (max_age_days : Z) (t : option spec_float) : bool :=
  match t with
  | Some t => bool_decide (SFcompare (fdiv (fsub now t) (of_int 86400)) (of_int max_age_days) = Some Gt)
  | None => false
  end.
(** [a or b or c] of three lookups. *)
Definition first_truthy (keys : list string) (d : pydict) : option pyval :=
  match List.find (λ k, from_option py_truthy false (dget k d)) keys with Some k => dget k d | None => None end.
Definition too_old (max_age_days : Z) (ref : string) (n : note) : bool :=
  match vault_mtime with
  | Some mtime => older max_age_days (mtime ref)
  | None =>
      match first_truthy ["effective_date"; "updated"; "created"] (note_frontmatter n) with
      | Some date => older max_age_days (timestamp (str_replace "Z" "+00:00" (py_str date)))
      | None => false
      end
  end.

Definition part_of (ref content : string) : string :=
  "--- BEGIN " +:+ ref +:+ " ---" +:+ nl +:+ content +:+ nl +:+ "--- END " +:+ ref +:+ " ---" +:+ nl.
Definition zlength (s : string) : Z := Z.of_nat (String.length s).

Fixpoint add_parts (max_chars max_age_days : Z) (refs : list string) (content_parts : list string) (current_chars : Z) : list string :=
  match refs with
  | [] => content_parts
  | ref :: refs' =>
      if max_chars <=? current_chars then content_parts
      else
        match read_note ref with
        | Raise _ => add_parts max_chars max_age_days refs' content_parts current_chars
        | Ok n =>
            if too_old max_age_days ref n || negb (truthy (note_content n)) then
              add_parts max_chars max_age_days refs' content_parts current_chars
            else
              let part := part_of ref (note_content n) in
              let join_len := if 0 <? current_chars then 1 else 0 in
              let remaining_chars := max_chars - current_chars - join_len in
              if remaining_chars <=? 0 then content_parts
              else
                let part := if remaining_chars <? zlength part then stake (Z.to_nat remaining_chars) part else part in
                add_parts max_chars max_age_days refs' (content_parts ++ [part]) (current_chars + (zlength part + join_len))
        end
  end.
Definition load_hot_context (list_notes : res (list string)) (max_chars max_age_days : Z) (sources : option (list string)) : string :=
  match list_notes with
  | Raise _ => EmptyString
  | Ok all_notes =>
      sjoin nl (add_parts max_chars max_age_days (matching (default default_sources sources) all_notes) [] 0)
  end.
End hot_context.

(** Parts shown for a sublist of references, each in its frame. *)
Definition hot_parts (read_note : string → res note) (stale : string → note → bool) (refs parts : list string) : Prop :=
  ∃ used, sublist used refs ∧
    Forall2 (λ ref part, ∃ n k, read_note ref = Ok n ∧ stale ref n = false ∧ note_content n ≠ EmptyString ∧
                              part = stake k (part_of ref (note_content n))) used parts.

Lemma elem_existsb (x : string) l : existsb (String.eqb x) l = true ↔ x ∈ l.
Proof.
  rewrite existsb_exists. split.
  - intros (y & Hy & ->%String.eqb_eq). by apply list_elem_of_In.
  - intros H. exists x. split; [by apply list_elem_of_In|apply String.eqb_refl].
Qed.
Definition matches_source (src r : string) : Prop := truthy r = true ∧ fnmatch r src = true.

Lemma add_matching_spec src refs : ∀ acc, NoDup acc → NoDup (add_matching src refs acc) ∧
  ∀ r, r ∈ add_matching src refs acc ↔ r ∈ acc ∨ (r ∈ refs ∧ matches_source src r).
Proof.
  induction refs as [|ref refs IH]; intros acc Hn; cbn [add_matching].
  { split; [done|]. intros r. split; [by left|]. intros [?|[H _]]; [done|]. by apply not_elem_of_nil in H. }
  destruct (truthy ref && fnmatch ref src) eqn:Em; cbn [andb].
  - apply andb_true_iff in Em as [Et Ef]. assert (matches_source src ref) as Hm by done.
    destruct (existsb (String.eqb ref) acc) eqn:Ee; cbn [negb].
    + apply elem_existsb in Ee. destruct (IH acc Hn) as [H1 H2]. split; [done|]. intros r. rewrite H2, elem_of_cons.
      split; [intros [?|[? ?]]; [by left|right; by split; [right|]]|].
      intros [?|[[->|?] ?]]; [by left|by left|by right].
    + assert (ref ∉ acc) as Hnin by (rewrite <-elem_existsb; congruence).
      destruct (IH (acc ++ [ref])) as [H1 H2].
      { apply NoDup_app. split_and!; [done| |apply NoDup_singleton]. intros x Hx ->%list_elem_of_singleton. done. }
      split; [done|]. intros r. rewrite H2, elem_of_app, list_elem_of_singleton, elem_of_cons.
      split; [intros [[?| ->]|[? ?]]; [by left|right; by split; [left|]|right; by split; [right|]]|].
      intros [?|[[->|?] ?]]; [by left; left|by left; right|by right].
  - destruct (IH acc Hn) as [H1 H2]. split; [done|]. intros r. rewrite H2, elem_of_cons.
    split; [intros [?|[? ?]]; [by left|right; by split; [right|]]|].
    intros [?|[[->|?] [Ht Hf]]]; [by left| |by right]. rewrite Ht, Hf in Em. done.
Qed.
Lemma matching_spec sources refs : NoDup (matching sources refs) ∧
  ∀ r, r ∈ matching sources refs ↔ r ∈ refs ∧ ∃ src, src ∈ sources ∧ matches_source src r.
Proof.
  unfold matching. assert (∀ acc, NoDup acc →
    NoDup (foldl (λ m src, add_matching src refs m) acc sources) ∧
    ∀ r, r ∈ foldl (λ m src, add_matching src refs m) acc sources ↔
         r ∈ acc ∨ (r ∈ refs ∧ ∃ src, src ∈ sources ∧ matches_source src r)) as H.
  { induction sources as [|s sources IH]; intros acc Hn; simpl.
    - split; [done|]. intros r. split; [by left|]. intros [?|(_ & ? & H & _)]; [done|]. by apply not_elem_of_nil in H.
    - destruct (add_matching_spec s refs acc Hn) as [Hn' Hs]. destruct (IH _ Hn') as [H1 H2]. split; [done|].
      intros r. rewrite H2, Hs. split.
      + intros [[?|[? ?]]|(? & src & ? & ?)]; [by left|right; split; [done|]; exists s; by split; [left|]|].
        right. split; [done|]. exists src. by split; [right|].
      + intros [?|(? & src & [->|?]%elem_of_cons & ?)]; [by left; left|by left; right|]. right. split; [done|]. by exists src. }
  destruct (H [] (NoDup_nil_2)) as [H1 H2]. split; [done|]. intros r. rewrite H2. split; [|by right].
  intros [Hr|Hr]; [by apply not_elem_of_nil in Hr|done].
Qed.

Section bounded.
Context (read_note : string → res note) (now : spec_float) (vault_mtime : option (string → option spec_float))
  (timestamp : string → option spec_float) (max_chars max_age_days : Z).
Notation stale := (too_old now vault_mtime timestamp max_age_days).

Lemma zlength_app a b : zlength (a +:+ b) = zlength a + zlength b.
Proof. unfold zlength. rewrite slen_app. lia. Qed.
Lemma stake_all s : stake (String.length s) s = s.
Proof. induction s as [|c s IH]; simpl; [done|by rewrite IH]. Qed.
Lemma zlength_stake k s : zlength (stake k s) = Z.min (Z.of_nat k) (zlength s).
Proof. unfold zlength. rewrite slen_stake. lia. Qed.
Lemma part_of_pos ref content : 0 < zlength (part_of ref content).
Proof. unfold part_of. rewrite zlength_app. change (zlength "--- BEGIN ") with 10. unfold zlength. lia. Qed.

(** The parts so far, their joined length and the notes they show. *)
Definition parts_ok (used parts : list string) (current_chars : Z) : Prop :=
  zlength (sjoin nl parts) = current_chars ∧ (parts = [] → current_chars = 0) ∧ (parts ≠ [] → 0 < current_chars) ∧
  current_chars ≤ Z.max 0 max_chars ∧
  Forall2 (λ ref part, ∃ n k, read_note ref = Ok n ∧ stale ref n = false ∧ note_content n ≠ EmptyString ∧
                            part = stake k (part_of ref (note_content n))) used parts.

Lemma parts_ok_snoc used parts c ref n k :
  parts_ok used parts c → read_note ref = Ok n → stale ref n = false → note_content n ≠ EmptyString →
  let part := stake k (part_of ref (note_content n)) in
  0 < zlength part → zlength part + (if 0 <? c then 1 else 0) ≤ max_chars - c →
  parts_ok (used ++ [ref]) (parts ++ [part]) (c + (zlength part + (if 0 <? c then 1 else 0))).
Proof.
  intros (Hc & H0 & Hpos & Hmax & Hall) Hr Hs Hn part Hp Hfit. split_and!.
  - destruct parts as [|x l] eqn:E.
    + rewrite (H0 eq_refl). simpl. lia.
    + rewrite <-E in *. rewrite sjoin_snoc, !zlength_app, Hc by (by rewrite E). change (zlength nl) with 1.
      assert (0 < c) by (apply Hpos; by rewrite E). destruct (Z.ltb_spec 0 c); lia.
  - intros H. by destruct parts.
  - intros _. assert (0 ≤ c) by (rewrite <-Hc; unfold zlength; lia). destruct (Z.ltb_spec 0 c); lia.
  - lia.
  - apply Forall2_app; [done|]. repeat constructor. by exists n, k.
Qed.
Lemma add_parts_ok refs : ∀ used parts c, parts_ok used parts c →
  ∃ used' parts', add_parts read_note now vault_mtime timestamp max_chars max_age_days refs parts c = parts' ∧
    sublist used' refs ∧ ∃ c', parts_ok (used ++ used') parts' c'.
Proof.
  induction refs as [|ref refs IH]; intros used parts c Hok; cbn [add_parts].
  { exists [], parts. rewrite app_nil_r. split_and!; [done|constructor|by exists c]. }
  assert (∃ used' parts', parts = parts' ∧ sublist used' (ref :: refs) ∧ ∃ c', parts_ok (used ++ used') parts' c') as Hstop.
  { exists [], parts. rewrite app_nil_r. split_and!; [done|apply sublist_nil_l|by exists c]. }
  assert (∀ parts', (∃ used' parts'', parts' = parts'' ∧ sublist used' refs ∧ ∃ c', parts_ok (used ++ used') parts'' c') →
    ∃ used' parts'', parts' = parts'' ∧ sublist used' (ref :: refs) ∧ ∃ c', parts_ok (used ++ used') parts'' c') as Hskip.
  { intros parts' (u & p & -> & Hs & Hc). exists u, p. split_and!; [done|by apply sublist_cons|done]. }
  destruct (Z.leb_spec max_chars c) as [|Hlt]; [done|].
  destruct (read_note ref) as [n|] eqn:Er; [|by apply Hskip, IH].
  destruct (stale ref n) eqn:Es; cbn [orb]; [by apply Hskip, IH|].
  destruct (truthy (note_content n)) eqn:Et; cbn [negb]; [|by apply Hskip, IH].
  assert (note_content n ≠ EmptyString) as Hne by (by intros E; rewrite E in Et).
  destruct (Z.leb_spec (max_chars - c - (if 0 <? c then 1 else 0)) 0) as [|Hrem]; [done|].
  pose proof (part_of_pos ref (note_content n)) as Hpos.
  set (part := if _ <? zlength _ then _ else _).
  assert (∃ k, part = stake k (part_of ref (note_content n)) ∧ 0 < zlength part ∧
               zlength part ≤ max_chars - c - (if 0 <? c then 1 else 0)) as (k & Hk & Hp1 & Hp2).
  { unfold part. destruct (Z.ltb_spec (max_chars - c - (if 0 <? c then 1 else 0)) (zlength (part_of ref (note_content n)))).
    - eexists. split; [reflexivity|]. rewrite zlength_stake. lia.
    - exists (String.length (part_of ref (note_content n))). split; [by rewrite stake_all|lia]. }
  clearbody part. subst part.
  destruct (IH (used ++ [ref]) (parts ++ [stake k (part_of ref (note_content n))])
      (c + (zlength (stake k (part_of ref (note_content n))) + (if 0 <? c then 1 else 0)))) as (u & p & Hp & Hs & c' & Hok').
  { apply (parts_ok_snoc used parts c ref n k); try done. lia. }
  exists (ref :: u), p. split_and!; [done|by apply sublist_skip|]. exists c'. by rewrite <-app_assoc in Hok'.
Qed.
End bounded.

(** The hot context fits its budget, and is a sequence of parts, one per note in
    the order of the listing by sources: each is a listed note that matches a
    source and is read, not too old and not empty, in its frame, possibly cut at
    the end. *)
Theorem hot_context_bounded read_note (now : spec_float) vault_mtime timestamp list_notes max_chars max_age_days sources :
  let text := load_hot_context read_note now vault_mtime timestamp list_notes max_chars max_age_days sources in
  zlength text ≤ Z.max 0 max_chars ∧
  ∃ parts refs, text = sjoin nl parts ∧
    hot_parts read_note (too_old now vault_mtime timestamp max_age_days) refs parts ∧ NoDup refs ∧
    ∀ r, r ∈ refs → (∃ listed, list_notes = Ok listed ∧ r ∈ listed) ∧
                    ∃ src, src ∈ default default_sources sources ∧ matches_source src r.
Proof.
  unfold load_hot_context. destruct list_notes as [listed|].
  2:{ split; [unfold zlength; simpl; lia|]. exists [], []. split_and!; [done| |constructor|].
      - exists []. split; constructor.
      - intros r H. by apply not_elem_of_nil in H. }
  destruct (matching_spec (default default_sources sources) listed) as [Hnd Hm].
  destruct (add_parts_ok read_note now vault_mtime timestamp max_chars max_age_days
    (matching (default default_sources sources) listed) [] [] 0) as (used & parts & -> & Hs & c & Hc & _ & _ & Hmax & Hall).
  { split_and!; [done|done|done|lia|constructor]. }
  split; [by rewrite Hc|]. exists parts, (matching (default default_sources sources) listed).
  split_and!; [done|by exists used|done|]. intros r [Hr Hsrc]%Hm. split; [by exists listed|done].
Qed.

(** ** Trimming a conversation (summarize.py)

    A message's content is a text or a list of blocks. *)
Record message := mkMessage { msg_type : string; msg_content : pyval; msg_id : option string }.

Definition approximate_tokens (length : Z) : Z := length / 4.
(** [len(x)] *)
Definition py_len (v : pyval) : res Z :=
  match v with
  | VStr s => Ok (zlength s)
  | VList l => Ok (Z.of_nat (length l))
  | VDict d => Ok (Z.of_nat (length d))
  | _ => Raise (TypeError "object has no len()")
  end.
Definition block_tokens (block : pyval) : res Z :=
  match block with
  | VStr s => Ok (approximate_tokens (zlength s))
  | VDict d => match dget "text" d with
               | Some text => n ← py_len text; Ok (approximate_tokens n)
               | None => Ok 0
               end
  | _ => Ok 0
  end.
Definition zsum (l : list Z) : Z := foldr Z.add 0 l.
Definition message_tokens (m : message) : res Z :=
  match msg_content m with
  | VStr s => Ok (approximate_tokens (zlength s))
  | VList blocks => counts ← res_all (map block_tokens blocks); Ok (zsum counts)
  | _ => Ok 0
  end.
Definition count_message_tokens (messages : list message) : res Z :=
  counts ← res_all (map message_tokens messages); Ok (zsum counts).

Definition turn (m : message) : string := "[" +:+ msg_type m +:+ "]: " +:+ py_str (msg_content m) +:+ nl.
Definition summary_prompt (existing_summary : option string) (old_messages : list message) : string :=
  "Summarize the following conversation history." +:+ nl
  +:+ (match existing_summary with
       | Some s => if truthy s then "Existing Summary:" +:+ nl +:+ s +:+ nl +:+ nl else EmptyString
       | None => EmptyString
       end)
  +:+ "New conversation turns to summarize:" +:+ nl +:+ sjoin EmptyString (map turn old_messages).
Definition removable (m : message) : option string :=
  match msg_id m with Some i => if truthy i then Some i else None | None => None end.

Definition summarize_and_trim (messages : list message) (existing_summary : option string)
    (threshold_tokens keep_recent_n : Z) (summarizer : string → res string)
    : res (option string * list message * list string) :=
  total_tokens ← count_message_tokens messages;
  let n := Z.of_nat (length messages) in
  if (total_tokens <? threshold_tokens) || (n <=? keep_recent_n) then Ok (existing_summary, messages, [])
  else
    let split_idx := n - keep_recent_n in
    if split_idx <=? 0 then Ok (existing_summary, messages, [])
    else
      let old_messages := take (Z.to_nat split_idx) messages in
      new_summary ← summarizer (summary_prompt existing_summary old_messages);
      Ok (Some new_summary, drop (Z.to_nat split_idx) messages, omap removable old_messages).

Lemma contains_app_r p a b : contains p b = true → contains p (a +:+ b) = true.
Proof. rewrite !contains_iff. intros (x & y & ->). exists (a +:+ x), y. by rewrite sapp_assoc. Qed.
Lemma contains_here p s : contains p (p +:+ s) = true.
Proof. apply contains_iff. by exists EmptyString, s. Qed.

(** Trimming keeps the most recent messages and removes a prefix of the others:
    what is kept and what is removed make up the conversation, and the removed
    messages are in the text that was summarised. *)
Theorem summarize_and_trim_spec messages existing_summary threshold_tokens keep_recent_n summarizer summary kept removed :
  0 ≤ keep_recent_n →
  summarize_and_trim messages existing_summary threshold_tokens keep_recent_n summarizer = Ok (summary, kept, removed) →
  ∃ old, messages = old ++ kept ∧ removed = omap removable old ∧
    (old = [] ∧ summary = existing_summary ∨
     Z.of_nat (length kept) = keep_recent_n ∧ old ≠ [] ∧
     (∃ total, count_message_tokens messages = Ok total ∧ threshold_tokens ≤ total) ∧
     ∃ s, summary = Some s ∧ summarizer (summary_prompt existing_summary old) = Ok s ∧
       ∀ m, m ∈ old → contains (turn m) (summary_prompt existing_summary old) = true).
Proof.
  intros Hk. unfold summarize_and_trim. destruct (count_message_tokens messages) as [total|] eqn:Et; cbn [mbind res_bind]; [|done].
  destruct (Z.ltb_spec total threshold_tokens); destruct (Z.leb_spec (Z.of_nat (length messages)) keep_recent_n); cbn [orb];
    try (intros [= <- <- <-]; exists []; split_and!; [done|done|by left]).
  destruct (Z.leb_spec (Z.of_nat (length messages) - keep_recent_n) 0); [lia|].
  set (k := Z.to_nat _). destruct (summarizer _) as [s|] eqn:Es; cbn [mbind res_bind]; [|done]. intros [= <- <- <-].
  exists (take k messages). split_and!; [by rewrite take_drop|done|]. right. split_and!.
  - rewrite length_drop. lia.
  - intros E. apply (f_equal length) in E. rewrite length_take in E. simpl in E. lia.
  - exists total. split; [done|lia].
  - exists s. split_and!; [done|done|]. intros m Hm. 
    apply list_elem_of_split in Hm as (l1 & l2 & ->). unfold summary_prompt. rewrite map_app. cbn [map].
    assert (∀ a b x, sjoin EmptyString (a ++ x :: b) = sjoin EmptyString a +:+ x +:+ sjoin EmptyString b) as Hj.
    { induction a as [|y a IH]; intros b x; [by destruct b; simpl; rewrite ?sapp_nil_r|].
      destruct a as [|z a]; [destruct b; simpl; by rewrite ?sapp_nil_r|].
      change (sjoin EmptyString ((y :: z :: a) ++ x :: b)) with (y +:+ EmptyString +:+ sjoin EmptyString ((z :: a) ++ x :: b)).
      rewrite IH. change (sjoin EmptyString (y :: z :: a)) with (y +:+ EmptyString +:+ sjoin EmptyString (z :: a)).
      by rewrite !sapp_assoc. }
    rewrite Hj. do 6 apply contains_app_r. apply contains_here.
Qed.
Lemma summarize_and_trim_spec_witness :
  let m i := mkMessage "human" (VStr "0123456789") (Some i) in
  let '(kept, removed) := ([m "b"; m "c"], ["a"%string]) in
  summarize_and_trim [m "a"; m "b"; m "c"] None 3 2 (λ p, Ok "short") = Ok (Some "short"%string, kept, removed) ∧
  ∃ old, [m "a"; m "b"; m "c"] = old ++ kept ∧ removed = omap removable old.
Proof.
  intros m. split; [vm_compute; reflexivity|].
  destruct (summarize_and_trim_spec [m "a"; m "b"; m "c"] None 3 2 (λ p, Ok "short"%string) (Some "short"%string) [m "b"; m "c"] ["a"%string])
    as (old & H1 & H2 & _); [lia|vm_compute; reflexivity|]. exists old. by split.
Defined.
