(* ===== verification/Runs.v ===== *)
(** * The run ledger (agent_os/runs.py, agent_os/stores/sqlite_runs.py)

    Three tables: the runs, their events and their approvals.  Every function
    of the module is one SQLite transaction; [now] is the ISO timestamp it
    takes and [run_id] the fresh uuid.  [SqliteRunStore] forwards to these
    functions, so its methods are theirs. *)
From S2P Require Export Json Table.

Record run_row := mkRun {
  run_id : string;
  thread_id : string;
  workspace : option string;
  ws_id : option string;
  status : string;
  task : option string;
  created_by : option string;
  created_by_kind : option string;
  run_created_at : string;
  run_updated_at : string;
  ended_at : option string;
  run_error : option string }.

Record event_row := mkEvent {
  ev_run_id : string;
  ev_seq : Z;
  ev_ts : string;
  ev_kind : string;
  ev_payload : string }.

Record approval_row := mkApproval {
  apr_run_id : string;
  apr_seq : Z;
  apr_decision : string;
  apr_actor_id : string;
  apr_actor_kind : string;
  apr_on_behalf_of : option string;
  apr_reason : option string;
  apr_decided_at : string }.

Record ledger := mkLedger {
  runs : list run_row;
  run_events : list event_row;
  run_approvals : list approval_row }.

Definition TERMINAL_RUN_STATUSES : list string := ["completed"; "error"; "cancelled"].
Definition terminal (s : string) : bool := existsb (String.eqb s) TERMINAL_RUN_STATUSES.

(** The identity of an actor (agent_os/principal.py). *)
Record Principal := mkPrincipal {
  pr_id : string;
  pr_kind : string;
  pr_display : string;
  pr_on_behalf_of : option string }.

Definition or_else {A} (a b : option A) : option A := match a with Some x => Some x | None => b end.

Definition create_run (uuid now thread_id : string) (workspace task workspace_id created_by
    created_by_kind : option string) (principal : option Principal) (L : ledger)
    : res (string * ledger) :=
  let creator := match principal with Some p => Some (pr_id p) | None => created_by end in
  let kind := match principal with Some p => Some (pr_kind p) | None => created_by_kind end in
  match select_one (has_key run_id uuid) (runs L) with
  | Some _ => Raise (IntegrityError "UNIQUE constraint failed: runs.run_id")
  | None =>
      Ok (uuid, mkLedger (runs L ++ [mkRun uuid thread_id (or_else workspace workspace_id)
                                       (or_else workspace_id workspace) "queued" task creator kind
                                       now now None None])
                  (run_events L) (run_approvals L))
  end.

(** [SELECT COALESCE(MAX(seq), 0) + 1 ... WHERE run_id = ?] *)
Definition next_seq {A} (rid : A → string) (seq : A → Z) (r : string) (rows : list A) : Z :=
  foldr Z.max 0 (map seq (select (has_key rid r) rows)) + 1.

Definition append_event (now r kind : string) (payload : pydict) (L : ledger)
    : res (Z * ledger) :=
  serialized ← dumps (VDict payload);
  let seq := next_seq ev_run_id ev_seq r (run_events L) in
  Ok (seq, mkLedger (runs L) (run_events L ++ [mkEvent r seq now kind serialized])
             (run_approvals L)).

(** The two UPDATE statements: with [ended_at] or without. *)
Definition update_run (now st : string) (error : option string) (ended : bool) (row : run_row)
    : run_row :=
  mkRun (run_id row) (thread_id row) (workspace row) (ws_id row) st (task row)
    (created_by row) (created_by_kind row) (run_created_at row) now
    (if ended then Some now else ended_at row) error.

Definition set_runs (rs : list run_row) (L : ledger) : ledger :=
  mkLedger rs (run_events L) (run_approvals L).

Definition set_status (now r st : string) (error : option string) (ended : bool) (L : ledger)
    : ledger :=
  set_runs (update_where (has_key run_id r) (update_run now st error ended) (runs L)) L.

Definition in_status (r expected : string) (row : run_row) : bool :=
  has_key run_id r row && String.eqb (status row) expected.

Definition transition_status (now r expected st : string) (error : option string) (ended : bool)
    (L : ledger) : bool * ledger :=
  ((rowcount (in_status r expected) (runs L) =? 1)%nat,
   set_runs (update_where (in_status r expected) (update_run now st error ended) (runs L)) L).

Definition add_approval (now r decision actor_id actor_kind : string)
    (on_behalf_of reason : option string) (L : ledger) : Z * ledger :=
  let seq := next_seq apr_run_id apr_seq r (run_approvals L) in
  (seq, mkLedger (runs L) (run_events L)
          (run_approvals L ++ [mkApproval r seq decision actor_id actor_kind on_behalf_of reason now])).

Definition record_approval (now r decision actor_id actor_kind : string)
    (on_behalf_of reason : option string) (L : ledger) : res (Z * ledger) :=
  match select_one (has_key run_id r) (runs L) with
  | None => Raise (KeyError ("Run '" +:+ r +:+ "' not found"))
  | Some _ => Ok (add_approval now r decision actor_id actor_kind on_behalf_of reason L)
  end.

Definition record_approval_and_transition (now r decision actor_id actor_kind : string)
    (on_behalf_of reason : option string) (expected st : string) (error : option string)
    (ended : bool) (L : ledger) : bool * ledger :=
  match select_one (has_key run_id r) (runs L) with
  | None => (false, L)
  | Some row =>
      if negb (String.eqb (status row) expected) then (false, L)
      else
        let '(_, L1) := add_approval now r decision actor_id actor_kind on_behalf_of reason L in
        (true, set_runs (update_where (in_status r expected) (update_run now st error ended) (runs L1)) L1)
  end.

(** The UPDATE of a cancellation keeps [error]. *)
Definition cancel_run (now : string) (row : run_row) : run_row :=
  mkRun (run_id row) (thread_id row) (workspace row) (ws_id row) "cancelled" (task row)
    (created_by row) (created_by_kind row) (run_created_at row) now (Some now) (run_error row).

Definition record_cancellation_and_transition (now r actor_id actor_kind : string)
    (on_behalf_of reason : option string) (L : ledger) : bool * ledger :=
  match select_one (has_key run_id r) (runs L) with
  | None => (false, L)
  | Some row =>
      if terminal (status row) then (false, L)
      else
        let '(_, L1) := add_approval now r "cancelled" actor_id actor_kind on_behalf_of reason L in
        if (rowcount (in_status r (status row)) (runs L1) =? 1)%nat
        then (true, set_runs (update_where (in_status r (status row)) (cancel_run now) (runs L1)) L1)
        else (false, L)
  end.

Definition get_run (r : string) (L : ledger) : option run_row :=
  select_one (has_key run_id r) (runs L).

Definition seq_leb {A} (seq : A → Z) (a b : A) : bool := seq a <=? seq b.

Definition list_approvals (r : string) (L : ledger) : list approval_row :=
  sort_by (seq_leb apr_seq) (select (has_key apr_run_id r) (run_approvals L)).

(** A decoded event: the row with its payload parsed. *)
Record event := mkDecoded { de_seq : Z; de_ts : string; de_kind : string; de_payload : pyval }.

Definition decode_event (e : event_row) : res event :=
  match loads (ev_payload e) with
  | Some v => Ok (mkDecoded (ev_seq e) (ev_ts e) (ev_kind e) v)
  | None => Raise (ValueError "Expecting value")
  end.

Definition list_events (r : string) (after : Z) (L : ledger) : res (list event) :=
  res_all (map decode_event
    (sort_by (seq_leb ev_seq)
       (select (λ e, has_key ev_run_id r e && (after <? ev_seq e)) (run_events L)))).

Definition opt_is (o : option string) (s : string) : bool :=
  match o with Some x => String.eqb x s | None => false end.
Definition created_desc (a b : run_row) : bool := str_leb (run_created_at b) (run_created_at a).

Definition list_runs (st by_workspace by_workspace_id : option string) (lim : Z) (L : ledger)
    : list run_row :=
  let target := or_else by_workspace_id by_workspace in
  limit lim (sort_by created_desc
    (select (λ row, match st with Some s => String.eqb (status row) s | None => true end &&
                    match target with
                    | Some t => opt_is (workspace row) t || opt_is (ws_id row) t
                    | None => true
                    end) (runs L))).

(** ** Contiguous numbering *)
Fixpoint numbered {A} (seq : A → Z) (k : Z) (rows : list A) : Prop :=
  match rows with
  | [] => True
  | r :: rows' => seq r = k ∧ numbered seq (k + 1) rows'
  end.

Section numbered.
Context {A : Type} (rid : A → string) (seq : A → Z).
Implicit Types (rows : list A).

Lemma numbered_snoc k rows r :
numbered seq k (rows ++ [r]) ↔ numbered seq k rows ∧ seq r = k + Z.of_nat (length rows).
Proof.
revert k. induction rows as [|x rows IH]; intros k; simpl; [split; intros; split_and?; lia || tauto|].
rewrite IH. split; intros; split_and?; try tauto; lia.
Qed.

Lemma numbered_bound k rows r : numbered seq k rows → r ∈ rows →
k ≤ seq r < k + Z.of_nat (length rows).
Proof.
revert k. induction rows as [|x rows IH]; intros k; [set_solver|]. simpl.
intros [Hx Hr] [->|Hin]%elem_of_cons; [lia|]. apply (IH (k + 1)) in Hin; [lia|done].
Qed.

Lemma numbered_max k rows : numbered seq k rows → 1 ≤ k →
foldr Z.max 0 (map seq rows) = if (length rows =? 0)%nat then 0 else k + Z.of_nat (length rows) - 1.
Proof.
revert k. induction rows as [|x rows IH]; intros k; simpl; [done|].
intros [-> Hr] Hk. rewrite (IH (k + 1)) by (done || lia). destruct rows; simpl; lia.
Qed.

Lemma numbered_sorted k rows : numbered seq k rows →
StronglySorted (λ a b, seq_leb seq a b = true) rows.
Proof.
revert k. induction rows as [|x rows IH]; intros k; simpl; [by constructor|].
intros [Hx Hr]. constructor; [by eapply IH|]. apply Forall_forall. intros y Hy.
apply (numbered_bound (k + 1)) in Hy; [|done]. unfold seq_leb. apply Z.leb_le. lia.
Qed.

Lemma numbered_after k a rows : numbered seq k rows →
List.filter (λ r, a <? seq r) rows = drop (Z.to_nat (a - k + 1)) rows.
Proof.
revert k. induction rows as [|x rows IH]; intros k; simpl; [by rewrite drop_nil|].
intros [Hx Hr]. rewrite (IH (k + 1)) by done. destruct (Z.ltb_spec a (seq x)).
- replace (Z.to_nat (a - (k + 1) + 1)) with 0%nat by lia.
  by replace (Z.to_nat (a - k + 1)) with 0%nat by lia.
- by replace (Z.to_nat (a - k + 1)) with (S (Z.to_nat (a - (k + 1) + 1))) by lia.
Qed.

Lemma next_seq_numbered r rows : numbered seq 1 (select (has_key rid r) rows) →
next_seq rid seq r rows = Z.of_nat (length (select (has_key rid r) rows)) + 1.
Proof.
intros H. unfold next_seq. rewrite (numbered_max 1) by (done || lia).
destruct (select _ rows); simpl; lia.
Qed.

Lemma numbered_append r r' rows x : rid x = r → seq x = next_seq rid seq r rows →
numbered seq 1 (select (has_key rid r) rows) → numbered seq 1 (select (has_key rid r') rows) →
numbered seq 1 (select (has_key rid r') (rows ++ [x])).
Proof.
intros Hx Hs Hr Hr'. unfold select in *. rewrite List.filter_app. simpl.
unfold has_key at 2. rewrite Hx. destruct (String.eqb_spec r r') as [->|]; [|by rewrite app_nil_r].
apply numbered_snoc. split; [done|]. rewrite Hs, next_seq_numbered by done. unfold select. lia.
Qed.
End numbered.

(** ** The ledger invariant *)
Record ledger_ok (L : ledger) : Prop := {
  ok_runs : keyed run_id (runs L);
  ok_events r : numbered ev_seq 1 (select (has_key ev_run_id r) (run_events L));
  ok_approvals r : numbered apr_seq 1 (select (has_key apr_run_id r) (run_approvals L)) }.

Definition empty_ledger : ledger := mkLedger [] [] [].

(** One call that changes the ledger, by any client. *)
Inductive lstep : ledger → ledger → Prop :=
  | step_create uuid now t w k wi cb cbk p L r L' :
      create_run uuid now t w k wi cb cbk p L = Ok (r, L') → lstep L L'
  | step_event now r kind payload L n L' :
      append_event now r kind payload L = Ok (n, L') → lstep L L'
  | step_status now r st e d L : lstep L (set_status now r st e d L)
  | step_transition now r x st e d L b L' :
      transition_status now r x st e d L = (b, L') → lstep L L'
  | step_approval now r dec a ak ob re L n L' :
      record_approval now r dec a ak ob re L = Ok (n, L') → lstep L L'
  | step_approve now r dec a ak ob re x st e d L b L' :
      record_approval_and_transition now r dec a ak ob re x st e d L = (b, L') → lstep L L'
  | step_cancel now r a ak ob re L b L' :
      record_cancellation_and_transition now r a ak ob re L = (b, L') → lstep L L'.

Lemma set_runs_ok p f L : (∀ row, run_id (f row) = run_id row) → ledger_ok L →
  ledger_ok (set_runs (update_where p f (runs L)) L).
Proof. intros Hf [H1 H2 H3]. split; [by apply keyed_update|done|done]. Qed.

Lemma add_approval_ok now r dec a ak ob re L : ledger_ok L →
  ledger_ok (add_approval now r dec a ak ob re L).2.
Proof. intros [H1 H2 H3]. split; [done|done|]. intros r'. by apply (numbered_append _ _ r). Qed.

Lemma keyed_rowcount r st rows : keyed run_id rows →
  (rowcount (in_status r st) rows ≤ 1)%nat ∧
  (rowcount (in_status r st) rows = 1%nat ↔
   ∃ row, select_one (has_key run_id r) rows = Some row ∧ status row = st).
Proof.
  unfold keyed, rowcount, in_status. induction rows as [|x rows IH]; simpl.
  { intros _. split; [lia|]. split; [done|by intros (?&[=]&_)]. }
  intros [Hx Hn]%NoDup_cons. destruct (IH Hn) as [Hle Hiff].
  destruct (has_key run_id r x) eqn:Hk; simpl; [|done].
  assert (List.filter (λ row, has_key run_id r row && String.eqb (status row) st) rows = []) as Hnil.
  { destruct (List.filter _ rows) as [|y ys] eqn:E; [done|]. exfalso.
    assert (y ∈ y :: ys) as Hy by left. rewrite <-E in Hy. apply list_elem_of_In, filter_In in Hy as [Hy Hp].
    apply andb_true_iff in Hp as [Hp _]. unfold has_key in *. bool_prop. apply Hx.
    apply list_elem_of_In, in_map_iff. exists y. split; [congruence|done]. }
  destruct (String.eqb_spec (status x) st) as [He|He]; simpl; rewrite Hnil; simpl.
  - split; [lia|]. split; [|done]. intros _. by exists x.
  - split; [lia|]. split; [done|]. by intros (row & [= <-] & ?).
Qed.

Lemma lstep_ok L L' : lstep L L' → ledger_ok L → ledger_ok L'.
Proof.
  intros H Hok. destruct H as
    [uuid now t w k wi cb cbk p L r L' H|now r kind payload L n L' H|now r st e d L
    |now r x st e d L b L' H|now r dec a ak ob re L n L' H|now r dec a ak ob re x st e d L b L' H
    |now r a ak ob re L b L' H].
  - unfold create_run in H. destruct (select_one _ _) eqn:E; [done|]. injection H as <- <-.
    destruct Hok as [H1 H2 H3]. split; [|done|done]. apply keyed_snoc; [done|].
    by rewrite to_map_select.
  - apply res_bind_ok in H as (s & _ & [= <- <-]). destruct Hok as [H1 H2 H3].
    split; [done| |done]. intros r'. by apply (numbered_append _ _ r).
  - by apply set_runs_ok.
  - injection H as _ <-. by apply set_runs_ok.
  - unfold record_approval in H. destruct (select_one _ _); [|done]. injection H as _ <-.
    exact (add_approval_ok now r dec a ak ob re L Hok).
  - unfold record_approval_and_transition in H. destruct (select_one _ _); [|by injection H as _ <-].
    destruct (negb _); [by injection H as _ <-|].
    pose proof (add_approval_ok now r dec a ak ob re L Hok) as Ha.
    destruct (add_approval _ _ _ _ _ _ _ _) as [sq L1]. injection H as _ <-. by apply set_runs_ok.
  - unfold record_cancellation_and_transition in H.
    destruct (select_one _ _); [|by injection H as _ <-].
    destruct (terminal _); [by injection H as _ <-|].
    pose proof (add_approval_ok now r "cancelled" a ak ob re L Hok) as Ha.
    destruct (add_approval _ _ _ _ _ _ _ _) as [sq L1].
    destruct (_ =? _)%nat; injection H as _ <-; [by apply set_runs_ok|done].
Qed.

(** C33. Every call of the ledger keeps it well formed, from the empty ledger
    on: run ids stay unique, and the events and the approvals of each run are
    numbered 1, 2, 3, ... in the order they were written, without a gap or a
    duplicate. *)
Theorem ledger_ok_reachable L : rtc lstep empty_ledger L → ledger_ok L.
Proof.
  intros H. assert (ledger_ok empty_ledger) as H0 by (split; [constructor|done|done]).
  induction H; eauto using lstep_ok.
Qed.

(** ** Events *)
Definition events_of (r : string) (L : ledger) : list event_row :=
  select (has_key ev_run_id r) (run_events L).

Lemma filter_and {A} (p q : A → bool) (l : list A) :
  List.filter (λ x, p x && q x) l = List.filter q (List.filter p l).
Proof.
  induction l as [|x l IH]; simpl; [done|]. destruct (p x); simpl; [|done].
  destruct (q x); by rewrite IH.
Qed.

Lemma seq_leb_total {A} (seq : A → Z) x y : seq_leb seq x y = false → seq_leb seq y x = true.
Proof. unfold seq_leb. rewrite Z.leb_gt, Z.leb_le. lia. Qed.
Lemma seq_leb_trans {A} (seq : A → Z) x y z :
  seq_leb seq x y = true → seq_leb seq y z = true → seq_leb seq x z = true.
Proof. unfold seq_leb. rewrite !Z.leb_le. lia. Qed.

(** The listing is the tail of the run's events, in order. *)
Lemma list_events_drop r a L : ledger_ok L →
  list_events r a L = res_all (map decode_event (drop (Z.to_nat a) (events_of r L))).
Proof.
  intros [_ He _]. unfold list_events, events_of, select in *. rewrite filter_and.
  rewrite (numbered_after ev_seq 1) by apply He.
  replace (a - 1 + 1) with a by lia. do 2 f_equal. apply sort_by_id.
  specialize (He r). apply numbered_sorted in He. revert He. generalize (Z.to_nat a). clear.
  intros n H. revert n. induction H as [|x l Hl IH Hx]; intros [|n]; simpl; try constructor; auto.
Qed.

Lemma res_all_app {A} (l1 l2 : list (res A)) :
  res_all (l1 ++ l2) = a ← res_all l1; b ← res_all l2; Ok (a ++ b).
Proof.
  induction l1 as [|x l1 IH]; simpl; [by destruct (res_all l2)|].
  destruct x; simpl; [|done]. rewrite IH. destruct (res_all l1); simpl; [|done].
  by destruct (res_all l2).
Qed.

(** An appended event is what a reader gets: a listing after any earlier
    sequence number ends with it, under the next number and with the payload
    that was appended; a listing from its number on is empty; other runs'
    listings do not change. *)
Theorem append_event_listed now r kind payload L n L' es a :
  ledger_ok L → append_event now r kind payload L = Ok (n, L') → json_ok (VDict payload) = true →
  0 ≤ a < n → list_events r a L = Ok es →
  n = Z.of_nat (length (events_of r L)) + 1 ∧
  list_events r a L' = Ok (es ++ [mkDecoded n now kind (VDict payload)]) ∧
  (∀ a', n ≤ a' → list_events r a' L' = Ok []) ∧
  (∀ r' a', r' ≠ r → list_events r' a' L' = list_events r' a' L).
Proof.
  intros Hok Ha Hp Hn Hes.
  assert (ledger_ok L') as Hok'.
  { unfold append_event in Ha. apply res_bind_ok in Ha as (s & _ & [= <- <-]).
    destruct Hok as [H1 H2 H3]. split; [done| |done]. intros r'. by apply (numbered_append _ _ r). }
  apply res_bind_ok in Ha as (s & Hs & [= Hn' HL']).
  assert (n = Z.of_nat (length (events_of r L)) + 1) as Hlen.
  { rewrite <-Hn'. apply next_seq_numbered, ok_events, Hok. }
  assert (∀ r', events_of r' L' = events_of r' L ++
            if String.eqb r r' then [mkEvent r n now kind s] else []) as Hev.
  { intros r'. rewrite <-HL'. unfold events_of, select. simpl. rewrite List.filter_app. simpl.
    unfold has_key at 2. simpl. rewrite Hn'. by destruct (String.eqb r r'). }
  split; [done|]. rewrite !list_events_drop in * by done. split_and!.
  - rewrite Hev, String.eqb_refl, drop_app_le by (unfold events_of in *; lia).
    rewrite map_app, res_all_app, Hes. simpl. unfold decode_event at 1. simpl.
    by rewrite (loads_dumps _ _ Hs Hp).
  - intros a' Ha'. rewrite list_events_drop, drop_ge; [done| |done].
    rewrite Hev, String.eqb_refl, length_app. simpl. lia.
  - intros r' a' Hne. rewrite !list_events_drop by done. rewrite Hev.
    destruct (String.eqb_spec r r'); [congruence|]. by rewrite app_nil_r.
Qed.

(** ** Compare-and-set transitions *)
Definition run_status (r : string) (L : ledger) : option string := status <$> get_run r L.

Lemma update_other p f rows r : (∀ row, run_id (f row) = run_id row) →
  (∀ row, p row = true → run_id row ≠ r) →
  select_one (has_key run_id r) (update_where p f rows) = select_one (has_key run_id r) rows.
Proof.
  intros Hf Hp. induction rows as [|x rows IH]; simpl; [done|]. unfold has_key in *.
  destruct (p x) eqn:E.
  - rewrite Hf, (proj2 (String.eqb_neq _ _) (Hp x E)). done.
  - by destruct (String.eqb (run_id x) r).
Qed.

Lemma update_this r st f rows row : (∀ row, run_id (f row) = run_id row) →
  select_one (has_key run_id r) rows = Some row → status row = st →
  select_one (has_key run_id r) (update_where (in_status r st) f rows) = Some (f row).
Proof.
  intros Hf. induction rows as [|x rows IH]; simpl; [done|]. unfold in_status, has_key in *.
  destruct (String.eqb (run_id x) r) eqn:E; simpl.
  - intros [= ->] ->. by rewrite String.eqb_refl, Hf, E.
  - intros H1 H2. rewrite E. by apply IH.
Qed.

Lemma update_frame r r' st f L : (∀ row, run_id (f row) = run_id row) → r' ≠ r →
  get_run r' (set_runs (update_where (in_status r st) f (runs L)) L) = get_run r' L.
Proof.
  intros Hf Hne. apply update_other; [done|]. intros row H. unfold in_status, has_key in H.
  apply andb_true_iff in H as [H _]. bool_prop. congruence.
Qed.

Lemma next_seq_above {A} (rid : A → string) (seq : A → Z) r (rows : list A) x :
  x ∈ rows → rid x = r → seq x < next_seq rid seq r rows.
Proof.
  unfold next_seq, select. intros Hin Hx. induction rows as [|y rows IH]; [by apply not_elem_of_nil in Hin|].
  apply elem_of_cons in Hin as [<-|Hin]; cbn [List.filter]; unfold has_key at 1.
  - rewrite Hx, String.eqb_refl. cbn [map foldr]. lia.
  - specialize (IH Hin). destruct (String.eqb (rid y) r); cbn [map foldr]; lia.
Qed.

Lemma approval_transition now r dec a ak ob re x st e d L :
  let '(b, L') := record_approval_and_transition now r dec a ak ob re x st e d L in
  (b = true ↔ run_status r L = Some x) ∧ (b = false → L' = L) ∧
  (b = true → run_status r L' = Some st ∧ ∀ r', r' ≠ r → get_run r' L' = get_run r' L).
Proof.
  unfold record_approval_and_transition, run_status, get_run.
  destruct (select_one (has_key run_id r) (runs L)) as [row|] eqn:Hrow; [|by split_and!].
  simpl. destruct (String.eqb_spec (status row) x) as [Hx|Hx]; simpl; [|split_and!; [split; [done|congruence]|done|done]].
  split_and!; [by rewrite Hx|done|]. intros _. rewrite (update_this r x _ (runs L) row) by done. split; [done|].
  intros r' Hr'. by apply (update_frame r r' x _ L).
Qed.

(** C32. Approving is a compare-and-set: it succeeds exactly when the run is in the
    expected status, and then writes one audit record, numbered above those the
    run has, and the new status, time, error and, where asked, end together,
    leaving everything else; otherwise it writes nothing.  Unless the new
    status is the expected one, a second approval of the same run fails. *)
Theorem approval_cas now r dec a ak ob re x st e d L :
  let '(b, L') := record_approval_and_transition now r dec a ak ob re x st e d L in
  (b = true ↔ run_status r L = Some x) ∧
  (b = false → L' = L) ∧
  (b = true → run_events L' = run_events L ∧
     (∃ n, run_approvals L' = run_approvals L ++ [mkApproval r n dec a ak ob re now] ∧
        ∀ p, p ∈ run_approvals L → apr_run_id p = r → apr_seq p < n) ∧
     (∃ row, get_run r L = Some row ∧
        get_run r L' = Some (mkRun (run_id row) (thread_id row) (workspace row) (ws_id row) st (task row) (created_by row)
          (created_by_kind row) (run_created_at row) now (if d then Some now else ended_at row) e)) ∧
     (∀ r', r' ≠ r → get_run r' L' = get_run r' L) ∧
     (st ≠ x → ∀ now' dec' a' ak' ob' re' st' e' d',
        record_approval_and_transition now' r dec' a' ak' ob' re' x st' e' d' L' = (false, L'))).
Proof.
  unfold record_approval_and_transition, run_status, get_run.
  destruct (select_one (has_key run_id r) (runs L)) as [row|] eqn:Hrow; [|by split_and!].
  simpl. destruct (String.eqb_spec (status row) x) as [Hx|Hx]; simpl.
  2:{ split_and!; [split; [done|congruence]|done|done]. }
  split_and!; [by rewrite Hx|done|]. intros _.
  rewrite (update_this r x _ (runs L) row) by done. simpl. split_and!; [done| | | |].
  - eexists. split; [done|]. intros p Hp Hr. by apply next_seq_above.
  - by exists row.
  - intros r' Hr'. by apply (update_frame r r' x _ L).
  - intros Hne now' dec' a' ak' ob' re' st' e' d'. by rewrite (proj2 (String.eqb_neq _ _) Hne).
Qed.

(** Cancelling succeeds exactly for a run that is not over, writes the
    audit record and the status [cancelled] together, and a cancelled run
    cannot be cancelled again nor approved. *)
Theorem cancellation_cas now r a ak ob re L : ledger_ok L →
  let '(b, L') := record_cancellation_and_transition now r a ak ob re L in
  (b = true ↔ ∃ s, run_status r L = Some s ∧ terminal s = false) ∧
  (b = false → L' = L) ∧
  (b = true → run_status r L' = Some "cancelled"%string ∧
     (∃ n, run_approvals L' = run_approvals L ++ [mkApproval r n "cancelled" a ak ob re now]) ∧
     (∀ r', r' ≠ r → get_run r' L' = get_run r' L) ∧
     (∀ now' a' ak' ob' re',
        record_cancellation_and_transition now' r a' ak' ob' re' L' = (false, L')) ∧
     (∀ now' dec' a' ak' ob' re' x st e d, x ≠ "cancelled"%string →
        record_approval_and_transition now' r dec' a' ak' ob' re' x st e d L' = (false, L'))).
Proof.
  intros Hok. unfold record_cancellation_and_transition, record_approval_and_transition, run_status, get_run.
  destruct (select_one (has_key run_id r) (runs L)) as [row|] eqn:Hrow; [|by split_and!; [split; [done|intros (?&[=]&_)]| |]].
  simpl. destruct (terminal (status row)) eqn:Ht; simpl.
  { split_and!; [split; [done|intros (?&[= <-]&?); congruence]|done|done]. }
  assert (rowcount (in_status r (status row)) (runs L) = 1%nat) as ->.
  { apply keyed_rowcount; [apply Hok|]. by exists row. }
  split_and!; [split; simpl; eauto|done|]. intros _. cbn [runs set_runs].
  rewrite (update_this r (status row) _ (runs L) row) by done.
  split_and!; [done|simpl; eauto| |done|].
  - intros r' Hr'. by apply (update_frame r r' (status row) _ L).
  - intros ?????? x st e d Hx. change (status (cancel_run now row)) with "cancelled"%string.
    by rewrite (proj2 (String.eqb_neq _ _) (not_eq_sym Hx)).
Qed.

(** ** Witnesses *)
Definition sample_row : run_row :=
  mkRun "r1" "th" None None "interrupted" (Some "task"%string) None None "t0" "t0" None None.
Definition sample : ledger := mkLedger [sample_row] [] [].

Lemma sample_ok : ledger_ok sample.
Proof. split; [repeat constructor; set_solver|done|done]. Qed.

(** A run is created, gets two events and is approved. *)
Definition written {A} (r : res (A * ledger)) : ledger := match r with Ok (_, L) => L | Raise _ => empty_ledger end.
Definition ledger1 : ledger := written (create_run "r1" "t0" "th" None (Some "task"%string) None None None None empty_ledger).
Definition ledger2 : ledger := written (append_event "t1" "r1" "node" [] ledger1).
Definition ledger3 : ledger := written (append_event "t2" "r1" "interrupt" [] ledger2).
Definition ledger4 : ledger := written (record_approval "t3" "r1" "approved" "op" "human" None None ledger3).
Lemma ledger_ok_reachable_witness :
  (map ev_seq (run_events ledger4), map apr_seq (run_approvals ledger4)) = ([1; 2], [1]) ∧ ledger_ok ledger4.
Proof.
  split; [vm_compute; reflexivity|]. apply ledger_ok_reachable.
  eapply rtc_l; [|eapply rtc_l; [|eapply rtc_l; [|eapply rtc_once]]].
  - eapply (step_create "r1" "t0" "th" None (Some "task"%string) None None None None); vm_compute; reflexivity.
  - eapply (step_event "t1" "r1" "node" []); vm_compute; reflexivity.
  - eapply (step_event "t2" "r1" "interrupt" []); vm_compute; reflexivity.
  - eapply (step_approval "t3" "r1" "approved" "op" "human" None None); vm_compute; reflexivity.
Defined.

Lemma append_event_listed_witness :
  append_event "t1" "r1" "node" [("name", VStr "planner")] sample
    = Ok (1, mkLedger [sample_row]
               [mkEvent "r1" 1 "t1" "node"
                  ("{" +:+ json_string "name" +:+ ": " +:+ json_string "planner" +:+ "}")] []) ∧
  list_events "r1" 0 (mkLedger [sample_row]
               [mkEvent "r1" 1 "t1" "node"
                  ("{" +:+ json_string "name" +:+ ": " +:+ json_string "planner" +:+ "}")] [])
    = Ok [mkDecoded 1 "t1" "node" (VDict [("name", VStr "planner")])].
Proof.
  split; [reflexivity|].
  apply (append_event_listed "t1" "r1" "node" [("name", VStr "planner")] sample 1 _ [] 0);
    [apply sample_ok|reflexivity|reflexivity|lia|reflexivity].
Defined.

Lemma cancellation_cas_witness :
  let '(b, L') := record_cancellation_and_transition "t1" "r1" "op" "human" None None sample in
  b = true ∧ run_status "r1" L' = Some "cancelled"%string.
Proof.
  pose proof (cancellation_cas "t1" "r1" "op" "human" None None sample sample_ok) as T.
  destruct (record_cancellation_and_transition _ _ _ _ _ _ _) as [b L'] eqn:E.
  assert (b = true) as -> by (vm_compute in E; by injection E).
  split; [done|]. apply T. done.
Defined.
