(* ===== verification/Access.v ===== *)
(** * Access to the runtime API (agent_os/server/api.py, agent_os/principal.py)

    Who may call the private endpoints, under which identity, and how the
    public chat is throttled.  A connection is what the handlers read of a
    request or WebSocket handshake: an absent header is the empty string.
    Times are the readings of a monotonic clock in microseconds. *)
From S2P Require Export Net Schemas Runs.

Record connection := mkConn {
  is_websocket : bool;
  origin : string;
  x_execution_token : string;
  x_admin_token : string;
  authorization : string;
  websocket_protocol : string;
  x_forwarded_for : string;
  client_host : option string;
  url_path : string }.

(** [hmac.compare_digest] of two strings: equality, which raises on
    non-ASCII text. *)
Definition ascii_only (s : string) : bool := sforall (λ c, code c <? 128) s.
Definition compare_digest (a b : string) : res bool :=
  if ascii_only a && ascii_only b then Ok (String.eqb a b)
  else Raise (TypeError "comparing strings with non-ASCII characters is not supported").

Definition is_loopback_client (host : option string) : bool :=
  match host with
  | None => false
  | Some h =>
      let normalized := lower (strip h) in
      mem_str normalized ["localhost"; "testclient"] ||
      match ip_address normalized with Some x => is_loopback x | None => false end
  end.

Definition WEBSOCKET_TOKEN_PROTOCOL_PREFIX : string := "agent-os-token.".
Definition requested_websocket_protocols (c : connection) : list string :=
  List.filter truthy (map strip (split_char "," (websocket_protocol c))).

(** The header, unless a bearer token replaces it. *)
Definition bearer_or (header authorization : string) : string :=
  let bearer := strip authorization in
  if startswith "bearer " (lower bearer) then strip (sdrop 7 bearer) else strip header.

Definition execution_token_from_connection (c : connection) : string :=
  let token := bearer_or (x_execution_token c) (authorization c) in
  if truthy token || negb (is_websocket c) then token
  else match List.filter (startswith WEBSOCKET_TOKEN_PROTOCOL_PREFIX) (requested_websocket_protocols c) with
       | protocol :: _ => removeprefix WEBSOCKET_TOKEN_PROTOCOL_PREFIX protocol
       | [] => token
       end.

(** The trusted state of an authorised connection. *)
Record auth_state := mkAuth { authenticated_with_token : bool; auth_loopback : bool }.

(** [inl]: refused. *)
Definition check_private_api_access (cors_origins : list string) (token_env : option string) (c : connection)
    : res (string + auth_state) :=
  let org := strip (origin c) in
  if truthy org && negb (mem_str org cors_origins) then Ok (inl "Origin is not allowed"%string)
  else
    let required := strip (default ""%string token_env) in
    let loop := is_loopback_client (client_host c) in
    if sempty required then
      Ok (if loop then inr (mkAuth false true)
          else inl "Private execution API requires AGENT_OS_EXECUTION_TOKEN for non-loopback clients"%string)
    else
      same ← compare_digest (execution_token_from_connection c) required;
      Ok (if same : bool then inr (mkAuth true loop) else inl "Forbidden"%string).

Definition private_api_access_error (cors_origins : list string) (token_env : option string) (c : connection)
    : res (option string) :=
  r ← check_private_api_access cors_origins token_env c;
  Ok (match r with inl e => Some e | inr _ => None end).

Definition private_path (p : string) : bool :=
  startswith "/api/" p && negb (String.eqb p "/api/health" || startswith "/api/public/" p).

(** The middleware: a refusal (403), or the state the endpoint sees. *)
Definition protect_private_api (cors_origins : list string) (token_env : option string) (c : connection)
    : res (string + auth_state) :=
  if private_path (url_path c) then check_private_api_access cors_origins token_env c
  else Ok (inr (mkAuth false (is_loopback_client (client_host c)))).

(** The administration token: 404 when none is configured, 403 unless it is
    given. *)
Inductive admin_result := AdminOk | NotConfigured | Forbidden.
Definition require_admin (token_env : option string) (c : connection) : res admin_result :=
  let token := strip (default ""%string token_env) in
  if sempty token then Ok NotConfigured
  else same ← compare_digest (bearer_or (x_admin_token c) (authorization c)) token;
       Ok (if same : bool then AdminOk else Forbidden).

(** ** Principals *)
Definition new_principal (i k d : string) (obo : option string) : res Principal :=
  if sempty (strip i) then Raise (ValueError "Principal.id must be a non-empty string")
  else if sempty (strip k) then Raise (ValueError "Principal.kind must be a non-empty string")
  else if sempty (strip d) then Raise (ValueError "Principal.display must be a non-empty string")
  else Ok (mkPrincipal i k d obo).

Definition local_os_user (getuser : res string) (env_user env_username : option string) : string :=
  let user := match getuser with Ok u => strip u | Raise _ => ""%string end in
  if truthy user then user
  else let u := strip (default "" env_user) in
       if truthy u then u
       else let n := strip (default "" env_username) in if truthy n then n else "operator"%string.

(** What the resolver is given: a principal, a mapping or an object with a
    schedule id, a text, an HTTP request with its state (the two attributes,
    where set) and peer, or anything else. *)
Inductive context :=
  | CtxPrincipal (p : Principal)
  | CtxMapping (schedule_id : option string)
  | CtxScheduled (schedule_id : string)
  | CtxText (s : string)
  | CtxRequest (auth loop : option bool) (host : option string)
  | CtxNone.

Definition schedule_of (sid : string) : res Principal :=
  new_principal ("schedule:" +:+ sid) "schedule" ("Schedule (" +:+ sid +:+ ")") None.
Definition local_of (user : string) : res Principal :=
  new_principal ("local:" +:+ user) "human" ("Local User (" +:+ user +:+ ")") None.

Definition resolve_principal (user : string) (ctx : context) : res Principal :=
  match ctx with
  | CtxPrincipal p => Ok p
  | CtxMapping (Some sid) => schedule_of (strip sid)
  | CtxScheduled sid => if truthy sid then schedule_of (strip sid) else local_of user
  | CtxText s => if startswith "schedule:" s then schedule_of (strip (removeprefix "schedule:" s)) else local_of user
  | CtxRequest auth loop host =>
      let loop := match loop with
                  | Some b => b
                  | None => match host with Some h => truthy h && is_loopback_client host | None => false end
                  end in
      if negb (default false auth) && loop then local_of user
      else new_principal "token:execution" "service" "Execution Token" None
  | CtxMapping None | CtxNone => local_of user
  end.

Definition cors_origins (env : option string) : list string :=
  List.filter truthy (map strip (split_char ","
    (default "http://127.0.0.1:4100,http://localhost:4100"%string env))).

(** C7. A private endpoint lets a connection in exactly when its origin, if it
    has one, is configured, and either no token is configured and the peer is
    local, or the token it presents is the configured one.  Whoever comes in by
    a token, or from another host, acts as the execution service and never as
    the local user; the local user is only a token-less local peer. *)
Theorem private_access_spec origins token_env c : private_path (url_path c) = true →
  ascii_only (strip (default ""%string token_env)) = true → ascii_only (execution_token_from_connection c) = true →
  let required := strip (default ""%string token_env) in
  let local := is_loopback_client (client_host c) in
  ∃ r, protect_private_api origins token_env c = Ok r ∧
    (∀ a, r = inr a ↔
       (strip (origin c) = "" ∨ strip (origin c) ∈ origins) ∧
       a = mkAuth (truthy required) local ∧
       (if truthy required then execution_token_from_connection c = required else local = true)) ∧
    (∀ a user p, r = inr a →
       resolve_principal user (CtxRequest (Some (authenticated_with_token a)) (Some (auth_loopback a)) (client_host c)) = Ok p →
       (pr_kind p = "human" ↔ required = "" ∧ local = true) ∧
       (pr_kind p ≠ "human" → p = mkPrincipal "token:execution" "service" "Execution Token" None)).
Proof.
  intros Hpath Hreq Htok required local. unfold protect_private_api, check_private_api_access. rewrite Hpath.
  assert (truthy (strip (origin c)) && negb (mem_str (strip (origin c)) origins) = false ↔
    strip (origin c) = "" ∨ strip (origin c) ∈ origins) as Horg.
  { rewrite <-mem_str_iff. destruct (strip (origin c)) as [|x o]; [cbn; tauto|]. cbn [truthy sempty negb andb].
    destruct (mem_str _ origins); cbn; split; intros; try done; [by right|]. naive_solver. }
  destruct (truthy (strip (origin c)) && _) eqn:Eo.
  { eexists. split; [done|]. split; [|done]. intros a. split; [done|]. intros (H & _). by apply Horg in H. }
  apply proj1 in Horg. specialize (Horg eq_refl). fold required local.
  assert (∀ a user p, a = mkAuth (truthy required) local → (truthy required = false → local = true) →
    resolve_principal user (CtxRequest (Some (authenticated_with_token a)) (Some (auth_loopback a)) (client_host c)) = Ok p →
    (pr_kind p = "human" ↔ required = "" ∧ local = true) ∧
    (pr_kind p ≠ "human" → p = mkPrincipal "token:execution" "service" "Execution Token" None)) as Hprin.
  { intros a user p -> Hl. cbn [authenticated_with_token auth_loopback resolve_principal default from_option].
    destruct required as [|x q]; cbn [truthy sempty negb andb].
    - rewrite Hl by done. unfold local_of, new_principal.
      destruct (sempty _); [done|]. destruct (sempty _); [done|]. destruct (sempty _); [done|].
      intros [= <-]. cbn. split; [by split|]. by intros H.
    - intros [= <-]. cbn. split; [split; [done|by intros []]|done]. }
  destruct (sempty required) eqn:Er; unfold truthy; rewrite Er; cbn [negb].
  - eexists. split; [done|]. destruct local eqn:El.
    + split; [intros a; split; [by intros [= <-]|by intros (_ & -> & _)]|].
      intros a user p [= <-] Hp. apply (Hprin (mkAuth false true) user p); [|done|done]. unfold truthy. by rewrite Er.
    + split; [|done]. intros a. split; [done|]. by intros (_ & _ & ?).
  - unfold compare_digest. fold required in Hreq. rewrite Hreq, Htok. cbn [andb mbind res_bind]. eexists. split; [done|].
    destruct (String.eqb_spec (execution_token_from_connection c) required) as [E|E].
    + split; [intros a; split; [by intros [= <-]|by intros (_ & -> & _)]|].
      intros a user p [= <-] Hp. apply (Hprin (mkAuth true local) user p); [| |done]; unfold truthy; by rewrite Er.
    + split; [|done]. intros a. split; [done|]. by intros (_ & _ & ?).
Qed.

Definition demo_conn : connection :=
  mkConn false "http://localhost:4100" "" "" "Bearer s3cret " "" "" (Some "10.0.0.7"%string) "/api/runs".
Lemma private_access_spec_witness :
  protect_private_api (cors_origins None) (Some " s3cret"%string) demo_conn = Ok (inr (mkAuth true false)) ∧
  ∀ user p, resolve_principal user (CtxRequest (Some true) (Some false) (client_host demo_conn)) = Ok p →
    pr_kind p ≠ "human" → p = mkPrincipal "token:execution" "service" "Execution Token" None.
Proof.
  split; [reflexivity|]. intros user p Hp.
  destruct (private_access_spec (cors_origins None) (Some " s3cret"%string) demo_conn) as (r & Hr & _ & H);
    [reflexivity..|].
  assert (r = inr (mkAuth true false)) as -> by (vm_compute in Hr; by injection Hr as <-).
  by apply (H (mkAuth true false) user p).
Defined.

(** ** The throttle of the public chat *)
Definition PUBLIC_CONCIERGE_WINDOW : Z := 60 * 1000000.
Notation buckets := (gmap string (list Z)).

Definition client_key (c : connection) : string :=
  let k := strip (match split_once "," (x_forwarded_for c) with Some (a, _) => a | None => x_forwarded_for c end) in
  if truthy k then k
  else match client_host c with
       | Some h => if truthy h then h else "unknown"%string
       | None => "unknown"%string
       end.

(** Whether the request passes (else 429), and the buckets. *)
Definition rate_limit_key (limit now : Z) (k : string) (b : buckets) : bool * buckets :=
  if limit <=? 0 then (true, b)
  else
    let bucket := List.filter (λ ts, now - ts <? PUBLIC_CONCIERGE_WINDOW) (default [] (b !! k)) in
    if limit <=? Z.of_nat (length bucket) then (false, <[k := bucket]> b)
    else (true, <[k := bucket ++ [now]]> b).
Definition public_concierge_rate_limit (limit now : Z) (c : connection) (b : buckets) : bool * buckets :=
  rate_limit_key limit now (client_key c) b.

(** A run of requests: the buckets and the requests that passed, in order. *)
Fixpoint serve (limit : Z) (reqs : list (string * Z)) (b : buckets) (passed : list (string * Z))
    : buckets * list (string * Z) :=
  match reqs with
  | [] => (b, passed)
  | (k, now) :: reqs' =>
      let '(ok, b') := rate_limit_key limit now k b in
      serve limit reqs' b' (if ok then passed ++ [(k, now)] else passed)
  end.

(** The times at which the client [k] passed. *)
Definition passed_at (k : string) (passed : list (string * Z)) : list Z :=
  map snd (List.filter (λ p, String.eqb p.1 k) passed).
Definition recent (now : Z) (l : list Z) : list Z :=
  List.filter (λ ts, now - ts <? PUBLIC_CONCIERGE_WINDOW) l.
(** The times in the window that ends at [t]. *)
Definition in_window (t : Z) (l : list Z) : list Z :=
  List.filter (λ ts, (t - PUBLIC_CONCIERGE_WINDOW <? ts) && (ts <=? t)) l.

Fixpoint ordered (from : Z) (reqs : list (string * Z)) : Prop :=
  match reqs with [] => True | (_, now) :: reqs' => from ≤ now ∧ ordered now reqs' end.

Lemma recent_recent now now' l : now ≤ now' → recent now' (recent now l) = recent now' l.
Proof.
  intros Hn. unfold recent. induction l as [|t l IH]; [done|]. cbn.
  destruct (Z.ltb_spec (now - t) PUBLIC_CONCIERGE_WINDOW) as [H|H]; cbn; rewrite IH; [done|].
  by rewrite (proj2 (Z.ltb_ge (now' - t) PUBLIC_CONCIERGE_WINDOW)) by lia.
Qed.
Lemma recent_app now a b : recent now (a ++ b) = recent now a ++ recent now b.
Proof. apply List.filter_app. Qed.
Lemma filter_length_le {A} (f g : A → bool) l : (∀ x, f x = true → g x = true) →
  (length (List.filter f l) ≤ length (List.filter g l))%nat.
Proof.
  intros H. induction l as [|x l IH]; [done|]. cbn. destruct (f x) eqn:E; [rewrite (H x E); cbn; lia|].
  destruct (g x); cbn; lia.
Qed.
Lemma passed_at_snoc k k' now passed :
  passed_at k (passed ++ [(k', now)]) = passed_at k passed ++ (if String.eqb k' k then [now] else []).
Proof. unfold passed_at. rewrite List.filter_app, map_app. cbn. by destruct (String.eqb k' k). Qed.

(** The buckets hold, for each client, what matters of its history. *)
Record throttle_ok (limit last : Z) (b : buckets) (passed : list (string * Z)) : Prop := {
  th_bucket : ∀ k now, last ≤ now → recent now (default [] (b !! k)) = recent now (passed_at k passed);
  th_past : ∀ k, Forall (λ ts, ts ≤ last) (passed_at k passed);
  th_window : ∀ k t, Z.of_nat (length (in_window t (passed_at k passed))) ≤ limit }.

Lemma window_snoc limit now l : Forall (λ ts, ts ≤ now) l → Z.of_nat (length (recent now l)) < limit →
  (∀ t, Z.of_nat (length (in_window t l)) ≤ limit) → ∀ t, Z.of_nat (length (in_window t (l ++ [now]))) ≤ limit.
Proof.
  intros Hp Hr Hw t. unfold in_window. rewrite List.filter_app, length_app. cbn.
  destruct (Z.leb_spec now t).
  2:{ rewrite andb_false_r. cbn. specialize (Hw t). unfold in_window in Hw. lia. }
  destruct (_ <? _); cbn; [|specialize (Hw t); unfold in_window in Hw; lia].
  assert (length (in_window t l) ≤ length (recent now l))%nat as Hle.
  { apply filter_length_le. intros x [Hx _]%andb_true_iff. apply Z.ltb_lt in Hx. apply Z.ltb_lt. lia. }
  unfold in_window in Hle. lia.
Qed.

Lemma throttle_step limit last now k b passed ok b' : 0 < limit → last ≤ now → throttle_ok limit last b passed →
  rate_limit_key limit now k b = (ok, b') →
  throttle_ok limit now b' (if ok then passed ++ [(k, now)] else passed).
Proof.
  intros Hl Hn [Hb Hp Hw]. unfold rate_limit_key. rewrite (proj2 (Z.leb_gt limit 0)) by done.
  fold (recent now (default [] (b !! k))). rewrite (Hb k now) by done.
  assert (∀ k, Forall (λ ts, ts ≤ now) (passed_at k passed)) as Hp'.
  { intros k'. eapply Forall_impl; [apply Hp|]. cbn. lia. }
  destruct (Z.leb_spec limit (Z.of_nat (length (recent now (passed_at k passed))))) as [Hfull|Hroom]; intros [= <- <-].
  - split; [|done|done]. intros k' now' Hn'. destruct (decide (k' = k)) as [->|].
    + rewrite lookup_insert_eq. cbn. by apply recent_recent.
    + rewrite lookup_insert_ne by done. apply Hb. lia.
  - split.
    + intros k' now' Hn'. rewrite passed_at_snoc. destruct (decide (k' = k)) as [->|Hne].
      * rewrite lookup_insert_eq, String.eqb_refl. cbn [default from_option].
        unfold id. rewrite !recent_app. f_equal. by apply recent_recent.
      * rewrite lookup_insert_ne, (proj2 (String.eqb_neq k k')), app_nil_r by done. apply Hb. lia.
    + intros k'. rewrite passed_at_snoc. apply Forall_app. split; [done|].
      destruct (String.eqb k k'); [|done]. by apply Forall_singleton.
    + intros k' t. rewrite passed_at_snoc. destruct (String.eqb_spec k k') as [<-|]; [|by rewrite app_nil_r].
      by apply window_snoc.
Qed.

(** Over any requests in the order of the clock, no client key gets more
    than [limit] requests through in any window of sixty seconds. *)
Theorem rate_limit_window limit reqs start : 0 < limit → ordered start reqs → ∀ (k : string) (t : Z),
  Z.of_nat (length (in_window t (passed_at k (serve limit reqs ∅ []).2))) ≤ limit.
Proof.
  intros Hl Ho. assert (throttle_ok limit start ∅ []) as Hok.
  { split; [intros k now _; by rewrite lookup_empty|done|cbn; lia]. }
  revert Hok Ho. generalize (@nil (string * Z)) as passed. generalize (∅ : buckets) as b. revert start.
  induction reqs as [|[k now] reqs IH]; intros start b passed Hok Ho; [intros k t; apply Hok|].
  destruct Ho as [Hn Ho]. cbn [serve]. destruct (rate_limit_key limit now k b) as [ok b'] eqn:E.
  apply (IH now); [by eapply throttle_step|done].
Qed.

Lemma rate_limit_window_witness :
  passed_at "a" (serve 2 [("a", 0); ("b", 1); ("a", 2); ("a", 3); ("a", 60000001)]%string ∅ []).2 = [0; 2; 60000001] ∧
  Z.of_nat (length (in_window 60000001 (passed_at "a"
    (serve 2 [("a", 0); ("b", 1); ("a", 2); ("a", 3); ("a", 60000001)]%string ∅ []).2))) ≤ 2.
Proof.
  split; [vm_compute; reflexivity|].
  apply (rate_limit_window 2 [("a", 0); ("b", 1); ("a", 2); ("a", 3); ("a", 60000001)]%string 0); [lia|cbn; lia].
Defined.

(** The key is the first entry of [X-Forwarded-For], which the client writes:
    a new value for every request is never throttled. *)
Lemma forwarded_for_chooses_the_bucket :
  let req n := mkConn false "" "" "" "" "" n (Some "203.0.113.9"%string) "/api/public/concierge/chat" in
  (public_concierge_rate_limit 1 0 (req "x1") ∅).1 = true ∧
  (public_concierge_rate_limit 1 1 (req "x1") (public_concierge_rate_limit 1 0 (req "x1") ∅).2).1 = false ∧
  (public_concierge_rate_limit 1 1 (req "x2") (public_concierge_rate_limit 1 0 (req "x1") ∅).2).1 = true.
Proof. by vm_compute. Qed.
