(* ===== verification/Events.v ===== *)
(** * Lifecycle events (agent_os/events.py)

    The sanitized payload of a run's lifecycle event and its delivery to the
    configured sinks.  A sink is code of its own (webhooks, plugins): [emit] on
    its state, which may raise. *)
From S2P Require Export Runs.

Definition SUPPORTED_LIFECYCLE_EVENTS : list string :=
  ["run.created"; "run.interrupted"; "run.approved"; "run.completed"; "run.failed"; "run.cancelled"].

Definition nonempty (o : option string) : option string :=
  match o with Some s => if truthy s then Some s else None | None => None end.

Definition build_lifecycle_payload (now event_type run_id workspace_id status actor_id actor_kind
    actor_display : string) (on_behalf_of thread_id timestamp : option string) : res pyval :=
  if negb (existsb (String.eqb event_type) SUPPORTED_LIFECYCLE_EVENTS) then
    Raise (ValueError ("Unsupported lifecycle event type '" +:+ event_type +:+ "'."))
  else
    let actor :=
      [("id", VStr actor_id); ("kind", VStr actor_kind); ("display", VStr actor_display)] ++
      match nonempty on_behalf_of with Some o => [("on_behalf_of", VStr o)] | None => [] end in
    let references := match nonempty thread_id with Some t => [("thread_id", VStr t)] | None => [] end in
    Ok (VDict [("event", VStr event_type); ("run_id", VStr run_id); ("workspace_id", VStr workspace_id);
               ("status", VStr status); ("timestamp", VStr (default now (nonempty timestamp)));
               ("actor", VDict actor); ("references", VDict references)]).

Section dispatch.
Context {W : Type}.

(** A sink: its effect on the world and whether it raised. *)
Definition sink := pyval → W → res unit * W.

(** [dispatch_event]: every sink gets the event; a failure is logged only. *)
Fixpoint dispatch_event (sinks : list sink) (event : pyval) (w : W) : W :=
  match sinks with
  | [] => w
  | s :: sinks' => dispatch_event sinks' event (s event w).2
  end.

Definition emit_run_lifecycle_event (now event_type run_id workspace_id status : string)
    (principal : option Principal) (run : option run_row) (thread_id : option string)
    (sinks : list sink) (w : W) : res unit * W :=
  let '(actor_id, actor_kind, actor_display, obo, thread) :=
    match principal, run with
    | Some p, _ => (pr_id p, pr_kind p, pr_display p, pr_on_behalf_of p, thread_id)
    | None, Some r =>
        let a := default "local:operator"%string (nonempty (created_by r)) in
        (a, default "human"%string (nonempty (created_by_kind r)), a, None,
         match nonempty thread_id with Some t => Some t | None => Some (Runs.thread_id r) end)
    | None, None => ("local:operator"%string, "human"%string, "operator"%string, None, thread_id)
    end in
  match build_lifecycle_payload now event_type run_id workspace_id status actor_id actor_kind
          actor_display obo thread None with
  | Raise e => (Raise e, w)
  | Ok payload => (Ok tt, dispatch_event sinks payload w)
  end.

(** Delivery reaches every sink, whichever of them fail: the effect is the
    composition of the effects of the sinks, in order. *)
Lemma dispatch_event_all sinks event w :
  dispatch_event sinks event w = foldl (λ w s, (s event w).2) w sinks.
Proof. revert w. induction sinks as [|s sinks IH]; intros w; [done|]. apply IH. Qed.

(** Lifecycle events leak nothing of a run but its identity: the payload
    delivered is determined by the event, run, workspace and thread ids, the
    status, the timestamp and the actor; two ledger rows that differ in task,
    error or timestamps give the same event; every sink receives it even if an
    earlier one fails. *)
Theorem lifecycle_event_private now ty rid wid st p r1 r2 th sinks w :
  existsb (String.eqb ty) SUPPORTED_LIFECYCLE_EVENTS = true →
  created_by r1 = created_by r2 → created_by_kind r1 = created_by_kind r2 →
  Runs.thread_id r1 = Runs.thread_id r2 →
  emit_run_lifecycle_event now ty rid wid st p (Some r1) th sinks w
  = emit_run_lifecycle_event now ty rid wid st p (Some r2) th sinks w ∧
  ∃ actor refs, emit_run_lifecycle_event now ty rid wid st p (Some r1) th sinks w
    = (Ok tt, foldl (λ w s, (s (VDict
        [("event", VStr ty); ("run_id", VStr rid); ("workspace_id", VStr wid); ("status", VStr st);
         ("timestamp", VStr now); ("actor", VDict actor); ("references", VDict refs)]) w).2) w sinks).
Proof.
  intros Hty Hc Hk Ht. unfold emit_run_lifecycle_event, build_lifecycle_payload. rewrite Hty, Hc, Hk, Ht.
  split; [done|]. destruct p; simpl; eexists _, _; by rewrite dispatch_event_all.
Qed.
End dispatch.

Definition demo_run (t : string) : run_row :=
  mkRun "r1" "t1" None None "running" (Some t) (Some "local:op"%string) None "a" "b" None None.
Lemma lifecycle_event_private_witness :
  emit_run_lifecycle_event "n" "run.failed" "r1" "w" "error" None (Some (demo_run "secret")) None
    [λ e w, (Raise (OtherError "down"), e :: w); λ e w, (Ok tt, e :: w)] []
  = emit_run_lifecycle_event "n" "run.failed" "r1" "w" "error" None (Some (demo_run "other")) None
    [λ e w, (Raise (OtherError "down"), e :: w); λ e w, (Ok tt, e :: w)] [].
Proof.
  apply (lifecycle_event_private "n" "run.failed" "r1" "w" "error" None (demo_run "secret")
    (demo_run "other")); reflexivity.
Defined.
