(* ===== verification/Webhooks.v ===== *)
(** * Webhook delivery (agent_os/webhooks.py)

    Where a webhook request may go, how an event is signed and sent with
    retries, and the bounded queue between the callers and the worker threads.
    The resolver, the HTTP exchange, the clock and HMAC-SHA256 are parameters;
    a connection is recorded with the address it is pinned to. *)
From S2P Require Export Events Net Schemas.

Definition DEFAULT_WEBHOOK_MAX_RETRIES : Z := 3.
Definition DEFAULT_WEBHOOK_QUEUE_SIZE : Z := 1000.

Definition redact_url_for_log (url : string) : string :=
  match urlsplit url with
  | None => "http(s)://<redacted>"
  | Some parsed =>
      let nl := match split_once "@" (netloc parsed) with Some (_, b) => b | None => netloc parsed end in
      scheme parsed +:+ "://" +:+ nl +:+ "/*"
  end.

Definition is_safe_ip (x : ip) : bool :=
  negb (is_loopback x || is_private x || is_link_local x || is_multicast x || is_unspecified x
        || is_reserved x || negb (is_global x)).

(** [{h.strip().lower() for h in hosts if h.strip()}] *)
Definition allowed_hosts (hosts : list string) : list string :=
  map (λ h, lower (strip h)) (List.filter (λ h, truthy (strip h)) hosts).
Definition opt_truthy (o : option string) : bool := match o with Some s => truthy s | None => false end.

(** [inl reason]: not valid. *)
Definition validate_webhook_url_syntax (url : string) (allow_insecure_http : bool) (hosts : list string)
    : string + split_url :=
  match urlsplit url with
  | None => inl "Invalid URL structure"%string
  | Some parsed =>
      if negb (mem_str (scheme parsed) ["http"; "https"]) then
        inl ("Unsupported scheme '" +:+ scheme parsed +:+ "'. Only 'http' and 'https' are allowed.")
      else if opt_truthy (userinfo parsed).1 || opt_truthy (userinfo parsed).2 then
        inl "URLs with embedded credentials (userinfo) are not allowed."%string
      else match hostname parsed with
           | None => inl "URL is missing a valid hostname."%string
           | Some host =>
               if String.eqb (scheme parsed) "http" && negb allow_insecure_http
                  && negb (mem_str (lower host) (allowed_hosts hosts))
               then inl "Insecure HTTP webhook URLs are disallowed by default."%string
               else inr parsed
           end
  end.

(** The answer of the resolver for a host and port: addresses, or an error. *)
Definition resolver := string → Z → res (list string).

Definition default_port (parsed : split_url) : Z := if String.eqb (scheme parsed) "https" then 443 else 80.
(** [parsed.port or default]; reading the port may raise. *)
Definition effective_port (parsed : split_url) : res Z :=
  p ← port parsed;
  Ok (match p with Some z => if z =? 0 then default_port parsed else z | None => default_port parsed end).

(** The first address that is refused. *)
Fixpoint refused_ip (is_allowed : bool) (host : string) (ips : list string) : option string :=
  match ips with
  | [] => None
  | s :: ips' =>
      match ip_address s with
      | None => Some ("Invalid IP address '" +:+ s +:+ "'.")
      | Some x =>
          if negb is_allowed && negb (is_safe_ip x) then
            Some ("Blocked unsafe/internal IP destination '" +:+ s +:+ "' for host '" +:+ host +:+ "'.")
          else refused_ip is_allowed host ips'
      end
  end.

Definition is_safe_webhook_url (dns : resolver) (url : string) (hosts : list string) (allow_insecure_http : bool)
    : res (option string) :=
  match validate_webhook_url_syntax url allow_insecure_http hosts with
  | inl reason => Ok (Some reason)
  | inr parsed =>
      let host := default "" (hostname parsed) in
      if mem_str (lower host) (allowed_hosts hosts) then Ok None
      else
        p ← effective_port parsed;
        match dns host p with
        | Raise exc => Ok (Some ("Could not resolve hostname '" +:+ host +:+ "': " +:+ exn_msg exc))
        | Ok [] => Ok (Some ("No IP addresses resolved for hostname '" +:+ host +:+ "'."))
        | Ok ips => Ok (refused_ip false host ips)
        end
  end.

Record target := mkTarget {
  tg_scheme : string; tg_hostname : string; tg_port : Z; tg_pinned_ip : string; tg_path : string }.

Definition request_path (parsed : split_url) : string :=
  (let p := urlparse_path (path parsed) in if truthy p then p else "/") +:+
  (if truthy (query parsed) then "?" +:+ query parsed else "").

Definition resolve_and_validate_target (dns : resolver) (url : string) (hosts : list string)
    (allow_insecure_http : bool) : res (string + target) :=
  match validate_webhook_url_syntax url allow_insecure_http hosts with
  | inl reason => Ok (inl reason)
  | inr parsed =>
      let host := default "" (hostname parsed) in
      p ← effective_port parsed;
      let is_allowed := mem_str (lower host) (allowed_hosts hosts) in
      match dns host p with
      | Raise exc => Ok (inl ("DNS resolution failed for '" +:+ host +:+ "': " +:+ exn_msg exc))
      | Ok [] => Ok (inl ("No IP addresses found for '" +:+ host +:+ "'."))
      | Ok ((pinned_ip :: _) as ips) =>
          match refused_ip is_allowed host ips with
          | Some reason => Ok (inl reason)
          | None => Ok (inr (mkTarget (scheme parsed) host p pinned_ip (request_path parsed)))
          end
      end
  end.

(** ** Sending *)
Record sink_config := mkSink {
  sk_url : string;
  sk_secret : string;
  allowed_internal_hosts : list string;
  allow_insecure : bool;
  max_retries : Z;
  max_queue_size : Z;
  num_workers : Z }.
Definition WebhookEventSink (url secret : string) (hosts : list string) (insecure : bool)
    (retries queue workers : Z) : sink_config :=
  mkSink url secret hosts insecure (Z.max 1 retries) (Z.max 1 queue) (Z.max 1 workers).

(** A POST on a connection to a pinned address; [tls] is the name the
    certificate is checked against. *)
Record request := mkRequest {
  rq_ip : string; rq_port : Z; rq_tls : option string; rq_path : string;
  rq_headers : list (string * string); rq_body : string }.

(** What an attempt meets: the resolver's answers and the response status or
    the exception. *)
Record attempt := mkAttempt { at_dns : resolver; at_http : request → res Z }.

(** [json.dumps(event, separators=(",", ":"), sort_keys=True)] *)
Fixpoint dumps_compact (v : pyval) : res string :=
  match v with
  | VList l => xs ← res_all (map dumps_compact l); Ok ("[" +:+ sjoin "," xs +:+ "]")
  | VDict d =>
      xs ← res_all (map snd (sort_by (λ a b, str_leb a.1 b.1)
             (map (λ '(k, x), (k, t ← dumps_compact x; Ok (json_string k +:+ ":" +:+ t))) d)));
      Ok ("{" +:+ sjoin "," xs +:+ "}")
  | _ => dumps v
  end.

Section sending.
Context (hmac_sha256 : string → string → string).   (* key, message: hex digest *)

Definition host_header (t : target) : string :=
  if (tg_port t =? 80) || (tg_port t =? 443) then tg_hostname t
  else tg_hostname t +:+ ":" +:+ str_of_Z (tg_port t).

Definition request_for (t : target) (body : string) (headers : list (string * string)) : request :=
  mkRequest (tg_pinned_ip t) (tg_port t)
    (if String.eqb (tg_scheme t) "https" then Some (tg_hostname t) else None)
    (tg_path t) (dset "Host" (host_header t) headers) body.

(** The result [(success, status, message)] and the requests made. *)
Definition send_single_request (c : sink_config) (a : attempt) (body : string)
    (headers : list (string * string)) : res (bool * Z * string) * list request :=
  match resolve_and_validate_target (at_dns a) (sk_url c) (allowed_internal_hosts c) (allow_insecure c) with
  | Raise e => (Raise e, [])
  | Ok (inl reason) => (Ok (false, 0, reason), [])
  | Ok (inr t) =>
      let rq := request_for t body headers in
      (match at_http a rq with
       | Ok st =>
           if (200 <=? st) && (st <? 300) then Ok (true, st, ""%string)
           else if (300 <=? st) && (st <? 400) then
             Ok (false, st, "Redirects not permitted (HTTP " +:+ str_of_Z st +:+ ")")
           else Ok (false, st, "HTTP " +:+ str_of_Z st)
       | Raise exc => Ok (false, 0, exn_msg exc)
       end, [rq])
  end.

Definition signed_headers (c : sink_config) (timestamp body : string) : list (string * string) :=
  [("Content-Type", "application/json"); ("X-AgentOS-Timestamp", timestamp);
   ("X-AgentOS-Signature", "sha256=" +:+ hmac_sha256 (sk_secret c) (timestamp +:+ "." +:+ body));
   ("User-Agent", "AgentOS-Webhook/1.0")]%string.

(** The loop over the attempts left. *)
Fixpoint attempts_loop (c : sink_config) (n : nat) (env : nat → attempt) (body : string)
    (headers : list (string * string)) : res bool * list request :=
  match n with
  | O => (Ok false, [])
  | S n' =>
      match send_single_request c (env O) body headers with
      | (Raise e, rs) => (Raise e, rs)
      | (Ok (true, _, _), rs) => (Ok true, rs)
      | (Ok (false, _, _), rs) =>
          let '(r, rs') := attempts_loop c n' (λ i, env (S i)) body headers in (r, rs ++ rs')
      end
  end.

Definition send_with_retry (c : sink_config) (now : Z) (env : nat → attempt) (event : pyval)
    : res bool * list request :=
  match dumps_compact event with
  | Raise e => (Raise e, [])
  | Ok body => attempts_loop c (Z.to_nat (max_retries c)) env body (signed_headers c (str_of_Z now) body)
  end.
End sending.

(** ** Where requests go *)
Lemma in_net_div bits a base len : 0 ≤ bits - len →
  in_net bits a (base, len) = (a / 2 ^ (bits - len) =? base / 2 ^ (bits - len)).
Proof. intros H. unfold in_net. cbn [fst snd]. by rewrite !Z.shiftr_div_pow2. Qed.

(** An address in a private network is private, the two exceptions lying in
    192.0/16. *)
Lemma private_in a base len : (base, len) ∈ v4_private_nets → 0 ≤ 32 - len →
  a / 2 ^ (32 - len) = base / 2 ^ (32 - len) → a / 2 ^ 16 ≠ 49152 → v4_is_private a = true.
Proof.
  intros Hin Hlen Ha Hne. unfold v4_is_private. apply andb_true_iff. split.
  - apply existsb_exists. exists (base, len). split; [by apply list_elem_of_In|].
    rewrite in_net_div by done. by apply Z.eqb_eq.
  - apply forallb_forall. intros e He. apply negb_true_iff.
    destruct He as [<-|[<-|[]]]; rewrite in_net_div by lia; apply Z.eqb_neq; cbn; rewrite !Z.div_1_r;
      intros ->; by apply Hne.
Qed.

Lemma eqb_false_div bits a base len : in_net bits a (base, len) = false → 0 ≤ bits - len →
  a / 2 ^ (bits - len) ≠ base / 2 ^ (bits - len).
Proof. intros H Hl. rewrite in_net_div in H by done. by apply Z.eqb_neq. Qed.

Lemma existsb_false {A} (f : A → bool) l x : existsb f l = false → x ∈ l → f x = false.
Proof.
  intros H Hx. destruct (f x) eqn:E; [|done]. exfalso.
  assert (existsb f l = true); [|congruence]. apply existsb_exists. exists x. by rewrite <-list_elem_of_In.
Qed.

(** The leading bits of an address in a network. *)
Lemma in_net_top a base len : in_net 128 a (base, len) = true → 7 ≤ len ≤ 128 → a / 2 ^ 121 = base / 2 ^ 121.
Proof.
  intros H Hl. rewrite in_net_div in H by lia. apply Z.eqb_eq in H.
  assert (∀ z, z / 2 ^ 121 = z / 2 ^ (128 - len) / 2 ^ (len - 7)) as Hd.
  { intros z. rewrite Z.div_div by lia. f_equal. rewrite <-Z.pow_add_r by lia. f_equal. lia. }
  by rewrite !Hd, H.
Qed.
Lemma unique_local_private a : a / 2 ^ 121 = 126 → a / 2 ^ 32 ≠ 65535 → v6_is_private a = true.
Proof.
  intros Ha Hm. unfold v6_is_private, ipv4_mapped. rewrite Z.shiftr_div_pow2 by lia.
  rewrite (proj2 (Z.eqb_neq _ _) Hm). apply andb_true_iff. split.
  - apply existsb_exists. exists (v6 [64512], 7). split; [by vm_compute; tauto|].
    rewrite in_net_div by lia. apply Z.eqb_eq. exact Ha.
  - apply forallb_forall. intros [base len] He. apply negb_true_iff.
    destruct (in_net 128 a (base, len)) eqn:E; [|done]. exfalso.
    assert (7 ≤ len ≤ 128 ∧ base / 2 ^ 121 ≠ 126) as [Hl Hb].
    { repeat (destruct He as [[= <- <-]|He]; [split; [lia|by vm_compute]|]). destruct He. }
    apply Hb. by rewrite <-(in_net_top a base len E Hl).
Qed.

Ltac in_list := apply (bool_decide_eq_true_1 _); by vm_compute.
Ltac not_private Hp base len :=
  match type of Hp with v4_is_private ?a = false =>
    let E := fresh in let E2 := fresh in
    intros E; enough (v4_is_private a = true) by congruence; apply (private_in a base len);
    [in_list|lia|exact E|intros E2; clear -E E2; simpl in E, E2; Z.div_mod_to_equations; lia] end.

(** An address that passes [is_safe_ip] is none of the internal ranges:
    this host, 10/8, 100.64/10, 127/8, 169.254/16 (cloud metadata), 172.16/12,
    192.168/16, multicast and reserved, nor any IPv4-mapped IPv6 address or the
    unique-local, link-local and multicast ones. *)
Theorem safe_ip_public x : is_safe_ip x = true →
  match x with
  | V4 a => a / 2 ^ 24 ≠ 0 ∧ a / 2 ^ 24 ≠ 10 ∧ a / 2 ^ 24 ≠ 127 ∧ a / 2 ^ 22 ≠ 100 * 4 + 1 ∧
            a / 2 ^ 16 ≠ 169 * 256 + 254 ∧ a / 2 ^ 20 ≠ 172 * 16 + 1 ∧ a / 2 ^ 16 ≠ 192 * 256 + 168 ∧
            a / 2 ^ 28 ≠ 14 ∧ a / 2 ^ 28 ≠ 15
  | V6 a => a ≠ 0 ∧ a ≠ 1 ∧ a / 2 ^ 32 ≠ 65535 ∧ a / 2 ^ 121 ≠ 126 ∧ a / 2 ^ 118 ≠ 1018 ∧ a / 2 ^ 120 ≠ 255
  end.
Proof.
  unfold is_safe_ip. rewrite negb_true_iff, !orb_false_iff, negb_false_iff.
  intros ((((((Hl & Hp) & Hll) & Hm) & Hu) & Hr) & Hg).
  destruct x as [a|a]; cbn [is_loopback is_private is_link_local is_multicast is_unspecified is_reserved is_global] in *.
  - unfold v4_is_global in Hg. apply andb_true_iff in Hg as [H100%negb_true_iff _].
    apply eqb_false_div in Hl, Hll, Hm, Hr, H100; [|lia..].
    split_and!; [not_private Hp (v4 0 0 0 0) 8|not_private Hp (v4 10 0 0 0) 8|exact Hl|exact H100|exact Hll
      |not_private Hp (v4 172 16 0 0) 12|not_private Hp (v4 192 168 0 0) 16|exact Hm|exact Hr].
  - pose proof (existsb_false _ _ (0, 8) Hr ltac:(in_list)) as H0.
    apply eqb_false_div in Hll, Hm, H0; [|lia..].
    assert (a / 2 ^ 120 ≠ 0) as H0' by exact H0.
    split_and!; [by apply Z.eqb_neq|by apply Z.eqb_neq| | |exact Hll|exact Hm].
    + intros E. apply H0'. replace (2 ^ 120) with (2 ^ 32 * 2 ^ 88) by done.
      rewrite <-Z.div_div by lia. by rewrite E.
    + intros E. rewrite unique_local_private in Hp; [done..|].
      intros E2. apply H0'. replace (2 ^ 120) with (2 ^ 32 * 2 ^ 88) by done.
      rewrite <-Z.div_div by lia. by rewrite E2.
Qed.

Lemma safe_ip_public_witness :
  ip_address "8.8.8.8" = Some (V4 134744072) ∧ is_safe_ip (V4 134744072) = true ∧ 134744072 / 2 ^ 24 ≠ 10.
Proof.
  split; [reflexivity|]. split; [reflexivity|]. apply (safe_ip_public (V4 134744072)). reflexivity.
Defined.

(** A webhook URL whose syntax is accepted. *)
Definition url_permitted (c : sink_config) (parsed : split_url) (host : string) : Prop :=
  urlsplit (sk_url c) = Some parsed ∧ hostname parsed = Some host ∧
  opt_truthy (userinfo parsed).1 = false ∧ opt_truthy (userinfo parsed).2 = false ∧
  (scheme parsed = "https" ∨
   scheme parsed = "http" ∧ (allow_insecure c = true ∨ lower host ∈ allowed_hosts (allowed_internal_hosts c))).

Lemma validate_permitted c parsed :
  validate_webhook_url_syntax (sk_url c) (allow_insecure c) (allowed_internal_hosts c) = inr parsed →
  ∃ host, url_permitted c parsed host.
Proof.
  unfold validate_webhook_url_syntax. destruct (urlsplit (sk_url c)) as [u|] eqn:E; [|done].
  destruct (mem_str (scheme u) _) eqn:Es; [|done]. destruct (_ || _) eqn:Eu; [done|].
  destruct (hostname u) as [h|] eqn:Eh; [|done].
  destruct (_ && _) eqn:Eh2; [done|]. intros [= <-]. exists h.
  apply orb_false_iff in Eu as [Eu1 Eu2]. split_and!; [done..|].
  apply mem_str_iff in Es. apply elem_of_cons in Es as [Es|Es%list_elem_of_singleton]; [|by left].
  right. split; [done|]. rewrite Es in Eh2. cbn [String.eqb Ascii.eqb Bool.eqb andb] in Eh2.
  change (String.eqb "http" "http") with true in Eh2.
  destruct (allow_insecure c); [by left|]. right. apply mem_str_iff. by destruct (mem_str _ _).
Qed.

Lemma refused_ip_None allowed host ips : refused_ip allowed host ips = None →
  ∀ s, s ∈ ips → ∃ x, ip_address s = Some x ∧ (allowed = true ∨ is_safe_ip x = true).
Proof.
  induction ips as [|a ips IH]; [set_solver|]. cbn [refused_ip].
  destruct (ip_address a) as [x|] eqn:E; [|done]. destruct (_ && _) eqn:Ea; [done|].
  intros H s [->|Hs]%elem_of_cons; [|by apply IH]. exists x. split; [done|].
  destruct allowed; [by left|]. right. by destruct (is_safe_ip x).
Qed.

(** A request an attempt may make: to the first of the addresses its own
    resolution gave for the host, each of them public unless the host is
    listed as internal, with the certificate checked against the host and the
    body signed. *)
Definition request_ok (hmac : string → string → string) (c : sink_config) (now : Z) (a : attempt)
    (body : string) (rq : request) : Prop :=
  ∃ parsed host ips, url_permitted c parsed host ∧
    effective_port parsed = Ok (rq_port rq) ∧ at_dns a host (rq_port rq) = Ok ips ∧
    head ips = Some (rq_ip rq) ∧
    (∀ s, s ∈ ips → ∃ x, ip_address s = Some x ∧
       (lower host ∈ allowed_hosts (allowed_internal_hosts c) ∨ is_safe_ip x = true)) ∧
    rq_tls rq = (if String.eqb (scheme parsed) "https" then Some host else None) ∧
    rq_body rq = body ∧
    dget "X-AgentOS-Signature" (rq_headers rq)
    = Some ("sha256=" +:+ hmac (sk_secret c) (str_of_Z now +:+ "." +:+ body)).

Section deliveries.
Context (hmac : string → string → string) (c : sink_config) (now : Z).
Implicit Types (env : nat → attempt) (body : string).

Lemma send_single_ok a body r rs :
  send_single_request c a body (signed_headers hmac c (str_of_Z now) body) = (r, rs) →
  (length rs ≤ 1)%nat ∧ ∀ rq, rq ∈ rs → request_ok hmac c now a body rq.
Proof.
  unfold send_single_request, resolve_and_validate_target.
  destruct (validate_webhook_url_syntax _ _ _) as [reason|parsed] eqn:Ev;
    [intros [= <- <-]; split; [simpl; lia|set_solver]|].
  apply validate_permitted in Ev as (host & Hper). pose proof Hper as (_ & Hh & _).
  destruct (effective_port parsed) as [p|e] eqn:Ep; [|intros [= <- <-]; split; [simpl; lia|set_solver]].
  cbn [mbind res_bind]. rewrite Hh. change (default "" (Some host)) with host.
  destruct (at_dns a host p) as [[|ip ips]|exc] eqn:Ed; try (intros [= <- <-]; split; [simpl; lia|set_solver]).
  destruct (refused_ip _ _ _) eqn:Er; [intros [= <- <-]; split; [simpl; lia|set_solver]|].
  intros [= <- <-]. split; [simpl; lia|]. intros rq ->%list_elem_of_singleton.
  exists parsed, host, (ip :: ips). split_and!; try done.
  intros s Hs. destruct (refused_ip_None _ _ _ Er s Hs) as (x & Hx & [Ha|Ha]); exists x; (split; [done|]);
    [left; by apply mem_str_iff|by right].
Qed.

(** The peer answers the request with a 2xx status. *)
Definition got_2xx (a : attempt) (rq : request) : Prop := ∃ st, at_http a rq = Ok st ∧ 200 ≤ st < 300.
Notation resolved a := (resolve_and_validate_target (at_dns a) (sk_url c) (allowed_internal_hosts c) (allow_insecure c)).

Lemma resolve_raises (a a' : attempt) e : resolved a = Raise e → resolved a' = Raise e.
Proof.
  unfold resolve_and_validate_target. destruct (validate_webhook_url_syntax _ _ _) as [|parsed]; [done|].
  destruct (effective_port parsed) as [p|e0]; cbn [mbind res_bind]; [|done].
  destruct (at_dns a _ p) as [[|ip ips]|]; [done| |done]. by destruct (refused_ip _ _ _).
Qed.
(** An attempt raises for every resolver, makes no request because the target
    is refused, or makes one and succeeds with a 2xx. *)
Lemma send_single_cases a body r rs :
  send_single_request c a body (signed_headers hmac c (str_of_Z now) body) = (r, rs) →
  (∃ e, r = Raise e ∧ rs = [] ∧ ∀ a', resolved a' = Raise e) ∨
  (∃ st m, r = Ok (false, st, m) ∧ rs = [] ∧ ∀ t, resolved a ≠ Ok (inr t)) ∨
  (∃ suc st m rq, r = Ok (suc, st, m) ∧ rs = [rq] ∧ request_ok hmac c now a body rq ∧ (suc = true ↔ got_2xx a rq)).
Proof.
  intros H. pose proof (send_single_ok _ _ _ _ H) as [_ Hok]. revert H. unfold send_single_request.
  destruct (resolved a) as [[reason|t]|e] eqn:Er.
  - intros [= <- <-]. right. left. by eexists _, _.
  - intros [= <- <-]. right. right. pose proof (Hok _ ltac:(by left)) as Hrq. unfold got_2xx.
    set (rq := request_for _ _ _) in *. destruct (at_http a rq) as [st|exc] eqn:Eh.
    2: { exists false, 0, (exn_msg exc), rq. split; [done|]. split; [done|]. split; [done|]. split; [done|]. intros (? & Hst & _). by rewrite Eh in Hst. }
    destruct ((200 <=? st) && (st <? 300)) eqn:E2.
    + exists true, st, EmptyString, rq. split; [done|]. split; [done|]. split; [done|]. split; [|done]. intros _. exists st. split; [done|]. lia.
    + assert (¬ (∃ st0, at_http a rq = Ok st0 ∧ 200 ≤ st0 < 300)) as Hno by (rewrite Eh; intros (? & [= <-] & ?); lia).
      destruct ((300 <=? st) && (st <? 400)); eexists false, st, _, rq; (split; [reflexivity|]; split; [reflexivity|]; split; [exact Hrq|]; by split).
  - intros [= <- <-]. left. exists e. split_and!; [done..|]. intros a'. by eapply resolve_raises.
Qed.

(** What the requests of a delivery are, each with the number of its attempt. *)
Definition delivery (n : nat) env body (r : res bool) (made : list (nat * request)) : Prop :=
  StronglySorted lt made.*1 ∧
  (∀ i rq, (i, rq) ∈ made → (i < n)%nat ∧ request_ok hmac c now (env i) body rq) ∧
  (r = Ok true ↔ ∃ i rq, (i, rq) ∈ made ∧ got_2xx (env i) rq) ∧
  (∀ i rq, (i, rq) ∈ made → got_2xx (env i) rq → last made = Some (i, rq)) ∧
  (∀ i t, (i < n)%nat → resolved (env i) = Ok (inr t) →
     (∃ rq, (i, rq) ∈ made) ∨ ∃ j rq, (j < i)%nat ∧ (j, rq) ∈ made ∧ got_2xx (env j) rq).

Definition later (p : nat * request) : nat * request := (S p.1, p.2).
Lemma later_elem i rq made : (i, rq) ∈ map later made ↔ ∃ j, i = S j ∧ (j, rq) ∈ made.
Proof.
  rewrite list_elem_of_fmap. split; [intros ([j q] & [= -> ->] & H); by exists j|].
  intros (j & -> & H). by exists (j, rq).
Qed.
Lemma later_sorted made : StronglySorted lt made.*1 → StronglySorted lt (map later made).*1.
Proof.
  induction made as [|[i rq] made IH]; cbn; [done|]. intros [Hs Hall]%StronglySorted_inv. constructor; [by apply IH|].
  rewrite Forall_forall in *. intros j (k & -> & (p & -> & Hp)%list_elem_of_fmap)%list_elem_of_fmap.
  unfold later. cbn. apply ->Nat.succ_lt_mono. apply Hall. by apply list_elem_of_fmap_2.
Qed.
Lemma delivery_later n env body r made :
  (∀ t, resolved (env 0%nat) ≠ Ok (inr t)) → delivery n (λ i, env (S i)) body r made →
  delivery (S n) env body r (map later made).
Proof.
  intros Hno (Hs & Hm & Hr & Hl & Hall). split_and!.
  - by apply later_sorted.
  - intros i rq (j & -> & Hin)%later_elem. destruct (Hm _ _ Hin). split; [lia|done].
  - rewrite Hr. split.
    + intros (i & rq & Hin & Hg). exists (S i), rq. split; [apply later_elem; by exists i|done].
    + intros (i & rq & (j & -> & Hin)%later_elem & Hg). by exists j, rq.
  - intros i rq (j & -> & Hin)%later_elem Hg. rewrite fmap_last, (Hl j rq) by done. done.
  - intros [|i] t Hi Ht; [by apply Hno in Ht|]. destruct (Hall i t ltac:(lia) Ht) as [[rq Hin]|(j & rq & Hj & Hin & Hg)].
    + left. exists rq. apply later_elem. by exists i.
    + right. exists (S j), rq. split_and!; [lia|apply later_elem; by exists j|done].
Qed.
Lemma delivery_failed n env body r made rq : request_ok hmac c now (env 0%nat) body rq → ¬ got_2xx (env 0%nat) rq →
  delivery n (λ i, env (S i)) body r made → delivery (S n) env body r ((0%nat, rq) :: map later made).
Proof.
  intros Hrq Hno (Hs & Hm & Hr & Hl & Hall). split_and!.
  - cbn. constructor; [by apply later_sorted|]. apply Forall_forall.
    intros j (k & -> & (p & -> & Hp)%list_elem_of_fmap)%list_elem_of_fmap. unfold later. cbn. lia.
  - intros i q [[= -> ->]|(j & -> & Hin)%later_elem]%elem_of_cons; [split; [lia|done]|]. destruct (Hm _ _ Hin). split; [lia|done].
  - rewrite Hr. split.
    + intros (i & q & Hin & Hg). exists (S i), q. split; [right; apply later_elem; by exists i|done].
    + intros (i & q & [[= -> ->]|(j & -> & Hin)%later_elem]%elem_of_cons & Hg); [done|]. by exists j, q.
  - intros i q [[= -> ->]|(j & -> & Hin)%later_elem]%elem_of_cons Hg; [done|].
    rewrite last_cons, fmap_last, (Hl j q) by done. done.
  - intros [|i] t Hi Ht; [left; exists rq; by left|]. destruct (Hall i t ltac:(lia) Ht) as [[q Hin]|(j & q & Hj & Hin & Hg)].
    + left. exists q. right. apply later_elem. by exists i.
    + right. exists (S j), q. split_and!; [lia|right; apply later_elem; by exists j|done].
Qed.

Lemma attempts_delivery n : ∀ env body r rs,
  attempts_loop c n env body (signed_headers hmac c (str_of_Z now) body) = (r, rs) →
  ∃ made, made.*2 = rs ∧ delivery n env body r made.
Proof.
  assert (∀ made, (map later made).*2 = made.*2) as Hsnd.
  { intros made. rewrite <-list_fmap_compose. done. }
  induction n as [|n IH]; intros env body r rs.
  { intros [= <- <-]. exists []. split; [done|]. split_and!; [constructor|set_solver| |set_solver|intros; lia].
    split; [done|]. intros (i & rq & Hin & _). by apply not_elem_of_nil in Hin. }
  cbn [attempts_loop]. destruct (send_single_request c (env 0%nat) body _) as [r0 rs0] eqn:Es.
  destruct (send_single_cases _ _ _ _ Es) as [(e & -> & -> & Hall)|[(st & m & -> & -> & Hno)|(suc & st & m & rq & -> & -> & Hrq & Hg)]].
  - intros [= <- <-]. exists []. split; [done|]. split_and!; [constructor|set_solver| |set_solver|].
    + split; [done|]. intros (i & rq & Hin & _). by apply not_elem_of_nil in Hin.
    + intros i t _ Ht. by rewrite Hall in Ht.
  - destruct (attempts_loop _ n _ _ _) as [r' rs'] eqn:El. intros [= <- <-].
    destruct (IH _ _ _ _ El) as (made & <- & Hd). exists (map later made). split; [apply Hsnd|].
    by apply delivery_later.
  - destruct suc.
    + intros [= <- <-]. assert (got_2xx (env 0%nat) rq) as H2 by by apply Hg. exists [(0%nat, rq)]. split; [done|]. split_and!.
      * cbn. by repeat constructor.
      * intros i q [= -> ->]%list_elem_of_singleton. split; [lia|done].
      * split; [|done]. intros _. exists 0%nat, rq. split; [by left|done].
      * by intros i q [= -> ->]%list_elem_of_singleton _.
      * intros [|i] t _ _; [left; exists rq; by left|]. right. exists 0%nat, rq. split_and!; [lia|by left|done].
    + destruct (attempts_loop _ n _ _ _) as [r' rs'] eqn:El. intros [= <- <-].
      destruct (IH _ _ _ _ El) as (made & <- & Hd). exists ((0%nat, rq) :: map later made). split; [cbn; by rewrite Hsnd|].
      apply delivery_failed; [done| |done]. by intros H%Hg.
Qed.

Lemma sorted_below_length n (l : list nat) : StronglySorted lt l → (∀ i, i ∈ l → (i < n)%nat) → (length l ≤ n)%nat.
Proof.
  intros Hs Hb. rewrite <-(length_seq n 0). apply submseteq_length, NoDup_submseteq.
  - induction Hs as [|i l Hs IH Hall]; [constructor|]. constructor; [|apply IH; intros; apply Hb; by right].
    intros Hin. rewrite Forall_forall in Hall. specialize (Hall _ Hin). lia.
  - intros i Hin. apply elem_of_seq. specialize (Hb i Hin). lia.
Qed.

(** C31. However the resolver answers and the peers respond, from one attempt
    to the next, delivering an event makes at most [max_retries] requests, in
    the order of the attempts and at most one in each: pinned to an address
    checked in the same attempt, never to an internal one unless the host is
    listed, in clear only where that is allowed, never with credentials, and
    signed.  Every attempt whose target passes the check makes its request
    unless an earlier one was answered with a status from 200 to 299; a request
    so answered is the last; the delivery succeeds exactly when there is one.
    An event without a JSON text is not sent. *)
Theorem webhook_requests_pinned env event :
  let '(r, rs) := send_with_retry hmac c now env event in
  match dumps_compact event with
  | Raise e => r = Raise e ∧ rs = []
  | Ok body =>
      Z.of_nat (length rs) ≤ Z.max 0 (max_retries c) ∧
      ∃ made : list (nat * request), made.*2 = rs ∧ StronglySorted lt made.*1 ∧
      (∀ i rq, (i, rq) ∈ made → Z.of_nat i < max_retries c ∧ request_ok hmac c now (env i) body rq) ∧
      (r = Ok true ↔ ∃ i rq st, (i, rq) ∈ made ∧ at_http (env i) rq = Ok st ∧ 200 ≤ st < 300) ∧
      (∀ i rq st, (i, rq) ∈ made → at_http (env i) rq = Ok st → 200 ≤ st < 300 → last made = Some (i, rq)) ∧
      (∀ i t, Z.of_nat i < max_retries c →
         resolve_and_validate_target (at_dns (env i)) (sk_url c) (allowed_internal_hosts c) (allow_insecure c) = Ok (inr t) →
         (∃ rq, (i, rq) ∈ made) ∨
         ∃ j rq st, (j < i)%nat ∧ (j, rq) ∈ made ∧ at_http (env j) rq = Ok st ∧ 200 ≤ st < 300)
  end.
Proof.
  unfold send_with_retry. destruct (dumps_compact event) as [body|e]; [|done].
  destruct (attempts_loop _ _ _ _ _) as [r rs] eqn:El.
  destruct (attempts_delivery _ _ _ _ _ El) as (made & <- & Hs & Hm & Hr & Hl & Hall). split.
  { assert (length made.*1 ≤ Z.to_nat (max_retries c))%nat as Hlen.
    { apply sorted_below_length; [done|]. intros i ([j q] & -> & Hin)%list_elem_of_fmap. by destruct (Hm _ _ Hin). }
    rewrite length_fmap in Hlen. rewrite length_fmap. lia. }
  exists made. split_and!; [done|done| | | |].
  - intros i rq Hin. destruct (Hm _ _ Hin). split; [lia|done].
  - rewrite Hr. unfold got_2xx. naive_solver.
  - intros i rq st Hin Ha H2. apply Hl; [done|]. by exists st.
  - intros i t Hi Ht. destruct (Hall i t ltac:(lia) Ht) as [?|(j & rq & Hj & Hin & st & Hg)]; [by left|].
    right. by exists j, rq, st.
Qed.
End deliveries.

(** The log redaction cuts at the first [@]: a password that holds one leaks
    its tail. *)
Lemma redaction_leaks_password_tail :
  redact_url_for_log "https://user:p@ss@hooks.example/x?key=1" = "https://ss@hooks.example/*".
Proof. by vm_compute. Qed.

(** ** The queue

    [emit] checks that the sink is open and starts the workers, then puts the
    event: two steps, between which other threads run.  [None] is the shutdown
    sentinel.  A worker takes an item, and stops at a sentinel; [taken] is what
    the workers took to send, in the order of the queue. *)
Record sink_state := mkSinkState {
  queue : list (option pyval);
  closed : bool;
  workers : Z;            (* threads started *)
  stopped : Z;            (* of which have met a sentinel *)
  putting : list pyval;   (* emitters between the check and the put *)
  accepted : list pyval;  (* events put, in order *)
  taken : list pyval;
  mark : nat }.           (* events accepted when the sink was closed *)
Definition new_sink : sink_state := mkSinkState [] false 0 0 [] [] [] 0.

Definition ensure_workers_started (c : sink_config) (s : sink_state) : sink_state :=
  if closed s then s
  else if negb (workers s =? 0) then s
  else mkSinkState (queue s) (closed s) (num_workers c) (stopped s) (putting s) (accepted s) (taken s) (mark s).

Definition full (c : sink_config) (s : sink_state) : bool := max_queue_size c <=? Z.of_nat (length (queue s)).

Definition emit_check (c : sink_config) (e : pyval) (s : sink_state) : sink_state :=
  if closed s then s
  else let s := ensure_workers_started c s in
       mkSinkState (queue s) (closed s) (workers s) (stopped s) (putting s ++ [e]) (accepted s) (taken s) (mark s).

(** The [i]-th emitter puts its event; [queue.Full] drops it. *)
Definition emit_put (c : sink_config) (i : nat) (s : sink_state) : sink_state :=
  match putting s !! i with
  | None => s
  | Some e =>
      let rest := delete i (putting s) in
      if full c s then mkSinkState (queue s) (closed s) (workers s) (stopped s) rest (accepted s) (taken s) (mark s)
      else mkSinkState (queue s ++ [Some e]) (closed s) (workers s) (stopped s) rest (accepted s ++ [e]) (taken s) (mark s)
  end.

(** One [put_nowait] of a sentinel per worker; a full queue drops it. *)
Fixpoint put_sentinels (c : sink_config) (n : nat) (s : sink_state) : sink_state :=
  match n with
  | O => s
  | S n' =>
      put_sentinels c n'
        (if full c s then s
         else mkSinkState (queue s ++ [None]) (closed s) (workers s) (stopped s) (putting s) (accepted s)
                (taken s) (mark s))
  end.
Definition close (c : sink_config) (s : sink_state) : sink_state :=
  if closed s then s
  else put_sentinels c (Z.to_nat (workers s))
         (mkSinkState (queue s) true (workers s) (stopped s) (putting s) (accepted s) (taken s)
            (length (accepted s))).

(** A running worker gets the next item. *)
Definition worker_get (s : sink_state) : sink_state :=
  if workers s <=? stopped s then s
  else match queue s with
       | [] => s
       | None :: q => mkSinkState q (closed s) (workers s) (stopped s + 1) (putting s) (accepted s) (taken s) (mark s)
       | Some e :: q => mkSinkState q (closed s) (workers s) (stopped s) (putting s) (accepted s) (taken s ++ [e]) (mark s)
       end.

Inductive sink_step (c : sink_config) : sink_state → sink_state → Prop :=
  | k_check e s : sink_step c s (emit_check c e s)
  | k_put i s : sink_step c s (emit_put c i s)
  | k_close s : sink_step c s (close c s)
  | k_get s : sink_step c s (worker_get s).

Definition items (q : list (option pyval)) : list pyval := omap id q.

Record sink_ok (c : sink_config) (s : sink_state) : Prop := {
  sk_fifo : accepted s = taken s ++ items (queue s);
  sk_size : Z.of_nat (length (queue s)) ≤ max_queue_size c;
  sk_mark : closed s = true → (mark s ≤ length (accepted s))%nat;
  sk_open : closed s = false → None ∉ queue s ∧ stopped s = 0;
  sk_sentinel : ∀ pre post, queue s = pre ++ None :: post → (mark s ≤ length (taken s) + length (items pre))%nat;
  sk_stopped : 0 ≤ stopped s ∧ (0 < stopped s → (mark s ≤ length (taken s))%nat) }.

Lemma items_app a b : items (a ++ b) = items a ++ items b.
Proof. apply omap_app. Qed.

Lemma put_sentinels_ok c n : ∀ s, closed s = true → sink_ok c s → sink_ok c (put_sentinels c n s).
Proof.
  induction n as [|n IH]; intros s Hc Hok; [done|]. cbn [put_sentinels].
  destruct (full c s) eqn:Ef; [by apply IH|]. apply IH; [done|].
  unfold full in Ef. apply Z.leb_gt in Ef. destruct Hok as [H1 H2 H3 H4 H5 H6].
  split; cbn [queue closed workers stopped putting accepted taken mark]; try done.
  - by rewrite items_app, app_nil_r.
  - rewrite length_app. cbn [length]. lia.
  - intros Hc'. congruence.
  - intros pre post E. destruct post as [|x post] using rev_ind.
    + apply app_inj_tail in E as [<- _]. rewrite <-length_app, <-H1. by apply H3.
    + rewrite app_comm_cons, app_assoc in E. apply app_inj_tail in E as [E _]. by eapply H5.
Qed.

Lemma sink_step_ok c s s' : 0 < max_queue_size c → sink_step c s s' → sink_ok c s → sink_ok c s'.
Proof.
  intros Hpos Hs Hok. pose proof Hok as [H1 H2 H3 H4 H5 H6]. destruct Hs as [e s|i s|s|s].
  - unfold emit_check. destruct (closed s) eqn:Ec; [done|].
    unfold ensure_workers_started. rewrite Ec. destruct (negb _); split; cbn [queue closed workers stopped putting accepted taken mark]; try done; rewrite ?Ec; done.
  - unfold emit_put. destruct (putting s !! i) as [e|]; [|done].
    destruct (full c s) eqn:Ef; [by split|]. unfold full in Ef. apply Z.leb_gt in Ef.
    split; cbn [queue closed workers stopped putting accepted taken mark]; try done.
    + by rewrite H1, items_app, app_assoc.
    + rewrite length_app. cbn [length]. lia.
    + intros Hc. specialize (H3 Hc). rewrite length_app. lia.
    + intros Hc. destruct (H4 Hc) as [Hn ?]. split; [|done]. rewrite elem_of_app. intros [?|Hin]; [done|].
      by apply list_elem_of_singleton in Hin.
    + intros pre post E. destruct post as [|x post] using rev_ind; [by apply app_inj_tail in E as [_ ?]|].
      rewrite app_comm_cons, app_assoc in E. apply app_inj_tail in E as [E _]. by eapply H5.
  - unfold close. destruct (closed s) eqn:Ec; [done|]. apply put_sentinels_ok; [done|].
    destruct (H4 eq_refl) as [Hn Hst].
    split; cbn [queue closed workers stopped putting accepted taken mark]; try done.
    + intros pre post E. exfalso. apply Hn. rewrite E. set_solver.
    + lia.
  - unfold worker_get. destruct (_ <=? _); [done|]. destruct (queue s) as [|[e|] q] eqn:Eq; [done|..].
    + split; cbn [queue closed workers stopped putting accepted taken mark]; try done.
      * by rewrite H1, <-app_assoc.
      * cbn [length] in H2. lia.
      * intros Hc. destruct (H4 Hc) as [Hn ?]. split; [set_solver|done].
      * intros pre post E. specialize (H5 (Some e :: pre) post). rewrite E in H5. specialize (H5 eq_refl).
        change (items (Some e :: pre)) with (e :: items pre) in H5. rewrite length_app. cbn [length] in *. lia.
      * destruct H6 as [? H6]. split; [done|]. intros Hp. rewrite length_app. specialize (H6 Hp). lia.
    + specialize (H5 [] q eq_refl) as Hm. cbn in Hm.
      split; cbn [queue closed workers stopped putting accepted taken mark]; try done.
      * cbn [length] in H2. lia.
      * intros Hc. destruct (H4 Hc) as [Hn ?]. set_solver.
      * intros pre post E. specialize (H5 (None :: pre) post). rewrite E in H5. specialize (H5 eq_refl). done.
      * split; lia.
Qed.

(** In every interleaving of emitters, workers and a close: the workers
    take exactly the events put, each once, in order; the queue never exceeds
    its bound; and no worker stops before every event accepted by the time of
    the close has been taken. *)
Theorem webhook_queue_fifo c s : 0 < max_queue_size c → rtc (sink_step c) new_sink s →
  accepted s = taken s ++ items (queue s) ∧ Z.of_nat (length (queue s)) ≤ max_queue_size c ∧
  (0 < stopped s → take (mark s) (accepted s) = take (mark s) (taken s)).
Proof.
  intros Hpos Hr. assert (sink_ok c s) as [H1 H2 _ _ _ [_ H6]].
  { assert (sink_ok c new_sink) as Hn.
    { split; cbn; try done; [lia|intros _; split; [apply not_elem_of_nil|done]|intros [|? pre] post E; discriminate E]. }
    induction Hr as [|a b d Hab _ IH]; [done|]. apply IH. by eapply sink_step_ok. }
  split_and!; [done..|]. intros Hp. rewrite H1. apply take_app_le. by apply H6.
Qed.

Definition demo_sink : sink_config := WebhookEventSink "https://h/" "s" [] false 3 1 1.
Lemma webhook_queue_fifo_witness : ∃ s, rtc (sink_step demo_sink) new_sink s ∧ taken s = [VNone] ∧ 0 < stopped s ∧
  accepted s = taken s ++ items (queue s).
Proof.
  assert (∃ s, rtc (sink_step demo_sink) new_sink s ∧ taken s = [VNone] ∧ 0 < stopped s) as (s & Hr & Ht & Hs).
  { eexists. split.
    - eapply rtc_l; [apply (k_check _ VNone)|]. eapply rtc_l; [apply (k_put _ 0)|].
      eapply rtc_l; [apply k_get|]. eapply rtc_l; [apply k_close|]. eapply rtc_l; [apply k_get|]. apply rtc_refl.
    - split; reflexivity. }
  exists s. split; [done|]. split; [done|]. split; [done|].
  apply (webhook_queue_fifo demo_sink s); [reflexivity|exact Hr].
Defined.

(** Closing with a full queue drops the sentinel: the worker takes the last
    event and then waits for ever on the empty queue of a closed sink. *)
Lemma close_on_full_queue_leaves_worker :
  let s := worker_get (close demo_sink (emit_put demo_sink 0 (emit_check demo_sink VNone new_sink))) in
  closed s = true ∧ queue s = [] ∧ stopped s < workers s ∧ worker_get s = s.
Proof. by vm_compute. Qed.
