(* ===== verification/Workflow.v ===== *)
(** * The agent graph (agent_os/state.py, routing.py, graph.py, nodes/)

    The state a thread's checkpoint holds, the nodes as functions of it, and
    the edges between them.  The agents, the router model and the skills answer
    through an environment; LangGraph runs one node after another until the
    end, an interrupt, an exception or the recursion limit, and merges the
    input of an invocation into the checkpointed state.  Messages and injected
    context, which only enter prompts, are in Nodes.v. *)
From S2P Require Export Skills OutputLimits Json.
From Corelib Require Import SpecFloat.

Record PlanArtifact := mkPlan {
  pa_summary : string;
  pa_steps : list string;
  pa_criteria : list string;
  pa_verify_cmd : option string }.   (* of an ArchitectBrief *)

Inductive PlanField := PNone | PText (s : string) | PPlan (p : PlanArtifact).
Inductive ResultField := RNone | RText (s : string) | RResult (r : ExecutionResult).

Record ToolExecutionResult := mkToolResult { tr_tool : string; tr_output : string; tr_success : bool }.

Record SimonState := mkState {
  task : string;
  run_id : option string;
  plan : PlanField;
  executor_output : ResultField;
  human_feedback : option string;
  tool_result : option ToolExecutionResult;
  router_escalated : option bool }.

Definition set_plan (p : PlanField) (s : SimonState) : SimonState :=
  mkState (task s) (run_id s) p (executor_output s) (human_feedback s) (tool_result s) (router_escalated s).
Definition set_output (r : ResultField) (s : SimonState) : SimonState :=
  mkState (task s) (run_id s) (plan s) r (human_feedback s) (tool_result s) (router_escalated s).
Definition set_feedback (f : string) (s : SimonState) : SimonState :=
  mkState (task s) (run_id s) (plan s) (executor_output s) (Some f) (tool_result s) (router_escalated s).
Definition set_escalated (b : bool) (s : SimonState) : SimonState :=
  mkState (task s) (run_id s) (plan s) (executor_output s) (human_feedback s) (tool_result s) (Some b).
Definition set_tool_result (t : ToolExecutionResult) (s : SimonState) : SimonState :=
  mkState (task s) (run_id s) (plan s) (executor_output s) (human_feedback s) (Some t) (router_escalated s).

(** [initial_state(task)] merged into the state of the thread: the keys it does
    not list keep their values. *)
Definition initial_state (new_task : string) (run : option string) (s : SimonState) : SimonState :=
  mkState new_task run PNone RNone None (tool_result s) (router_escalated s).
Definition fresh_thread : SimonState := mkState "" None PNone RNone None None None.

(** ** Routing *)
Inductive Route := to_architect | to_executor | to_tool | to_end.
Inductive node := n_planner | n_supervisor | n_architect | n_human_gate | n_executor | n_tool_dispatcher | n_end.

Definition ROUTE_TO_NODE (r : Route) : node :=
  match r with
  | to_architect => n_architect | to_executor => n_executor | to_tool => n_tool_dispatcher | to_end => n_end
  end.
Definition DEFAULT_RECURSION_LIMIT : nat := 7.

Definition get_router_mode (env : option string) : res string :=
  let value := lower (strip (default "cascade"%string env)) in
  if mem_str value ["cascade"; "direct-escalation"] then Ok value
  else Raise (ValueError ("Invalid ROUTER_MODE value '" +:+ value +:+
                          "'. Expected 'cascade' or 'direct-escalation'.")).

Definition build_runtime_config (thread_id : string) : res (nat * string) :=
  if sempty (strip thread_id) then Raise (ValueError "thread_id must not be empty")
  else Ok (DEFAULT_RECURSION_LIMIT, strip thread_id).

Definition approved (s : SimonState) : bool :=
  match human_feedback s with Some f => String.eqb f "approved" | None => false end.
Definition rejected (s : SimonState) : bool :=
  match human_feedback s with Some f => truthy f && startswith "rejected:" f | None => false end.

Definition route_from_state (s : SimonState) : Route :=
  if match executor_output s with RResult r => bool_decide (er_status r = completed) | _ => false end then to_end
  else if approved s then to_executor
  else if rejected s then to_architect
  else if match executor_output s with RText _ => true | _ => false end then to_end
  else if match plan s with PPlan _ => true | _ => false end then to_end
  else if match router_escalated s with Some b => b | None => false end then to_architect
  else to_tool.

(** ** The human gate *)
Definition normalize_human_feedback (value : pyval) : res string :=
  match value with
  | VStr s =>
      let v := lower (strip s) in
      if sempty v then Raise (ValueError "Feedback cannot be empty")
      else if mem_str v ["approved"; "y"; "yes"] then Ok "approved"%string
      else if startswith "rejected:" v then
        let reason := strip (sdrop 9 (strip s)) in
        Ok ("rejected: " +:+ (if truthy reason then reason else "no reason provided"))
      else if mem_str v ["rejected"; "n"; "no"] then Ok "rejected: no reason provided"%string
      else Raise (ValueError ("Unsupported feedback value: " +:+ s))
  | _ => Raise (ValueError "Feedback must be a string")
  end.

(** ** The tool dispatcher *)

(** What a skill returns: a pydantic model as its JSON text, with the fields
    the dispatcher reads, or a plain value. *)
Inductive raw_output :=
  | OutExecution (r : ExecutionResult) (json : string)
  | OutBash (returncode : option Z) (json : string)
  | OutModel (json : string)
  | OutValue (v : pyval).

(** [json.dumps(v, sort_keys=True, default=str)] *)
Fixpoint dumps_sorted (v : pyval) : res string :=
  match v with
  | VList l => xs ← res_all (map dumps_sorted l); Ok ("[" +:+ sjoin ", " xs +:+ "]")
  | VDict d =>
      xs ← res_all (map snd (sort_by (λ a b, str_leb a.1 b.1)
             (map (λ '(k, x), (k, t ← dumps_sorted x; Ok (json_string k +:+ ": " +:+ t))) d)));
      Ok ("{" +:+ sjoin ", " xs +:+ "}")
  | VObj _ _ => Ok (json_string (py_str v))
  | _ => dumps v
  end.

Definition of_codes (l : list Z) : string := foldr (λ c s, String (chr c) s) EmptyString l.

Definition serialize_tool_output (o : raw_output) : res string :=
  serialized ← match o with
               | OutExecution _ j | OutBash _ j | OutModel j => Ok j
               | OutValue (VDict d) => dumps_sorted (VDict d)
               | OutValue (VList l) => dumps_sorted (VList l)
               | OutValue v => Ok (py_str v)
               end;
  '(out, _) ← truncate_utf8 (codes serialized) DISPATCHER_OUTPUT_MAX_BYTES;
  Ok (of_codes out).

Definition output_success (o : raw_output) : bool :=
  match o with
  | OutExecution r _ => bool_decide (er_status r = completed)
  | OutBash (Some code) _ => code =? 0
  | _ => true
  end.

(** A [Command]: the update of the state and where to go. *)
Definition command := (SimonState * node)%type.

Definition escalate (tool : option string) (error : option exn) (s : SimonState) : command :=
  let s := set_escalated true s in
  (match error with
   | Some e => set_tool_result (mkToolResult (match tool with Some t => if truthy t then t else "router" | None => "router" end)
                                  (exn_msg e) false) s
   | None => s
   end, n_supervisor).

Record wenv := mkEnv {
  e_router_mode : option string;
  e_router : string → registry → res RouterDecision;      (* the router model *)
  e_skill : RegisteredSkill → pydict → res raw_output;    (* [skill.invoke] *)
  e_architect : SimonState → res PlanArtifact;
  e_executor : SimonState → PlanArtifact → res ExecutionResult }.

Definition is_interrupt (e : exn) : bool := match e with GraphInterrupt _ => true | _ => false end.

Definition invoke_skill (env : wenv) (sk : RegisteredSkill) (args : pydict) (s : SimonState) : res command :=
  match e_skill env sk args with
  | Raise e => if is_interrupt e then Raise e else Ok (escalate (Some (sk_name sk)) (Some e) s)
  | Ok raw =>
      output ← serialize_tool_output raw;
      Ok (set_escalated false (set_tool_result (mkToolResult (sk_name sk) output (output_success raw)) s), n_end)
  end.

Definition classify_tool_request (env : wenv) (task : string) (r : registry) : res RouterDecision :=
  match names r with
  | [] => Ok (mkRouterDecision None (S754_zero false) [])
  | _ =>
      decision ← e_router env task r;
      match rd_tool decision with
      | Some t => if mem_str t (names r) then Ok decision else Ok (mkRouterDecision None (S754_zero false) [])
      | None => Ok decision
      end
  end.

(** 0.80 *)
Definition ROUTER_CONFIDENCE_THRESHOLD : spec_float := S754_finite false 7205759403792794 (-53).

Definition act_on (env : wenv) (r : registry) (decision : RouterDecision) (s : SimonState) : res command :=
  match rd_tool decision with
  | None => Ok (escalate None None s)
  | Some t =>
      if SFltb (rd_confidence decision) ROUTER_CONFIDENCE_THRESHOLD then Ok (escalate None None s)
      else match get t r with
           | None => Ok (escalate None None s)
           | Some sk => invoke_skill env sk (rd_arguments decision) s
           end
  end.

Definition tool_dispatcher_node (r : registry) (env : wenv) (s : SimonState) : res command :=
  match parse_tier1_request (task s) r with
  | Raise error => Ok (escalate (sk_name <$> deterministic_match (task s) r) (Some error) s)
  | Ok (Some decision) => act_on env r decision s
  | Ok None =>
      mode ← get_router_mode (e_router_mode env);
      if String.eqb mode "direct-escalation" then Ok (escalate None None s)
      else match classify_tool_request env (task s) r with
           | Raise error => Ok (escalate None (Some error) s)
           | Ok decision => act_on env r decision s
           end
  end.

(** ** The nodes *)
Inductive wevent :=
  | EvInput (task : string)
  | EvPlanned (p : PlanArtifact)                    (* the architect returned *)
  | EvAnswered (p : PlanArtifact) (feedback : string)  (* the gate showed [p] *)
  | EvExecuted (p : PlanArtifact)                   (* the executor was given [p] *)
  | EvTool.                                         (* the dispatcher ran *)

Inductive node_end :=
  | Goto (n : node) (s : SimonState) (evs : list wevent)
  | Pause                        (* waiting for an answer *)
  | Stop (e : exn) (evs : list wevent).

Definition planner_node (s : SimonState) : SimonState :=
  match plan s with PPlan _ => s | _ => set_plan (PText (task s)) s end.

(** [resume]: the value an interrupt of this node is resumed with. *)
Definition run_node (r : registry) (env : wenv) (resume : option pyval) (n : node) (s : SimonState) : node_end :=
  match n with
  | n_planner => Goto n_supervisor (planner_node s) []
  | n_supervisor => Goto (ROUTE_TO_NODE (route_from_state s)) s []
  | n_architect =>
      match e_architect env s with
      | Ok p => Goto n_human_gate (set_plan (PPlan p) s) [EvPlanned p]
      | Raise e => Stop e []
      end
  | n_human_gate =>
      match plan s with
      | PPlan p =>
          match resume with
          | None => Pause
          | Some v =>
              match normalize_human_feedback v with
              | Ok f => Goto n_supervisor (set_feedback f s) [EvAnswered p f]
              | Raise e => Stop e []
              end
          end
      | _ => Stop (ValueError "human_gate_node requires a PlanArtifact or ArchitectBrief in state['plan']") []
      end
  | n_executor =>
      match plan s with
      | PPlan p =>
          match e_executor env s p with
          | Ok out => Goto n_supervisor (set_output (RResult out) s) [EvExecuted p]
          | Raise e => Stop e [EvExecuted p]
          end
      | _ => Stop (ValueError "Executor requires a PlanArtifact or ArchitectBrief plan.") []
      end
  | n_tool_dispatcher =>
      match tool_dispatcher_node r env s with
      | Ok (s', n') => Goto n' s' [EvTool]
      | Raise e => if is_interrupt e then Pause else Stop e [EvTool]
      end
  | n_end => Goto n_end s []
  end.

(** ** An invocation of the graph *)
Inductive drive_end := Ended | Interrupted | Failed (e : exn) | RecursionLimit.

(** At most [limit] nodes; the environment may answer differently each time;
    the answer of a resumed interrupt is for the first node. *)
Fixpoint drive (r : registry) (limit : nat) (env : nat → wenv) (resume : option pyval) (n : node) (s : SimonState)
    : drive_end * node * SimonState * list wevent :=
  match n with
  | n_end => (Ended, n_end, s, [])
  | _ =>
      match limit with
      | O => (RecursionLimit, n, s, [])
      | S limit' =>
          match run_node r (env O) resume n s with
          | Goto n' s' evs =>
              let '(e, n2, s2, evs2) := drive r limit' (λ i, env (S i)) None n' s' in (e, n2, s2, evs ++ evs2)
          | Pause => (Interrupted, n, s, [])
          | Stop e evs => (Failed e, n, s, evs)
          end
      end
  end.

Definition invoke (r : registry) (limit : nat) (env : nat → wenv) (new_task : string) (run : option string)
    (s : SimonState) : drive_end * node * SimonState * list wevent :=
  drive r limit env None n_planner (initial_state new_task run s).
Definition resume_with (r : registry) (limit : nat) (env : nat → wenv) (v : pyval) (n : node) (s : SimonState)
    : drive_end * node * SimonState * list wevent :=
  drive r limit env (Some v) n s.

(** ** No plan is executed but the one approved *)

(** The plan the events authorise: the last answer of the gate, if it was an
    approval, and no new plan or task came since. *)
Definition authorises (acc : option PlanArtifact) (ev : wevent) : option PlanArtifact :=
  match ev with
  | EvAnswered p f => if String.eqb f "approved" then Some p else None
  | EvInput _ | EvPlanned _ => None
  | EvExecuted _ | EvTool => acc
  end.
Definition authorised (tr : list wevent) : option PlanArtifact := foldl authorises None tr.

(** The nodes and states a thread reaches, with the events so far: new inputs
    at any time, any answers of the environment and of the human, and nodes
    that fail and are run again. *)
Inductive wreach (r : registry) : node → SimonState → list wevent → Prop :=
  | w_fresh : wreach r n_end fresh_thread []
  | w_input n s tr t run : wreach r n s tr →
      wreach r n_planner (initial_state t run s) (tr ++ [EvInput t])
  | w_goto env resume n s n' s' evs tr : wreach r n s tr →
      run_node r env resume n s = Goto n' s' evs → wreach r n' s' (tr ++ evs)
  | w_stop env resume n s e evs tr : wreach r n s tr →
      run_node r env resume n s = Stop e evs → wreach r n s (tr ++ evs).

(** The dispatcher ends the run with a result, or escalates. *)
Definition dispatched (s s' : SimonState) (n' : node) : Prop :=
  ∃ t b, s' = mkState (task s) (run_id s) (plan s) (executor_output s) (human_feedback s) t (Some b) ∧
         (n' = n_supervisor ∧ b = true ∨ n' = n_end ∧ b = false).

Lemma dispatcher_frame r env s s' n' : tool_dispatcher_node r env s = Ok (s', n') → dispatched s s' n'.
Proof.
  assert (∀ t e, Ok (escalate t e s) = Ok (s', n') → dispatched s s' n') as Hesc.
  { unfold escalate, dispatched. intros t e [= <- <-]. destruct e; simpl; eauto 10. }
  assert (∀ d, act_on env r d s = Ok (s', n') → dispatched s s' n') as Hact.
  { intros d. unfold act_on, invoke_skill.
    destruct (rd_tool d); [|apply Hesc]. destruct (SFltb _ _); [apply Hesc|].
    destruct (get _ _) as [sk|]; [|apply Hesc].
    destruct (e_skill env sk _) as [raw|e].
    - intros (out & _ & [= <- <-])%res_bind_ok. unfold dispatched. simpl. eauto 10.
    - destruct (is_interrupt e); [done|]. apply Hesc. }
  unfold tool_dispatcher_node. destruct (parse_tier1_request _ _) as [[d|]|e].
  - apply Hact.
  - intros (mode & _ & H)%res_bind_ok. revert H. destruct (String.eqb _ _); [apply Hesc|].
    destruct (classify_tool_request _ _ _); [apply Hact|apply Hesc].
  - apply Hesc.
Qed.

Lemma route_approved s : (route_from_state s = to_executor → approved s = true) ∧
  (route_from_state s = to_architect → approved s = false).
Proof.
  unfold route_from_state. destruct (match executor_output s with RResult r => _ | _ => false end); [done|].
  destruct (approved s); [done|]. split; [|done]. by repeat case_match.
Qed.

(** What holds between the nodes of a thread. *)
Record thread_ok (n : node) (s : SimonState) (tr : list wevent) : Prop := {
  t_plan : approved s = true → ∃ p, plan s = PPlan p ∧ authorised tr = Some p;
  t_exec : n = n_executor → approved s = true;
  t_arch : n = n_architect → approved s = false;
  t_past : ∀ pre p post, tr = pre ++ EvExecuted p :: post → authorised pre = Some p }.

Lemma past_snoc tr ev :
  (∀ pre p post, tr = pre ++ EvExecuted p :: post → authorised pre = Some p) →
  (∀ p, ev = EvExecuted p → authorised tr = Some p) →
  ∀ pre p post, tr ++ [ev] = pre ++ EvExecuted p :: post → authorised pre = Some p.
Proof.
  intros Htr Hev pre p post. destruct post as [|x post] using rev_ind.
  - intros [<- ->]%app_inj_tail. by apply Hev.
  - rewrite app_comm_cons, app_assoc. intros [E _]%app_inj_tail. by eapply Htr.
Qed.
Lemma authorised_snoc tr ev : authorised (tr ++ [ev]) = authorises (authorised tr) ev.
Proof. unfold authorised. by rewrite foldl_app. Qed.

Lemma goto_ok r env resume n s n' s' evs tr : thread_ok n s tr →
  run_node r env resume n s = Goto n' s' evs → thread_ok n' s' (tr ++ evs).
Proof.
  intros [Hp He Ha Ht]. destruct n; cbn [run_node].
  - intros [= <- <- <-]. rewrite app_nil_r. split; try done. unfold planner_node.
    destruct (plan s) eqn:E; [| |by rewrite E]; intros H; destruct (Hp H) as (p & [=] & _).
  - intros [= <- <- <-]. rewrite app_nil_r. pose proof (route_approved s) as [H1 H2].
    split; [done| | |done]; intros E; [apply H1|apply H2]; by destruct (route_from_state s).
  - destruct (e_architect env s) as [p|]; [|done]. intros [= <- <- <-].
    split; try done.
    + change (approved (set_plan (PPlan p) s)) with (approved s). by rewrite Ha.
    + by apply past_snoc.
  - destruct (plan s) as [| |p] eqn:Epl; try done. destruct resume as [v|]; [|done].
    destruct (normalize_human_feedback v) as [f|]; [|done]. intros [= <- <- <-].
    split; try done; [|by apply past_snoc]. unfold approved. cbn. intros Hf. exists p.
    split; [done|]. rewrite authorised_snoc. cbn. by rewrite Hf.
  - destruct (plan s) as [| |p] eqn:Epl; try done. destruct (e_executor env s p) as [out|]; [|done].
    intros [= <- <- <-]. specialize (He eq_refl). destruct (Hp He) as (p' & [= <-] & Hauth).
    split; try done.
    + intros _. exists p. split; [done|]. by rewrite authorised_snoc.
    + apply past_snoc; [done|]. by intros q [= <-].
  - destruct (tool_dispatcher_node r env s) as [[s1 n1]|e] eqn:Ed; [|by destruct (is_interrupt e)].
    intros [= <- <- <-]. apply dispatcher_frame in Ed as (t & b & -> & Hn).
    split; [| | |by apply past_snoc].
    + rewrite authorised_snoc. apply Hp.
    + by destruct Hn as [[-> _]|[-> _]].
    + by destruct Hn as [[-> _]|[-> _]].
  - intros [= <- <- <-]. rewrite app_nil_r. by split.
Qed.

Lemma stop_ok r env resume n s e evs tr : thread_ok n s tr →
  run_node r env resume n s = Stop e evs → thread_ok n s (tr ++ evs).
Proof.
  intros Hok. assert (evs = [] → thread_ok n s (tr ++ evs)) as Hnil by (intros ->; by rewrite app_nil_r).
  destruct n; cbn [run_node]; try done.
  - destruct (e_architect env s); [done|]. intros H. apply Hnil. by injection H.
  - intros H. apply Hnil. by repeat case_match; simplify_eq.
  - destruct (plan s) as [| |p] eqn:Epl.
    1,2: intros H; apply Hnil; by injection H.
    destruct (e_executor env s p); [done|]. intros [= _ <-]. destruct Hok as [Hp He Ha Ht].
    destruct (Hp (He eq_refl)) as (p' & Hpl & Hauth). assert (p = p') as <- by congruence. split; try done.
    + intros _. exists p. split; [done|]. by rewrite authorised_snoc.
    + apply past_snoc; [done|]. by intros q [= <-].
  - destruct (tool_dispatcher_node r env s) as [[s1 n1]|x]; [done|]. destruct (is_interrupt x); [done|].
    intros [= _ <-]. destruct Hok as [Hp He Ha Ht]. split; try done; [|by apply past_snoc].
    intros H. destruct (Hp H) as (p & ? & ?). exists p. by rewrite authorised_snoc.
Qed.

(** C5. Whatever the agents, the router, the tools and the human answer, over
    any number of tasks on a thread and with nodes failing and run again: each
    time the executor is given a plan, the last answer of the human gate was an
    approval of that very plan, and neither a new plan nor a new task came in
    between. *)
Theorem only_approved_plans_execute r n s tr : wreach r n s tr →
  ∀ pre p post, tr = pre ++ EvExecuted p :: post → authorised pre = Some p.
Proof.
  intros Hr. assert (thread_ok n s tr) as [_ _ _ Ht]; [|done].
  induction Hr as [|n s tr t run _ [_ _ _ IH]|env resume n s n' s' evs tr _ IH Hg|env resume n s e evs tr _ IH Hs].
  - split; try done. by intros [|??] ?? ?.
  - split; try done. by apply past_snoc.
  - by eapply goto_ok.
  - by eapply stop_ok.
Qed.

Definition demo_env (p : PlanArtifact) (st : exec_status) : wenv :=
  mkEnv None (λ _ _, Raise (ValueError "no router")) (λ _ _, Ok (OutValue (VStr "done")))
    (λ _, Ok p) (λ _ _, Ok (mkExec st [] [] [])).
Definition demo_plan : PlanArtifact := mkPlan "do it" ["step"] [] None.
Definition demo_registry : registry := entries native_skills.

Lemma only_approved_plans_execute_witness :
  ∃ n s tr, wreach demo_registry n s tr ∧
    tr = [EvInput "build it"; EvTool; EvPlanned demo_plan; EvAnswered demo_plan "approved"] ++ EvExecuted demo_plan :: [] ∧
    authorised [EvInput "build it"; EvTool; EvPlanned demo_plan; EvAnswered demo_plan "approved"] = Some demo_plan.
Proof.
  set (env := demo_env demo_plan completed).
  assert (∃ n s, wreach demo_registry n s
    ([EvInput "build it"; EvTool; EvPlanned demo_plan; EvAnswered demo_plan "approved"] ++ EvExecuted demo_plan :: []))
    as (n & s & Hr).
  { pose proof (w_input demo_registry n_end fresh_thread [] "build it" None (w_fresh demo_registry)) as H.
    do 5 (eapply (w_goto demo_registry env None) in H; [|vm_compute; reflexivity]).
    eapply (w_goto demo_registry env (Some (VStr " Yes "))) in H; [|vm_compute; reflexivity].
    do 2 (eapply (w_goto demo_registry env None) in H; [|vm_compute; reflexivity]).
    eexists _, _. exact H. }
  exists n, s. eexists. split; [exact Hr|]. split; [reflexivity|].
  exact (only_approved_plans_execute demo_registry n s _ Hr _ demo_plan [] eq_refl).
Defined.

(** ** An invocation ends within the recursion limit *)
Definition executions (evs : list wevent) : nat :=
  length (List.filter (λ e, match e with EvExecuted _ => true | _ => false end) evs).
Definition done_with (s : SimonState) : Prop :=
  ∃ out, executor_output s = RResult out ∧ er_status out = completed.

Lemma route_open s : approved s = true →
  route_from_state s = to_end ∧ done_with s ∨ route_from_state s = to_executor ∧ ¬ done_with s.
Proof.
  intros Ha. unfold route_from_state, done_with. rewrite Ha. destruct (executor_output s) as [|x|out].
  - right. split; [done|]. by intros (? & ? & _).
  - right. split; [done|]. by intros (? & ? & _).
  - case_bool_decide as Hc; [left; eauto|]. right. split; [done|]. by intros (? & [= <-] & ?).
Qed.

(** After an approval: supervisor and executor take turns until the executor
    completes or the limit is reached. *)
Lemma drive_approved r p : ∀ l env s, approved s = true → plan s = PPlan p →
  let '(e, n, s', evs) := drive r l env None n_supervisor s in
  (executions evs ≤ l / 2)%nat ∧ Forall (λ ev, ev = EvExecuted p) evs ∧
  (e = Ended → done_with s') ∧ (e = RecursionLimit → executions evs = (l / 2)%nat) ∧ e ≠ Interrupted.
Proof.
  assert (∀ l, (l + 2) / 2 = S (l / 2))%nat as Hdiv.
  { intros l. replace (l + 2)%nat with (1 * 2 + l)%nat by lia. by rewrite Nat.div_add_l. }
  intros l. induction l as [l IH] using lt_wf_ind. intros env s Ha Hp.
  destruct l as [|l]; [cbn [drive]; split_and!; [apply Nat.le_0_l|by constructor|done..]|].
  cbn [drive run_node]. destruct (route_open s Ha) as [[-> Hd]|[-> Hd]]; cbn [ROUTE_TO_NODE].
  { destruct l; cbn [drive app]; (split_and!; [apply Nat.le_0_l|by constructor|done..]). }
  destruct l as [|l]; [cbn [drive app]; split_and!; [apply Nat.le_0_l|by constructor|done..]|].
  cbn [drive run_node]. rewrite Hp. replace (S (S l)) with (l + 2)%nat by lia. rewrite Hdiv.
  destruct (e_executor (env 1%nat) s p) as [out|x]; cbn [app].
  - specialize (IH l ltac:(lia) (λ i, env (S (S i))) (set_output (RResult out) s) Ha Hp).
    destruct (drive r l _ None n_supervisor _) as [[[e n] s'] evs]. cbn [app].
    destruct IH as (H1 & H2 & H3 & H4 & H5).
    change (executions (EvExecuted p :: evs)) with (S (executions evs)).
    split_and!; [lia|by constructor|done| |done]. intros He. by rewrite H4.
  - split_and!; [unfold executions; cbn; lia|by repeat constructor|done..].
Qed.

(** After a new task or a rejection no plan is approved: the run reaches an end
    or the gate in at most five nodes. *)
Lemma drive_architect r env l s : approved s = false →
  let '(e, n, s', evs) := drive r (S (S l)) env None n_architect s in
  e ≠ RecursionLimit ∧ e ≠ Ended ∧ executions evs = O ∧
  (e = Interrupted → n = n_human_gate ∧ ∃ p, plan s' = PPlan p).
Proof.
  intros Ha. cbn [drive run_node]. destruct (e_architect (env O) s) as [p|x]; [|done].
  cbn. split_and!; [done..|]. eauto.
Qed.

Lemma normalize_cases v f : normalize_human_feedback v = Ok f →
  f = "approved" ∨ ∃ x, f = "rejected:" +:+ x.
Proof.
  unfold normalize_human_feedback. destruct v as [| | | |s| | |]; try done. cbn zeta.
  destruct (sempty _); [done|]. destruct (mem_str _ _); [intros [= <-]; by left|].
  destruct (startswith _ _); [intros [= <-]; right; by eexists (" " +:+ _)|].
  destruct (mem_str _ _); [|done]. intros [= <-]. right. by exists " no reason provided".
Qed.

Lemma drive_goto r l env res n s n' s' evs : n ≠ n_end → run_node r (env O) res n s = Goto n' s' evs →
  drive r (S l) env res n s
  = let '(e, n2, s2, evs2) := drive r l (λ i, env (S i)) None n' s' in (e, n2, s2, evs ++ evs2).
Proof. intros Hn H. destruct n; try done; cbn [drive]; by rewrite H. Qed.

(** The first nodes of a new task. *)
Definition planned (t : string) (run : option string) (s : SimonState) : SimonState :=
  mkState t run (PText t) RNone None (tool_result s) (router_escalated s).
Lemma drive_planned r l env t run s :
  drive r (S (S l)) env None n_planner (initial_state t run s)
  = let '(e, n, s2, evs) := drive r l (λ i, env (S (S i))) None (ROUTE_TO_NODE (route_from_state (planned t run s)))
                              (planned t run s) in (e, n, s2, evs).
Proof.
  rewrite (drive_goto _ _ _ _ _ _ n_supervisor (planned t run s) []) by done.
  rewrite (drive_goto _ _ _ _ _ _ (ROUTE_TO_NODE (route_from_state (planned t run s))) (planned t run s) []) by done.
  by destruct (drive r l _ _ _ _) as [[[e n] s2] evs].
Qed.

(** The dispatcher with four nodes left. *)
Lemma drive_dispatcher r env s : approved s = false → rejected s = false → executor_output s = RNone →
  (∀ p, plan s ≠ PPlan p) →
  let '(e, n, s', evs) := drive r 5 env None n_tool_dispatcher s in
  e ≠ RecursionLimit ∧ executions evs = O ∧
  (e = Interrupted → n = n_tool_dispatcher ∨ n = n_human_gate ∧ ∃ p, plan s' = PPlan p).
Proof.
  intros Ha Hrej Ho Hp. destruct (tool_dispatcher_node r (env O) s) as [[s1 n1]|x] eqn:Ed.
  2:{ cbn [drive run_node]. rewrite Ed. destruct (is_interrupt x); [|done]. split_and!; [done..|]. auto. }
  rewrite (drive_goto r 4 env None n_tool_dispatcher s n1 s1 [EvTool]) by (done || (cbn; by rewrite Ed)).
  apply dispatcher_frame in Ed as (tr & b & -> & [[-> ->]|[-> ->]]); [|done].
  set (s1 := mkState _ _ _ _ _ tr (Some true)).
  assert (route_from_state s1 = to_architect) as Hr.
  { unfold route_from_state. change (approved s1) with (approved s). change (rejected s1) with (rejected s).
    rewrite Ha, Hrej. cbn. rewrite Ho. destruct (plan s) eqn:E; [done..|]. by destruct (Hp p). }
  rewrite (drive_goto r 3 _ None n_supervisor s1 n_architect s1 []) by (done || (cbn; by rewrite Hr)).
  pose proof (drive_architect r (λ i, env (S (S i))) 1 s1 Ha) as H. revert H.
  destruct (drive r 3 _ None n_architect s1) as [[[e n] s2] evs]. intros (H1 & _ & H2 & H3).
  split_and!; [done..|]. intros He. right. by apply H3.
Qed.

(** An invocation with the default limit of seven nodes.  A new task never
    runs out of nodes and executes nothing: it ends, fails, or waits at the
    gate with a plan, or inside a tool.  Resumed at the gate, a rejection again
    waits at the gate or fails, executing nothing; an approval executes the
    approved plan and nothing else, at most three times, ends only when the
    executor reported completion, and exhausts the limit only after three
    executions that did not. *)
Theorem invocation_bounded r env :
  (∀ t run s,
    let '(e, n, s', evs) := invoke r DEFAULT_RECURSION_LIMIT env t run s in
    e ≠ RecursionLimit ∧ executions evs = O ∧
    (e = Interrupted → n = n_tool_dispatcher ∨ n = n_human_gate ∧ ∃ p, plan s' = PPlan p)) ∧
  (∀ v f p s, plan s = PPlan p → executor_output s = RNone → normalize_human_feedback v = Ok f →
    let '(e, n, s', evs) := resume_with r DEFAULT_RECURSION_LIMIT env v n_human_gate s in
    if String.eqb f "approved" then
      (∃ evs', evs = EvAnswered p f :: evs' ∧ Forall (λ ev, ev = EvExecuted p) evs') ∧
      (executions evs ≤ 3)%nat ∧ (e = Ended → done_with s') ∧ (e = RecursionLimit → executions evs = 3%nat)
    else e ≠ RecursionLimit ∧ e ≠ Ended ∧ executions evs = O ∧ (e = Interrupted → n = n_human_gate)).
Proof.
  split.
  - intros t run s. unfold invoke, DEFAULT_RECURSION_LIMIT. rewrite drive_planned.
    assert (route_from_state (planned t run s) = to_architect ∨ route_from_state (planned t run s) = to_tool)
      as [-> | ->].
    { unfold route_from_state. cbn. destruct (router_escalated s) as [[]|]; auto. }
    + cbn [ROUTE_TO_NODE]. pose proof (drive_architect r (λ i, env (S (S i))) 3 (planned t run s) eq_refl) as H.
      destruct (drive r _ _ None n_architect _) as [[[e n] s2] evs]. destruct H as (H1 & _ & H2 & H3).
      split_and!; [done..|]. intros He. right. by apply H3.
    + cbn [ROUTE_TO_NODE]. pose proof (drive_dispatcher r (λ i, env (S (S i))) (planned t run s)
        eq_refl eq_refl eq_refl ltac:(done)) as H.
      by destruct (drive r 5 _ None n_tool_dispatcher _) as [[[e n] s2] evs].
  - intros v f p s Hp Ho Hf. unfold resume_with, DEFAULT_RECURSION_LIMIT.
    rewrite (drive_goto r 6 env (Some v) n_human_gate s n_supervisor (set_feedback f s) [EvAnswered p f])
      by (done || (cbn; by rewrite Hp, Hf)).
    destruct (String.eqb_spec f "approved") as [->|Hne].
    + pose proof (drive_approved r p 6 (λ i, env (S i)) (set_feedback "approved" s) eq_refl Hp) as H. revert H.
      destruct (drive r 6 _ None n_supervisor _) as [[[e n] s2] evs]. intros (H1 & H2 & H3 & H4 & _).
      split_and!; [by eexists|done..].
    + destruct (normalize_cases v f Hf) as [|[x Hx]]; [done|].
      assert (approved (set_feedback f s) = false) as Ha by (unfold approved; cbn; by apply String.eqb_neq).
      assert (route_from_state (set_feedback f s) = to_architect) as Hroute.
      { unfold route_from_state. rewrite Ha. unfold rejected. cbn [executor_output human_feedback set_feedback].
        by rewrite Ho, Hx, startswith_app. }
      rewrite (drive_goto r 5 _ None n_supervisor (set_feedback f s) n_architect (set_feedback f s) [])
        by (done || (cbn; by rewrite Hroute)).
      pose proof (drive_architect r (λ i, env (S (S i))) 3 (set_feedback f s) Ha) as H. revert H.
      destruct (drive r 5 _ None n_architect _) as [[[e n] s2] evs]. intros (H1 & H2 & H3 & H4).
      split_and!; [done..|]. intros He. by apply H4.
Qed.

Lemma invocation_bounded_witness :
  ∃ e n s' evs, resume_with demo_registry DEFAULT_RECURSION_LIMIT (λ _, demo_env demo_plan failed) (VStr "y") n_human_gate
    (mkState "t" None (PPlan demo_plan) RNone None None None) = (e, n, s', evs) ∧
  e = RecursionLimit ∧ executions evs = 3%nat.
Proof.
  destruct (invocation_bounded demo_registry (λ _, demo_env demo_plan failed)) as [_ H].
  specialize (H (VStr "y") "approved"%string demo_plan (mkState "t" None (PPlan demo_plan) RNone None None None)
    eq_refl eq_refl eq_refl).
  destruct (resume_with _ _ _ _ _ _) as [[[e n] s'] evs] eqn:E. exists e, n, s', evs. split; [done|].
  assert (e = RecursionLimit) as He by (vm_compute in E; by injection E as <- _ _ _).
  split; [done|]. destruct H as (_ & _ & _ & H). by apply H.
Defined.

(** The input of a new task keeps [router_escalated]: on a thread where a task
    was escalated before, a native command goes to the architect and never to
    the tool dispatcher. *)
Lemma stale_escalation_skips_tools :
  let env := λ _ : nat, demo_env demo_plan completed in
  let s0 := (invoke demo_registry DEFAULT_RECURSION_LIMIT env "build it" None fresh_thread).1.2 in
  let '(e1, _, s1, _) := resume_with demo_registry DEFAULT_RECURSION_LIMIT env (VStr "y") n_human_gate s0 in
  e1 = Ended ∧
  (invoke demo_registry DEFAULT_RECURSION_LIMIT env "read_file a.txt" None fresh_thread).2 = [EvTool] ∧
  (invoke demo_registry DEFAULT_RECURSION_LIMIT env "read_file a.txt" None s1).2 = [EvPlanned demo_plan].
Proof. by vm_compute. Qed.
