(* ===== verification/Backends.v ===== *)
(** * Backend adapters (agent_os/backends.py, bindings.py, agents/cli_architect.py, agents/cli_executor.py)

    The adapters build a prompt and an argument list, run the CLI of
    CliBackends.v and validate its answer.  Directory listings, the pydantic
    models (their schemas and validators) and the names of temporary files are
    parameters. *)
From S2P Require Export CliBackends Workflow Plugins.

Inductive BackendArtifact := APlan (p : PlanArtifact) | AResult (r : ExecutionResult).
Record AuthStatus := mkAuth { auth_status : string; auth_detail : string }.

(** ** Prompts *)
Definition MAX_INVENTORY_FILES : nat := 1000.
Definition MAX_INVENTORY_DIRECTORIES : nat := 1000.
Definition IGNORED_INVENTORY_DIRECTORIES : list string :=
  [ ".cache"; ".codegraph"; ".git"; ".graphify"; ".pytest_cache"; ".ruff_cache"; ".venv"; "__pycache__"; "build";
    "dist"; "node_modules"; "venv" ].

Section inventory.
Context (fuel : nat) (scandir : fs → path → option (list string * list string)).

Definition is_symlink (f : fs) (p : path) : bool :=
  match lookup_node f p with Some (NLink _) => true | _ => false end.
(** A directory the walk descends into. *)
Definition safe_dir (f : fs) (sandbox root_path : path) (directory : string) : bool :=
  negb (mem_str directory IGNORED_INVENTORY_DIRECTORIES)
  && negb (is_symlink f (root_path ++ [directory]))
  && match realpath fuel f (root_path ++ [directory]) with Ok q => is_relative_to sandbox q | Raise _ => false end.
(** The entry of a file, if it is listed. *)
Definition inventory_entry (f : fs) (sandbox file_path : path) : option string :=
  match realpath fuel f file_path with
  | Ok resolved_file =>
      if is_relative_to sandbox resolved_file && is_file fuel f resolved_file
      then as_posix <$> relative_parts sandbox file_path else None
  | Raise _ => None
  end.
Fixpoint add_files (f : fs) (sandbox root_path : path) (files : list string) (valid_files : list string) : list string :=
  match files with
  | [] => valid_files
  | filename :: files' =>
      if Nat.leb MAX_INVENTORY_FILES (length valid_files) then valid_files
      else add_files f sandbox root_path files'
             (match inventory_entry f sandbox (root_path ++ [filename]) with
              | Some entry => valid_files ++ [entry]
              | None => valid_files
              end)
  end.

(** [os.walk]: a directory that cannot be listed is not yielded.  [n]
    directories may still be visited. *)
Definition readable (f : fs) (p : path) : bool := bool_decide (is_Some (scandir f p)).
Fixpoint walk_dirs (f : fs) (sandbox : path) (n : nat) (stack : list path) (valid_files : list string) : list string :=
  match stack with
  | [] => valid_files
  | root_path :: stack' =>
      if Nat.leb MAX_INVENTORY_FILES (length valid_files) then valid_files
      else
        match n with
        | O => valid_files
        | S n' =>
            let '(dirs, files) := default ([], []) (scandir f root_path) in
            let safe_dirs := List.filter (safe_dir f sandbox root_path) (sort_by str_leb dirs) in
            walk_dirs f sandbox n'
              (List.filter (readable f) (map (λ d, root_path ++ [d]) safe_dirs) ++ stack')
              (add_files f sandbox root_path (sort_by str_leb files) valid_files)
        end
  end.
Definition build_sandbox_inventory (e : senv) (f : fs) : res (list string) :=
  sandbox ← get_sandbox_root fuel e f;
  if negb (exists_ fuel f sandbox) then Ok []
  else Ok (sort_by str_leb
             (walk_dirs f sandbox MAX_INVENTORY_DIRECTORIES (List.filter (readable f) [sandbox]) [])).

(** The hint of the state: a [StrategyHint], a dict, or nothing. *)
Definition strategy_data (strategy_hint : pyval) : pydict :=
  match strategy_hint with VObj _ fields => fields | VDict d => d | _ => [] end.
Definition strategy_section (strategy_hint : pyval) : string :=
  if py_truthy strategy_hint then
    let d := strategy_data strategy_hint in
    "Planning strategy:" +:+ nl +:+ "Selected strategy: "
    +:+ py_str (default (VStr "default-v1") (dget "strategy_id" d)) +:+ nl
    +:+ "Directive: " +:+ py_str (default (VStr EmptyString) (dget "directive" d)) +:+ nl +:+ nl
  else EmptyString.
Definition inventory_section (inventory : list string) : string :=
  match inventory with
  | [] => "Available files in sandbox: (empty)" +:+ nl +:+ nl
  | _ => "Available files in sandbox:" +:+ nl +:+ String.concat EmptyString (map (λ p, "- " +:+ p +:+ nl) inventory) +:+ nl
  end.
Definition feedback_section (feedback : option string) : string :=
  match feedback with
  | Some feedback => if truthy feedback && startswith "rejected:" feedback
                     then "Previous plan was rejected with feedback:" +:+ nl +:+ feedback +:+ nl +:+ nl else EmptyString
  | None => EmptyString
  end.
Definition build_architect_prompt (strategy_hint : pyval) (state : SimonState) (e : senv) (f : fs) : res string :=
  inventory ← build_sandbox_inventory e f;
  Ok ("Task:" +:+ nl +:+ task state +:+ nl +:+ nl
      +:+ strategy_section strategy_hint +:+ inventory_section inventory +:+ feedback_section (human_feedback state)
      +:+ "Please analyze the task and return a structured plan matching the CodingPlan schema. Do not execute any code directly.").
End inventory.

Definition verify_section (verify_cmd : string) : string :=
  if truthy verify_cmd then
    "After making the changes, you MUST run the following verification command:" +:+ nl +:+ "`" +:+ verify_cmd +:+ "`" +:+ nl +:+ nl
  else "No verification command was provided." +:+ nl +:+ nl.
(** [plan_json] is [plan.model_dump_json(indent=2)]. *)
Definition build_executor_prompt (plan_json : PlanArtifact → string) (plan : PlanArtifact) : string :=
  "You are an executor agent. Apply the following approved architectural plan inside the current sandbox directory. Do NOT access or modify any files outside the current working directory."
  +:+ nl +:+ nl +:+ "Approved Plan:" +:+ nl +:+ plan_json plan +:+ nl +:+ nl
  +:+ verify_section (default EmptyString (pa_verify_cmd plan))
  +:+ "Return a CodingResult with your results. Set status to 'completed' only if all changes were applied and the verification passed.".

(** ** The adapters *)
(** The pydantic models of the answers, seen through their JSON schemas and
    validators ([None] is a ValidationError); the Codex projections are
    validated and dumped. *)
Record models := mkModels {
  plan_schema : pydict; result_schema : pydict;
  validate_plan : pydict → option PlanArtifact; validate_result : pydict → option ExecutionResult;
  codex_plan_schema : pydict; codex_result_schema : pydict;
  codex_plan : pydict → option pydict; codex_result : pydict → option pydict }.

Definition unsupported_role (name role : string) : exn :=
  ValueError ("Backend adapter '" +:+ name +:+ "' does not support role '" +:+ role +:+ "'").
Definition no_plan : exn := ValueError "State 'plan' must be a PlanArtifact instance.".
Definition invalid_output (name model : string) : exn :=
  ValueError ("Failed to validate " +:+ name +:+ " structured output as " +:+ model
              +:+ ". The payload did not match the required schema.").
Definition validated {A} (name model : string) (o : option A) : res A :=
  match o with Some x => Ok x | None => Raise (invalid_output name model) end.

Section adapters.
Context (fuel : nat) (scandir : fs → path → option (list string * list string))
  (which : string → option string) (decode : string → string)
  (run : spawn → fs → spawned * fs) (env : environ) (ms : models) (plan_json : PlanArtifact → string).
Implicit Types (hint : pyval) (state : SimonState) (e : senv) (f : fs).
Notation run_cli_command := (run_cli_command fuel which decode run env).
Definition invocation := (res BackendArtifact * list spawn * fs)%type.

(** The prompt for a role: both adapters build the same. *)
Definition role_prompt (role : string) hint state e f : res string :=
  if String.eqb role "architect" then build_architect_prompt fuel scandir hint state e f
  else match plan state with PPlan p => Ok (build_executor_prompt plan_json p) | _ => Raise no_plan end.
Definition role_artifact (name role : string) (parsed : pydict) : res BackendArtifact :=
  if String.eqb role "architect" then APlan <$> validated name "CodingPlan" (validate_plan ms parsed)
  else AResult <$> validated name "CodingResult" (validate_result ms parsed).

Definition claude_permission_mode (role : string) : string :=
  if String.eqb role "architect" then "plan" else "acceptEdits".
Definition claude_args (role prompt schema_json : string) : list string :=
  [ "-p"; prompt; "--permission-mode"; claude_permission_mode role; "--output-format"; "stream-json"; "--verbose";
    "--json-schema"; schema_json ].
Definition claude_invoker (role : string) hint state e f : invocation :=
  match (prompt ← role_prompt role hint state e f;
         schema_json ← dumps (VDict (if String.eqb role "architect" then plan_schema ms else result_schema ms));
         Ok (claude_args role prompt schema_json)) with
  | Raise exc => (Raise exc, [], f)
  | Ok args =>
      let '(r, spawns, f') := run_cli_command "claude" args 300 e f in
      (result ← r;
       parsed ← parse_claude_stream_json env (cp_stdout result);
       role_artifact "claude-code" role parsed, spawns, f')
  end.

Definition codex_sandbox_mode (role : string) : string :=
  if String.eqb role "architect" then "read-only" else "workspace-write".
Definition codex_args (role prompt : string) (schema_path output_path : path) : list string :=
  [ "exec"; "--sandbox"; codex_sandbox_mode role; "--output-schema"; abs_str schema_path; "--output-last-message";
    abs_str output_path; prompt ].
Definition codex_artifact (role : string) (parsed : pydict) : res BackendArtifact :=
  if String.eqb role "architect" then
    compatible_output ← validated "codex" "CodingPlan" (codex_plan ms parsed); role_artifact "codex" role compatible_output
  else
    compatible_output ← validated "codex" "CodingResult" (codex_result ms parsed); role_artifact "codex" role compatible_output.
(** [temp_dir] and [schema_path] are the fresh names of the temporary directory
    and of the schema file. *)
Definition codex_invoker (now : Z) (temp_dir schema_path : path) (role : string) hint state e f : invocation :=
  match role_prompt role hint state e f with
  | Raise exc => (Raise exc, [], f)
  | Ok prompt =>
      let output_path := temp_dir ++ ["last-message.json"%string] in
      let schema := if String.eqb role "architect" then codex_plan_schema ms else codex_result_schema ms in
      let '(r, spawns, f1) :=
        write_schema_file fuel now schema_path (strict_json_schema schema)
          (run_cli_command "codex" (codex_args role prompt schema_path output_path) 300 e) (<[temp_dir := NDir]> f) in
      (_ ← r; parsed ← parse_codex_output_file fuel env output_path f1; codex_artifact role parsed,
       spawns, rmtree temp_dir f1)
  end.

Definition NotYetSupportedError : exn :=
  RuntimeError "Antigravity backend is not yet supported. Two acceptance criteria must be met before this adapter ships: (1) documented noninteractive invocation form with parseable output; (2) enforceable permission mode equivalent to Claude plan/acceptEdits or Codex read-only/workspace-write. See docs/v1.2-portability.md v1.2 or this adapter's docstring for updates.".
Definition antigravity_invoker (role : string) hint state e f : invocation := (Raise NotYetSupportedError, [], f).

(** ** Authentication *)
Definition check_cli_auth_status (binary : string) (args success_indicators unauth_indicators : list string)
    (unauth_detail : string) e f : AuthStatus * list spawn :=
  match which binary with
  | None => (mkAuth "unknown" ("Binary '" +:+ binary +:+ "' not found on PATH."), [])
  | Some binary_path =>
      let request := mkSpawn (binary_path :: args) (cwd e) 5 (build_safe_subprocess_env env) in
      (match (run request f).1 with
       | Expired _ => mkAuth "unknown" ("Command '" +:+ binary +:+ "' timed out during auth check.")
       | SpawnError exc => mkAuth "unknown" ("Subprocess error: " +:+ exn_class exc)
       | Completed returncode stdout stderr =>
           let output := stdout +:+ nl +:+ stderr in
           let lower_output := lower output in
           if existsb (λ ind, contains ind lower_output) unauth_indicators then mkAuth "unauthenticated" unauth_detail
           else if (returncode =? 0) && existsb (λ ind, contains ind lower_output) success_indicators
           then mkAuth "ok" "Authenticated"
           else mkAuth "unknown" ("Exit " +:+ str_of_Z returncode +:+ ", unrecognized output. Excerpt: "
                  +:+ redact_secrets_in_text env (strip (str_replace nl " " (stake 200 output))))
       end, [request])
  end.

Definition claude_authentication_status : senv → fs → AuthStatus * list spawn :=
  check_cli_auth_status "claude" ["auth"; "status"]
    ["logged in"; q "loggedin" +:+ ": true"; q "loggedin" +:+ ":true"]
    ["not logged in"; "no active session"; "authentication_failed"; q "loggedin" +:+ ": false"; q "loggedin" +:+ ":false";
     q "authmethod" +:+ ": " +:+ q "none"] "run: claude auth login".
Definition codex_authentication_status : senv → fs → AuthStatus * list spawn :=
  check_cli_auth_status "codex" ["login"; "status"] ["logged in"; "authenticated"]
    ["not logged in"; "oauth session expired"; "invalid_api_key"; "unauthorized"] "run: codex login".
End adapters.

(** ** The registry *)
Record BackendAdapter (I : Type) := mkAdapter {
  ad_name : string; ad_binary_name : string; ad_supported_roles : list string; ad_stub : bool;
  ad_build_invoker : string → res I }.
Arguments mkAdapter {_} _ _ _ _ _. Arguments ad_name {_} _. Arguments ad_binary_name {_} _.
Arguments ad_supported_roles {_} _. Arguments ad_stub {_} _. Arguments ad_build_invoker {_} _ _.

(** A parameter of a callable, for [inspect.signature]. *)
Inductive parameter_kind := Ordinary | VarPositional | VarKeyword.
Record parameter := mkParameter { par_name : string; par_default : bool; par_kind : parameter_kind }.
(** What a plugin's entry point loads: a class or function with its signature
    and the outcome of a call without arguments, or an object; [None] is an
    object without the attributes of the interface [A]. *)
Inductive plugin_object (A : Type) :=
  | Factory (parameters : list parameter) (call : res (option A))
  | Object (o : option A).
Arguments Factory {_} _ _. Arguments Object {_} _.
Definition required_params (parameters : list parameter) : list string :=
  map par_name (List.filter (λ p, negb (par_default p) && match par_kind p with Ordinary => true | _ => false end) parameters).
Definition repr_names (l : list string) : string := "[" +:+ sjoin ", " (map repr_str l) +:+ "]".
(** The object a plugin without required arguments stands for. *)
Definition call_plugin {A} (unsupported : list string → exn) (failed : exn → exn) (o : plugin_object A) : res (option A) :=
  match o with
  | Object o => Ok o
  | Factory parameters call =>
      match required_params parameters with
      | [] => match call with Ok o => Ok o | Raise exc => Raise (failed exc) end
      | required => Raise (unsupported required)
      end
  end.

Section registry.
Context {I : Type}.
Definition backends := list (string * BackendAdapter I).

Definition names (adapters : backends) : list string := sort_by str_leb (dkeys adapters).
Definition register (adapter : BackendAdapter I) (adapters : backends) : res backends :=
  let name := strip (ad_name adapter) in
  if negb (truthy name) then Raise (ValueError "Backend adapter name must not be empty.")
  else if dhas name adapters then Raise (ValueError ("Backend adapter name already registered: " +:+ name))
  else Ok (dset name adapter adapters).
Definition or_text (alt s : string) : string := if truthy s then s else alt.
Definition resolve (role name : string) (adapters : backends) : res (BackendAdapter I) :=
  match dget name adapters with
  | None => Raise (ValueError ("Unknown backend adapter '" +:+ name +:+ "'. Registered adapters: "
                               +:+ or_text "(none)" (sjoin ", " (names adapters))))
  | Some adapter =>
      if negb (mem_str role (ad_supported_roles adapter)) then
        Raise (ValueError ("Backend adapter '" +:+ name +:+ "' does not support role '" +:+ role +:+ "'. Supported roles: "
                           +:+ or_text "none" (sjoin ", " (sort_by str_leb (ad_supported_roles adapter)))))
      else Ok adapter
  end.

Definition BUILT_IN_BACKEND_NAMES : list string := ["claude-code"; "codex"; "antigravity"].
Definition BACKENDS_GROUP : string := "agent_os.backends".
(** The adapter a loaded plugin stands for. *)
Definition instantiate (ep_name : string) (plugin_obj : plugin_object (BackendAdapter I)) : res (BackendAdapter I) :=
  adapter_inst ← call_plugin
    (λ required, ValueError ("Backend plugin '" +:+ ep_name +:+ "' in group 'agent_os.backends' requires unsupported arguments: "
       +:+ repr_names required +:+ ". Backend factory must accept 0 required arguments."))
    (λ exc, ValueError ("Failed to instantiate backend plugin '" +:+ ep_name +:+ "': " +:+ exn_msg exc)) plugin_obj;
  match adapter_inst with
  | Some a => Ok a
  | None => Raise (ValueError ("Backend plugin '" +:+ ep_name +:+ "' does not satisfy the BackendAdapter interface."))
  end.

Definition overrides_builtin (ep_name : string) : bool := mem_str ep_name BUILT_IN_BACKEND_NAMES.
Fixpoint register_plugins (eps : string → list (entry_point (plugin_object (BackendAdapter I)))) (discovered : list string)
    (registry : backends) : res backends :=
  match discovered with
  | [] => Ok registry
  | ep_name :: rest =>
      plugin_obj ← match resolve_plugin eps BACKENDS_GROUP ep_name with
                   | Ok o => Ok o
                   | Raise exc => Raise (ValueError ("Failed to load backend plugin '" +:+ ep_name +:+ "': " +:+ exn_msg exc))
                   end;
      adapter ← instantiate ep_name plugin_obj;
      registry ← register adapter registry;
      register_plugins eps rest registry
  end.

(** [build_default_registry]; [claude], [codex] and [antigravity] are the
    built-in adapters. *)
Definition build_default_registry (claude codex antigravity : BackendAdapter I)
    (eps : string → list (entry_point (plugin_object (BackendAdapter I)))) : res backends :=
  match discover eps BACKENDS_GROUP with
  | Raise exc => Raise (ValueError ("Plugin discovery failed for group 'agent_os.backends': " +:+ exn_msg exc))
  | Ok discovered =>
      match List.find overrides_builtin (dkeys discovered) with
      | Some ep_name =>
          Raise (ValueError ("Plugin in 'agent_os.backends' cannot override built-in backend '" +:+ ep_name +:+ "'."))
      | None =>
          registry ← register claude [];
          registry ← register codex registry;
          registry ← register antigravity registry;
          register_plugins eps (dkeys discovered) registry
      end
  end.
End registry.

Definition builtin_adapter {I} (name binary_name : string) (stub : bool) (invoker : string → I) : BackendAdapter I :=
  mkAdapter name binary_name ["architect"; "executor"] stub
    (λ role, if mem_str role ["architect"; "executor"] then Ok (invoker role) else Raise (unsupported_role name role)).

(** ** Persisted bindings (bindings.py) *)
Record BackendBinding := mkBinding {
  b_router : option string; b_architect : option string; b_executor : option string;
  b_profile_name : option string; b_sandbox_root : string }.
(** The validator of [sandbox_root]; [expanduser] is [Path.expanduser]. *)
Definition normalize_sandbox_root (fuel : nat) (expanduser : string → string) (value : string) (e : senv) (f : fs) : res string :=
  let text := strip value in
  if negb (truthy text) then Raise (ValueError "sandbox_root must not be empty")
  else root ← realpath fuel f (join_path (cwd e) (parse_path (expanduser text))); Ok (abs_str root).
Definition resolve_backend_binding (fuel : nat) (expanduser : string → string) (getenv : string → option string)
    (profile_name : option string) (e : senv) (f : fs) : res BackendBinding :=
  root ← get_sandbox_root fuel e f;
  sandbox_root ← normalize_sandbox_root fuel expanduser (abs_str root) e f;
  Ok (mkBinding (getenv "LLM_ROUTER") (getenv "LLM_ARCHITECT") (getenv "LLM_EXECUTOR") profile_name sandbox_root).

Definition EFFECTIVE_BINDING_FIELDS : list (string * (BackendBinding → option string)) :=
  [("router", b_router); ("architect", b_architect); ("executor", b_executor);
   ("sandbox_root", λ b, Some (b_sandbox_root b))].
Definition binding_conflicts (persisted current : BackendBinding) : list (string * (option string * option string)) :=
  omap (λ '(field, get), if bool_decide (get persisted = get current) then None
                         else Some (field, (get persisted, get current))) EFFECTIVE_BINDING_FIELDS.

Definition validate_role {I} (adapters : backends (I:=I)) (role : string) (configured : option string) : res unit :=
  match configured with
  | Some configured =>
      if truthy configured && startswith "cli/" configured then
        _ ← resolve role (sdrop 4 configured) adapters; Ok tt
      else Ok tt
  | None => Ok tt
  end.
Definition validate_backend_binding {I} (binding : BackendBinding) (adapters : backends (I:=I)) : res unit :=
  _ ← validate_role adapters "architect" (b_architect binding);
  _ ← validate_role adapters "executor" (b_executor binding);
  if absolute (parse_path (b_sandbox_root binding)) then Ok tt
  else Raise (ValueError "sandbox_root must be an absolute path").

(** ** The inventory is bounded and inside the sandbox *)
Section inventory_lemmas.
Context (fuel : nat) (scandir : fs → path → option (list string * list string)) (f : fs) (sandbox : path).

Definition listed_file (entry : string) : Prop :=
  ∃ rel q, entry = as_posix rel ∧ realpath fuel f (sandbox ++ rel) = Ok q ∧ is_relative_to sandbox q = true ∧
    is_file fuel f q = true.
Definition inventory_ok (l : list string) : Prop := (length l ≤ MAX_INVENTORY_FILES)%nat ∧ Forall listed_file l.

Lemma inventory_entry_listed p entry : inventory_entry fuel f sandbox p = Some entry → listed_file entry.
Proof.
  unfold inventory_entry. destruct (realpath fuel f p) as [q|] eqn:E; [|done]. destruct (_ && _) eqn:Hc; [|done].
  apply andb_true_iff in Hc as [Hr Hf]. destruct (relative_parts sandbox p) as [rel|] eqn:Er; [|done]. intros [= <-].
  apply relative_parts_Some in Er as ->. by exists rel, q.
Qed.
Lemma add_files_ok root files : ∀ l, inventory_ok l → inventory_ok (add_files fuel f sandbox root files l).
Proof.
  induction files as [|name files IH]; intros l Hl; cbn [add_files]; [done|].
  destruct (Nat.leb_spec MAX_INVENTORY_FILES (length l)) as [|Hlt]; [done|]. apply IH.
  destruct (inventory_entry _ _ _ _) as [entry|] eqn:E; [|done]. destruct Hl as [_ Hl]. split.
  - rewrite length_app. simpl. lia.
  - apply Forall_app. split; [done|]. apply Forall_singleton. by eapply inventory_entry_listed.
Qed.
Lemma walk_dirs_ok n : ∀ stack l, inventory_ok l → inventory_ok (walk_dirs fuel scandir f sandbox n stack l).
Proof.
  induction n as [|n IH]; intros [|root stack] l Hl; cbn [walk_dirs]; try done; destruct (Nat.leb _ _); try done.
  destruct (default _ _) as [dirs files]. apply IH, add_files_ok, Hl.
Qed.
End inventory_lemmas.

(** The inventory of a prompt has at most a thousand entries, sorted; each is
    the path below the sandbox of something that resolves to a regular file
    inside it. *)
Theorem inventory_bounded fuel scandir e f sandbox inventory :
  get_sandbox_root fuel e f = Ok sandbox → build_sandbox_inventory fuel scandir e f = Ok inventory →
  (length inventory ≤ 1000)%nat ∧ StronglySorted (λ a b, str_leb a b = true) inventory ∧
  ∀ entry, entry ∈ inventory → ∃ rel q, entry = as_posix rel ∧ realpath fuel f (sandbox ++ rel) = Ok q ∧
    is_relative_to sandbox q = true ∧ is_file fuel f q = true.
Proof.
  unfold build_sandbox_inventory. intros ->. cbn [mbind res_bind]. destruct (negb _).
  { intros [= <-]. split_and!; [simpl; lia|constructor|]. intros entry H. by apply not_elem_of_nil in H. }
  intros <-%Ok_inj.
  destruct (walk_dirs_ok fuel scandir f sandbox MAX_INVENTORY_DIRECTORIES (List.filter (readable scandir f) [sandbox]) [])
    as [Hlen Hall]; [split; [simpl; lia|constructor]|].
  split_and!.
  - by rewrite length_sort_by.
  - apply sort_by_sorted; [apply str_leb_total|apply str_leb_trans].
  - intros entry H. apply elem_of_sort_by in H. exact (proj1 (Forall_forall _ _) Hall entry H).
Qed.
Lemma inventory_bounded_witness :
  let scandir (f : fs) (p : path) := if bool_decide (p = ["w"; "sandbox"]) then Some (["sub"], ["out"; "b.txt"; "a.txt"]%string)
                                     else if bool_decide (p = ["w"; "sandbox"; "sub"]) then Some ([], ["a.txt"]%string) else None in
  ∃ inventory, build_sandbox_inventory 10 scandir Sandbox.demo_env demo_fs = Ok inventory ∧ (length inventory ≤ 1000)%nat.
Proof.
  intros scandir. eexists. split; [vm_compute; reflexivity|].
  apply (inventory_bounded 10 scandir Sandbox.demo_env demo_fs ["w"; "sandbox"]); vm_compute; reflexivity.
Defined.

(** ** What an adapter may spawn *)
Lemma plain_arg_allowed (arg : string) next : startswith "-" arg = false → arg_allowed arg next.
Proof.
  intros H. assert (∀ a, startswith "-" a = true → arg ≠ a) as Hne by (intros a Ha ->; congruence).
  unfold arg_allowed. split_and!.
  - intros Hin. apply (Hne arg); [|done]. revert Hin. clear. intros Hin.
    assert (Forall (λ a, startswith "-" a = true) FORBIDDEN_CLI_ARGS) as Hall by (repeat constructor).
    exact (proj1 (Forall_forall _ _) Hall arg Hin).
  - intros opt t _ (t' & ->)%startswith_iff. by apply Hne.
  - intros [-> | ->]; by discriminate H.
  - intros ->. by discriminate H.
  - by apply Hne.
  - by apply Hne.
Qed.
Lemma option_arg_allowed (arg : string) next :
  forbidden_arg arg = false → mem_str arg ["-s"; "--sandbox"; "--permission-mode"; "--sandbox=danger-full-access"; "--permission-mode=bypassPermissions"] = false →
  arg_allowed arg next.
Proof.
  rewrite forbidden_arg_iff. intros [H1 H2] H. unfold arg_allowed.
  assert (∀ a, mem_str a ["-s"; "--sandbox"; "--permission-mode"; "--sandbox=danger-full-access"; "--permission-mode=bypassPermissions"] = true → arg ≠ a)
    as Hne by (intros a Ha ->; congruence).
  split_and!; [done|done|intros [-> | ->]; by discriminate H|intros ->; by discriminate H|by apply Hne|by apply Hne].
Qed.
Lemma mode_arg_allowed (arg : string) mode :
  (arg = "--sandbox" ∨ arg = "--permission-mode") → mode ≠ "danger-full-access" → mode ≠ "bypassPermissions" →
  arg_allowed arg (Some mode).
Proof.
  intros Ha H1 H2. assert (forbidden_arg arg = false) as [F1 F2]%forbidden_arg_iff by (by destruct Ha as [-> | ->]).
  unfold arg_allowed. split_and!; try done; try (intros; congruence); by destruct Ha as [-> | ->].
Qed.

Section spawn.
Context (fuel : nat) (scandir : fs → path → option (list string * list string))
  (which : string → option string) (decode : string → string)
  (run : spawn → fs → spawned * fs) (env : environ) (ms : models) (plan_json : PlanArtifact → string).
Implicit Types (hint : pyval) (state : SimonState) (e : senv) (f : fs).
Notation role_prompt := (role_prompt fuel scandir plan_json).
Notation claude_invoker := (claude_invoker fuel scandir which decode run env ms plan_json).
Notation codex_invoker := (codex_invoker fuel scandir which decode run env ms plan_json).

Lemma role_prompt_plain role hint state e f prompt :
  role_prompt role hint state e f = Ok prompt → startswith "-" prompt = false.
Proof.
  unfold Backends.role_prompt. destruct (String.eqb role "architect").
  - unfold build_architect_prompt. destruct (build_sandbox_inventory _ _ _ _); cbn [mbind res_bind]; [|done]. by intros <-%Ok_inj.
  - destruct (plan state); try done. by intros <-%Ok_inj.
Qed.
Lemma dumps_dict_plain d s : dumps (VDict d) = Ok s → startswith "-" s = false.
Proof. cbn [dumps]. destruct (res_all _); cbn [mbind res_bind]; [|done]. by intros <-%Ok_inj. Qed.

Lemma claude_args_accepted role prompt schema_json : startswith "-" prompt = false → startswith "-" schema_json = false →
  validate_cli_args (claude_args role prompt schema_json) = Ok tt.
Proof.
  intros Hp Hs. unfold claude_args. rewrite !validate_cli_args_cons. simpl head.
  split_and!; try (by apply plain_arg_allowed); try (by apply option_arg_allowed); try done.
  - apply mode_arg_allowed; [by right| |]; unfold claude_permission_mode; by destruct (String.eqb _ _).
  - apply plain_arg_allowed. unfold claude_permission_mode. by destruct (String.eqb _ _).
Qed.
Lemma codex_args_accepted role prompt schema_path output_path : startswith "-" prompt = false →
  validate_cli_args (codex_args role prompt schema_path output_path) = Ok tt.
Proof.
  intros Hp. unfold codex_args. rewrite !validate_cli_args_cons. simpl head.
  split_and!; try (by apply plain_arg_allowed); try (by apply option_arg_allowed); try done.
  - apply mode_arg_allowed; [by left| |]; unfold codex_sandbox_mode; by destruct (String.eqb _ _).
  - apply plain_arg_allowed. unfold codex_sandbox_mode. by destruct (String.eqb _ _).
Qed.

(** Every command in [spawns] runs in the sandbox root of [f0], with no
    sensitive variable in its environment, and with the arguments [args] for
    the prompt that the state determines: for the executor, that of its plan. *)
Definition commands_confined (binary role : string) (args : string → list string → Prop) hint state e f f0
    (spawns : list spawn) : Prop :=
  ∀ request, request ∈ spawns → ∃ root prompt bp l,
    get_sandbox_root fuel e f0 = Ok root ∧ spawn_confined env root request ∧ which binary = Some bp ∧
    role_prompt role hint state e f = Ok prompt ∧ sp_cmd request = bp :: l ∧ args prompt l ∧
    (role ≠ "architect" → ∃ p, plan state = PPlan p ∧ prompt = build_executor_prompt plan_json p).

Lemma role_prompt_plan role hint state e f prompt : role_prompt role hint state e f = Ok prompt →
  role ≠ "architect" → ∃ p, plan state = PPlan p ∧ prompt = build_executor_prompt plan_json p.
Proof.
  unfold Backends.role_prompt. intros H Hr. apply String.eqb_neq in Hr. rewrite Hr in H.
  destruct (plan state) as [| |p]; try done. apply Ok_inj in H as <-. by exists p.
Qed.
Lemma run_confined binary role (args : string → list string → Prop) l prompt hint state e f f0 r spawns f' :
  role_prompt role hint state e f = Ok prompt → args prompt l →
  CliBackends.run_cli_command fuel which decode run env binary l 300 e f0 = (r, spawns, f') →
  commands_confined binary role args hint state e f f0 spawns ∧
  (validate_cli_args l = Ok tt → ∀ root bp f1, which binary = Some bp → get_sandbox_root fuel e f0 = Ok root →
     mkdirs fuel root f0 = Ok f1 → length spawns = 1%nat).
Proof.
  intros Hp Hl Hrun. pose proof (run_cli_command_cases fuel which decode run env binary l 300 e f0) as Hc.
  rewrite Hrun in Hc. split.
  - destruct Hc as [(-> & _)|(request & root & f1 & -> & Hroot & Hs & <- & Hw & _)]; intros req Hin.
    { by apply not_elem_of_nil in Hin. }
    apply list_elem_of_singleton in Hin as ->. destruct (sp_cmd request) as [|bp l'] eqn:Ecmd.
    { unfold CliBackends.run_cli_command in Hrun. destruct (validate_cli_args _); cbn [mbind res_bind] in Hrun; [|done].
      unfold ensure_binary in Hrun. rewrite Hw in Hrun. done. }
    exists root, prompt, bp, l'. split_and!; try done; apply Hs || by eapply role_prompt_plan.
  - intros Hv root bp f1 Hw Hr Hm. unfold CliBackends.run_cli_command, ensure_binary in Hrun.
    rewrite Hv in Hrun. cbn [mbind res_bind] in Hrun. rewrite Hw in Hrun. cbn [mbind res_bind] in Hrun.
    rewrite Hr in Hrun. cbn [mbind res_bind] in Hrun. rewrite Hm in Hrun. cbn [mbind res_bind] in Hrun.
    destruct (run _ f1). by injection Hrun as _ <- _.
Qed.

(** The command lines, word for word: an architect plans and reads only, any
    other role edits within the workspace. *)
Definition claude_command (role prompt : string) (l : list string) : Prop :=
  ∃ mode schema_json, (role = "architect" → mode = "plan") ∧ (role ≠ "architect" → mode = "acceptEdits") ∧
  l = [ "-p"; prompt; "--permission-mode"; mode; "--output-format"; "stream-json"; "--verbose"; "--json-schema"; schema_json ].
Definition codex_command (schema_path output_path : path) (role prompt : string) (l : list string) : Prop :=
  ∃ mode, (role = "architect" → mode = "read-only") ∧ (role ≠ "architect" → mode = "workspace-write") ∧
  l = [ "exec"; "--sandbox"; mode; "--output-schema"; abs_str schema_path; "--output-last-message"; abs_str output_path; prompt ].
Lemma claude_args_command role prompt schema_json : claude_command role prompt (claude_args role prompt schema_json).
Proof.
  exists (claude_permission_mode role), schema_json. unfold claude_permission_mode.
  split_and!; [by intros ->|by intros ->%String.eqb_neq|done].
Qed.
Lemma codex_args_command role prompt schema_path output_path :
  codex_command schema_path output_path role prompt (codex_args role prompt schema_path output_path).
Proof.
  exists (codex_sandbox_mode role). unfold codex_sandbox_mode. split_and!; [by intros ->|by intros ->%String.eqb_neq|done].
Qed.

(** C8. Whatever the state, the answers and the roles, the Claude and Codex
    adapters spawn only the command of their role, in the sandbox root, without
    the secrets of the environment: Claude with the permission mode plan for the
    architect and acceptEdits for any other role, Codex with the sandbox
    read-only for the architect and workspace-write for any other role; the executor's prompt is that of the plan in the state; and
    the argument guard never refuses what the adapters build. *)
Theorem adapter_commands_confined (now : Z) (temp_dir schema_path : path) role hint state e f :
  let output_path := temp_dir ++ ["last-message.json"%string] in
  let schema := strict_json_schema (if String.eqb role "architect" then codex_plan_schema ms else codex_result_schema ms) in
  let f0 := <[schema_path := NFile (dumps_indent 0 schema) now]> (<[temp_dir := NDir]> f) in
  commands_confined "claude" role (claude_command role) hint state e f f (claude_invoker role hint state e f).1.2 ∧
  commands_confined "codex" role (codex_command schema_path output_path role) hint state e f f0
    (codex_invoker now temp_dir schema_path role hint state e f).1.2 ∧
  (∀ prompt schema_json d, role_prompt role hint state e f = Ok prompt → dumps (VDict d) = Ok schema_json →
     validate_cli_args (claude_args role prompt schema_json) = Ok tt ∧
     validate_cli_args (codex_args role prompt schema_path output_path) = Ok tt).
Proof.
  intros output_path schema f0. split_and!.
  - unfold Backends.claude_invoker. destruct (role_prompt _ _ _ _ _) as [prompt|] eqn:Hp; cbn [mbind res_bind];
      [|intros ? H; by apply not_elem_of_nil in H].
    destruct (dumps _) as [schema_json|]; cbn [mbind res_bind]; [|intros ? H; by apply not_elem_of_nil in H].
    destruct (CliBackends.run_cli_command _ _ _ _ _ _ _ _ _ _) as [[r spawns] f'] eqn:Hrun.
    eapply (run_confined "claude" role (claude_command role)) in Hrun; [apply Hrun|done|apply claude_args_command].
  - unfold Backends.codex_invoker. destruct (role_prompt _ _ _ _ _) as [prompt|] eqn:Hp;
      [|intros ? H; by apply not_elem_of_nil in H].
    unfold write_schema_file. change (<[schema_path:=_]> (<[temp_dir:=NDir]> f)) with f0.
    destruct (CliBackends.run_cli_command _ _ _ _ _ _ _ _ _ _) as [[r spawns] f'] eqn:Hrun.
    eapply (run_confined "codex" role (codex_command schema_path output_path role)) in Hrun; [|done|apply codex_args_command].
    destruct (unlink_if_exists _ _ _); apply Hrun.
  - intros prompt schema_json d Hp%role_prompt_plain Hd%dumps_dict_plain.
    split; [by apply claude_args_accepted|by apply codex_args_accepted].
Qed.
End spawn.

(** ** The registry keeps its built-in adapters *)
Section registry_lemmas.
Context {I : Type}.
Implicit Types (a : BackendAdapter I) (r : backends (I:=I)).

Lemma register_ok a r r' : register a r = Ok r' →
  strip (ad_name a) ≠ EmptyString ∧ dget (strip (ad_name a)) r = None ∧ r' = r ++ [(strip (ad_name a), a)].
Proof.
  unfold register. destruct (truthy _) eqn:Et; cbn [negb]; [|done]. destruct (dhas _ _) eqn:Eh; [done|].
  intros <-%Ok_inj. unfold dhas in Eh. destruct (dget _ r) eqn:Eg; [done|]. split_and!; [by intros E; rewrite E in Et|done|].
  apply dset_append. by apply dget_None_iff.
Qed.
Lemma dget_app_Some {A} k (d d' : list (string * A)) v : dget k d = Some v → dget k (d ++ d') = Some v.
Proof. induction d as [|[k' v'] d IH]; simpl; [done|]. by destruct (String.eqb k' k). Qed.
Lemma dget_app_None {A} k (d d' : list (string * A)) : dget k d = None → dget k (d ++ d') = dget k d'.
Proof. induction d as [|[k' v'] d IH]; simpl; [done|]. by destruct (String.eqb k' k). Qed.

Lemma register_plugins_extends eps discovered : ∀ r r', register_plugins eps discovered r = Ok r' →
  ∃ added, r' = r ++ added ∧
  Forall (λ '(name, a), ∃ ep_name o, ep_name ∈ discovered ∧ resolve_plugin eps BACKENDS_GROUP ep_name = Ok o ∧
    instantiate ep_name o = Ok a ∧ name = strip (ad_name a)) added.
Proof.
  induction discovered as [|ep_name rest IH]; intros r r' H; cbn [register_plugins] in H.
  { apply Ok_inj in H as <-. exists []. by rewrite app_nil_r. }
  destruct (resolve_plugin _ _ _) as [o|] eqn:Eo; cbn [mbind res_bind] in H; [|done].
  destruct (instantiate _ _) as [a|] eqn:Ea; cbn [mbind res_bind] in H; [|done].
  destruct (register _ _) as [r1|] eqn:E1; cbn [mbind res_bind] in H; [|done].
  apply register_ok in E1 as (_ & _ & ->). apply IH in H as (added & -> & Hall).
  exists ((strip (ad_name a), a) :: added). rewrite <-app_assoc. split; [done|]. constructor.
  - exists ep_name, o. split_and!; [by left|done..].
  - eapply Forall_impl; [exact Hall|]. intros [n b] (en & o' & Hin & Hrest). exists en, o'. split; [by right|done].
Qed.
End registry_lemmas.

(** A default registry that is built resolves each built-in name to the
    built-in adapter; any other name it resolves is that of the adapter of a
    published entry point. *)
Theorem builtins_never_overridden {I} (claude codex antigravity : BackendAdapter I)
    (eps : string → list (entry_point (plugin_object (BackendAdapter I)))) (adapters : backends) :
  ad_name claude = "claude-code" → ad_name codex = "codex" → ad_name antigravity = "antigravity" →
  build_default_registry claude codex antigravity eps = Ok adapters →
  dget "claude-code" adapters = Some claude ∧ dget "codex" adapters = Some codex ∧
  dget "antigravity" adapters = Some antigravity ∧
  ∀ name a, dget name adapters = Some a → name ∉ BUILT_IN_BACKEND_NAMES →
    name = strip (ad_name a) ∧ ∃ ep o, ep ∈ eps BACKENDS_GROUP ∧ strip (ep_name ep) ∉ BUILT_IN_BACKEND_NAMES ∧
      ep_load ep = Ok o ∧ instantiate (strip (ep_name ep)) o = Ok a.
Proof.
  intros Hc Hx Ha. unfold build_default_registry. destruct (discover eps BACKENDS_GROUP) as [d|] eqn:Ed; [|done].
  destruct (List.find _ _) as [n|] eqn:Ef; [done|].
  destruct (register claude []) as [r1|] eqn:E1; cbn [mbind res_bind]; [|done]. apply register_ok in E1 as (_ & _ & ->).
  destruct (register codex _) as [r2|] eqn:E2; cbn [mbind res_bind]; [|done]. apply register_ok in E2 as (_ & _ & ->).
  destruct (register antigravity _) as [r3|] eqn:E3; cbn [mbind res_bind]; [|done]. apply register_ok in E3 as (_ & _ & ->).
  rewrite Hc, Hx, Ha. intros (added & -> & Hall)%register_plugins_extends. split_and!; [done..|].
  intros name a Hget Hname.
  assert (dget name added = Some a) as Hin%dget_Some_elem.
  { rewrite dget_app_None in Hget; [done|]. apply dget_None_iff. exact Hname. }
  apply (proj1 (Forall_forall _ _) Hall) in Hin as (en & o & Hen & Ho & Hi & Hn). split; [done|].
  assert (overrides_builtin en = false) as Hb by (eapply find_none in Ef; [exact Ef|by apply list_elem_of_In]).
  apply resolve_plugin_cases in Ho as [_ (ep & Hep & Hs & Hl)].
  assert (strip en = en) as Hse.
  { unfold discover in Ed. pose proof (add_entry_points_spec BACKENDS_GROUP (eps BACKENDS_GROUP) [] (NoDup_nil_2)) as Hd.
    rewrite Ed in Hd. destruct Hd as [-> _]. unfold dkeys in Hen. apply list_elem_of_fmap in Hen as ([k ep'] & -> & Hm).
    simpl in Hm. apply list_elem_of_fmap in Hm as (ep'' & [= -> ->] & _). apply strip_idem. }
  rewrite Hse in Hs. exists ep, o. rewrite Hs. split_and!; try done.
  intros Hin. apply mem_str_iff in Hin. unfold overrides_builtin in Hb. congruence.
Qed.
Lemma builtins_never_overridden_witness :
  let eps (g : string) := [mkEntryPoint " mine " (Ok (Factory [mkParameter "kw" false VarKeyword]
                             (Ok (Some (mkAdapter "my-cli" "my" ["executor"] false (λ _, Ok 7))))))] in
  let a name bin := builtin_adapter name bin false (λ _, 0) in
  ∃ adapters, build_default_registry (a "claude-code" "claude") (a "codex" "codex") (a "antigravity" "antigravity") eps = Ok adapters ∧
    is_Some (dget "my-cli" adapters) ∧ dget "codex" adapters = Some (a "codex" "codex").
Proof.
  intros eps a. eexists. split; [vm_compute; reflexivity|]. split; [eexists; vm_compute; reflexivity|].
  eapply (builtins_never_overridden (a "claude-code" "claude") (a "codex" "codex") (a "antigravity" "antigravity") eps);
    [reflexivity..|vm_compute; reflexivity].
Defined.

(** Two bindings are free of conflict exactly when every effective field agrees;
    a conflict reports the field with both its values. *)
Theorem binding_conflicts_spec (persisted current : BackendBinding) :
  (binding_conflicts persisted current = [] ↔
     b_router persisted = b_router current ∧ b_architect persisted = b_architect current ∧
     b_executor persisted = b_executor current ∧ b_sandbox_root persisted = b_sandbox_root current) ∧
  ∀ field old new, (field, (old, new)) ∈ binding_conflicts persisted current ↔
    old ≠ new ∧ ∃ get, (field, get) ∈ EFFECTIVE_BINDING_FIELDS ∧ get persisted = old ∧ get current = new.
Proof.
  split.
  - unfold binding_conflicts, EFFECTIVE_BINDING_FIELDS. simpl.
    repeat case_bool_decide; (split; [intros Hn; first [discriminate Hn | split_and!; congruence]
                                     |intros (? & ? & ? & ?); first [reflexivity | exfalso; congruence]]).
  - intros field old new. unfold binding_conflicts. rewrite list_elem_of_omap. split.
    + intros ([fld get] & Hin & H). case_bool_decide; [done|]. injection H as -> <- <-. split; [done|]. by exists get.
    + intros (Hne & get & Hin & <- & <-). exists (field, get). split; [done|]. by rewrite bool_decide_false.
Qed.
