(* ===== verification/Profiles.v ===== *)
(** * Profiles (agent_os/profiles.py)

    The TOML parser, pydantic's coercion to an integer and [Path.expanduser]
    are parameters; the models' own rules (fields, defaults, extra keys
    forbidden, fields set) are written out.  The text of a validation error is
    left out of messages. *)
From S2P Require Export Backends.

Definition ProfileLoadError (msg : string) : exn := ValueError msg.

Record HotContextConfig := mkHotContextConfig { max_chars : Z; max_age_days : Z; sources : list string }.
Record SummaryConfig := mkSummaryConfig { threshold_tokens : Z; keep_recent_n : Z; summary_model : option string }.
Definition default_hot_context : HotContextConfig := mkHotContextConfig 8000 14 ["hot.md"; "AI/Memory/*.md"].
Definition default_summary : SummaryConfig := mkSummaryConfig 8000 6 None.

Record Profile := mkProfile {
  pr_name : string; pr_router : option string; pr_architect : option string; pr_executor : option string;
  pr_sandbox : option string; pr_description : string; pr_extends : option string;
  pr_hot_context : option HotContextConfig; pr_summary : option SummaryConfig;
  model_fields_set : list string }.
Record ProfileFile := mkProfileFile { default_profile : option string; profiles : list (string * Profile) }.
Record ResolvedProfile := mkResolved {
  rp_name : string; rp_router : option string; rp_architect : option string; rp_executor : option string;
  rp_sandbox : string; rp_hot_context : HotContextConfig; rp_summary : SummaryConfig }.

(** ** Secrets *)
Definition secret_words : list string := ["api_key"; "apikey"; "token"; "secret"; "password"; "credential"].
Definition secret_key (k : string) : bool :=
  let k_lower := str_replace "-" "_" (lower k) in existsb (λ secret_word, contains secret_word k_lower) secret_words.
Definition rejected_key (path k : string) : exn :=
  ProfileLoadError ("Profile configuration contains rejected secret key at '" +:+ path +:+ "." +:+ k +:+ "'").
Fixpoint reject_secrets (path : string) (data : pyval) : res unit :=
  match data with
  | VDict d =>
      (fix keys (d : list (string * pyval)) : res unit :=
         match d with
         | [] => Ok tt
         | (k, v) :: d' =>
             if secret_key k then Raise (rejected_key path k)
             else _ ← reject_secrets (if truthy path then path +:+ "." +:+ k else k) v; keys d'
         end) d
  | VList l =>
      (fix elems (l : list pyval) (i : Z) : res unit :=
         match l with
         | [] => Ok tt
         | item :: l' => _ ← reject_secrets (path +:+ "[" +:+ str_of_Z i +:+ "]") item; elems l' (i + 1)
         end) l 0
  | _ => Ok tt
  end.

(** ** The models *)
Section validation.
Context (lax_int : pyval → option Z).

Definition known_keys (allowed : list string) (d : pydict) : bool := forallb (λ k, mem_str k allowed) (dkeys d).
Definition opt_str (k : string) (d : pydict) : option (option string) :=
  match dget k d with
  | None | Some VNone => Some None
  | Some (VStr s) => Some (Some s)
  | Some _ => None
  end.
Definition str_or (k dflt : string) (d : pydict) : option string :=
  match dget k d with None => Some dflt | Some (VStr s) => Some s | Some _ => None end.
Definition int_or (k : string) (dflt : Z) (d : pydict) : option Z :=
  match dget k d with None => Some dflt | Some v => lax_int v end.
Definition strs_or (k : string) (dflt : list string) (d : pydict) : option (list string) :=
  match dget k d with
  | None => Some dflt
  | Some (VList l) => mapM (λ v, match v with VStr s => Some s | _ => None end) l
  | Some _ => None
  end.
Definition model_or_none {A} (k : string) (validate : pydict → option A) (d : pydict) : option (option A) :=
  match dget k d with
  | None | Some VNone => Some None
  | Some (VDict x) => Some <$> validate x
  | Some _ => None
  end.

Definition validate_hot_context (d : pydict) : option HotContextConfig :=
  if negb (known_keys ["max_chars"; "max_age_days"; "sources"] d) then None
  else
    max_chars ← int_or "max_chars" 8000 d;
    max_age_days ← int_or "max_age_days" 14 d;
    sources ← strs_or "sources" ["hot.md"; "AI/Memory/*.md"] d;
    Some (mkHotContextConfig max_chars max_age_days sources).
Definition validate_summary (d : pydict) : option SummaryConfig :=
  if negb (known_keys ["threshold_tokens"; "keep_recent_n"; "model"] d) then None
  else
    threshold_tokens ← int_or "threshold_tokens" 8000 d;
    keep_recent_n ← int_or "keep_recent_n" 6 d;
    model ← opt_str "model" d;
    Some (mkSummaryConfig threshold_tokens keep_recent_n model).
Definition profile_fields : list string :=
  ["name"; "router"; "architect"; "executor"; "sandbox"; "description"; "extends"; "hot_context"; "summary"].
Definition validate_profile (v : pyval) : option Profile :=
  match v with
  | VDict d =>
      if negb (known_keys profile_fields d) then None
      else
        name ← match dget "name" d with Some (VStr s) => Some s | _ => None end;
        router ← opt_str "router" d;
        architect ← opt_str "architect" d;
        executor ← opt_str "executor" d;
        sandbox ← opt_str "sandbox" d;
        description ← str_or "description" EmptyString d;
        extends ← opt_str "extends" d;
        hot_context ← model_or_none "hot_context" validate_hot_context d;
        summary ← model_or_none "summary" validate_summary d;
        Some (mkProfile name router architect executor sandbox description extends hot_context summary (dkeys d))
  | _ => None
  end.
Definition validate_profile_file (d : pydict) : option ProfileFile :=
  if negb (known_keys ["default"; "profiles"] d) then None
  else
    default_profile ← opt_str "default" d;
    profiles ← match dget "profiles" d with
               | None => Some []
               | Some (VDict ps) => mapM (λ '(name, v), p ← validate_profile v; Some (name, p)) ps
               | Some _ => None
               end;
    Some (mkProfileFile default_profile profiles).

(** ** Loading *)
(** The name of each profile goes into its table, and the tables go where the
    model expects them. *)
Definition inject_names (data : pydict) : pydict :=
  match dget "profile" data with
  | Some (VDict ps) =>
      dset "profiles"
        (VDict (map (λ '(name, prof_data), (name, match prof_data with VDict p => VDict (dset "name" (VStr name) p) | v => v end)) ps))
        (ddel "profile" data)
  | _ => data
  end.

Context (fuel : nat) (toml_load : string → res pydict) (cwd home : path).
Definition search_paths (given : option path) (xdg_config : option string) : list path :=
  match given with
  | Some p => [p]
  | None =>
      match xdg_config with
      | Some x => if truthy x then [join_path cwd (parse_path x) ++ ["agent-os"; "profiles.toml"]] else []
      | None => []
      end ++ [home ++ [".config"; "agent-os"; "profiles.toml"]]
  end.
Definition read_bytes (f : fs) (p : path) : res string :=
  x ← stat fuel f p;
  match x with NFile content _ => Ok content | _ => Raise (OtherError "IsADirectoryError") end.
Definition load_profiles (given : option path) (xdg_config : option string) (f : fs) : res ProfileFile :=
  match List.find (exists_ fuel f) (search_paths given xdg_config) with
  | None => Ok (mkProfileFile None [])
  | Some found_path =>
      match (text ← read_bytes f found_path; toml_load text) with
      | Raise e => Raise (ProfileLoadError ("Malformed TOML in profiles file: " +:+ exn_msg e))
      | Ok data =>
          _ ← reject_secrets EmptyString (VDict data);
          match validate_profile_file (inject_names data) with
          | Some pf => Ok pf
          | None => Raise (ProfileLoadError "Invalid profile configuration")
          end
      end
  end.
End validation.

Definition select_profile_name (cli_name env_name file_default : option string) : option (string * string) :=
  match cli_name, env_name, file_default with
  | Some n, _, _ => Some (n, "flag")
  | None, Some n, _ => Some (n, "env")
  | None, None, Some n => Some (n, "default")
  | None, None, None => None
  end.

(** ** Resolution *)
Definition arrow (chain : list string) : string := sjoin " -> " chain.
(** The loop over [extends]: three rounds are enough, since a chain of two has
    no further round. *)
Fixpoint build_chain (rounds : nat) (pf : ProfileFile) (chain : list string) (current_name : option string) : res (list string) :=
  match current_name with
  | Some current_name =>
      if negb (truthy current_name) then Ok chain
      else if mem_str current_name chain then
        Raise (ProfileLoadError ("Inheritance cycle detected: " +:+ arrow (chain ++ [current_name])))
      else
        match dget current_name (profiles pf) with
        | None => Raise (ProfileLoadError ("Parent profile '" +:+ current_name +:+ "' not found."))
        | Some current_prof =>
            if Nat.ltb 1 (length chain) then
              Raise (ProfileLoadError ("Deep inheritance is not supported: " +:+ arrow (chain ++ [current_name])))
            else
              match rounds with
              | S rounds' => build_chain rounds' pf (chain ++ [current_name]) (pr_extends current_prof)
              | O => Raise (RuntimeError "unreachable")
              end
        end
  | None => Ok chain
  end.

(** [resolved_data.get(field)] after the parent's fields and the child's. *)
Definition inherited {A} (field : string) (get : Profile → option A) (parent : option Profile) (child : Profile) : option A :=
  if mem_str field (model_fields_set child) then get child else parent ≫= get.

Section resolve.
Context {I : Type} (fuel : nat) (expanduser : string → string) (cwd : path).
Definition check_role (adapters : backends (I:=I)) (role : string) (backend_str : option string) : res unit :=
  match backend_str with
  | Some backend_str =>
      if truthy backend_str && startswith "cli/" backend_str then
        match Backends.resolve role (sdrop 4 backend_str) adapters with
        | Ok _ => Ok tt
        | Raise e => Raise (ProfileLoadError (exn_msg e))
        end
      else Ok tt
  | None => Ok tt
  end.
Definition check_router (router_str : option string) : res unit :=
  match router_str with
  | Some router_str =>
      if truthy router_str && startswith "cli/" router_str
      then Raise (ProfileLoadError ("Router cannot be a CLI backend: " +:+ router_str)) else Ok tt
  | None => Ok tt
  end.

(** The profiles a chain ends in: the parent, when there is one. *)
Definition parent_of (pf : ProfileFile) (chain : list string) : option Profile :=
  match chain with _ :: _ :: _ => last chain ≫= λ n, dget n (profiles pf) | _ => None end.
Definition resolve_profile (pf : ProfileFile) (name : string) (adapters : backends (I:=I)) (sandbox_root_absolute : path) (f : fs)
    : res ResolvedProfile :=
  match dget name (profiles pf) with
  | None => Raise (ProfileLoadError ("Profile '" +:+ name +:+ "' not found. Available profiles: "
                                     +:+ or_text "none" (sjoin ", " (dkeys (profiles pf)))))
  | Some child =>
      chain ← build_chain 3 pf [] (Some name);
      let parent := parent_of pf chain in
      let router := inherited "router" pr_router parent child in
      let architect := inherited "architect" pr_architect parent child in
      let executor := inherited "executor" pr_executor parent child in
      let hot_context := inherited "hot_context" pr_hot_context parent child in
      let summary := inherited "summary" pr_summary None child in
      resolved_sandbox ← match inherited "sandbox" pr_sandbox parent child with
                         | Some sandbox_str => realpath fuel f (join_path cwd (parse_path (expanduser sandbox_str)))
                         | None => Ok sandbox_root_absolute
                         end;
      _ ← check_role adapters "architect" architect;
      _ ← check_role adapters "executor" executor;
      _ ← check_router router;
      Ok (mkResolved name router architect executor (abs_str resolved_sandbox)
            (default default_hot_context hot_context) (default default_summary summary))
  end.
End resolve.

(** ** No secret is loaded *)

(** Every key of every table, at any depth. *)
Inductive key_of : string → pyval → Prop :=
  | key_here k v d : (k, v) ∈ d → key_of k (VDict d)
  | key_in_dict k k' v d : (k', v) ∈ d → key_of k v → key_of k (VDict d)
  | key_in_list k v l : v ∈ l → key_of k v → key_of k (VList l).

Lemma reject_secrets_ok v : ∀ path, reject_secrets path v = Ok tt ↔ ∀ k, key_of k v → secret_key k = false.
Proof.
  induction v as [| | | | |l IH|d IH|] using pyval_ind'; intros path;
    try (by split; [intros _ k Hk; inversion Hk|]).
  - cbn [reject_secrets]. generalize 0. induction l as [|x l IHl]; intros i.
    { split; [|done]. intros _ k H. inversion H as [| |? ? ? Hin]; subst. by apply not_elem_of_nil in Hin. }
    apply Forall_cons in IH as [Hx IH]. specialize (IHl IH (i + 1)).
    destruct (reject_secrets _ x) as [[]|] eqn:E; cbn [mbind res_bind].
    + rewrite IHl. pose proof (proj1 (Hx _) E) as E'. split.
      * intros H k Hk. inversion Hk as [| |? ? ? Hin Hk']; subst. apply elem_of_cons in Hin as [-> | Hin]; [by apply E'|].
        apply H. by eapply key_in_list.
      * intros H k Hk. apply H. inversion Hk as [| |? ? ? Hin Hk']; subst. eapply key_in_list; [by right|done].
    + split; [done|]. intros H. assert (reject_secrets (path +:+ "[" +:+ str_of_Z i +:+ "]") x = Ok tt) as E''; [|congruence].
      apply Hx. intros k Hk. apply H. eapply key_in_list; [by left|done].
  - cbn [reject_secrets]. induction d as [|[k0 x] d IHd].
    { split; [|done]. intros _ k H. inversion H as [? ? ? Hin|? ? ? ? Hin|]; subst; by apply not_elem_of_nil in Hin. }
    apply Forall_cons in IH as [Hx IH]. specialize (IHd IH). destruct (secret_key k0) eqn:Es.
    { split; [done|]. intros H. rewrite (H k0) in Es; [done|]. eapply key_here. by left. }
    destruct (reject_secrets _ x) as [[]|] eqn:E; cbn [mbind res_bind].
    + rewrite IHd. pose proof (proj1 (Hx _) E) as E'. simpl in E'. split.
      * intros H k Hk. inversion Hk as [? ? ? Hin|? ? ? ? Hin Hk'|]; subst; apply elem_of_cons in Hin as [[= -> ->]|Hin];
          [done|apply H; by eapply key_here|by apply E'|apply H; by eapply key_in_dict].
      * intros H k Hk. apply H. inversion Hk as [? ? ? Hin|? ? ? ? Hin Hk'|]; subst;
          [eapply key_here; by right|eapply key_in_dict; [by right|done]].
    + split; [done|]. intros H. exfalso.
      assert (reject_secrets (if truthy path then path +:+ "." +:+ k0 else k0) x = Ok tt) as E''; [|congruence].
      apply Hx. intros k Hk. apply H. eapply key_in_dict; [by left|done].
Qed.

(** What [load_profiles] accepts comes from no file, or from the first search
    path that exists, and there no key of any table, at any depth, names a
    secret. *)
Theorem load_profiles_no_secret lax_int fuel toml_load cwd home given xdg_config f pf :
  load_profiles lax_int fuel toml_load cwd home given xdg_config f = Ok pf →
  pf = mkProfileFile None [] ∨
  ∃ p text data, List.find (exists_ fuel f) (search_paths cwd home given xdg_config) = Some p ∧
    read_bytes fuel f p = Ok text ∧ toml_load text = Ok data ∧
    (∀ k, key_of k (VDict data) → secret_key k = false) ∧ validate_profile_file lax_int (inject_names data) = Some pf.
Proof.
  unfold load_profiles. destruct (List.find _ _) as [p|]; [|intros <-%Ok_inj; by left].
  destruct (read_bytes fuel f p) as [text|] eqn:Et; cbn [mbind res_bind]; [|done].
  destruct (toml_load text) as [data|] eqn:Ed; [|done].
  destruct (reject_secrets _ _) as [[]|] eqn:Er; cbn [mbind res_bind]; [|done].
  destruct (validate_profile_file _ _) as [pf'|] eqn:Ev; [|done]. intros <-%Ok_inj. right.
  exists p, text, data. split_and!; try done. by apply (reject_secrets_ok (VDict data) EmptyString).
Qed.

(** The documented key [threshold_tokens] of the summary block is taken for a
    secret: a profile that sets it never loads. *)
Theorem threshold_tokens_rejected lax_int fuel toml_load cwd home given xdg_config f p text data name prof summary v :
  List.find (exists_ fuel f) (search_paths cwd home given xdg_config) = Some p →
  read_bytes fuel f p = Ok text → toml_load text = Ok data →
  ("profile", VDict [(name, VDict prof)]) ∈ data → ("summary", VDict summary) ∈ prof → ("threshold_tokens", v) ∈ summary →
  ∃ e, load_profiles lax_int fuel toml_load cwd home given xdg_config f = Raise e.
Proof.
  intros Hp Ht Hd H1 H2 H3. unfold load_profiles. rewrite Hp, Ht. cbn [mbind res_bind]. rewrite Hd.
  destruct (reject_secrets EmptyString (VDict data)) as [[]|] eqn:E; cbn [mbind res_bind]; [|eauto].
  exfalso. enough (secret_key "threshold_tokens" = false) as Hk by (vm_compute in Hk; discriminate Hk).
  apply (proj1 (reject_secrets_ok _ _) E). eapply key_in_dict; [exact H1|]. eapply key_in_dict; [by left|].
  eapply key_in_dict; [exact H2|]. by eapply key_here.
Qed.

(** ** Inheritance *)
Lemma build_chain_step pf n c rest : build_chain (S n) pf c (Some rest) =
  if negb (truthy rest) then Ok c
  else if mem_str rest c then Raise (ProfileLoadError ("Inheritance cycle detected: " +:+ arrow (c ++ [rest])))
  else match dget rest (profiles pf) with
       | None => Raise (ProfileLoadError ("Parent profile '" +:+ rest +:+ "' not found."))
       | Some p =>
           if Nat.ltb 1 (length c) then
             Raise (ProfileLoadError ("Deep inheritance is not supported: " +:+ arrow (c ++ [rest])))
           else build_chain n pf (c ++ [rest]) (pr_extends p)
       end.
Proof. reflexivity. Qed.

(** No parent named: [extends] is absent or empty. *)
Definition no_parent (p : Profile) : Prop := pr_extends p = None ∨ pr_extends p = Some EmptyString.

Lemma build_chain_cases pf name child chain :
  truthy name = true → dget name (profiles pf) = Some child → build_chain 3 pf [] (Some name) = Ok chain →
  (chain = [name] ∧ no_parent child) ∨
  ∃ parent_name parent, chain = [name; parent_name] ∧ pr_extends child = Some parent_name ∧ parent_name ≠ EmptyString ∧
    parent_name ≠ name ∧ dget parent_name (profiles pf) = Some parent ∧ no_parent parent.
Proof.
  intros Hn Hc. rewrite build_chain_step, Hn, Hc. cbn [negb mem_str existsb length Nat.ltb Nat.leb app].
  unfold no_parent. destruct (pr_extends child) as [par|]; [|intros <-%Ok_inj; left; by split; [|left]].
  rewrite build_chain_step. destruct (truthy par) eqn:Ht; cbn [negb].
  2:{ intros <-%Ok_inj. left. split; [done|]. right. by destruct par. }
  cbn [mem_str existsb]. destruct (String.eqb_spec par name) as [->|Hne]; [done|]. cbn [orb].
  destruct (dget par (profiles pf)) as [p|] eqn:Hp; [|done]. cbn [length Nat.ltb Nat.leb app]. intros H.
  assert (no_parent p) as Hno.
  { unfold no_parent. destruct (pr_extends p) as [g|]; [|by left]. right. rewrite build_chain_step in H.
    destruct (truthy g) eqn:Hg; [|by destruct g]. cbn [negb] in H. destruct (mem_str g _); [done|]. by destruct (dget g _). }
  assert (chain = [name; par]) as ->.
  { destruct Hno as [E|E]; rewrite E in H; by apply Ok_inj in H as <-. }
  right. exists par, p. split_and!; try done. by intros ->.
Qed.

(** The field a profile ends with: its own when its table sets it, else its
    parent's, if it has one. *)
Definition field_of {A} (field : string) (get : Profile → option A) (child : Profile) (parent : option Profile) : option A :=
  if decide (field ∈ model_fields_set child) then get child else parent ≫= get.
Lemma inherited_field {A} field (get : Profile → option A) parent child :
  inherited field get parent child = field_of field get child parent.
Proof.
  unfold inherited, field_of. destruct (mem_str _ _) eqn:E; destruct (decide _) as [H|H]; try done.
  - by apply mem_str_iff in E.
  - apply mem_str_iff in H. congruence.
Qed.

(** A profile that resolves has at most one parent, which exists and has none
    itself; every field but the summary is the child's own or inherited; the
    router is no CLI, and a CLI architect or executor is registered for its
    role. *)
Theorem resolve_profile_spec {I} (fuel : nat) (expanduser : string → string) (cwd : path) (pf : ProfileFile) (name : string)
    (adapters : backends (I:=I)) (root : path) (f : fs) (r : ResolvedProfile) :
  name ≠ EmptyString → resolve_profile fuel expanduser cwd pf name adapters root f = Ok r →
  ∃ child parent, dget name (profiles pf) = Some child ∧
    match parent with
    | None => no_parent child
    | Some p => no_parent p ∧ ∃ n, pr_extends child = Some n ∧ n ≠ name ∧ dget n (profiles pf) = Some p
    end ∧
    rp_name r = name ∧ rp_router r = field_of "router" pr_router child parent ∧
    rp_architect r = field_of "architect" pr_architect child parent ∧
    rp_executor r = field_of "executor" pr_executor child parent ∧
    rp_hot_context r = default default_hot_context (field_of "hot_context" pr_hot_context child parent) ∧
    rp_summary r = default default_summary (field_of "summary" pr_summary child None) ∧
    (∀ s, rp_router r = Some s → startswith "cli/" s = false) ∧
    (∀ b, rp_architect r = Some ("cli/" +:+ b) → ∃ a, Backends.resolve "architect" b adapters = Ok a) ∧
    (∀ b, rp_executor r = Some ("cli/" +:+ b) → ∃ a, Backends.resolve "executor" b adapters = Ok a).
Proof.
  intros Hn. unfold resolve_profile. destruct (dget name (profiles pf)) as [child|] eqn:Hc; [|done].
  destruct (build_chain 3 pf [] (Some name)) as [chain|] eqn:Eb; cbn [mbind res_bind]; [|done].
  apply (build_chain_cases pf name child) in Eb; [|by destruct name|done].
  rewrite !inherited_field. destruct (match field_of _ pr_sandbox _ _ with Some _ => _ | None => _ end) as [sb|]; cbn [mbind res_bind]; [|done].
  destruct (check_role adapters "architect" _) as [[]|] eqn:Ea; cbn [mbind res_bind]; [|done].
  destruct (check_role adapters "executor" _) as [[]|] eqn:Ee; cbn [mbind res_bind]; [|done].
  destruct (check_router _) as [[]|] eqn:Er; cbn [mbind res_bind]; [|done]. intros <-%Ok_inj.
  exists child, (parent_of pf chain). cbn [rp_name rp_router rp_architect rp_executor rp_hot_context rp_summary].
  split_and!; try done.
  - destruct Eb as [[-> Hno]|(pn & p & -> & He & _ & Hne & Hp & Hno)]; [done|]. simpl. rewrite Hp. cbn. split; [done|]. by exists pn.
  - intros s Hs. rewrite Hs in Er. unfold check_router in Er. destruct (startswith "cli/" s) eqn:E; [|done].
    destruct s; [done|]. done.
  - intros b Hb. rewrite Hb in Ea. cbn in Ea. destruct (Backends.resolve "architect" b adapters) as [a|]; [by exists a|done].
  - intros b Hb. rewrite Hb in Ee. cbn in Ee. destruct (Backends.resolve "executor" b adapters) as [a|]; [by exists a|done].
Qed.

Definition demo_toml (text : string) : res pydict :=
  match loads text with Some (VDict d) => Ok d | _ => Raise (ValueError "TOML") end.
Definition demo_int (v : pyval) : option Z := match v with VInt z => Some z | _ => None end.
Definition demo_home : fs := {[ ["h"] := NDir; ["h"; ".config"] := NDir; ["h"; ".config"; "agent-os"] := NDir;
  ["h"; ".config"; "agent-os"; "profiles.toml"] :=
    NFile (match dumps (VDict [("profile", VDict [("base", VDict [("architect", VStr "cli/codex"); ("sandbox", VStr "/s")]);
                                                  ("w", VDict [("extends", VStr "base"); ("sandbox", VStr "/t")])])])
           with Ok s => s | Raise _ => "" end) 0 ]}.
Definition demo_adapters : backends (I:=Z) := [("codex", builtin_adapter "codex" "codex" false (λ _, 0))].
Lemma load_profiles_no_secret_witness :
  ∃ pf, load_profiles demo_int 20 demo_toml ["w"] ["h"] None None demo_home = Ok pf ∧
    (pf = mkProfileFile None [] ∨
     ∃ p text data, List.find (exists_ 20 demo_home) (search_paths ["w"] ["h"] None None) = Some p ∧
       read_bytes 20 demo_home p = Ok text ∧ demo_toml text = Ok data ∧
       (∀ k, key_of k (VDict data) → secret_key k = false) ∧ validate_profile_file demo_int (inject_names data) = Some pf).
Proof.
  eexists. split; [vm_compute; reflexivity|]. apply (load_profiles_no_secret demo_int 20 demo_toml ["w"] ["h"] None None).
  vm_compute. reflexivity.
Defined.
Definition demo_child : Profile := mkProfile "w" None None None (Some "/t") "" (Some "base") None None ["extends"; "sandbox"; "name"].
Definition demo_parent : Profile :=
  mkProfile "base" None (Some "cli/codex") None (Some "/s") "" None None (Some (mkSummaryConfig 1 2 None)) ["architect"; "sandbox"; "summary"; "name"].
Lemma resolve_profile_spec_witness :
  let pf := mkProfileFile None [("base", demo_parent); ("w", demo_child)] in
  ∃ r, resolve_profile 20 id ["c"] pf "w" demo_adapters ["d"] ∅ = Ok r ∧ rp_summary r = default_summary ∧
    rp_architect r = Some "cli/codex" ∧ ∃ a, Backends.resolve "architect" "codex" demo_adapters = Ok a.
Proof.
  intros pf. eexists. split; [vm_compute; reflexivity|]. split; [reflexivity|]. split; [reflexivity|].
  destruct (resolve_profile_spec 20 id ["c"] pf "w" demo_adapters ["d"] ∅
    (mkResolved "w" None (Some "cli/codex") None "/t" default_hot_context default_summary))
    as (? & ? & _ & _ & _ & _ & _ & _ & _ & _ & _ & H & _); [discriminate|vm_compute; reflexivity|].
  apply (H "codex"). reflexivity.
Defined.
