(* ===== verification/RunExecutor.v ===== *)
(** * Executing a run (agent_os/server/run_executor.py)

    [execute_run] drives the agent graph for one run and records what happens
    in the ledger.  The graph is LangGraph's: the model takes the events it
    streams and how the stream ends (a snapshot, an exception, or the
    cancellation of the task).  The state is the ledger, the session grants of
    [LocalPolicy], the lifecycle events emitted and the observations taken. *)
From S2P Require Export Events Policy.

(** ** Reading a snapshot *)

(** [BaseModel.model_dump(mode="json")]: models become dicts, recursively. *)
Fixpoint model_dump (v : pyval) : pyval :=
  match v with
  | VList l => VList (map model_dump l)
  | VDict d => VDict (map (λ '(k, x), (k, model_dump x)) d)
  | VObj _ d => VDict (map (λ '(k, x), (k, model_dump x)) d)
  | _ => v
  end.
(** [x.model_dump(mode="json") if isinstance(x, BaseModel) else x]; the objects
    a graph state holds are pydantic models. *)
Definition dump_model (v : pyval) : pyval := match v with VObj _ _ => model_dump v | _ => v end.

(** [snapshot.values]: a dict, or something else. *)
Definition result_payload (values : pyval) : pydict :=
  match values with
  | VDict vs =>
      let payload :=
        match dump_model (default VNone (dget "tool_result" vs)) with
        | VDict tr => [("tool_result", VDict tr)]
        | _ => []
        end in
      match dump_model (default VNone (dget "executor_output" vs)) with
      | VDict eo =>
          match dget "self_check" eo with
          | Some (VDict sc) => dset "self_check" (VDict sc) payload
          | _ => payload
          end
      | _ => payload
      end
  | _ => []
  end.

Definition nonblank (s : string) : bool := truthy (strip s).

Definition terminal_tool_failure (values : pyval) : option (string * string) :=
  match dget "tool_result" (result_payload values) with
  | Some (VDict result) =>
      match dget "success" result with
      | Some (VBool false) =>
          let tool := let t := default VNone (dget "tool" result) in
                      if py_truthy t then py_str t else "tool"%string in
          let '(st, errors) :=
            match dget "output" result with
            | Some (VStr raw) =>
                let '(st, errors) :=
                  match loads raw with
                  | Some (VDict parsed) =>
                      (match dget "status" parsed with
                       | Some (VStr s) => if String.eqb s "cancelled" then "cancelled" else "error"
                       | _ => "error"
                       end%string,
                       match dget "errors" parsed with
                       | Some (VList es) => List.filter nonblank (map py_str es)
                       | _ => []
                       end)
                  | _ => ("error"%string, [])
                  end in
                (st, match errors with [] => if nonblank raw then [raw] else [] | _ => errors end)
            | _ => ("error"%string, [])
            end in
          let message := sjoin "; " errors in
          Some (st, if truthy message then message else tool +:+ " did not complete successfully")
      | _ => None
      end
  | _ => None
  end.

(** ** Stream events *)
Definition is_node_event (event_type name : option pyval) : bool :=
  match event_type, name with
  | Some (VStr t), Some (VStr n) =>
      (String.eqb t "on_chain_start" || String.eqb t "on_chain_end")
      && negb (String.eqb n "LangGraph" || String.eqb n "__start__")
  | _, _ => false
  end.

(** [getattr(chunk, "content", None)] *)
Definition chunk_content (v : option pyval) : pyval :=
  match v with Some (VObj _ attrs) => default VNone (dget "content" attrs) | _ => VNone end.

Definition append_stream_event (now r : string) (event : pydict) (L : ledger) : res ledger :=
  let ty := dget "event" event in
  let name := dget "name" event in
  if is_node_event ty name then
    snd <$> append_event now r "node" [("name", default VNone name); ("event", default VNone ty)] L
  else
    match ty with
    | Some (VStr t) =>
        if String.eqb t "on_chat_model_stream" then
          match dget "data" event with
          | Some (VDict data) =>
              let content := chunk_content (dget "chunk" data) in
              if py_truthy content then snd <$> append_event now r "token" [("content", content)] L
              else Ok L
          | _ => Ok L
          end
        else Ok L
    | _ => Ok L
    end.

(** ** The run *)

(** An observation taken at the end of a run: run, task kind, approach,
    evidence (its outcome is [unknown]). *)
Record capture := mkCapture {
  cap_run_id : string; cap_task_kind : string; cap_approach : string; cap_evidence : string }.

Record rstate := mkR {
  led : ledger;
  grants : gmap string (gset string);
  emitted : list (string * string * string);   (* event, run, status *)
  captured : list capture }.

Definition on_led (f : ledger → ledger) (s : rstate) : rstate :=
  mkR (f (led s)) (grants s) (emitted s) (captured s).
Definition emit (ty r st : string) (s : rstate) : rstate :=
  mkR (led s) (grants s) (emitted s ++ [(ty, r, st)]) (captured s).
Definition clear_session (r : string) (s : rstate) : rstate :=
  mkR (led s) (delete r (grants s)) (emitted s) (captured s).

(** How the stream of the graph ends: the final state's values and the pending
    interrupt, an exception, or [asyncio.CancelledError]. *)
Inductive graph_end :=
  | GDone (values : pyval) (interrupt_prompt : option pyval)
  | GFail (e : exn)
  | GCancelled.

(** [_capture_terminal_observation]; the observation store may be absent or
    fail, which changes nothing else. *)
Definition capture_of (r : string) (values : pyval) (terminal_status : string) : capture :=
  let tool := match dget "tool_result" (result_payload values) with
              | Some (VDict tr) => default VNone (dget "tool" tr)
              | _ => VNone
              end in
  let hint := match values with
              | VDict vs => match dump_model (default VNone (dget "strategy_hint" vs)) with
                            | VDict h => h
                            | _ => []
                            end
              | _ => []
              end in
  let sid := default VNone (dget "strategy_id" hint) in
  let skind := default VNone (dget "task_kind" hint) in
  let kind := if py_truthy skind then py_str skind else if py_truthy tool then py_str tool
              else "workflow"%string in
  mkCapture r kind
    (if py_truthy sid then py_str sid
     else if py_truthy tool then "native_tool:" +:+ kind else "graph_terminal"%string)
    ("terminal_status=" +:+ terminal_status).
Definition capture_terminal (store_ok : bool) (r : string) (values : pyval) (st : string)
    (s : rstate) : rstate :=
  if store_ok then mkR (led s) (grants s) (emitted s) (captured s ++ [capture_of r values st]) else s.

Definition status_payload (st : string) : pydict := [("status", VStr st)].

(** [except asyncio.CancelledError] (the caller re-raises). *)
Definition on_cancelled (now r : string) (s : rstate) : res rstate :=
  match get_run r (led s) with
  | Some row =>
      if terminal (status row) then Ok s
      else
        let L1 := set_status now r "cancelled" None true (led s) in
        '(_, L2) ← append_event now r "status" (status_payload "cancelled") L1;
        Ok (emit "run.cancelled" r "cancelled" (on_led (λ _, L2) s))
  | None => Ok s
  end.

(** [except Exception as error] *)
Definition on_error (obs : bool) (now r : string) (e : exn) (s : rstate) : res rstate :=
  '(_, L1) ← append_event now r "error" [("message", VStr (exn_msg e))] (led s);
  let L2 := set_status now r "error" (Some (exn_msg e)) true L1 in
  let s2 := on_led (λ _, L2) s in
  match get_run r L2 with
  | Some _ => Ok (capture_terminal obs r VNone "error" (emit "run.failed" r "error" s2))
  | None => Ok s2
  end.

(** What follows the stream in the [try]: the outcome of the graph.  The
    boolean is [preserve_session]. *)
Definition finish (obs : bool) (now r : string) (values : pyval) (prompt : option pyval)
    (s : rstate) : res (bool * rstate) :=
  match prompt with
  | Some p =>
      '(_, L1) ← append_event now r "interrupt" [("prompt", VStr (py_str p))] (led s);
      let L2 := set_status now r "interrupted" None false L1 in
      Ok (true, emit "run.interrupted" r "interrupted" (on_led (λ _, L2) s))
  | None =>
      '(_, L1) ← append_event now r "result" (result_payload values) (led s);
      match terminal_tool_failure values with
      | None =>
          let L2 := set_status now r "completed" None true L1 in
          Ok (false, capture_terminal obs r values "completed"
                       (emit "run.completed" r "completed" (on_led (λ _, L2) s)))
      | Some (st, msg) =>
          let L2 := set_status now r st (Some msg) true L1 in
          Ok (false, emit (if String.eqb st "cancelled" then "run.cancelled" else "run.failed") r st
                       (on_led (λ _, L2) s))
      end
  end.

Fixpoint stream (now r : string) (events : list pyval) (L : ledger) : ledger * option exn :=
  match events with
  | [] => (L, None)
  | VDict e :: es =>
      match append_stream_event now r e L with
      | Ok L' => stream now r es L'
      | Raise x => (L, Some x)
      end
  | _ :: es => stream now r es L
  end.

(** The outcome of [execute_run]: it returns, re-raises the cancellation, or
    an exception escapes its handlers. *)
Inductive run_end := Returned | Cancelled | Escaped (e : exn).

Definition execute_run (obs : bool) (now r : string) (events : list pyval) (fin : graph_end)
    (s : rstate) : run_end * rstate :=
  let handle_error (e : exn) (s : rstate) :=
    match on_error obs now r e s with
    | Ok s' => (Returned, clear_session r s')
    | Raise x => (Escaped x, clear_session r s)
    end in
  match get_run r (led s) with
  | None => handle_error (ValueError ("Run " +:+ r +:+ " does not exist")) s
  | Some row =>
      let s1 := on_led (set_status now r "running" None false) s in
      let '(L2, streamed) := stream now r events (led s1) in
      let s2 := on_led (λ _, L2) s1 in
      match streamed with
      | Some e => handle_error e s2
      | None =>
          match fin with
          | GFail e => handle_error e s2
          | GCancelled =>
              match on_cancelled now r s2 with
              | Ok s3 => (Cancelled, clear_session r s3)
              | Raise x => (Escaped x, clear_session r s2)
              end
          | GDone values prompt =>
              match finish obs now r values prompt s2 with
              | Ok (preserve, s3) => (Returned, if preserve then s3 else clear_session r s3)
              | Raise x => handle_error x s2
              end
          end
      end
  end.

(** ** What an execution leaves behind *)
Lemma append_event_frame now r kind p L n L' : append_event now r kind p L = Ok (n, L') →
  runs L' = runs L ∧ lstep L L'.
Proof.
  intros H. split; [|by eapply step_event]. by apply res_bind_ok in H as (? & _ & [= _ <-]).
Qed.

Lemma append_event_message now r kind k m L : ∃ n L',
  append_event now r kind [(k, VStr m)] L = Ok (n, L').
Proof. unfold append_event. simpl. eauto. Qed.

Lemma append_stream_event_frame now r e L L' : append_stream_event now r e L = Ok L' →
  runs L' = runs L ∧ (ledger_ok L → ledger_ok L').
Proof.
  assert (∀ kind p, snd <$> append_event now r kind p L = Ok L' →
            runs L' = runs L ∧ (ledger_ok L → ledger_ok L')) as Ha.
  { intros kind p. destruct (append_event now r kind p L) as [[n L1]|] eqn:E; [|done].
    intros [= <-]. apply append_event_frame in E as [??]. split; [done|by apply lstep_ok]. }
  unfold append_stream_event. destruct (is_node_event _ _); [apply Ha|].
  repeat case_match; try (by intros [= <-]); apply Ha.
Qed.

Lemma stream_frame now r events L : 
  runs (stream now r events L).1 = runs L ∧ (ledger_ok L → ledger_ok (stream now r events L).1).
Proof.
  revert L. induction events as [|e es IH]; intros L; [done|]. simpl.
  destruct e as [| | | | | |d|]; try apply IH.
  destruct (append_stream_event now r d L) as [L'|x] eqn:E; [|done].
  apply append_stream_event_frame in E as [Hr Ho]. destruct (IH L') as [-> ?]. auto.
Qed.

Lemma get_run_set_status now r st e d L row : get_run r L = Some row →
  get_run r (set_status now r st e d L) = Some (update_run now st e d row).
Proof.
  unfold get_run, set_status, set_runs. simpl. induction (runs L) as [|x rows IH]; simpl; [done|].
  unfold has_key in *. destruct (String.eqb (run_id x) r) eqn:E; simpl; [|by rewrite E].
  intros [= ->]. by rewrite E.
Qed.
Lemma get_run_set_status_none now r st e d L : get_run r L = None →
  get_run r (set_status now r st e d L) = None.
Proof.
  unfold get_run, set_status, set_runs. simpl. induction (runs L) as [|x rows IH]; simpl; [done|].
  unfold has_key in *. destruct (String.eqb (run_id x) r) eqn:E; simpl; [done|by rewrite E].
Qed.
Lemma get_run_set_status_ne now r r' st e d L : r' ≠ r →
  get_run r' (set_status now r st e d L) = get_run r' L.
Proof.
  intros Hne. apply update_other; [done|]. intros row H. unfold has_key in H. bool_prop. congruence.
Qed.

(** Statuses a failed tool gives a run. *)
Lemma terminal_tool_failure_status values st msg : terminal_tool_failure values = Some (st, msg) →
  (st = "error" ∨ st = "cancelled") ∧ msg ≠ "".
Proof.
  unfold terminal_tool_failure. intros H.
  destruct (dget "tool_result" (result_payload values)) as [[| | | | | |result|]|]; try done.
  destruct (dget "success" result) as [[|[]| | | | | |]|]; try done.
  match type of H with (let '(st, errors) := ?x in _) = _ => destruct x as [st' errors] eqn:E end.
  injection H as <- <-. split.
  - destruct (dget "output" result) as [[| | | |raw| | |]|]; try (injection E as <- _; by left).
    destruct (loads raw) as [[| | | | | |parsed|]|]; try (injection E as <- _; by left).
    injection E as <- _. destruct (dget "status" parsed) as [[| | | |s| | |]|]; try by left.
    destruct (String.eqb s "cancelled"); [by right|by left].
  - destruct (truthy (sjoin "; " errors)) eqn:Et; [by destruct (sjoin "; " errors)|].
    by destruct (if py_truthy _ then _ else _).
Qed.

(** The result of an execution, as a function of how the stream went and of
    what the graph left. *)
Definition outcome (streamed : option exn) (fin : graph_end) : string :=
  match streamed, fin with
  | Some _, _ | None, GFail _ => "error"
  | None, GCancelled => "cancelled"
  | None, GDone values prompt =>
      match prompt with
      | Some _ => "interrupted"
      | None =>
          if is_ok (dumps (VDict (result_payload values))) then
            match terminal_tool_failure values with None => "completed" | Some (st, _) => st end
          else "error"
      end
  end.
Definition outcome_event (st : string) : string :=
  if String.eqb st "interrupted" then "run.interrupted"
  else if String.eqb st "completed" then "run.completed"
  else if String.eqb st "cancelled" then "run.cancelled" else "run.failed".

(** The state [s'] differs from [s] by run [r] having reached [st]. *)
Definition settled (now r : string) (ended : option string) (st : string) (s s' : rstate) : Prop :=
  (∃ row', get_run r (led s') = Some row' ∧ status row' = st ∧
     ended_at row' = (if terminal st then Some now else ended)) ∧
  emitted s' = emitted s ++ [(outcome_event st, r, st)] ∧
  (∀ r', r' ≠ r → get_run r' (led s') = get_run r' (led s)) ∧
  ledger_ok (led s') ∧ grants s' = grants s.

Lemma settled_update now r row st err s L : get_run r (led s) = Some row → ledger_ok L →
  get_run r L = Some (update_run now st err (terminal st) row) →
  (∀ r', r' ≠ r → get_run r' L = get_run r' (led s)) →
  settled now r (ended_at row) st s (emit (outcome_event st) r st (on_led (λ _, L) s)).
Proof.
  intros Hrow Hok HL Hne. split_and!; try done. eexists. split_and!; [exact HL|done|]. simpl.
  by destruct (terminal st).
Qed.

Lemma settled_append now r row st err kind p s n L1 :
  get_run r (led s) = Some row → ledger_ok (led s) →
  append_event now r kind p (led s) = Ok (n, L1) →
  settled now r (ended_at row) st s
    (emit (outcome_event st) r st (on_led (λ _, set_status now r st err (terminal st) L1) s)).
Proof.
  intros Hrow Hok Ha. apply append_event_frame in Ha as [Hr Hs].
  assert (∀ r', get_run r' L1 = get_run r' (led s)) as Hg by (intros r'; unfold get_run; by rewrite Hr).
  apply (settled_update now r row st err); [done| | |].
  - eapply lstep_ok; [apply step_status|]. by eapply lstep_ok.
  - apply get_run_set_status. by rewrite Hg.
  - intros r' Hne. by rewrite get_run_set_status_ne, Hg.
Qed.

Lemma settled_capture obs now r e st st' s s' v : settled now r e st s s' →
  settled now r e st s (capture_terminal obs r v st' s').
Proof. by destruct obs. Qed.

Lemma on_error_settled obs now r e row s : ledger_ok (led s) → get_run r (led s) = Some row →
  ∃ s', on_error obs now r e s = Ok s' ∧ settled now r (ended_at row) "error" s s'.
Proof.
  intros Hok Hrow. unfold on_error.
  destruct (append_event_message now r "error" "message" (exn_msg e) (led s)) as (n & L1 & Ha).
  rewrite Ha. simpl. pose proof Ha as [Hr _]%append_event_frame.
  rewrite (get_run_set_status now r _ _ _ L1 row) by (unfold get_run; by rewrite Hr).
  eexists. split; [done|]. apply settled_capture. by eapply settled_append.
Qed.

Lemma on_cancelled_settled now r row s : ledger_ok (led s) → get_run r (led s) = Some row →
  terminal (status row) = false →
  ∃ s', on_cancelled now r s = Ok s' ∧ settled now r (ended_at row) "cancelled" s s'.
Proof.
  intros Hok Hrow Ht. unfold on_cancelled. rewrite Hrow, Ht.
  destruct (append_event_message now r "status" "status" "cancelled"
    (set_status now r "cancelled" None true (led s))) as (n & L2 & Ha).
  unfold status_payload. rewrite Ha. simpl. pose proof Ha as [Hr Hs]%append_event_frame.
  eexists. split; [done|]. apply (settled_update now r row "cancelled" None); [done|..].
  - eapply lstep_ok; [exact Hs|]. by eapply lstep_ok; [apply step_status|].
  - unfold get_run. rewrite Hr. by apply get_run_set_status.
  - intros r' Hne. unfold get_run at 1. rewrite Hr. by apply get_run_set_status_ne.
Qed.

Lemma finish_settled obs now r row values prompt s :
  ledger_ok (led s) → get_run r (led s) = Some row →
  let st := outcome None (GDone values prompt) in
  (is_Some prompt ∨ is_ok (dumps (VDict (result_payload values))) = true) →
  ∃ s', finish obs now r values prompt s = Ok (String.eqb st "interrupted", s') ∧
    settled now r (ended_at row) st s s'.
Proof.
  intros Hok Hrow st Hp. subst st. unfold finish, outcome. destruct prompt as [p|].
  - destruct (append_event_message now r "interrupt" "prompt" (py_str p) (led s)) as (n & L1 & Ha).
    rewrite Ha. simpl. eexists. split; [done|]. by eapply settled_append.
  - destruct Hp as [[? [=]]|Hp]. rewrite Hp.
    destruct (append_event now r "result" (result_payload values) (led s)) as [[n L1]|x] eqn:Ha.
    2:{ unfold append_event in Ha. destruct (dumps _); simpl in *; done. }
    cbn [mbind res_bind]. destruct (terminal_tool_failure values) as [[st msg]|] eqn:Hf.
    + apply terminal_tool_failure_status in Hf as [[-> | ->] _]; simpl; eexists; (split; [done|]);
        by eapply settled_append.
    + eexists. split; [done|]. apply settled_capture. by eapply settled_append.
Qed.

Lemma outcome_cases streamed fin :
  outcome streamed fin = "interrupted" ∨ terminal (outcome streamed fin) = true.
Proof.
  unfold outcome. destruct streamed; [by right|]. destruct fin as [values prompt| |]; [|by right..].
  destruct prompt; [by left|]. destruct (is_ok _); [|by right].
  destruct (terminal_tool_failure values) as [[st msg]|] eqn:E; [|by right].
  apply terminal_tool_failure_status in E as [[->| ->] _]; by right.
Qed.

(** What an execution that settled leaves once the session is cleared or kept. *)
Lemma settled_final now r ended st s s2 s3 :
  (∀ r', r' ≠ r → get_run r' (led s2) = get_run r' (led s)) → emitted s2 = emitted s → grants s2 = grants s →
  settled now r ended st s2 s3 →
  let s' := if String.eqb st "interrupted" then s3 else clear_session r s3 in
  (∃ row', get_run r (led s') = Some row' ∧ status row' = st ∧
     ended_at row' = (if terminal st then Some now else ended)) ∧
  emitted s' = emitted s ++ [(outcome_event st, r, st)] ∧
  grants s' = (if String.eqb st "interrupted" then grants s else delete r (grants s)) ∧
  (∀ r', r' ≠ r → get_run r' (led s') = get_run r' (led s)) ∧ ledger_ok (led s').
Proof.
  intros Hne He Hg (H1 & H2 & H3 & H4 & H5) s'.
  assert (led s' = led s3 ∧ emitted s' = emitted s3) as [El Ee] by (subst s'; by destruct (String.eqb _ _)).
  rewrite El, Ee. split_and!; try done.
  - by rewrite H2, He.
  - subst s'. destruct (String.eqb _ _); simpl; by rewrite H5, Hg.
  - intros r' Hr. by rewrite H3, Hne.
Qed.

(** A finished graph whose result cannot be encoded raises. *)
Lemma finish_raises obs now r values s :
  is_ok (dumps (VDict (result_payload values))) = false →
  ∃ x, finish obs now r values None s = Raise x.
Proof.
  intros H. unfold finish, append_event. destruct (dumps (VDict (result_payload values))); [done|]. simpl. eauto.
Qed.

(** The stream leaves the row running; the handlers then settle it. *)
Lemma execute_settled obs now r events fin s row :
  ledger_ok (led s) → get_run r (led s) = Some row →
  let streamed := (stream now r events (set_status now r "running" None false (led s))).2 in
  let st := outcome streamed fin in
  ∃ s2 s3, (∀ r', r' ≠ r → get_run r' (led s2) = get_run r' (led s)) ∧
    emitted s2 = emitted s ∧ grants s2 = grants s ∧ settled now r (ended_at row) st s2 s3 ∧
    execute_run obs now r events fin s
    = (match streamed, fin with None, GCancelled => Cancelled | _, _ => Returned end,
       if String.eqb st "interrupted" then s3 else clear_session r s3).
Proof.
  intros Hok Hrow streamed st. unfold execute_run. rewrite Hrow. subst st. subst streamed.
  set (L1 := set_status now r "running" None false (led s)).
  assert (ledger_ok L1) as Hok1 by (by eapply lstep_ok; [apply step_status|]).
  pose proof (get_run_set_status now r "running" None false (led s) row Hrow) as Hrow1. fold L1 in Hrow1.
  change (led (on_led (set_status now r "running" None false) s)) with L1.
  pose proof (stream_frame now r events L1) as [Hr2 Hok2].
  destruct (stream now r events L1) as [L2 streamed]. simpl in Hr2, Hok2.
  cbn [fst snd]. set (s2 := on_led (λ _, L2) _).
  assert (∀ r', get_run r' (led s2) = get_run r' L1) as Hg2
    by (intros r'; unfold get_run; simpl; by rewrite Hr2).
  pose proof (Hok2 Hok1) as Hok3. rewrite <-Hg2 in Hrow1. exists s2.
  assert (∀ r', r' ≠ r → get_run r' (led s2) = get_run r' (led s)) as Hne
    by (intros; rewrite Hg2; by apply get_run_set_status_ne).
  assert (∀ x, ∃ s3, on_error obs now r x s2 = Ok s3 ∧ settled now r (ended_at row) "error" s2 s3) as Herr
    by (intros x; by eapply on_error_settled in Hrow1).
  destruct streamed as [x|]; [destruct (Herr x) as (s3 & -> & Hs); exists s3; by destruct fin|].
  destruct fin as [values prompt|x|].
  - destruct (decide (is_Some prompt ∨ is_ok (dumps (VDict (result_payload values))) = true)) as [Hp|Hp].
    + eapply finish_settled in Hp as (s3 & -> & Hs); [|done..]. by exists s3.
    + destruct prompt; [exfalso; apply Hp; left; eauto|].
      assert (is_ok (dumps (VDict (result_payload values))) = false) as Hp2
        by (destruct (is_ok _); [exfalso; apply Hp; by right|done]).
      assert (outcome None (GDone values None) = "error") as -> by (unfold outcome; by rewrite Hp2).
      destruct (finish_raises obs now r values s2 Hp2) as [x ->].
      destruct (Herr x) as (s3 & -> & Hs). by exists s3.
  - destruct (Herr x) as (s3 & -> & Hs). by exists s3.
  - destruct (on_cancelled_settled now r _ s2 Hok3 Hrow1) as (s3 & -> & Hs); [done|]. by exists s3.
Qed.

(** An execution of an existing run always ends with the run in a status
    that follows from the graph alone: [interrupted] when the graph asks,
    [completed] when it is done and no tool failed, [cancelled] when the task
    or the tool was cancelled, [error] otherwise.  No exception escapes; one
    lifecycle event announces the status; the session grants survive exactly
    an interruption; the end time is set exactly when the status is terminal;
    other runs keep their rows and the ledger stays well formed. *)
Theorem execute_run_outcome obs now r events fin s row :
  ledger_ok (led s) → get_run r (led s) = Some row →
  let streamed := (stream now r events (set_status now r "running" None false (led s))).2 in
  let st := outcome streamed fin in
  let '(e, s') := execute_run obs now r events fin s in
  (∃ row', get_run r (led s') = Some row' ∧ status row' = st ∧
     ended_at row' = (if terminal st then Some now else ended_at row)) ∧
  (st = "interrupted" ∨ terminal st = true) ∧
  e = match streamed, fin with None, GCancelled => Cancelled | _, _ => Returned end ∧
  emitted s' = emitted s ++ [(outcome_event st, r, st)] ∧
  grants s' = (if String.eqb st "interrupted" then grants s else delete r (grants s)) ∧
  (∀ r', r' ≠ r → get_run r' (led s') = get_run r' (led s)) ∧
  ledger_ok (led s').
Proof.
  intros Hok Hrow streamed st.
  destruct (execute_settled obs now r events fin s row Hok Hrow) as (s2 & s3 & Hne & He & Hg & Hs & ->).
  pose proof (settled_final now r _ _ s s2 s3 Hne He Hg Hs). pose proof (outcome_cases streamed fin). naive_solver.
Qed.

Definition demo_led : ledger :=
  mkLedger [mkRun "r1" "t1" (Some "w"%string) None "queued" (Some "do it"%string) None None "a" "a" None None] [] [].
Definition demo_rstate : rstate := mkR demo_led {[ "r1"%string := {[ "k"%string ]} ]} [] [].
Definition demo_event : pyval :=
  VDict [("event", VStr "on_chain_start"); ("name", VStr "executor")].

Lemma execute_run_outcome_witness :
  let '(e, s') := execute_run true "now" "r1" [demo_event] (GDone (VDict []) None) demo_rstate in
  (∃ row', get_run "r1" (led s') = Some row' ∧ status row' = "completed" ∧
     ended_at row' = Some "now"%string) ∧ e = Returned.
Proof.
  pose proof (execute_run_outcome true "now" "r1" [demo_event] (GDone (VDict []) None) demo_rstate
    (mkRun "r1" "t1" (Some "w"%string) None "queued" (Some "do it"%string) None None "a" "a" None None)) as T.
  destruct (execute_run _ _ _ _ _ _) as [e s'].
  destruct T as (H1 & _ & H2 & _).
  - split; [repeat constructor; set_solver|done|done].
  - reflexivity.
  - split; [exact H1|exact H2].
Defined.

(** A failed tool result stays in the state after the plan that followed it was
    approved and executed: the run is reported as an error although the
    executor completed. *)
Lemma stale_tool_failure_marks_error :
  let values := VDict
    [("tool_result", VObj "ToolExecutionResult"
        [("tool", VStr "grep"); ("output", VStr "no such file"); ("success", VBool false)]);
     ("executor_output", VObj "ExecutorReport"
        [("status", VStr "completed"); ("self_check", VDict [("met", VInt 2)])])] in
  outcome None (GDone values None) = "error" ∧
  terminal_tool_failure values = Some ("error", "no such file").
Proof. by vm_compute. Qed.
