(* ===== verification/Scheduler.v ===== *)
(** * The scheduler (agent_os/scheduler.py)

    [dispatch_schedule] turns a claimed row into work and records the result in
    the row; [SchedulerService] claims the due rows on each tick and keeps at
    most ten dispatches at work.  What a run, a brief or an HTTP callback comes
    to is an argument. *)
From Corelib Require Import SpecFloat.
From S2P Require Export Schedules RunExecutor.

Record ScheduleDispatchResult := mkDispatch {
  dr_schedule_id : string;
  dr_kind : string;
  dr_status : string;
  dr_run_id : option string;
  dr_ref : option string;
  dr_error : option string }.

Record dstate := mkD { drun : rstate; dsched : list schedule }.

(** What the world answers: the fresh run id and what the graph does
    ([execute_run]), what [execute_brief] returns or raises ([saved], [ref],
    [error]), and what the HTTP client does: a response, an exception with the
    name of its class, or cancellation. *)
Inductive http_end := HStatus (code : Z) | HRaise (type_name : string) | HCancelled.
Inductive brief_end :=
  | BResult (saved : bool) (ref error : option string) | BRaise (e : exn) | BCancelled.
Record world := mkWorld {
  w_run_id : string;
  w_thread_id : string;
  w_obs : bool;
  w_events : list pyval;
  w_graph : graph_end;
  w_brief : brief_end;
  w_http : http_end;
  w_real_text : spec_float → string }.

(** A JSON value bound to a TEXT column: SQLite stores numbers as text and the
    driver refuses the other types. *)
Definition sql_text (real_text : spec_float → string) (v : pyval) : res (option string) :=
  match v with
  | VNone => Ok None
  | VStr s => Ok (Some s)
  | VBool b => Ok (Some (if b then "1" else "0")%string)
  | VInt z => if (-(2 ^ 63) <=? z) && (z <? 2 ^ 63) then Ok (Some (str_of_Z z))
              else Raise (OverflowError "Python int too large to convert to SQLite INTEGER")
  | VFloat f => Ok (Some (real_text f))
  | _ => Raise (OtherError "Error binding parameter: type is not supported")
  end.

Definition record (now : Z) (sid st : string) (error : option string) (s : dstate) : dstate :=
  mkD (drun s) (record_schedule_result now sid st error (dsched s)).

(** The result of a dispatch: it returns, is cancelled, or an exception
    reaches the handler at its end. *)
Inductive dispatch_end := DReturn (r : ScheduleDispatchResult) | DCancel | DRaise (e : exn).

Definition is_success (code : Z) : bool := (200 <=? code) && (code <=? 299).

Definition schedule_principal (sid : string) : Principal :=
  mkPrincipal ("schedule:" +:+ sid) "schedule" ("Schedule (" +:+ sid +:+ ")") None.

(** [await execute_run(...)] and its [except asyncio.CancelledError]. *)
Definition run_job (now : string) (w : world) (run : string) (s : rstate) : run_end * rstate :=
  match execute_run (w_obs w) now run (w_events w) (w_graph w) s with
  | (Cancelled, s1) =>
      match append_event now run "error" [("message", VStr "Scheduler shutdown")] (led s1) with
      | Ok (_, L) => (Cancelled, on_led (λ _, set_status now run "error" (Some "Scheduler shutdown"%string) true L) s1)
      | Raise e => (Escaped e, s1)
      end
  | r => r
  end.

(** [store.create_run(...)] for the schedule. *)
Definition new_run (now : string) (w : world) (sid : string) (payload : pydict) (L : ledger)
    : res (string * ledger) :=
  ws ← sql_text (w_real_text w) (default VNone (dget "workspace" payload));
  task ← sql_text (w_real_text w) (default (VStr "") (dget "task" payload));
  create_run (w_run_id w) now (w_thread_id w) ws task ws None None (Some (schedule_principal sid)) L.

Definition dispatch_run (now : string) (t : Z) (w : world) (sid kind : string) (payload : pydict)
    (s : dstate) : dispatch_end * dstate :=
  match new_run now w sid payload (led (drun s)) with
  | Raise e => (DRaise e, s)
  | Ok (run, L) =>
      let '(fin, r1) := run_job now w run (on_led (λ _, L) (drun s)) in
      let s1 := mkD r1 (dsched s) in
      match fin with
      | Escaped e => (DRaise e, s1)
      | Cancelled => (DCancel, s1)
      | Returned =>
          let row := get_run run (led r1) in
          let st := match row with Some x => status x | None => "error"%string end in
          let error := match row with Some x => run_error x | None => None end in
          (DReturn (mkDispatch sid kind st (Some run) None error), record t sid st error s1)
      end
  end.

Definition dispatch_brief (t : Z) (w : world) (sid kind : string) (s : dstate) : dispatch_end * dstate :=
  match w_brief w with
  | BRaise e => (DRaise e, s)
  | BCancelled => (DCancel, s)
  | BResult saved ref error =>
      if negb saved then
        let error_msg := default "Brief write was not committed"%string (nonempty error) in
        (DReturn (mkDispatch sid kind "error" None None (Some error_msg)), record t sid "error" (Some error_msg) s)
      else (DReturn (mkDispatch sid kind "completed" None ref None), record t sid "completed" None s)
  end.

Definition dispatch_callback (t : Z) (w : world) (sid kind : string) (payload : pydict) (s : dstate)
    : dispatch_end * dstate :=
  let fail (error : string) (ref : option string) :=
    (DReturn (mkDispatch sid kind "error" None ref (Some error)), record t sid "error" (Some error) s) in
  match default (VStr "POST") (dget "method" payload) with
  | VStr _ =>
      if negb (py_truthy (default (VStr "") (dget "url" payload))) then
        fail "kind=app_callback requires 'url' in payload"%string None
      else
        match w_http w with
        | HCancelled => (DCancel, s)
        | HRaise name => fail ("HTTP request failed: " +:+ name) None
        | HStatus code =>
            if is_success code then
              (DReturn (mkDispatch sid kind "completed" None (Some (str_of_Z code)) None),
               record t sid "completed" None s)
            else fail ("HTTP " +:+ str_of_Z code) (Some (str_of_Z code))
        end
  | _ => (DRaise (OtherError "object has no attribute 'upper'"), s)
  end.

(** The body of the [try]; a payload that is no dict has no [get]. *)
Definition dispatch_body (now : string) (t : Z) (w : world) (sc : schedule * pyval) (s : dstate)
    : dispatch_end * dstate :=
  let '(row, payload) := sc in
  let sid := schedule_id row in
  let kind := sc_kind row in
  let no_get := (DRaise (OtherError "object has no attribute 'get'"), s) in
  if String.eqb kind "run" then
    match payload with VDict p => dispatch_run now t w sid kind p s | _ => no_get end
  else if String.eqb kind "brief" then dispatch_brief t w sid kind s
  else if String.eqb kind "app_callback" then
    match payload with VDict p => dispatch_callback t w sid kind p s | _ => no_get end
  else
    let error_msg := "Unknown schedule kind: " +:+ kind in
    (DReturn (mkDispatch sid kind "error" None None (Some error_msg)), record t sid "error" (Some error_msg) s).

(** [None]: the cancellation is raised again. *)
Definition dispatch_schedule (now : string) (t : Z) (w : world) (sc : schedule * pyval) (s : dstate)
    : option ScheduleDispatchResult * dstate :=
  let sid := schedule_id sc.1 in
  match dispatch_body now t w sc s with
  | (DReturn r, s') => (Some r, s')
  | (DRaise e, s') =>
      (Some (mkDispatch sid (sc_kind sc.1) "error" None None (Some (exn_msg e))),
       record t sid "error" (Some (exn_msg e)) s')
  | (DCancel, s') => (None, record t sid "error" (Some "Scheduler shutdown"%string) s')
  end.

(** ** The service *)
Definition enabled_value (env : option string) : bool :=
  mem_str (lower (default "true"%string env)) ["true"; "1"; "yes"; "on"].

Record service := mkService { running : bool; child_tasks : list (schedule * pyval) }.
Definition new_service : service := mkService false [].

Definition start (env : option string) (v : service) : service :=
  if running v then v else if negb (enabled_value env) then v else mkService true (child_tasks v).

Definition capacity (v : service) : Z := Z.max 0 (10 - Z.of_nat (length (child_tasks v))).

Definition tick `{Cron} (now : Z) (v : service) (rows : list schedule) : service * list schedule :=
  if negb (running v) then (v, rows)
  else if capacity v <=? 0 then (v, rows)
  else match claim_due_schedules now (capacity v) rows with
       | Ok (claimed, rows') => (mkService true (child_tasks v ++ claimed), rows')
       | Raise _ => (v, rows)
       end.

(** A child task that ends is discarded; a stop waits for all of them. *)
Definition child_done (i : nat) (v : service) : service := mkService (running v) (delete i (child_tasks v)).
Definition stop (v : service) : service := mkService false [].

(** ** Dispatch records its result *)
Definition recorded (sid st : string) (error : option string) (s : dstate) : Prop :=
  ∀ row, to_map schedule_id (dsched s) !! sid = Some row → last_status row = Some st ∧ last_error row = error.

Lemma record_recorded now sid st error s : recorded sid st error (record now sid st error s).
Proof.
  intros row. unfold record, record_schedule_result. cbn [dsched]. rewrite to_map_update by done.
  rewrite lookup_alter_eq. by intros (r & _ & ->)%fmap_Some.
Qed.

(** A dispatch writes to its own row, and there only the result. *)
Definition result_only (sid : string) (rows rows' : list schedule) : Prop :=
  rows' = rows ∨ ∃ now st error, rows' = record_schedule_result now sid st error rows.

Lemma result_only_frame sid rows rows' : result_only sid rows rows' →
  (∀ k, k ≠ sid → to_map schedule_id rows' !! k = to_map schedule_id rows !! k) ∧
  map sc_next_run_at rows' = map sc_next_run_at rows ∧ map enabled rows' = map enabled rows.
Proof.
  intros [->|(now & st & error & ->)]; [done|]. unfold record_schedule_result. split_and!.
  - intros k Hk. by rewrite to_map_update, lookup_alter_ne.
  - unfold update_where. rewrite map_map. apply map_ext. intros r. by destruct (has_key _ _ r).
  - unfold update_where. rewrite map_map. apply map_ext. intros r. by destruct (has_key _ _ r).
Qed.

(** The recording of a body: a result it returns is in the row; otherwise the
    table is as it was. *)
Definition body_records (sid : string) (s : dstate) (o : dispatch_end * dstate) : Prop :=
  match o with
  | (DReturn r, s') =>
      dr_schedule_id r = sid ∧ recorded sid (dr_status r) (dr_error r) s' ∧ result_only sid (dsched s) (dsched s')
  | (_, s') => dsched s' = dsched s
  end.

Lemma body_records_intro t sid r s s0 : dsched s0 = dsched s → dr_schedule_id r = sid →
  body_records sid s (DReturn r, record t sid (dr_status r) (dr_error r) s0).
Proof.
  intros He Hr. split_and!; [done|apply record_recorded|]. right. rewrite <-He. by eexists _, _, _.
Qed.

Lemma dispatch_body_records now t w sc s : body_records (schedule_id sc.1) s (dispatch_body now t w sc s).
Proof.
  destruct sc as [row payload]. cbn [fst]. unfold dispatch_body. cbn zeta.
  assert (∀ k st run ref error s0, dsched s0 = dsched s →
    body_records (schedule_id row) s
      (DReturn (mkDispatch (schedule_id row) k st run ref error), record t (schedule_id row) st error s0)) as Hrec.
  { intros. by apply (body_records_intro t _ (mkDispatch (schedule_id row) k st run ref error)). }
  destruct (String.eqb (sc_kind row) "run").
  { destruct payload; try reflexivity. unfold dispatch_run. cbn zeta.
    destruct (new_run _ _ _ _ _) as [[run L]|e]; [|reflexivity].
    destruct (run_job _ _ _ _) as [[] r1]; [|reflexivity..]. by apply Hrec. }
  destruct (String.eqb (sc_kind row) "brief").
  { unfold dispatch_brief. destruct (w_brief w) as [[] ref error| |]; try reflexivity; by apply Hrec. }
  destruct (String.eqb (sc_kind row) "app_callback"); [|by apply Hrec].
  destruct payload; try reflexivity. unfold dispatch_callback. cbn zeta.
  destruct (default _ _); try reflexivity. destruct (negb _); [by apply Hrec|].
  destruct (w_http w) as [code| |]; [destruct (is_success code)| |reflexivity]; by apply Hrec.
Qed.

(** A run that starts is settled: its row is terminal or interrupted, and the
    dispatch reports the status of the row. *)
Definition run_settled (run : string) (st : string) (s : dstate) : Prop :=
  ∃ row, get_run run (led (drun s)) = Some row ∧ status row = st ∧
         (st = "interrupted" ∨ terminal st = true).

Lemma create_run_get uuid now th ws task wsid by_ kind p L run L' :
  create_run uuid now th ws task wsid by_ kind p L = Ok (run, L') →
  run = uuid ∧ (∃ row, get_run run L' = Some row) ∧ lstep L L'.
Proof.
  intros H. pose proof H as Hs. unfold create_run in H. cbn zeta in H.
  destruct (select_one (has_key run_id uuid) (runs L)) eqn:E; [done|]. injection H as <- <-.
  split; [done|]. split; [|by eapply step_create].
  unfold get_run. cbn [runs]. eexists. rewrite <-to_map_select, to_map_snoc; cbn [run_id].
  - apply lookup_insert_eq.
  - by rewrite to_map_select.
Qed.

Lemma execute_run_final obs now r events fin s row : ledger_ok (led s) → get_run r (led s) = Some row →
  ∃ e s' row', execute_run obs now r events fin s = (e, s') ∧ get_run r (led s') = Some row' ∧
    (status row' = "interrupted" ∨ terminal (status row') = true).
Proof.
  intros Hok Hrow.
  destruct (execute_settled obs now r events fin s row Hok Hrow) as (s2 & s3 & Hne & He & Hg & Hset & Heq).
  pose proof (settled_final now r _ _ s s2 s3 Hne He Hg Hset) as ((row' & Hr' & Hst & _) & _).
  eexists _, _, row'. split; [exact Heq|]. split; [exact Hr'|]. rewrite Hst. apply outcome_cases.
Qed.

Lemma dispatch_run_settled now t w sid kind p s run r s' : ledger_ok (led (drun s)) →
  dispatch_run now t w sid kind p s = (DReturn r, s') → dr_run_id r = Some run →
  run_settled run (dr_status r) s'.
Proof.
  intros Hok. unfold dispatch_run. destruct (new_run _ _ _ _ _) as [[run' L]|e] eqn:E; [|done].
  apply res_bind_ok in E as (ws & _ & (task & _ & Hc)%res_bind_ok).
  apply create_run_get in Hc as (-> & (row & Hrow) & Hs).
  assert (ledger_ok L) as HokL by (by eapply lstep_ok).
  set (r0 := on_led (λ _, L) (drun s)).
  destruct (execute_run_final (w_obs w) now (w_run_id w) (w_events w) (w_graph w) r0 row HokL Hrow)
    as (e & s1 & row' & Heq & Hr' & Hst).
  unfold run_job. rewrite Heq. destruct e.
  - intros [= <- <-] [= <-]. cbn [dr_status]. rewrite Hr'. by exists row'.
  - by destruct (append_event _ _ _ _ _) as [[n L']|].
  - done.
Qed.

(** C20. Whatever becomes of the work, a dispatch records what it reports in
    the row of its schedule: the row's status and error are those of the
    result, or the shutdown when it was cancelled.  It touches no other row,
    reschedules nothing, and a run it reports is in the ledger under the status
    reported, interrupted or at an end. *)
Theorem dispatch_recorded now t w sc s : ledger_ok (led (drun s)) →
  let sid := schedule_id sc.1 in
  let '(r, s') := dispatch_schedule now t w sc s in
  match r with
  | Some r => dr_schedule_id r = sid ∧ recorded sid (dr_status r) (dr_error r) s' ∧
              (∀ run, dr_run_id r = Some run → run_settled run (dr_status r) s')
  | None => recorded sid "error" (Some "Scheduler shutdown"%string) s'
  end ∧
  (∀ k, k ≠ sid → to_map schedule_id (dsched s') !! k = to_map schedule_id (dsched s) !! k) ∧
  map sc_next_run_at (dsched s') = map sc_next_run_at (dsched s) ∧
  map enabled (dsched s') = map enabled (dsched s).
Proof.
  intros Hok sid. unfold dispatch_schedule. fold sid.
  pose proof (dispatch_body_records now t w sc s) as Hb. fold sid in Hb.
  destruct (dispatch_body now t w sc s) as [[r| |e] s'] eqn:E; cbn [body_records] in Hb.
  - destruct Hb as (Hid & Hrec & Hres). split; [|by apply result_only_frame].
    split_and!; [done..|]. intros run Hrun. destruct sc as [row payload]. unfold dispatch_body in E. cbn zeta in E.
    destruct (String.eqb (sc_kind row) "run").
    { destruct payload; try done. by eapply dispatch_run_settled. }
    exfalso. unfold dispatch_brief, dispatch_callback in E. cbn zeta in E.
    repeat case_match; simplify_eq/=.
  - split; [apply record_recorded|]. apply result_only_frame. right. rewrite <-Hb. by eexists _, _, _.
  - split; [split_and!; [done|apply record_recorded|done]|].
    apply result_only_frame. right. rewrite <-Hb. by eexists _, _, _.
Qed.

Definition demo_dstate : dstate := mkD demo_rstate [demo_row "a" 500; demo_row "b" 400].
Definition demo_world : world :=
  mkWorld "r2" "t2" true [demo_event] (GDone (VDict []) None) BCancelled HCancelled (λ _, ""%string).
Lemma dispatch_recorded_witness :
  let '(r, s') := dispatch_schedule "now" 1000 demo_world (demo_row "a" 500, VDict [("task", VStr "t")]) demo_dstate in
  ∃ r0, r = Some r0 ∧ dr_status r0 = "completed" ∧ recorded "a" (dr_status r0) (dr_error r0) s'.
Proof.
  pose proof (dispatch_recorded "now" 1000 demo_world (demo_row "a" 500, VDict [("task", VStr "t")]) demo_dstate) as T.
  assert (ledger_ok (led (drun demo_dstate))) as Hok by (split; [repeat constructor; set_solver|done|done]).
  specialize (T Hok). cbv zeta in T.
  assert ((dispatch_schedule "now" 1000 demo_world (demo_row "a" 500, VDict [("task", VStr "t")]) demo_dstate).1
    = Some (mkDispatch "a" "run" "completed" (Some "r2"%string) None None)) as E by reflexivity.
  destruct (dispatch_schedule _ _ _ _ _) as [r s']. cbn [fst] in E. subst r.
  destruct T as ((_ & H2 & _) & _). eexists. split; [done|]. split; [done|exact H2].
Defined.

(** ** Several services on one table

    Every process that serves runs a service of its own on the shared table,
    and the API and the command line edit the table between the ticks.  The
    log lists the occurrences dispatched: a schedule and the time it was due.
    The clocks of the ticks are arbitrary. *)
Record system := mkSystem { table : list schedule; services : list service; log : list (string * Z) }.

Definition occurrence (sc : schedule * pyval) : string * Z := (schedule_id sc.1, sc_next_run_at sc.1).
(** The tasks a tick added. *)
Definition spawned (v v' : service) : list (schedule * pyval) := drop (length (child_tasks v)) (child_tasks v').

Section system.
Context `{Cron}.

Inductive sstep : system → system → Prop :=
  | sys_create uuid now n k tk tv tz p on rows' s :
      uuid ∉ (log s).*1 →   (* a fresh uuid *)
      create_schedule uuid now n k tk tv tz p on (table s) = Ok (uuid, rows') →
      sstep s (mkSystem rows' (services s) (log s))
  | sys_remove sid s : sstep s (mkSystem (remove_schedule sid (table s)).2 (services s) (log s))
  | sys_enable now sid on s :
      sstep s (mkSystem (set_schedule_enabled now sid on (table s)).2 (services s) (log s))
  | sys_record now sid st e s :
      sstep s (mkSystem (record_schedule_result now sid st e (table s)) (services s) (log s))
  | sys_start i env v s : services s !! i = Some v →
      sstep s (mkSystem (table s) (<[i := start env v]> (services s)) (log s))
  | sys_tick i now v v' rows' s : services s !! i = Some v → tick now v (table s) = (v', rows') →
      sstep s (mkSystem rows' (<[i := v']> (services s)) (log s ++ map occurrence (spawned v v')))
  | sys_done i j v s : services s !! i = Some v →
      sstep s (mkSystem (table s) (<[i := child_done j v]> (services s)) (log s))
  | sys_stop i v s : services s !! i = Some v →
      sstep s (mkSystem (table s) (<[i := stop v]> (services s)) (log s)).

Definition boot (n : nat) : system := mkSystem [] (replicate n new_service) [].

(** An occurrence dispatched lies before the next run of its schedule. *)
Definition behind (rows : list schedule) (o : string * Z) : Prop :=
  ∀ row, to_map schedule_id rows !! o.1 = Some row → o.2 < sc_next_run_at row.
Record system_ok (s : system) : Prop := {
  ok_keyed : keyed schedule_id (table s);
  ok_tasks : Forall (λ v, (length (child_tasks v) ≤ 10)%nat) (services s);
  ok_once : NoDup (log s);
  ok_behind : Forall (behind (table s)) (log s) }.

Lemma behind_update sid f rows : (∀ r, schedule_id (f r) = schedule_id r) →
  (∀ r, sc_next_run_at (f r) = sc_next_run_at r) →
  ∀ o, behind rows o → behind (update_where (has_key schedule_id sid) f rows) o.
Proof.
  intros Hf Hn o Ho row. rewrite to_map_update by done. destruct (decide (o.1 = sid)) as [E|].
  - rewrite E, lookup_alter_eq. intros (r & Hr & ->)%fmap_Some. rewrite Hn. apply Ho. by rewrite E.
  - rewrite lookup_alter_ne by done. apply Ho.
Qed.

Lemma tick_cases now v rows v' rows' : tick now v rows = (v', rows') →
  (v' = v ∧ rows' = rows) ∨
  ∃ cl, claim_due_schedules now (capacity v) rows = Ok (cl, rows') ∧ 0 < capacity v ∧
        running v = true ∧ child_tasks v' = child_tasks v ++ cl.
Proof.
  unfold tick. destruct (running v); [|intros [= <- <-]; by left]. cbn [negb].
  destruct (Z.leb_spec (capacity v) 0); [intros [= <- <-]; by left|].
  destruct (claim_due_schedules _ _ _) as [[cl r]|e]; [|intros [= <- <-]; by left].
  intros [= <- <-]. right. by exists cl.
Qed.

Context (Hcron : cron_strict).

Lemma claim_behind now lim rows cl rows' o : keyed schedule_id rows →
  claim_due_schedules now lim rows = Ok (cl, rows') →
  behind rows o ∨ o ∈ map occurrence cl → behind rows' o.
Proof.
  intros Hk Hc Ho row Hrow. pose proof (due_rows_nodup now lim rows Hk) as Hnd.
  destruct (claim_loop_spec Hcron now _ _ _ _ Hk Hnd Hc) as (H1 & _ & H3 & _). rewrite <-H1 in H3.
  destruct (decide (o.1 ∈ map schedule_id (cl.*1))) as [Hin|Hni].
  - apply list_elem_of_In, in_map_iff in Hin as (r & Hid & Hr%list_elem_of_In).
    destruct (claimed_row Hcron now lim rows cl rows' r Hk Hc Hr) as (Hin & _ & Hdue & next & Hn & Hm).
    rewrite <-Hid, Hm in Hrow. injection Hrow as <-. cbn [sc_next_run_at advance].
    destruct Ho as [Ho|Ho].
    + specialize (Ho r). rewrite <-Hid, to_map_self in Ho by done. specialize (Ho eq_refl). lia.
    + apply list_elem_of_In, in_map_iff in Ho as ([x p] & <- & Hx%list_elem_of_In). cbn in Hid |- *.
      assert (x ∈ cl.*1) as Hx1 by (apply list_elem_of_fmap; by exists (x, p)).
      destruct (claimed_row Hcron now lim rows cl rows' x Hk Hc Hx1) as (_ & _ & Hdx & _). lia.
  - destruct Ho as [Ho|Ho]; [apply Ho; by rewrite <-H3|]. exfalso. apply Hni.
    apply list_elem_of_In, in_map_iff in Ho as ([x p] & <- & Hx%list_elem_of_In). cbn.
    apply list_elem_of_In, in_map, list_elem_of_In, list_elem_of_fmap. by exists (x, p).
Qed.

Lemma claim_fresh now lim rows cl rows' o : keyed schedule_id rows →
  claim_due_schedules now lim rows = Ok (cl, rows') → behind rows o → o ∉ map occurrence cl.
Proof.
  intros Hk Hc Ho Hin. apply list_elem_of_In, in_map_iff in Hin as ([x p] & <- & Hx%list_elem_of_In).
  assert (x ∈ cl.*1) as Hx1 by (apply list_elem_of_fmap; by exists (x, p)).
  destruct (claimed_row Hcron now lim rows cl rows' x Hk Hc Hx1) as (Hin & _).
  specialize (Ho x). cbn in Ho. rewrite to_map_self in Ho by done. specialize (Ho eq_refl). lia.
Qed.

Lemma occurrence_nodup cl : NoDup (map schedule_id (cl.*1)) → NoDup (map occurrence cl).
Proof.
  intros Hn. apply (NoDup_fmap_1 fst). replace ((map occurrence cl).*1) with (map schedule_id (cl.*1)); [done|].
  induction cl as [|c cl IH]; [done|]. cbn. f_equal. apply IH. cbn in Hn. by apply NoDup_cons in Hn as [_ ?].
Qed.

Lemma tick_ok now i v v' rows' s : services s !! i = Some v → tick now v (table s) = (v', rows') →
  system_ok s → system_ok (mkSystem rows' (<[i := v']> (services s)) (log s ++ map occurrence (spawned v v'))).
Proof.
  intros Hv Ht [Hk Hl Ho Hb]. pose proof (Forall_lookup_1 _ _ _ _ Hl Hv) as Hlv. simpl in Hlv.
  apply tick_cases in Ht as [[-> ->]|(cl & Hc & Hcap & _ & Hch)].
  { unfold spawned. rewrite drop_all. simpl. rewrite app_nil_r, list_insert_id by done. by split. }
  assert (spawned v v' = cl) as -> by (unfold spawned; rewrite Hch; apply drop_app_length).
  assert (cl.*1 = due_rows now (capacity v) (table s)) as H1.
  { by eapply (claim_loop_spec Hcron) in Hc as (? & _); [| |apply due_rows_nodup]. }
  split; cbn [table services log].
  - by eapply claim_keyed.
  - apply Forall_insert; [done|]. rewrite Hch, length_app.
    assert (Z.of_nat (length cl) ≤ capacity v) as Hlen.
    { replace (length cl) with (length (cl.*1)) by apply length_fmap. rewrite H1. apply due_rows_length. lia. }
    unfold capacity in *. lia.
  - apply NoDup_app. split_and!; [done| |].
    + intros o Hin. eapply claim_fresh; [done..|]. by eapply Forall_forall in Hb.
    + apply occurrence_nodup. rewrite H1. by apply due_rows_nodup.
  - apply Forall_app. split; apply Forall_forall; intros o Hin; eapply claim_behind; try done; [left|by right].
    by eapply Forall_forall in Hb.
Qed.

Lemma sstep_ok s s' : sstep s s' → system_ok s → system_ok s'.
Proof.
  intros Hs Hok. pose proof Hok as [Hk Hl Ho Hb]. destruct Hs; cbn [table services log] in *.
  - apply create_schedule_keyed in H1 as [Hk' (r & <- & ->)]; [|done]. split; cbn; try done.
    apply Forall_forall. intros o Hin row. rewrite to_map_snoc, lookup_insert_ne.
    + by eapply Forall_forall in Hb; [apply Hb|].
    + intros E. apply H0. apply list_elem_of_fmap. by exists o.
    + unfold keyed in Hk'. rewrite map_app in Hk'. apply NoDup_app in Hk' as (_ & Hd & _).
      rewrite to_map_select. apply select_one_None. intros x Hx. unfold has_key.
      apply String.eqb_neq. intros E. eapply (Hd (schedule_id r)); [|by left].
      rewrite <-E. by apply list_elem_of_In, in_map, list_elem_of_In.
  - split; cbn; try done; [by apply keyed_filter|]. apply Forall_forall. intros o Hin row.
    rewrite to_map_delete. intros [_ Hr]%lookup_delete_Some. by eapply Forall_forall in Hb; [apply Hb|].
  - split; cbn; try done; [by apply keyed_update|]. eapply Forall_impl; [exact Hb|]. by apply behind_update.
  - split; cbn; try done; [by apply keyed_update|]. eapply Forall_impl; [exact Hb|]. by apply behind_update.
  - split; cbn; try done. apply Forall_insert; [done|]. eapply Forall_lookup_1 in Hl; [|done].
    unfold start. by repeat case_match.
  - by eapply tick_ok.
  - split; cbn; try done. apply Forall_insert; [done|]. eapply Forall_lookup_1 in Hl; [|done]. cbn in *.
    pose proof (sublist_length _ _ (sublist_delete (child_tasks v) j)). lia.
  - split; cbn; try done. apply Forall_insert; [done|]. cbn. lia.
Qed.

(** C26. However many services share the table, and whatever their clocks and
    the edits made between their ticks, no occurrence of a schedule is ever
    dispatched twice, and no service has more than ten dispatches at work. *)
Theorem occurrence_once n s : rtc sstep (boot n) s →
  NoDup (log s) ∧ Forall (λ v, (length (child_tasks v) ≤ 10)%nat) (services s).
Proof.
  intros Hr. assert (system_ok s) as [_ H1 H2 _]; [|done].
  assert (system_ok (boot n)) as Hb.
  { split; cbn; [apply NoDup_nil_2| |apply NoDup_nil_2|done]. apply Forall_replicate. cbn. lia. }
  induction Hr as [|a b c Hab _ IH]; [done|]. apply IH. by eapply sstep_ok.
Qed.
End system.

(** A schedule every five minutes, whose claim is nine minutes late. *)
Lemma occurrence_once_witness :
  ∃ s, rtc (sstep (H:=minutely)) (boot 2) s ∧ log s = [("a"%string, 300 * usec)] ∧ NoDup (log s).
Proof.
  assert (∃ s, rtc (sstep (H:=minutely)) (boot 2) s ∧ log s = [("a"%string, 300 * usec)]) as (s & Hr & Hl).
  { eexists. split.
    - eapply rtc_l; [apply (sys_create (H:=minutely) "a" 0 "n" "brief" "interval" "5m" "UTC" [] true);
        [apply not_elem_of_nil|reflexivity]|].
      eapply rtc_l; [apply (sys_start 0 None new_service); reflexivity|].
      eapply rtc_l; [apply (sys_start 1 None new_service); reflexivity|].
      eapply rtc_l; [apply (sys_tick 0 (840 * usec) (mkService true [])); reflexivity|].
      eapply rtc_l; [apply (sys_tick 1 (840 * usec) (mkService true [])); reflexivity|]. apply rtc_refl.
    - reflexivity. }
  exists s. split; [done|]. split; [done|].
  apply (occurrence_once (H:=minutely) minutely_strict 2 s Hr).
Defined.
