(* ===== verification/RunApi.v ===== *)
(** * The run endpoints (agent_os/server/api.py)

    Creating, approving, cancelling and watching a run, and the asyncio tasks
    that execute runs.  The event loop runs one piece of synchronous code at a
    time; [step] interleaves the endpoints with the pieces of [execute_run]
    between two awaits. *)
From S2P Require Export RunExecutor.

Inductive response :=
  | HTTPException (status_code : Z) (detail : string)
  | RunStatus (run_id st : string).
#[export] Instance response_eq_dec : EqDecision response.
Proof. solve_decision. Defined.

(** Where a task stands: created, streaming the graph, leaving the
    [async with] after its outcome is recorded, or done but still in
    ACTIVE_RUN_TASKS (a task cancelled before it started never runs its
    [finally]). *)
Inductive phase := Pending | Streaming | Ending (preserve : bool) | Done.
#[export] Instance phase_eq_dec : EqDecision phase.
Proof. solve_decision. Defined.

Record task := mkTask {
  t_phase : phase;
  t_cancel : bool;                    (* Task.cancel() was called *)
  t_feedback : option string }.       (* resume_feedback *)

Record server := mkServer {
  rs : rstate;
  tasks : gmap string task }.         (* ACTIVE_RUN_TASKS *)

Definition on_rs (f : rstate → rstate) (v : server) : server := mkServer (f (rs v)) (tasks v).
Definition task_done (t : task) : bool := bool_decide (t_phase t = Done).

(** [_start_run_task]: nothing happens while an earlier task is not done. *)
Definition start_run_task (r : string) (feedback : option string) (v : server) : server :=
  match tasks v !! r with
  | Some t => if task_done t then mkServer (rs v) (<[r := mkTask Pending false feedback]> (tasks v)) else v
  | None => mkServer (rs v) (<[r := mkTask Pending false feedback]> (tasks v))
  end.

(** [allowed] are the strategies of the task's kind, [workspace] what
    [resolve_workspace_root] returns. *)
Definition create_run_endpoint (allowed : list string) (strategy_id : option string)
    (workspace : res string) (uuid now thread task : string) (p : Principal) (v : server)
    : res (response * server) :=
  if match strategy_id with Some s => negb (mem_str s allowed) | None => false end then
    Ok (HTTPException 422 "Strategy is not allowed for this task kind", v)
  else
    match workspace with
    | Raise (ValueError msg) => Ok (HTTPException 422 msg, v)
    | Raise e => Raise e
    | Ok ws =>
        '(r, L) ← create_run uuid now thread (Some ws) (Some task) (Some ws) None None (Some p)
                    (led (rs v));
        let v1 := on_rs (λ s, emit "run.created" r "queued" (on_led (λ _, L) s)) v in
        Ok (RunStatus r "queued", start_run_task r None v1)
    end.

Definition not_found : response := HTTPException 404 "Run not found".
Definition not_interrupted : response := HTTPException 409 "Run is not interrupted".
Definition already_terminal : response := HTTPException 409 "Run is already terminal".

Definition approve_run_endpoint (now r : string) (feedback : option string) (p : Principal)
    (v : server) : response * server :=
  match get_run r (led (rs v)) with
  | None => (not_found, v)
  | Some run =>
      if negb (String.eqb (status run) "interrupted") then
        (if String.eqb (status run) "running" then RunStatus r "running" else not_interrupted, v)
      else
        let '(ok, L) := record_approval_and_transition now r "approved" (pr_id p) (pr_kind p)
                          (pr_on_behalf_of p) (nonempty feedback) "interrupted" "running" None false
                          (led (rs v)) in
        if ok then
          let v1 := on_rs (λ s, emit "run.approved" r "running" (on_led (λ _, L) s)) v in
          (RunStatus r "running", start_run_task r (Some (default ""%string feedback)) v1)
        else
          (match get_run r L with
           | Some latest => if String.eqb (status latest) "running" then RunStatus r "running"
                            else not_interrupted
           | None => not_interrupted
           end, on_rs (on_led (λ _, L)) v)
  end.

Definition request_cancel (r : string) (v : server) : server :=
  match tasks v !! r with
  | Some t => if task_done t then v
              else mkServer (rs v) (<[r := mkTask (t_phase t) true (t_feedback t)]> (tasks v))
  | None => v
  end.

Definition cancel_run_endpoint (now r : string) (p : Principal) (v : server) : response * server :=
  match get_run r (led (rs v)) with
  | None => (not_found, v)
  | Some run =>
      if terminal (status run) then (already_terminal, v)
      else
        let '(ok, L) := record_cancellation_and_transition now r (pr_id p) (pr_kind p)
                          (pr_on_behalf_of p) None (led (rs v)) in
        let v1 := on_rs (on_led (λ _, L)) v in
        if ok then
          let v2 := request_cancel r v1 in
          let L2 := match append_event now r "status" (status_payload "cancelled") L with
                    | Ok (_, L') => L' | Raise _ => L end in
          (RunStatus r "cancelled",
           on_rs (λ s, RunExecutor.clear_session r (emit "run.cancelled" r "cancelled" (on_led (λ _, L2) s))) v2)
        else (match get_run r L with None => not_found | Some _ => already_terminal end, v1)
  end.

(** ** The pieces of [execute_run] between awaits *)
Definition set_phase (r : string) (ph : phase) (v : server) : server :=
  match tasks v !! r with
  | Some t => mkServer (rs v) (<[r := mkTask ph (t_cancel t) (t_feedback t)]> (tasks v))
  | None => v
  end.
Definition pop_task (r : string) (v : server) : server := mkServer (rs v) (delete r (tasks v)).

(** Up to the first await: the run is looked up and marked running. *)
Definition begin_run (obs : bool) (now r : string) (v : server) : server :=
  match get_run r (led (rs v)) with
  | None =>
      pop_task r (on_rs (λ s, match on_error obs now r (ValueError ("Run " +:+ r +:+ " does not exist")) s with
                              | Ok s' => s' | Raise _ => s end) v)
  | Some _ => set_phase r Streaming (on_rs (on_led (set_status now r "running" None false)) v)
  end.

(** An event of the stream; one that cannot be recorded ends the run as an
    error. *)
Definition event_run (obs : bool) (now r : string) (e : pydict) (v : server) : server :=
  match append_stream_event now r e (led (rs v)) with
  | Ok L => on_rs (on_led (λ _, L)) v
  | Raise x => set_phase r (Ending false)
                 (on_rs (λ s, match on_error obs now r x s with Ok s' => s' | Raise _ => s end) v)
  end.

(** The stream is over: the outcome is recorded. *)
Definition finish_run (obs : bool) (now r : string) (fin : graph_end) (v : server) : server :=
  let fail x := set_phase r (Ending false)
    (on_rs (λ s, match on_error obs now r x s with Ok s' => s' | Raise _ => s end) v) in
  match fin with
  | GDone values prompt =>
      match finish obs now r values prompt (rs v) with
      | Ok (preserve, s) => set_phase r (Ending preserve) (on_rs (λ _, s) v)
      | Raise x => fail x
      end
  | GFail x => fail x
  | GCancelled => v
  end.

(** The cancellation reaches the task. *)
Definition cancelled_run (now r : string) (v : server) : server :=
  pop_task r (on_rs (λ s, RunExecutor.clear_session r
    (match on_cancelled now r s with Ok s' => s' | Raise _ => s end)) v).

Inductive step : server → server → Prop :=
  | s_create al sg w uuid now th t p v x v' :
      create_run_endpoint al sg w uuid now th t p v = Ok (x, v') → step v v'
  | s_approve now r f p v x v' : approve_run_endpoint now r f p v = (x, v') → step v v'
  | s_cancel now r p v x v' : cancel_run_endpoint now r p v = (x, v') → step v v'
  | s_shutdown r v : step v (request_cancel r v)
  | t_begin obs now r v f : tasks v !! r = Some (mkTask Pending false f) → step v (begin_run obs now r v)
  | t_begin_cancelled r v f : tasks v !! r = Some (mkTask Pending true f) → step v (set_phase r Done v)
  | t_event obs now r e v f :
      tasks v !! r = Some (mkTask Streaming false f) → step v (event_run obs now r e v)
  | t_finish obs now r fin v f :
      tasks v !! r = Some (mkTask Streaming false f) → fin ≠ GCancelled →
      step v (finish_run obs now r fin v)
  | t_cancelled now r v t :
      tasks v !! r = Some t → t_cancel t = true → (t_phase t = Streaming ∨ ∃ b, t_phase t = Ending b) →
      step v (cancelled_run now r v)
  | t_exit r v b f :
      tasks v !! r = Some (mkTask (Ending b) false f) →
      step v (pop_task r (if b then v else on_rs (RunExecutor.clear_session r) v)).

(** ** Watching a run: the server-sent events *)
Inductive frame := Data (e : event) | EndOfStream.

Definition last_seq (seen : Z) (es : list event) : Z :=
  match last es with Some e => de_seq e | None => seen end.

(** One round of the loop: the listing is read from the ledger [L], the run's
    status from the ledger [L'] after the frames were sent. *)
Definition sse_round (r : string) (seen : Z) (L L' : ledger) : res (list frame * option Z) :=
  es ← list_events r seen L;
  let over := match get_run r L' with Some run => terminal (status run) | None => true end in
  Ok (map Data es ++ (if over then [EndOfStream] else []),
      if over then None else Some (last_seq seen es)).

(** The generator on the ledgers it reads; it stops when they run out. *)
Fixpoint sse_loop (r : string) (seen : Z) (reads : list (ledger * ledger)) : res (list frame) :=
  match reads with
  | [] => Ok []
  | (L, L') :: reads' =>
      '(fs, next) ← sse_round r seen L L';
      match next with
      | None => Ok fs
      | Some seen' => fs' ← sse_loop r seen' reads'; Ok (fs ++ fs')
      end
  end.

Definition event_stream (r : string) (after : Z) (L0 : ledger) (reads : list (ledger * ledger))
    : res (list frame) :=
  es ← list_events r after L0;
  fs ← sse_loop r (last_seq after es) reads;
  Ok (map Data es ++ fs).

(** ** Terminal statuses are final *)
Definition status_of (r : string) (v : server) : option string := run_status r (led (rs v)).

(** Every task belongs to a run of the ledger, and a task whose run is over is
    on its way out. *)
Definition leaving (t : task) : bool :=
  t_cancel t || match t_phase t with Ending _ | Done => true | _ => false end.
Record server_ok (v : server) : Prop := {
  so_led : ledger_ok (led (rs v));
  so_tasks r t : tasks v !! r = Some t →
    ∃ s, status_of r v = Some s ∧ (terminal s = true → leaving t = true) }.

(** [v'] differs from [v] by run [r] only, and not in a final status. *)
Record touches (r : string) (v v' : server) : Prop := {
  tc_led : ledger_ok (led (rs v'));
  tc_runs r' : r' ≠ r → status_of r' v' = status_of r' v;
  tc_tasks r' : r' ≠ r → tasks v' !! r' = tasks v !! r';
  tc_final s : status_of r v = Some s → terminal s = true → status_of r v' = Some s;
  tc_task t : tasks v' !! r = Some t →
    ∃ s, status_of r v' = Some s ∧ (terminal s = true → leaving t = true) }.

Lemma touches_ok r v v' : server_ok v → touches r v v' → server_ok v'.
Proof.
  intros Hv Ht. split; [apply Ht|]. intros r' t H. destruct (decide (r' = r)) as [->|Hne].
  - by eapply tc_task.
  - rewrite (tc_tasks _ _ _ Ht) in H by done. apply (so_tasks _ Hv) in H as (s & Hs & Hl).
    exists s. by rewrite (tc_runs _ _ _ Ht).
Qed.

Lemma touches_final r v v' r' s : touches r v v' → status_of r' v = Some s → terminal s = true →
  status_of r' v' = Some s.
Proof.
  intros Ht Hs Hf. destruct (decide (r' = r)) as [->|Hne]; [by eapply tc_final|].
  by rewrite (tc_runs _ _ _ Ht).
Qed.

(** A step that leaves the statuses alone. *)
Lemma touches_same r v v' : ledger_ok (led (rs v')) → (∀ r', status_of r' v' = status_of r' v) →
  (∀ r', r' ≠ r → tasks v' !! r' = tasks v !! r') →
  (∀ t, tasks v' !! r = Some t →
     ∃ s, status_of r v' = Some s ∧ (terminal s = true → leaving t = true)) →
  touches r v v'.
Proof. intros H1 H2 H3 H4. split; auto. intros s Hs _. by rewrite H2. Qed.

(** A step of a task that records status [st] for its run, which was not over. *)
Lemma touches_settled now r ended st v s' v' s0 :
  status_of r v = Some s0 → terminal s0 = false → settled now r ended st (rs v) s' →
  led (rs v') = led s' → (∀ r', r' ≠ r → tasks v' !! r' = tasks v !! r') →
  (∀ t, tasks v' !! r = Some t → leaving t = true ∨ terminal st = false) →
  touches r v v'.
Proof.
  intros Hs0 Ht0 ((row' & Hrow & Hst & _) & _ & Hne & Hok & _) Hl Htk Htask.
  assert (status_of r v' = Some st) as Hst'.
  { unfold status_of, run_status. by rewrite Hl, Hrow, <-Hst. }
  split.
  - by rewrite Hl.
  - intros r' Hr'. unfold status_of, run_status. by rewrite Hl, Hne.
  - done.
  - intros s Hs Hf. congruence.
  - intros t Ht. exists st. split; [done|]. intros Hf. destruct (Htask t Ht); congruence.
Qed.

(** The tasks table after the helpers. *)
Lemma start_run_task_rs r f v : rs (start_run_task r f v) = rs v.
Proof. unfold start_run_task. destruct (tasks v !! r) as [t|]; [by destruct (task_done t)|done]. Qed.
Lemma start_run_task_ne r r' f v : r' ≠ r → tasks (start_run_task r f v) !! r' = tasks v !! r'.
Proof.
  intros Hne. unfold start_run_task. destruct (tasks v !! r) as [t|]; [destruct (task_done t)|]; simpl;
    by rewrite ?lookup_insert_ne.
Qed.
Lemma request_cancel_rs r v : rs (request_cancel r v) = rs v.
Proof. unfold request_cancel. destruct (tasks v !! r) as [t|]; [by destruct (task_done t)|done]. Qed.
Lemma request_cancel_ne r r' v : r' ≠ r → tasks (request_cancel r v) !! r' = tasks v !! r'.
Proof.
  intros Hne. unfold request_cancel. destruct (tasks v !! r) as [t|]; [destruct (task_done t)|]; simpl;
    by rewrite ?lookup_insert_ne.
Qed.
Lemma request_cancel_leaving r v t : tasks (request_cancel r v) !! r = Some t →
  leaving t = true ∧ is_Some (tasks v !! r).
Proof.
  unfold request_cancel. destruct (tasks v !! r) as [t'|] eqn:E; [|by rewrite E].
  unfold task_done. case_bool_decide as Hd; simpl.
  - rewrite E. intros [= <-]. unfold leaving. rewrite Hd. by rewrite orb_true_r.
  - rewrite lookup_insert_eq. intros [= <-]. done.
Qed.
Lemma set_phase_rs r ph v : rs (set_phase r ph v) = rs v.
Proof. unfold set_phase. by destruct (tasks v !! r). Qed.
Lemma set_phase_ne r r' ph v : r' ≠ r → tasks (set_phase r ph v) !! r' = tasks v !! r'.
Proof. intros Hne. unfold set_phase. destruct (tasks v !! r); simpl; by rewrite ?lookup_insert_ne. Qed.
Lemma set_phase_eq r ph v t : tasks (set_phase r ph v) !! r = Some t → t_phase t = ph.
Proof.
  unfold set_phase. destruct (tasks v !! r) eqn:E; simpl; [|by rewrite E].
  rewrite lookup_insert_eq. by intros [= <-].
Qed.

Lemma create_touches al sg w uuid now th t p v x v' : server_ok v →
  create_run_endpoint al sg w uuid now th t p v = Ok (x, v') → touches uuid v v'.
Proof.
  intros Hv. unfold create_run_endpoint. intros H.
  assert (touches uuid v v) as Hrefl by (apply touches_same; try done; [apply Hv|by apply so_tasks]).
  destruct (match sg with Some _ => _ | None => _ end); [by injection H as _ <-|].
  destruct w as [ws|[]]; try done; [|by injection H as _ <-].
  destruct (create_run _ _ _ _ _ _ _ _ _ _) as [[r L]|] eqn:E; [|done]. injection H as _ <-.
  pose proof (step_create _ _ _ _ _ _ _ _ _ _ _ _ E) as Hl.
  unfold create_run in E. destruct (select_one _ _) eqn:En; [done|]. injection E as <- <-.
  assert (∀ r', r' ≠ uuid → get_run r' (led (rs v)) = select_one (has_key run_id r')
            (runs (led (rs v)) ++ [mkRun uuid th (Some ws) (Some ws) "queued" (Some t)
              (Some (pr_id p)) (Some (pr_kind p)) now now None None])) as Hne.
  { intros r' Hr'. unfold get_run. clear -Hr'. induction (runs (led (rs v))) as [|y rows IH]; simpl.
    - unfold has_key. simpl. by rewrite (proj2 (String.eqb_neq _ _)) by congruence.
    - by destruct (has_key run_id r' y). }
  split.
  - rewrite start_run_task_rs. simpl. eapply lstep_ok; [exact Hl|apply Hv].
  - intros r' Hr'. unfold status_of, run_status. rewrite start_run_task_rs. simpl. by rewrite Hne.
  - intros r' Hr'. by rewrite start_run_task_ne.
  - intros s Hs. exfalso. unfold status_of, run_status, get_run in Hs. by rewrite En in Hs.
  - intros tk Htk. unfold status_of, run_status, get_run. rewrite start_run_task_rs. simpl.
    exists "queued"%string. split; [|done].
    clear -En. induction (runs (led (rs v))) as [|y rows IH]; simpl in *.
    + unfold has_key. simpl. by rewrite String.eqb_refl.
    + destruct (has_key run_id uuid y); [done|]. by apply IH.
Qed.

Lemma approve_touches now r f p v x v' : server_ok v →
  approve_run_endpoint now r f p v = (x, v') → touches r v v'.
Proof.
  intros Hv. unfold approve_run_endpoint. intros H.
  assert (touches r v v) as Hrefl by (apply touches_same; try done; [apply Hv|by apply so_tasks]).
  destruct (get_run r (led (rs v))) as [run|] eqn:Hrun; [|by injection H as _ <-].
  destruct (String.eqb_spec (status run) "interrupted") as [Hst|]; simpl in H; [|by injection H as _ <-].
  pose proof (approval_transition now r "approved" (pr_id p) (pr_kind p) (pr_on_behalf_of p) (nonempty f)
    "interrupted" "running" None false (led (rs v))) as Hc.
  destruct (record_approval_and_transition _ _ _ _ _ _ _ _ _ _ _ _) as [ok L] eqn:E.
  pose proof (step_approve _ _ _ _ _ _ _ _ _ _ _ _ _ _ E) as Hl.
  destruct Hc as (Hc1 & Hc2 & Hc3). destruct ok.
  - injection H as _ <-. destruct (Hc3 eq_refl) as (Hs & Hne). split.
    + rewrite start_run_task_rs. simpl. eapply lstep_ok; [exact Hl|apply Hv].
    + intros r' Hr'. unfold status_of, run_status. rewrite start_run_task_rs. simpl. by rewrite Hne.
    + intros r' Hr'. by rewrite start_run_task_ne.
    + intros s Hs' Hf. unfold status_of in Hs'. rewrite (proj1 Hc1) in Hs' by done. by injection Hs' as <-.
    + intros t _. exists "running"%string. unfold status_of. rewrite start_run_task_rs. done.
  - injection H as _ <-. rewrite Hc2 by done. by destruct v as [[]].
Qed.

Lemma cancel_touches now r p v x v' : server_ok v →
  cancel_run_endpoint now r p v = (x, v') → touches r v v'.
Proof.
  intros Hv. unfold cancel_run_endpoint. intros H.
  assert (touches r v v) as Hrefl by (apply touches_same; try done; [apply Hv|by apply so_tasks]).
  destruct (get_run r (led (rs v))) as [run|] eqn:Hrun; [|by injection H as _ <-].
  destruct (terminal (status run)) eqn:Ht; [by injection H as _ <-|].
  pose proof (cancellation_cas now r (pr_id p) (pr_kind p) (pr_on_behalf_of p) None (led (rs v))
    (so_led _ Hv)) as Hc.
  destruct (record_cancellation_and_transition _ _ _ _ _ _ _) as [ok L] eqn:E.
  pose proof (step_cancel _ _ _ _ _ _ _ _ _ E) as Hl.
  destruct Hc as (Hc1 & Hc2 & Hc3). destruct ok.
  2:{ injection H as _ <-. rewrite Hc2 by done. by destruct v as [[]]. }
  destruct (append_event_message now r "status" "status" "cancelled" L) as (n & L2 & Ha).
  unfold status_payload in H. rewrite Ha in H. injection H as _ <-.
  apply append_event_frame in Ha as [Hr Hs2]. destruct (Hc3 eq_refl) as (Hs & _ & Hne & _).
  assert (∀ r', run_status r' L2 = run_status r' L) as Hsame
    by (intros r'; unfold run_status, get_run; by rewrite Hr).
  split; cbn [rs on_rs tasks].
  - simpl. eapply lstep_ok; [exact Hs2|]. eapply lstep_ok; [exact Hl|apply Hv].
  - intros r' Hr'. unfold status_of. simpl. rewrite Hsame. unfold run_status. by rewrite Hne.
  - intros r' Hr'. by rewrite request_cancel_ne.
  - intros s Hs' Hf. unfold status_of, run_status in Hs'. rewrite Hrun in Hs'. injection Hs' as <-. congruence.
  - intros t Ht'. exists "cancelled"%string. unfold status_of. simpl. rewrite Hsame. split; [done|].
    intros _. by apply request_cancel_leaving in Ht' as [? _].
Qed.

(** An error handler that runs for a run that is not over. *)
Lemma error_touches obs now r x v row : server_ok v → get_run r (led (rs v)) = Some row →
  terminal (status row) = false →
  touches r v (set_phase r (Ending false)
    (on_rs (λ s, match on_error obs now r x s with Ok s' => s' | Raise _ => s end) v)).
Proof.
  intros Hv Hrow Ht. destruct (on_error_settled obs now r x row (rs v)) as (s' & He & Hs); [apply Hv|done|].
  eapply touches_settled; [|exact Ht|exact Hs| | |].
  - unfold status_of, run_status. by rewrite Hrow.
  - rewrite set_phase_rs. simpl. by rewrite He.
  - intros r' Hr'. by rewrite set_phase_ne.
  - intros t Htk. left. apply set_phase_eq in Htk. unfold leaving. rewrite Htk. by rewrite orb_true_r.
Qed.

(** A task that is not on its way out belongs to a run that is not over. *)
Lemma task_run v r t : server_ok v → tasks v !! r = Some t → leaving t = false →
  ∃ row, get_run r (led (rs v)) = Some row ∧ terminal (status row) = false.
Proof.
  intros Hv Ht Hl. destruct (so_tasks _ Hv _ _ Ht) as (s & Hs & Hf).
  unfold status_of, run_status in Hs. destruct (get_run r (led (rs v))) as [row|]; [|done].
  injection Hs as <-. exists row. split; [done|]. destruct (terminal (status row)); [|done].
  by rewrite Hf in Hl.
Qed.

Lemma step_touches v v' : server_ok v → step v v' → ∃ r, touches r v v'.
Proof.
  intros Hv H. destruct H as
    [al sg w uuid now th t p v x v' H|now r f p v x v' H|now r p v x v' H|r v|obs now r v f Ht
    |r v f Ht|obs now r e v f Ht|obs now r fin v f Ht Hfin|now r v t Ht Hc Hp|r v b f Ht].
  - exists uuid. by eapply create_touches.
  - exists r. by eapply approve_touches.
  - exists r. by eapply cancel_touches.
  - exists r. apply touches_same.
    + rewrite request_cancel_rs. apply Hv.
    + intros r'. unfold status_of. by rewrite request_cancel_rs.
    + intros r' Hr'. by rewrite request_cancel_ne.
    + intros t Ht. apply request_cancel_leaving in Ht as [Hl [t' Ht']].
      destruct (so_tasks _ Hv _ _ Ht') as (s & Hs & _). exists s. unfold status_of in *.
      by rewrite request_cancel_rs.
  - exists r. destruct (task_run v r _ Hv Ht eq_refl) as (row & Hrow & Hf). unfold begin_run. rewrite Hrow.
    set (L := set_status now r "running" None false (led (rs v))).
    assert (get_run r L = Some (update_run now "running" None false row)) as HL by (by apply get_run_set_status).
    split.
    + rewrite set_phase_rs. simpl. eapply lstep_ok; [apply step_status|apply Hv].
    + intros r' Hr'. unfold status_of, run_status. rewrite set_phase_rs. simpl. by rewrite get_run_set_status_ne.
    + intros r' Hr'. by rewrite set_phase_ne.
    + intros s Hs Hs'. unfold status_of, run_status in Hs. rewrite Hrow in Hs. injection Hs as <-. congruence.
    + intros t' _. exists "running"%string. unfold status_of, run_status. rewrite set_phase_rs. simpl.
      fold L. by rewrite HL.
  - exists r. apply touches_same.
    + rewrite set_phase_rs. apply Hv.
    + intros r'. unfold status_of. by rewrite set_phase_rs.
    + intros r' Hr'. by rewrite set_phase_ne.
    + intros t Ht'. destruct (so_tasks _ Hv _ _ Ht) as (s & Hs & _). exists s. unfold status_of in *.
      rewrite set_phase_rs. split; [done|]. intros _. apply set_phase_eq in Ht'. unfold leaving.
      rewrite Ht'. by rewrite orb_true_r.
  - exists r. destruct (task_run v r _ Hv Ht eq_refl) as (row & Hrow & Hf). unfold event_run.
    destruct (append_stream_event now r e (led (rs v))) as [L|x] eqn:E; [|by eapply error_touches].
    apply append_stream_event_frame in E as [Hr Hok]. apply touches_same; [apply Hok, Hv| |done|].
    + intros r'. unfold status_of, run_status, get_run. simpl. by rewrite Hr.
    + intros t Ht'. exists (status row). unfold status_of, run_status, get_run in *. simpl. rewrite Hr, Hrow.
      by rewrite Hf.
  - exists r. destruct (task_run v r _ Hv Ht eq_refl) as (row & Hrow & Hf). unfold finish_run.
    destruct fin as [values prompt|x|]; [|by eapply error_touches|done].
    destruct (finish obs now r values prompt (rs v)) as [[keep s']|x] eqn:E; [|by eapply error_touches].
    assert (is_Some prompt ∨ is_ok (dumps (VDict (result_payload values))) = true) as Hp.
    { destruct prompt as [?|]; [left; eauto|]. right. unfold finish, append_event in E.
      by destruct (dumps _). }
    destruct (finish_settled obs now r row values prompt (rs v) (so_led _ Hv) Hrow Hp) as (s2 & E2 & Hs).
    rewrite E in E2. injection E2 as -> ->.
    eapply touches_settled; [|exact Hf|exact Hs| | |].
    + unfold status_of, run_status. by rewrite Hrow.
    + by rewrite set_phase_rs.
    + intros r' Hr'. by rewrite set_phase_ne.
    + intros t Htk. left. apply set_phase_eq in Htk. unfold leaving. rewrite Htk. by rewrite orb_true_r.
  - exists r. destruct (so_tasks _ Hv _ _ Ht) as (s & Hs & _).
    unfold status_of, run_status in Hs. destruct (get_run r (led (rs v))) as [row|] eqn:Hrow; [|done].
    assert (∀ r', r' ≠ r → tasks (cancelled_run now r v) !! r' = tasks v !! r') as Htk
      by (intros r' Hr'; simpl; by rewrite lookup_delete_ne).
    destruct (terminal (status row)) eqn:Hf.
    + apply touches_same; [|intros r'|done|intros t' Ht'; simpl in Ht'; by rewrite lookup_delete_eq in Ht'];
        unfold cancelled_run, on_cancelled, status_of; simpl; rewrite Hrow, Hf; [apply Hv|done].
    + destruct (on_cancelled_settled now r row (rs v) (so_led _ Hv) Hrow Hf) as (s' & E & Hset).
      eapply touches_settled; [|exact Hf|exact Hset| |exact Htk|].
      * unfold status_of, run_status. by rewrite Hrow.
      * unfold cancelled_run. simpl. by rewrite E.
      * intros t' Ht'. simpl in Ht'. by rewrite lookup_delete_eq in Ht'.
  - exists r. apply touches_same.
    + destruct b; apply Hv.
    + intros r'. by destruct b.
    + intros r' Hr'. simpl. rewrite lookup_delete_ne by done. by destruct b.
    + intros t Ht'. simpl in Ht'. by rewrite lookup_delete_eq in Ht'.
Qed.

Definition empty_server : server := mkServer (mkR empty_ledger ∅ [] []) ∅.

(** Terminal statuses are final in the server: in every interleaving of
    requests and tasks, once a run is completed, cancelled or failed its status
    never changes again; in particular a cancellation accepted by the API is
    not undone by the task it interrupts, wherever that task is. *)
Theorem terminal_status_final v v' r s :
  rtc step empty_server v → rtc step v v' →
  status_of r v = Some s → terminal s = true → status_of r v' = Some s.
Proof.
  intros Hv Hs Hst Hf.
  assert (server_ok empty_server) as H0.
  { split; [split; [constructor|done|done]|]. intros r' t. simpl. by rewrite lookup_empty. }
  assert (server_ok v) as Hok.
  { clear -Hv H0. induction Hv as [|a b c Hab _ IH]; [done|]. apply IH.
    destruct (step_touches _ _ H0 Hab) as [r' Ht]. by eapply touches_ok. }
  clear Hv. induction Hs as [|a b c Hab _ IH]; [done|].
  destruct (step_touches _ _ Hok Hab) as [r' Ht]. apply IH; [by eapply touches_final|by eapply touches_ok].
Qed.

(** ** The event stream has no gap and no duplicate *)
Definition grows (L L' : ledger) : Prop := ∃ extra, run_events L' = run_events L ++ extra.

(** The ledgers a generator reads, in the order of time. *)
Fixpoint reads_ok (L : ledger) (reads : list (ledger * ledger)) : Prop :=
  match reads with
  | [] => True
  | (L1, L2) :: reads' => ledger_ok L1 ∧ grows L L1 ∧ reads_ok L1 reads'
  end.
Definition run_over (r : string) (L : ledger) : bool :=
  match get_run r L with Some run => terminal (status run) | None => true end.
(** The last ledger listed, and whether the stream was closed. *)
Fixpoint last_listed (r : string) (L : ledger) (reads : list (ledger * ledger)) : ledger * bool :=
  match reads with
  | [] => (L, false)
  | (L1, L2) :: reads' => if run_over r L2 then (L1, true) else last_listed r L1 reads'
  end.

Lemma events_of_grows r L L' : grows L L' → ∃ extra, events_of r L' = events_of r L ++ extra.
Proof.
  intros [extra He]. unfold events_of, select. rewrite He, List.filter_app. eauto.
Qed.

Lemma last_seq_listed r a L es : ledger_ok L → 0 ≤ a → list_events r a L = Ok es →
  last_seq a es = Z.max a (Z.of_nat (length (events_of r L))).
Proof.
  intros Hok Ha Hes. rewrite list_events_drop in Hes by done. apply res_all_ok in Hes.
  unfold last_seq. destruct (decide (length (events_of r L) ≤ Z.to_nat a)%nat) as [Hle|Hgt].
  - rewrite drop_ge in Hes by done. destruct es; [|done]. simpl. lia.
  - assert (es ≠ []) as Hne.
    { intros ->. apply (f_equal length) in Hes. rewrite length_map, length_drop in Hes. simpl in Hes. lia. }
    destruct (last es) as [e|] eqn:El; [|by apply last_None in El].
    apply last_Some in El as [es' ->]. rewrite map_app in Hes.
    assert (∃ l x, events_of r L = l ++ [x] ∧ decode_event x = Ok e) as (l & x & Hl & Hx).
    { destruct (exists_last (l:=events_of r L)) as (l & x & Hl).
      { intros E. rewrite E in Hgt. simpl in Hgt. lia. }
      exists l, x. split; [done|]. rewrite Hl, length_app in Hgt. simpl in Hgt.
      rewrite Hl, drop_app_le, map_app in Hes by lia. simpl in Hes.
      by apply app_inj_tail in Hes as [_ Hx]. }
    rewrite Hl, length_app. simpl. pose proof (ok_events L Hok r) as Hn.
    change (select (has_key ev_run_id r) (run_events L)) with (events_of r L) in Hn.
    rewrite Hl in Hn. apply (numbered_snoc ev_run_id) in Hn as [_ Hn].
    unfold decode_event in Hx. destruct (loads (ev_payload x)); [|done]. injection Hx as <-. simpl.
    assert (Z.of_nat (length l) + 1 > a) by (rewrite Hl, length_app in Hgt; simpl in Hgt; lia). lia.
Qed.

Lemma drop_grows {A} (n m : nat) (l x : list A) : m = (n `max` length l)%nat →
  drop n (l ++ x) = drop n l ++ drop m (l ++ x).
Proof.
  intros ->. destruct (decide (n ≤ length l)%nat).
  - rewrite Nat.max_r by lia. by rewrite drop_app_le, drop_app_length by lia.
  - rewrite Nat.max_l by lia. by rewrite (drop_ge l) by lia.
Qed.

Lemma sse_loop_exact r a L reads es fs : ledger_ok L → reads_ok L reads → 0 ≤ a →
  list_events r a L = Ok es → sse_loop r (last_seq a es) reads = Ok fs →
  ∃ es', list_events r a (last_listed r L reads).1 = Ok es' ∧
    map Data es ++ fs = map Data es' ++ if (last_listed r L reads).2 then [EndOfStream] else [].
Proof.
  revert L es fs. induction reads as [|[L1 L2] reads IH]; intros L es fs Hok Hr Ha Hes Hfs.
  { injection Hfs as <-. exists es. by rewrite !app_nil_r. }
  destruct Hr as (Hok1 & Hg & Hr). cbn [sse_loop] in Hfs. unfold sse_round in Hfs.
  apply res_bind_ok in Hfs as ([fs1 next] & H1 & Hfs).
  apply res_bind_ok in H1 as (es1 & Hes1 & H1). injection H1 as <- <-.
  assert (list_events r a L1 = Ok (es ++ es1)) as Hes'.
  { rewrite (last_seq_listed r a L) in Hes1 by done. rewrite list_events_drop in * by done.
    apply (events_of_grows r) in Hg as [x Hx]. rewrite Hx in *.
    rewrite (drop_grows _ (Z.to_nat (Z.max a (Z.of_nat (length (events_of r L)))))) by lia.
    by rewrite map_app, res_all_app, Hes, Hes1. }
  cbn [last_listed]. change (match get_run r L2 with Some run => _ | None => _ end) with (run_over r L2) in Hfs.
  destruct (run_over r L2).
  - injection Hfs as <-. exists (es ++ es1). split; [done|]. by rewrite map_app, <-app_assoc.
  - apply res_bind_ok in Hfs as (fs' & Hfs & [= <-]). rewrite app_nil_r.
    assert (last_seq (last_seq a es) es1 = last_seq a (es ++ es1)) as Hl.
    { unfold last_seq. rewrite last_app. by destruct (last es1). }
    rewrite Hl in Hfs. destruct (IH L1 (es ++ es1) fs' Hok1 Hr Ha Hes' Hfs) as (es' & He & Hf).
    exists es'. split; [done|]. rewrite <-Hf, map_app. by rewrite app_assoc.
Qed.

(** C37. Watching a run neither skips nor repeats an event: whatever ledgers
    the generator happens to read while the run goes on, the frames it sends
    are, in order, exactly what a single listing of the last ledger it listed
    returns, followed by the end mark if it closed. *)
Theorem event_stream_exact r a L0 reads fs :
  ledger_ok L0 → reads_ok L0 reads → 0 ≤ a → event_stream r a L0 reads = Ok fs →
  ∃ es, list_events r a (last_listed r L0 reads).1 = Ok es ∧
    fs = map Data es ++ if (last_listed r L0 reads).2 then [EndOfStream] else [].
Proof.
  intros Hok Hr Ha H. apply res_bind_ok in H as (es & Hes & H). apply res_bind_ok in H as (fs' & Hfs & H).
  injection H as <-. by eapply sse_loop_exact.
Qed.

(** ** Witnesses and observations *)
Definition operator : Principal := mkPrincipal "local:op" "human" "op" None.
Definition srv1 : server :=
  match create_run_endpoint [] None (Ok "/w"%string) "r1" "t0" "th" "do it" operator empty_server with
  | Ok (_, v) => v | Raise _ => empty_server end.
Definition srv2 : server := begin_run true "t1" "r1" srv1.
Definition srv3 : server := (cancel_run_endpoint "t2" "r1" operator srv2).2.
Definition srv4 : server := cancelled_run "t3" "r1" srv3.

Lemma terminal_status_final_witness : status_of "r1" srv4 = Some "cancelled"%string.
Proof.
  apply (terminal_status_final srv3 srv4 "r1" "cancelled").
  - eapply rtc_l; [apply (s_create [] None (Ok "/w"%string) "r1" "t0" "th" "do it" operator empty_server
      (RunStatus "r1" "queued") srv1); reflexivity|].
    eapply rtc_l; [apply (t_begin true "t1" "r1" srv1 None); reflexivity|].
    apply rtc_once, (s_cancel "t2" "r1" operator srv2 (RunStatus "r1" "cancelled") srv3). reflexivity.
  - apply rtc_once, (t_cancelled "t3" "r1" srv3 (mkTask Streaming true None)); [reflexivity..|by left].
  - reflexivity.
  - reflexivity.
Defined.

Definition with_event (now kind : string) (p : pydict) (L : ledger) : ledger :=
  match append_event now "r1" kind p L with Ok (_, L') => L' | Raise _ => L end.
Definition ledger1 : ledger := with_event "t2" "node" [("name", VStr "a")] (led (rs srv2)).
Definition ledger2 : ledger :=
  set_status "t3" "r1" "completed" None true (with_event "t3" "result" [] ledger1).

Lemma demo_ledgers_ok : ledger_ok ledger1 ∧ ledger_ok ledger2.
Proof.
  assert (ledger_ok empty_ledger) as H0 by (split; [constructor|done|done]).
  assert (ledger_ok (led (rs srv1))) as H1.
  { eapply lstep_ok; [|exact H0]. by eapply (step_create "r1" "t0" "th" (Some "/w"%string)
      (Some "do it"%string) (Some "/w"%string) None None (Some operator)). }
  assert (ledger_ok (led (rs srv2))) as H2 by (eapply lstep_ok; [|exact H1]; apply step_status).
  assert (ledger_ok ledger1) as H3.
  { eapply lstep_ok; [|exact H2]. by eapply (step_event "t2" "r1" "node" [("name", VStr "a")]). }
  split; [done|]. eapply lstep_ok; [apply step_status|]. eapply lstep_ok; [|exact H3].
  by eapply (step_event "t3" "r1" "result" []).
Qed.

Lemma event_stream_exact_witness :
  ∃ fs, event_stream "r1" 0 ledger1 [(ledger2, ledger2)] = Ok fs ∧
  ∃ es, list_events "r1" 0 (last_listed "r1" ledger1 [(ledger2, ledger2)]).1 = Ok es ∧
    fs = map Data es ++ if (last_listed "r1" ledger1 [(ledger2, ledger2)]).2 then [EndOfStream] else [].
Proof.
  eexists. split; [reflexivity|].
  apply (event_stream_exact "r1" 0 ledger1 [(ledger2, ledger2)]); [apply demo_ledgers_ok| |done|reflexivity].
  split; [apply demo_ledgers_ok|split; [by eexists [_]|done]].
Defined.

(** The listing of a round and its status check are two reads with the sending
    of frames in between: a run that completes while they are sent is closed
    without its result event. *)
Lemma sse_end_misses_result :
  (λ fs, last fs) <$> event_stream "r1" 0 (led (rs srv2)) [(ledger1, ledger2)]
  = Ok (Some EndOfStream) ∧
  (λ fs, length fs) <$> event_stream "r1" 0 (led (rs srv2)) [(ledger1, ledger2)] = Ok 2%nat ∧
  (λ es, length es) <$> list_events "r1" 0 ledger2 = Ok 2%nat.
Proof. by vm_compute. Qed.

(** A run executed outside the server's task table (by the scheduler) is not
    stopped by an accepted cancellation, and overwrites its status. *)
Lemma unregistered_run_overwrites_cancellation :
  let v := mkServer (rs srv2) ∅ in
  let '(x, v') := cancel_run_endpoint "t2" "r1" operator v in
  let v'' := finish_run true "t3" "r1" (GDone (VDict []) None) v' in
  x = RunStatus "r1" "cancelled" ∧ status_of "r1" v' = Some "cancelled"%string ∧
  status_of "r1" v'' = Some "completed"%string.
Proof. by vm_compute. Qed.

(** An approval that arrives while the interrupted task is still leaving its
    [async with] starts no task: the run stays [running] with no task at all. *)
Lemma approval_in_exit_window_is_lost :
  let v := finish_run true "t2" "r1" (GDone (VDict []) (Some (VStr "ok?"))) srv2 in
  let '(x, v1) := approve_run_endpoint "t3" "r1" (Some "approved"%string) operator v in
  let v2 := pop_task "r1" v1 in
  x = RunStatus "r1" "running" ∧ status_of "r1" v2 = Some "running"%string ∧ tasks v2 = ∅ ∧
  step v1 v2.
Proof.
  split; [done|]. split; [done|]. split; [done|].
  apply (t_exit "r1" _ true None). reflexivity.
Qed.
