(* ===== verification/Strategies.v ===== *)
(** * Strategy selection and skill candidates (agent_os/strategies.py,
    agent_os/skill_candidates.py)

    The fixed architect strategies, the selector that binds one of them to a
    run, and the miner that proposes new skills from repeated labelled work.
    Both read the evidence store of [Observations]; the selector also writes
    the assignment.  [skill_candidates] takes the registry's [get] and
    [deterministic_match] from [Skills]. *)
From Corelib Require Import SpecFloat.
From S2P Require Export Observations Skills.

Definition MIN_LABELLED_PER_STRATEGY : Z := 5.
Definition MIN_ACTIONABLE_SCORE : spec_float := dec_to_float false 70 (-2).
Definition MIN_ACTIONABLE_LEAD : spec_float := dec_to_float false 15 (-2).
Definition SELECTOR_VERSION : string := "v1.0".

Record StrategyDefinition := mkStrategy {
  strategy_id : string; strategy_version : Z; strategy_kind : string; directive : string }.
Record StrategyHint := mkHint {
  hint_strategy_id : string; hint_version : Z; hint_task_kind : string;
  selection_reason : string; hint_directive : string }.
#[export] Instance strategy_definition_eq_dec : EqDecision StrategyDefinition.
Proof. solve_decision. Defined.
Record StrategySelection := mkSelection { hint : StrategyHint; patterns : list OutcomePattern }.

Definition default_strategy : StrategyDefinition := mkStrategy "default-v1" 1 "workflow"
  "Create a clear direct plan, identify material assumptions, and include necessary validation without extra exploration.".
Definition WORKFLOW_STRATEGIES : list StrategyDefinition :=
  [ default_strategy;
    mkStrategy "verification-first-v1" 1 "workflow"
      "Inspect relevant constraints and files before proposing a plan; identify risks and unknowns, favor minimal reversible changes, and include explicit validation plus rollback or safety checkpoints.";
    mkStrategy "concise-plan-v1" 1 "workflow"
      "Produce only necessary ordered steps, the top risks, and exact validation; avoid optional discovery or expanded scope.";
    mkStrategy "clarify-first-v1" 1 "workflow"
      "Before proposing a plan or taking any action, surface 3-5 binary (pass/fail) acceptance criteria that define 'done' for this task and place them in the structured acceptance_criteria field as concise statements. Classify each intended side-effect as reversible or irreversible. Present these to the human for confirmation or adjustment first; do not execute irreversible side-effects until criteria are confirmed. This directive cannot change permission, tool-safety, or execution constraints." ].

Definition strategies_for (task_kind : string) : list StrategyDefinition :=
  if String.eqb task_kind "workflow" then WORKFLOW_STRATEGIES else [].

Definition hint_of (d : StrategyDefinition) (reason : string) : StrategyHint :=
  mkHint (strategy_id d) (strategy_version d) (strategy_kind d) reason (directive d).

(** [by_id.get(sid)] *)
Definition by_id (definitions : list StrategyDefinition) (sid : string) : option StrategyDefinition :=
  find (λ d, String.eqb (strategy_id d) sid) definitions.
(** [by_id[sid]] *)
Definition by_id_at (definitions : list StrategyDefinition) (sid : string) : res StrategyDefinition :=
  match by_id definitions sid with Some d => Ok d | None => Raise (KeyError sid) end.

(** The sort key [(-outcome_score, strategy_id)]. *)
Definition rank_leb (a b : OutcomePattern) : bool :=
  SFltb (outcome_score b) (outcome_score a)
  || (SFeqb (outcome_score b) (outcome_score a) && str_leb (op_strategy_id a) (op_strategy_id b)).

Definition evidence_winner (ps : list OutcomePattern) : option (OutcomePattern * OutcomePattern) :=
  match sort_by rank_leb (List.filter (λ p, MIN_LABELLED_PER_STRATEGY <=? labelled_count p) ps) with
  | winner :: comparator :: _ =>
      if SFltb (outcome_score winner) MIN_ACTIONABLE_SCORE then None
      else if SFltb (fsub (outcome_score winner) (outcome_score comparator)) MIN_ACTIONABLE_LEAD then None
      else Some (winner, comparator)
  | _ => None
  end.

Definition evidence_of (ps : list OutcomePattern) (winner second : OutcomePattern) : pydict :=
  [("labelled_counts", VDict (map (λ p, (op_strategy_id p, VInt (labelled_count p))) ps));
   ("scores", VDict (map (λ p, (op_strategy_id p, VFloat (round4 (outcome_score p)))) ps));
   ("winner", VStr (op_strategy_id winner));
   ("threshold_met", VBool true);
   ("margin", VFloat (round4 (fsub (outcome_score winner) (outcome_score second))))].

Definition opt_truthy (o : option string) : bool :=
  match o with Some s => truthy s | None => false end.

(** The selection for a run without a usable assignment. *)
Definition assign_new (sha256 : string → string) (now workspace_id task_kind run_id : string)
    (explicit : option string) (definitions : list StrategyDefinition) (st : store)
    : res (StrategySelection) * store :=
  match explicit with
  | Some sid =>
      match by_id_at definitions sid with
      | Raise e => (Raise e, st)
      | Ok defn =>
          match assign_strategy now workspace_id task_kind run_id sid (strategy_version defn)
                  "explicit" SELECTOR_VERSION None st with
          | Raise e => (Raise e, st)
          | Ok (got, st') => ((λ d, mkSelection (hint_of d "explicit") []) <$> by_id_at definitions got, st')
          end
      end
  | None =>
      let ids := map strategy_id definitions in
      let ps := aggregate_patterns workspace_id task_kind ids st in
      match evidence_winner ps with
      | Some (winner, second) =>
          match by_id_at definitions (op_strategy_id winner) with
          | Raise e => (Raise e, st)
          | Ok defn =>
              match assign_strategy now workspace_id task_kind run_id (op_strategy_id winner)
                      (strategy_version defn) "evidence_backed" SELECTOR_VERSION
                      (Some (evidence_of ps winner second)) st with
              | Raise e => (Raise e, st)
              | Ok (got, st') => ((λ d, mkSelection (hint_of d "evidence_backed") ps) <$> by_id_at definitions got, st')
              end
          end
      | None =>
          match assign_balanced_exploration sha256 now workspace_id task_kind run_id ids
                  (map (λ d, (strategy_id d, VInt (strategy_version d))) definitions) SELECTOR_VERSION st with
          | Raise e => (Raise e, st)
          | Ok (got, st') => ((λ d, mkSelection (hint_of d "exploration") ps) <$> by_id_at definitions got, st')
          end
      end
  end.

(** [select_strategy] with a store and a run; the other cases take no store. *)
Definition select_for_run (sha256 : string → string) (now workspace_id task_kind run_id : string)
    (explicit : option string) (definitions : list StrategyDefinition) (st : store)
    : res StrategySelection * store :=
  match get_strategy_assignment run_id st with
  | Raise e => (Raise e, st)
  | Ok existing =>
      match (a ← existing; d ← by_id definitions (a_strategy_id a); Some (a, d)) with
      | Some (a, d) => (Ok (mkSelection (hint_of d (a_selection_reason a)) []), st)
      | None => assign_new sha256 now workspace_id task_kind run_id explicit definitions st
      end
  end.

(** The refusal of an explicit strategy that the kind of task does not offer. *)
Definition refusal (definitions : list StrategyDefinition) (task_kind : string) (explicit : option string)
    : option string :=
  match explicit with
  | Some sid =>
      match by_id definitions sid with
      | None => Some ("Strategy '" +:+ sid +:+ "' is not allowed for task kind '" +:+ task_kind +:+ "'")
      | Some _ => None
      end
  | None => None
  end.

Definition select_strategy (sha256 : string → string) (now : string) (st : option store)
    (workspace_id task_kind : string) (run_id explicit : option string) : res StrategySelection * option store :=
  let definitions := strategies_for task_kind in
  if bool_decide (definitions = []) then (Ok (mkSelection (hint_of default_strategy "default") []), st)
  else
    match refusal definitions task_kind explicit with
    | Some msg => (Raise (ValueError msg), st)
    | None =>
        match st, run_id with
        | Some s, Some rid =>
            let '(r, s') := select_for_run sha256 now workspace_id task_kind rid explicit definitions s in
            (r, Some s')
        | _, _ =>
            let d := match explicit with
                     | Some sid => default default_strategy (by_id definitions sid)
                     | None => default_strategy
                     end in
            (Ok (mkSelection (hint_of d (if opt_truthy explicit then "explicit" else "default")) []), st)
        end
    end.

(** ** Skill candidates *)
Definition MIN_SKILL_CANDIDATE_OCCURRENCES : Z := 3.
Definition MIN_SKILL_CANDIDATE_OUTCOME_SCORE : spec_float := dec_to_float false 75 (-2).
Definition MAX_SAMPLE_RUN_IDS : Z := 3.

Record SkillCandidate := mkCandidate {
  signature : string; sc_task_kind : string; sc_occurrence_count : Z; success_count : Z;
  sc_outcome_score : spec_float; sc_sample_run_ids : list string;
  suggested_name : string; rationale : string }.

(** [[^a-z0-9]+] replaced by one dash. *)
Definition safe_char (c : ascii) : bool := is_digit c || is_lower_az c.
Fixpoint sub_unsafe (in_run : bool) (s : string) : string :=
  match s with
  | EmptyString => EmptyString
  | String c s' =>
      if safe_char c then String c (sub_unsafe false s')
      else if in_run then sub_unsafe true s' else String "-" (sub_unsafe true s')
  end.
(** [s.strip("-")] *)
Fixpoint lstrip_dash (s : string) : string :=
  match s with
  | String c s' => if Ascii.eqb c "-" then lstrip_dash s' else s
  | EmptyString => EmptyString
  end.
Fixpoint rstrip_dash (s : string) : string :=
  match s with
  | EmptyString => EmptyString
  | String c s' =>
      match rstrip_dash s' with
      | EmptyString => if Ascii.eqb c "-" then EmptyString else String c EmptyString
      | t => String c t
      end
  end.

Definition suggested_skill_name (p : TaskSignaturePattern) : string :=
  let safe := rstrip_dash (lstrip_dash (sub_unsafe false (lower (ts_task_kind p)))) in
  let kind := if sempty safe then "workflow"%string else safe in
  let digest := removeprefix "sha256:v1:" (ts_task_signature p) in
  "candidate-" +:+ kind +:+ "-" +:+ stake 12 digest.

Definition is_covered (r : registry) (name : string) : bool :=
  bool_decide (is_Some (Skills.get name r)) || bool_decide (is_Some (deterministic_match name r)).

(** [f"{x:.2f}"] *)
Definition fixed2 (x : spec_float) : string :=
  match x with
  | S754_finite s m e =>
      let j := round_at (Zpos m) e (-2) in
      (if s then "-" else "") +:+ str_of_Z (j / 100) +:+ "."
      +:+ String (chr (48 + j / 10 mod 10)) (String (chr (48 + j mod 10)) "")
  | S754_zero s => if s then "-0.00" else "0.00"
  | S754_infinity s => if s then "-inf" else "inf"
  | S754_nan => "nan"
  end.

Definition candidate (p : TaskSignaturePattern) : SkillCandidate :=
  let score := round4 (ts_outcome_score p) in
  mkCandidate (ts_task_signature p) (ts_task_kind p) (occurrence_count p) (ts_accepted_count p) score
    (sample_run_ids p) (suggested_skill_name p)
    (str_of_Z (occurrence_count p) +:+ " labelled " +:+ ts_task_kind p +:+ " occurrences; "
     +:+ str_of_Z (ts_accepted_count p) +:+ " accepted; outcome score " +:+ fixed2 score
     +:+ "; no registered exact candidate skill.").

(** The key [(-occurrence_count, -outcome_score, name, signature)]. *)
Definition candidate_leb (a b : SkillCandidate) : bool :=
  if sc_occurrence_count b <? sc_occurrence_count a then true
  else if sc_occurrence_count a <? sc_occurrence_count b then false
  else if SFltb (sc_outcome_score b) (sc_outcome_score a) then true
  else if negb (SFeqb (sc_outcome_score b) (sc_outcome_score a)) then false
  else if String.eqb (suggested_name a) (suggested_name b) then str_leb (signature a) (signature b)
  else str_leb (suggested_name a) (suggested_name b).

Definition worthwhile (r : registry) (min_occurrences : Z) (min_score : spec_float) (p : TaskSignaturePattern)
    : bool :=
  negb (occurrence_count p <? min_occurrences) && negb (SFltb (ts_outcome_score p) min_score)
  && negb (is_covered r (suggested_skill_name p)).

Definition mine_skill_candidates (st : option store) (r : registry) (workspace_id : string)
    (min_occurrences : Z) (min_score : spec_float) : res (list SkillCandidate) :=
  match st with
  | None => Ok []
  | Some s =>
      if min_occurrences <? 1 then Raise (ValueError "min_occurrences must be positive")
      else if negb (SFleb fzero min_score && SFleb min_score (of_int 1))
      then Raise (ValueError "min_outcome_score must be between 0 and 1")
      else Ok (sort_by candidate_leb
                 (map candidate (List.filter (worthwhile r min_occurrences min_score)
                    (aggregate_task_signatures workspace_id MAX_SAMPLE_RUN_IDS s))))
  end.

Example fixed2_sample : fixed2 (fdiv (of_int 5) (of_int 6)) = "0.83".
Proof. reflexivity. Qed.
Example sub_unsafe_sample : sub_unsafe false "a  b__c" = "a-b-c".
Proof. reflexivity. Qed.

(** ** Lemmas *)
Lemma by_id_Some ds sid d : by_id ds sid = Some d → d ∈ ds ∧ strategy_id d = sid.
Proof. unfold by_id. intros [? ?]%find_some. bool_prop. split; [by apply list_elem_of_In|done]. Qed.

Notation run_row run st := (select_one (has_key a_run_id run) (assignments st)).

Lemma select_one_snoc {A} (p : A → bool) l x :
  select_one p (l ++ [x]) = match select_one p l with Some y => Some y | None => if p x then Some x else None end.
Proof. induction l as [|y l IH]; simpl; [done|]. destruct (p y); [done|]. apply IH. Qed.

Lemma run_row_add run r st : run_row run (add_assignment r st)
  = match run_row run st with Some y => Some y | None => if has_key a_run_id run r then Some r else None end.
Proof. apply select_one_snoc. Qed.

(** An assignment is never changed. *)
Lemma run_row_stable sha256 run row st st' :
  store_step sha256 st st' → run_row run st = Some row → run_row run st' = Some row.
Proof.
  intros H Hr. destruct H as [uuid now a o st st' H|oid s e now r st st' H|now w k rn sid v why sel ev x st st' H|now w k rn ids vs sel x st st' H].
  - by apply create_row in H as (r & -> & _).
  - by apply record_outcome_rows in H as [->|(s' & e' & _ & _ & ->)].
  - unfold assign_strategy in H. apply res_bind_ok in H as (? & _ & H).
    destruct (select_one _ _) as [rw|]; [by injection H as _ <-|].
    apply res_bind_ok in H as (raw & _ & [= _ <-]). by rewrite run_row_add, Hr.
  - unfold assign_balanced_exploration in H. destruct ids as [|i0 rest]; [done|].
    destruct (negb _); [done|]. destruct (select_one _ _) as [rw|] in H; [by injection H as _ <-|].
    cbv zeta in H. destruct (_ !! _) as [s|]; [|done]. destruct (dget s vs) as [[| |z| | | | |]|]; try done.
    injection H as _ <-. by rewrite run_row_add, Hr.
Qed.
Lemma run_row_reachable sha256 run row st st' :
  rtc (store_step sha256) st st' → run_row run st = Some row → run_row run st' = Some row.
Proof. induction 1; eauto using run_row_stable. Qed.

(** After an assigning call the run's row carries the strategy it returned; a
    new row carries the reason too. *)
Definition assigned_as (run sid reason : string) (st st' : store) : Prop :=
  ∃ row, run_row run st' = Some row ∧ a_strategy_id row = sid ∧
    (run_row run st = Some row ∨ a_selection_reason row = reason).

Lemma assign_strategy_assigned now w k run sid v why sel ev st got st' :
  assign_strategy now w k run sid v why sel ev st = Ok (got, st') → assigned_as run got why st st'.
Proof.
  unfold assign_strategy. intros (? & _ & H)%res_bind_ok. destruct (run_row run st) as [row|] eqn:E.
  - injection H as <- <-. exists row. auto.
  - apply res_bind_ok in H as (raw & _ & [= <- <-]). eexists.
    rewrite run_row_add, E. unfold has_key. simpl. rewrite String.eqb_refl. eauto.
Qed.
Lemma exploration_assigned sha256 now w k run ids vs sel st got st' :
  assign_balanced_exploration sha256 now w k run ids vs sel st = Ok (got, st') →
  assigned_as run got "exploration" st st'.
Proof.
  unfold assign_balanced_exploration. destruct ids as [|i0 rest]; [done|]. destruct (negb _); [done|].
  destruct (run_row run st) as [row|] eqn:E; [intros [= <- <-]; exists row; auto|]. cbv zeta.
  destruct (_ !! _) as [s|]; [|done]. destruct (dget s vs) as [[| |z| | | | |]|]; try done.
  intros [= <- <-]. eexists. rewrite run_row_add, E. unfold has_key. simpl. rewrite String.eqb_refl. eauto.
Qed.

Lemma fmap_by_id_at {B} (f : StrategyDefinition → B) ds sid b :
  f <$> by_id_at ds sid = Ok b → ∃ d, by_id ds sid = Some d ∧ b = f d.
Proof. unfold by_id_at. destruct (by_id ds sid) as [d|]; [|done]. intros [= <-]. eauto. Qed.

Lemma assign_new_spec sha256 now w k run explicit ds st sel st' :
  assign_new sha256 now w k run explicit ds st = (Ok sel, st') →
  ∃ d reason, by_id ds (strategy_id d) = Some d ∧ hint sel = hint_of d reason ∧
    assigned_as run (strategy_id d) reason st st'.
Proof.
  assert (∀ (m : res (string * store)) reason ps,
    (∀ got s, m = Ok (got, s) → assigned_as run got reason st s) →
    match m with
    | Raise e => (Raise e, st)
    | Ok (got, s) => ((λ d, mkSelection (hint_of d reason) ps) <$> by_id_at ds got, s)
    end = (Ok sel, st') →
    ∃ d reason, by_id ds (strategy_id d) = Some d ∧ hint sel = hint_of d reason ∧
      assigned_as run (strategy_id d) reason st st') as Hfin.
  { intros m reason ps Hm H. destruct m as [[got s]|]; [|done]. injection H as H <-.
    apply fmap_by_id_at in H as (d & Hd & ->). destruct (by_id_Some _ _ _ Hd) as [_ He]. subst got.
    exists d, reason. split_and!; [done|done|by apply Hm]. }
  unfold assign_new. destruct explicit as [sid|].
  - destruct (by_id_at ds sid) as [defn|]; [|done]. apply Hfin. intros. by eapply assign_strategy_assigned.
  - cbv zeta. destruct (evidence_winner _) as [[winner second]|].
    + destruct (by_id_at ds _) as [defn|]; [|done]. apply Hfin. intros. by eapply assign_strategy_assigned.
    + apply Hfin. intros. by eapply exploration_assigned.
Qed.

(** The evidence column of a row can be read back. *)
Definition evidence_readable (row : assign_row) : bool :=
  match a_evidence_summary row with
  | None => true
  | Some raw => sempty raw || bool_decide (is_Some (loads raw))
  end.

Lemma decode_readable row : decode_assignment row
  = if evidence_readable row
    then Ok (mkAssign (a_run_id row) (a_workspace_id row) (a_task_kind row) (a_strategy_id row)
               (a_strategy_version row) (a_selection_reason row) (a_selector_version row)
               (raw ← a_evidence_summary row;
                if sempty raw then None
                else v ← loads raw; match v with VDict d => Some d | _ => None end)
               (a_selected_at row))
    else Raise JSONDecodeError.
Proof.
  unfold decode_assignment, evidence_readable. destruct (a_evidence_summary row) as [raw|]; [|done].
  destruct (sempty raw) eqn:E; simpl; [by rewrite E|].
  rewrite ?E. by destruct (loads raw) as [[]|].
Qed.

Lemma select_with_row sha256 now w k run explicit ds st row d :
  run_row run st = Some row → by_id ds (a_strategy_id row) = Some d →
  select_for_run sha256 now w k run explicit ds st
  = (if evidence_readable row then Ok (mkSelection (hint_of d (a_selection_reason row)) [])
     else Raise JSONDecodeError, st).
Proof.
  intros Hr Hd. unfold select_for_run, get_strategy_assignment. rewrite Hr, decode_readable.
  destruct (evidence_readable row); [|done]. simpl. by rewrite Hd.
Qed.

Lemma select_for_run_row sha256 now w k run explicit ds st sel st' :
  select_for_run sha256 now w k run explicit ds st = (Ok sel, st') →
  ∃ row d, run_row run st' = Some row ∧ by_id ds (a_strategy_id row) = Some d ∧
    hint sel = hint_of d (a_selection_reason row).
Proof.
  unfold select_for_run, get_strategy_assignment. destruct (run_row run st) as [row|] eqn:E.
  - rewrite decode_readable. destruct (evidence_readable row); [|done]. cbn [mbind res_bind option_bind a_strategy_id a_selection_reason].
    destruct (by_id ds (a_strategy_id row)) as [d|] eqn:Hd; cbn [mbind option_bind].
    + intros [= <- <-]. by exists row, d.
    + intros H. apply assign_new_spec in H as (d & reason & Hd' & Hh & rw & Hrw & Hid & [Hold|Hr]).
      * rewrite E in Hold. injection Hold as <-. congruence.
      * exists rw, d. by rewrite Hid, Hr.
  - cbn [mbind option_bind]. intros H.
    apply assign_new_spec in H as (d & reason & Hd' & Hh & rw & Hrw & Hid & [Hold|Hr]); [congruence|].
    exists rw, d. by rewrite Hid, Hr.
Qed.

(** What the evidence selects has the evidence. *)
Lemma evidence_winner_backed ps winner second : evidence_winner ps = Some (winner, second) →
  winner ∈ ps ∧ second ∈ ps ∧ 5 ≤ labelled_count winner ∧ 5 ≤ labelled_count second ∧
  SFltb (outcome_score winner) MIN_ACTIONABLE_SCORE = false ∧
  SFltb (fsub (outcome_score winner) (outcome_score second)) MIN_ACTIONABLE_LEAD = false.
Proof.
  unfold evidence_winner. destruct (sort_by _ _) as [|a [|b l]] eqn:E; [done..|].
  destruct (SFltb _ _) eqn:E1; [done|]. destruct (SFltb (fsub _ _) _) eqn:E2; [done|]. intros [= <- <-].
  assert (∀ x, x ∈ a :: b :: l → x ∈ ps ∧ 5 ≤ labelled_count x) as H.
  { intros x. rewrite <-E, elem_of_sort_by, !list_elem_of_In, filter_In. unfold MIN_LABELLED_PER_STRATEGY.
    intros [? ?]. split; [done|lia]. }
  destruct (H a), (H b); [by right; left|left|done..|by right; left|].
  by split_and!.
Qed.

(** A run keeps its strategy.  When a selection for a run returns, the
    run's row in the store names a registered strategy and the hint is that
    strategy with the row's reason; and whatever the store goes through
    afterwards, every later selection for the run, under any explicit strategy
    that is allowed, returns the same hint and writes nothing (or raises the
    decoding error of an unreadable evidence column, exactly when the row has
    one). *)
Theorem selection_sticky sha256 now w run explicit st sel st' :
  select_strategy sha256 now (Some st) w "workflow" (Some run) explicit = (Ok sel, Some st') →
  ∃ row d, select_one (has_key a_run_id run) (assignments st') = Some row ∧
    d ∈ WORKFLOW_STRATEGIES ∧ a_strategy_id row = strategy_id d ∧
    hint sel = hint_of d (a_selection_reason row) ∧
    ∀ st'' now' w' explicit', rtc (store_step sha256) st' st'' →
      refusal WORKFLOW_STRATEGIES "workflow" explicit' = None →
      select_strategy sha256 now' (Some st'') w' "workflow" (Some run) explicit'
      = (if evidence_readable row then Ok (mkSelection (hint sel) []) else Raise JSONDecodeError, Some st'').
Proof.
  unfold select_strategy. change (strategies_for "workflow") with WORKFLOW_STRATEGIES.
  rewrite bool_decide_false by done. destruct (refusal _ _ explicit); [done|].
  destruct (select_for_run _ _ _ _ _ _ _ _) as [r s1] eqn:E. intros [= -> ->].
  apply select_for_run_row in E as (row & d & Hr & Hd & Hh).
  destruct (by_id_Some _ _ _ Hd) as [Hin Hid]. exists row, d. split_and!; [done..|].
  intros st'' now' w' explicit' Hst Href. rewrite Href.
  rewrite (select_with_row _ _ _ _ _ _ _ _ row d); [by rewrite Hh|by eapply run_row_reachable|done].
Qed.

(** Six labelled runs for one strategy and five for another. *)
Definition labelled_row (uid approach signal : string) : obs_row :=
  mkObs uid 1 "ws" (Some uid) None "workflow" None approach "[]" signal None "server.run" "t0" "t1".
Definition evidence_store : store := mkStore
  (map (λ u, labelled_row u "concise-plan-v1" "accepted") ["a1"; "a2"; "a3"; "a4"; "a5"; "a6"]
   ++ map (λ u, labelled_row u "default-v1" "rejected") ["b1"; "b2"; "b3"; "b4"; "b5"])%list [].

Lemma selection_sticky_witness :
  let '(r, st') := select_strategy (λ x, x) "t2" (Some evidence_store) "ws" "workflow" (Some "r1") None in
  ∃ sel s', r = Ok sel ∧ st' = Some s' ∧ hint_strategy_id (hint sel) = "concise-plan-v1" ∧
    selection_reason (hint sel) = "evidence_backed" ∧
    select_strategy (λ x, x) "t3" (Some s') "ws" "workflow" (Some "r1") (Some "default-v1")
    = (Ok (mkSelection (hint sel) []), Some s').
Proof.
  destruct (select_strategy (λ x, x) "t2" (Some evidence_store) "ws" "workflow" (Some "r1") None)
    as [r st'] eqn:E.
  assert (∃ sel s', r = Ok sel ∧ st' = Some s' ∧ hint_strategy_id (hint sel) = "concise-plan-v1" ∧
    selection_reason (hint sel) = "evidence_backed" ∧
    option_map evidence_readable (select_one (has_key a_run_id "r1") (assignments s')) = Some true) as
    (sel & s' & -> & -> & H1 & H2 & H3).
  { vm_compute in E. injection E as <- <-. do 2 eexists.
    split_and!; [reflexivity..|]. vm_compute. reflexivity. }
  exists sel, s'. split_and!; [reflexivity|reflexivity|exact H1|exact H2|].
  destruct (selection_sticky _ _ _ _ _ _ _ _ E) as (row & d & Hr & _ & _ & _ & H).
  rewrite Hr in H3. injection H3 as H3. rewrite H3 in H. apply H; [apply rtc_refl|vm_compute; reflexivity].
Defined.

(** *** Candidates *)
Lemma labelled_split (rows : list obs_row) : forallb labelled rows = true →
  zcount (has_signal "accepted") rows + zcount (has_signal "rejected") rows + zcount (has_signal "edited") rows
  = Z.of_nat (length rows).
Proof.
  unfold zcount. induction rows as [|r rows IH]; [done|]. cbn [forallb]. intros H. bool_prop.
  specialize (IH ltac:(done)). cbn [List.filter].
  match goal with H : labelled r = true |- _ => unfold labelled, in_strs in H; cbn [existsb] in H; rewrite orb_false_r in H end.
  unfold has_signal in *.
  destruct (String.eqb_spec (outcome_signal r) "accepted") as [E1|],
    (String.eqb_spec (outcome_signal r) "rejected") as [E2|],
    (String.eqb_spec (outcome_signal r) "edited") as [E3|]; first [congruence|done|simpl length; lia].
Qed.

Lemma length_omap_le {A B} (f : A → option B) l : (length (omap f l) ≤ length l)%nat.
Proof. induction l as [|x l IH]; simpl; [done|]. destruct (f x); [by apply le_n_S|by apply Nat.le_le_succ_r]. Qed.

(** The labelled evidence of a workspace. *)
Definition workspace_evidence (w : string) (st : store) : list obs_row :=
  select (λ r, String.eqb (o_workspace_id r) w && labelled r) (observations st).

Lemma signature_pattern_count w n st key :
  occurrence_count (signature_pattern w n (workspace_evidence w st) key)
  = Z.of_nat (length (select (in_group key) (workspace_evidence w st))).
Proof.
  unfold signature_pattern. simpl. apply labelled_split, forallb_forall.
  intros r. rewrite <-list_elem_of_In. intros [[_ H]%elem_of_select _]%elem_of_select. by bool_prop.
Qed.

(** The skill miner proposes exactly the work that was repeated and
    accepted.  With thresholds in range it returns, in order of decreasing
    occurrences, the candidates of the task signatures that occur often enough
    among the explicitly labelled rows of the workspace, score well enough and
    have no registered skill of the proposed name; each counts its rows and
    names at most three runs.  Thresholds out of range are refused. *)
Theorem mine_candidates_spec st r w min_occurrences min_score :
  if (min_occurrences <? 1) || negb (SFleb fzero min_score && SFleb min_score (of_int 1))
  then ∃ msg, mine_skill_candidates (Some st) r w min_occurrences min_score = Raise (ValueError msg)
  else ∃ cs, mine_skill_candidates (Some st) r w min_occurrences min_score = Ok cs ∧
    (∀ c, c ∈ cs ↔ ∃ key,
       let group := select (in_group key) (workspace_evidence w st) in
       let p := signature_pattern w 3 (workspace_evidence w st) key in
       c = candidate p ∧ min_occurrences ≤ Z.of_nat (length group) ∧
       SFltb (ts_outcome_score p) min_score = false ∧ is_covered r (suggested_skill_name p) = false) ∧
    StronglySorted (λ a b, sc_occurrence_count b ≤ sc_occurrence_count a) cs ∧
    Forall (λ c, (length (sc_sample_run_ids c) ≤ 3)%nat) cs.
Proof.
  unfold mine_skill_candidates. destruct (Z.ltb_spec min_occurrences 1) as [|Hmin]; [by eexists|].
  cbn [orb]. destruct (negb _); [by eexists|]. eexists. split; [done|].
  assert (∀ c, c ∈ sort_by candidate_leb (map candidate (List.filter (worthwhile r min_occurrences min_score)
       (aggregate_task_signatures w MAX_SAMPLE_RUN_IDS st))) ↔ ∃ key,
       let group := select (in_group key) (workspace_evidence w st) in
       let p := signature_pattern w 3 (workspace_evidence w st) key in
       c = candidate p ∧ min_occurrences ≤ Z.of_nat (length group) ∧
       SFltb (ts_outcome_score p) min_score = false ∧ is_covered r (suggested_skill_name p) = false) as Hiff.
  { intros c. rewrite elem_of_sort_by, list_elem_of_In, in_map_iff. unfold aggregate_task_signatures.
    change (Z.max 1 (Z.min MAX_SAMPLE_RUN_IDS 10)) with 3. fold (workspace_evidence w st). split.
    - intros (p & <- & [Hp Hw]%filter_In). apply in_map_iff in Hp as (key & <- & _). exists key.
      unfold worthwhile in Hw. rewrite signature_pattern_count in Hw. bool_prop. cbv zeta. split_and!; [done|lia|done|done].
    - intros (key & -> & Hn & Hs & Hc). eexists. split; [done|]. apply filter_In. split.
      + apply in_map, list_elem_of_In, elem_of_sort_by, elem_of_remove_dups.
        assert (select (in_group key) (workspace_evidence w st) ≠ []) as Hne by (intros E; rewrite E in Hn; simpl in Hn; lia).
        destruct (select (in_group key) _) as [|x l] eqn:E; [done|].
        assert (x ∈ select (in_group key) (workspace_evidence w st)) as [Hx Hk]%elem_of_select by (rewrite E; left).
        apply list_elem_of_omap. exists x. split; [done|]. by apply bool_decide_eq_true in Hk.
      + unfold worthwhile. rewrite signature_pattern_count, Hs, Hc. apply Z.ltb_ge in Hn. by rewrite Hn. }
  split_and!; [exact Hiff| |].
  - apply sort_by_refines; [intros x y z H1 H2; exact (Z.le_trans _ _ _ H2 H1)|intros x y; unfold candidate_leb..];
      destruct (Z.ltb_spec (sc_occurrence_count y) (sc_occurrence_count x)),
        (Z.ltb_spec (sc_occurrence_count x) (sc_occurrence_count y)); intros; first [done|lia].
  - apply Forall_forall. intros c (key & -> & _)%Hiff. simpl.
    etrans; [apply length_omap_le|]. unfold limit. simpl. rewrite length_take. lia.
Qed.
