(* ===== verification/Migrations.v ===== *)
(** * Additive schema migrations (agent_os/migrations.py)

    The runner that brings a database to the version its migrations name.
    SQLite is a parameter: [execute] runs one statement on a schema of type
    [S], [table_info] lists the columns of a table.  [user_version] is kept
    beside the schema, and a transaction that is rolled back restores both.
    The result of the backup of the file (Backup.v) is an argument, absent when
    the runner is given an open connection. *)
From S2P Require Export PyRe.

(** ** The safety patterns *)
Definition two_words (a b : string) : re :=
  Seqs [Wordb; Str_i a; Plus (Cls is_space); Str_i b; Wordb].
Definition FORBIDDEN_DDL_PATTERNS : list re :=
  [ two_words "DROP" "TABLE"; two_words "DROP" "COLUMN"; two_words "DROP" "INDEX";
    two_words "RENAME" "TO"; two_words "RENAME" "COLUMN";
    Seqs [Wordb; Str_i "TRUNCATE"; Wordb]; two_words "DELETE" "FROM" ].

(** A word with an optional quote (backtick, double quote, bracket) on each
    side. *)
Definition backtick : ascii := chr 96.
Definition dq : ascii := chr 34.
Definition quoted_name : re :=
  Seqs [Opt (Cls (λ c, Ascii.eqb c backtick || Ascii.eqb c dq || Ascii.eqb c "["));
        Plus (Cls is_word);
        Opt (Cls (λ c, Ascii.eqb c backtick || Ascii.eqb c dq || Ascii.eqb c "]"))].
Definition ALTER_ADD_COLUMN_PATTERN : re :=
  Seqs [Str_i "ALTER"; Plus (Cls is_space); Str_i "TABLE"; Plus (Cls is_space); Grp 1 quoted_name;
        Plus (Cls is_space); Str_i "ADD"; Plus (Cls is_space);
        Opt (Seq (Str_i "COLUMN") (Plus (Cls is_space))); Grp 2 quoted_name; Plus (Cls is_space);
        Grp 3 (Plus (Cls (λ c, negb (Ascii.eqb c ";"))))].

Definition is_safe_statement (sql : string) : bool :=
  let clean := strip sql in
  sempty clean ||
  forallb (λ p, negb (bool_decide (is_Some (re_search p clean)))) FORBIDDEN_DDL_PATTERNS.

(** [str.strip] of the quote characters. *)
Definition quote_char (c : ascii) : bool :=
  Ascii.eqb c backtick || Ascii.eqb c dq || Ascii.eqb c "[" || Ascii.eqb c "]".
Fixpoint lstrip_quotes (s : string) : string :=
  match s with String c s' => if quote_char c then lstrip_quotes s' else s | EmptyString => s end.
Fixpoint rstrip_quotes (s : string) : string :=
  match s with
  | EmptyString => EmptyString
  | String c s' =>
      match rstrip_quotes s' with
      | EmptyString => if quote_char c then EmptyString else String c EmptyString
      | t => String c t
      end
  end.
Definition unquote (s : string) : string := rstrip_quotes (lstrip_quotes s).

(** The table and the column of an ADD COLUMN statement. *)
Definition add_column (clean : string) : option (string * string) :=
  g ← re_match ALTER_ADD_COLUMN_PATTERN clean;
  t ← group 1 g; c ← group 2 g; Some (unquote t, unquote c).

Record migration (S : Type) := mkMigration {
  mig_id : string;
  mig_version : Z;
  statements : list string;
  handler : option (S → res S);
  description : string }.
Arguments mkMigration {_}. Arguments mig_id {_}. Arguments mig_version {_}. Arguments statements {_}.
Arguments handler {_}. Arguments description {_}.

Record database (S : Type) := mkDb { user_version : Z; schema : S }.
Arguments mkDb {_}. Arguments user_version {_}. Arguments schema {_}.

Section runner.
Context {S : Type} (execute : string → S → res S) (table_info : string → S → list string).
Implicit Types (db : database S) (m : migration S).

Definition apply_statement (sql : string) (s : S) : res S :=
  let clean := strip sql in
  if sempty clean then Ok s
  else if negb (is_safe_statement clean)
  then Raise (RuntimeError ("Disallowed destructive DDL detected: " +:+ clean))
  else match add_column clean with
       | Some (table_name, col_name) =>
           if existsb (String.eqb col_name) (table_info table_name s) then Ok s else execute clean s
       | None => execute clean s
       end.

Fixpoint apply_statements (l : list string) (s : S) : res S :=
  match l with
  | [] => Ok s
  | sql :: l' => s' ← apply_statement sql s; apply_statements l' s'
  end.

Definition apply_migration m db : res (database S) :=
  s ← apply_statements (statements m) (schema db);
  s' ← match handler m with Some h => h s | None => Ok s end;
  Ok (mkDb (mig_version m) s').

Fixpoint apply_pending (l : list (migration S)) db (applied : list string) : res (list string * database S) :=
  match l with
  | [] => Ok (applied, db)
  | m :: l' => db' ← apply_migration m db; apply_pending l' db' (applied ++ [mig_id m])
  end.

Definition version_leb (a b : migration S) : bool := mig_version a <=? mig_version b.
Definition pending (ms : list (migration S)) db : list (migration S) :=
  sort_by version_leb (List.filter (λ m, user_version db <? mig_version m) ms).

(** The result and the database it leaves. *)
Definition run_migrations (backup : option (res unit)) (ms : list (migration S)) (baseline_version : Z) db
    : res (list string) * database S :=
  match pending ms db with
  | [] =>
      (Ok [], if (user_version db =? 0) && (0 <? baseline_version)
              then mkDb baseline_version (schema db) else db)
  | l =>
      match default (Ok ()) backup with
      | Raise e => (Raise e, db)
      | Ok _ =>
          match apply_pending l db [] with
          | Ok (ids, db') => (Ok ids, db')
          | Raise e => (Raise (RuntimeError ("Migration execution failed: " +:+ exn_msg e)), db)
          end
      end
  end.

(** ** The migrations of the program's databases *)
Definition backfill_runs_workspace_id : S → res S :=
  execute "
        UPDATE runs
        SET workspace_id = workspace
        WHERE workspace_id IS NULL AND workspace IS NOT NULL
        ".

Definition RUNS_MIGRATIONS : list (migration S) :=
  [ mkMigration "0002_add_runs_principal_and_approvals" 2
      [ "ALTER TABLE runs ADD COLUMN workspace_id TEXT";
        "ALTER TABLE runs ADD COLUMN created_by TEXT";
        "ALTER TABLE runs ADD COLUMN created_by_kind TEXT";
        "
            CREATE TABLE IF NOT EXISTS run_approvals (
                run_id TEXT NOT NULL,
                seq INTEGER NOT NULL,
                decision TEXT NOT NULL,
                actor_id TEXT NOT NULL,
                actor_kind TEXT NOT NULL,
                on_behalf_of TEXT,
                reason TEXT,
                decided_at TEXT NOT NULL,
                PRIMARY KEY (run_id, seq)
            )
            ";
        "
            CREATE INDEX IF NOT EXISTS run_approvals_run_id_idx
                ON run_approvals (run_id, seq ASC)
            " ]
      (Some backfill_runs_workspace_id)
      "Add principal columns to runs and create run_approvals audit table" ].

Definition SESSIONS_MIGRATIONS : list (migration S) :=
  [ mkMigration "0002_add_sessions_workspace_and_principal" 2
      [ "ALTER TABLE sessions ADD COLUMN workspace_id TEXT";
        "ALTER TABLE sessions ADD COLUMN created_by TEXT" ]
      None "Add workspace_id and created_by to sessions" ].

Definition PERMISSIONS_MIGRATIONS : list (migration S) :=
  [ mkMigration "0002_add_permission_rules_workspace_and_taught_by" 2
      [ "ALTER TABLE permission_rules ADD COLUMN workspace_id TEXT";
        "ALTER TABLE permission_rules ADD COLUMN taught_by TEXT" ]
      None "Add workspace_id and taught_by to permission_rules" ].

(** ** Lemmas *)
Lemma apply_statements_safe l s s' : apply_statements l s = Ok s' → Forall (λ q, is_safe_statement q = true) l.
Proof.
  revert s. induction l as [|q l IH]; intros s; simpl; [by constructor|].
  intros (s1 & H1 & H2)%res_bind_ok. constructor; [|by eapply IH].
  unfold apply_statement in H1. unfold is_safe_statement in *. rewrite strip_idem in H1.
  destruct (sempty (strip q)); [done|]. by destruct (negb _) eqn:E; [|apply negb_false_iff in E].
Qed.

Lemma last_cons {A} (x : A) l d : List.last (x :: l) d = List.last l x.
Proof.
  revert x d. induction l as [|y l IH]; intros x d; [done|].
  change (List.last (x :: y :: l) d) with (List.last (y :: l) d). by rewrite !IH.
Qed.

Lemma apply_pending_spec l : ∀ db acc ids db', apply_pending l db acc = Ok (ids, db') →
  ids = acc ++ map mig_id l ∧ user_version db' = List.last (map mig_version l) (user_version db) ∧
  Forall (λ m, Forall (λ q, is_safe_statement q = true) (statements m)) l.
Proof.
  induction l as [|m l IH]; intros db acc ids db'; cbn [apply_pending].
  - intros [= <- <-]. by rewrite app_nil_r.
  - intros (d1 & H1 & (-> & Hv & Hs)%IH)%res_bind_ok. unfold apply_migration in H1.
    apply res_bind_ok in H1 as (s1 & Hst & H1). apply res_bind_ok in H1 as (s2 & _ & [= <-]).
    rewrite <-app_assoc. split_and!; [done| |constructor; [by eapply apply_statements_safe|done]].
    rewrite Hv. cbn [map user_version]. by rewrite last_cons.
Qed.

Lemma last_bound l : ∀ d, StronglySorted (λ a b, mig_version a ≤ mig_version b) l →
  Forall (λ m, d ≤ mig_version m) l →
  d ≤ List.last (map mig_version l) d ∧ Forall (λ m, mig_version m ≤ List.last (map mig_version l) d) l.
Proof.
  induction l as [|m l IH]; intros d Hs Hd; [done|]. inversion Hs as [|? ? Hs' Hm]; subst.
  apply Forall_cons in Hd as [Hdm Hd].
  cbn [map]. rewrite last_cons.
  destruct (IH (mig_version m) Hs' Hm) as [H1 H2]. split; [lia|]. by constructor.
Qed.

Lemma elem_of_pending ms db m : m ∈ pending ms db ↔ m ∈ ms ∧ user_version db < mig_version m.
Proof. unfold pending. rewrite elem_of_sort_by, !list_elem_of_In, filter_In. by rewrite Z.ltb_lt. Qed.
Lemma pending_sorted ms db : StronglySorted (λ a b, mig_version a ≤ mig_version b) (pending ms db).
Proof. apply sort_by_refines; intros *; unfold version_leb; lia. Qed.
Lemma pending_nil ms db : pending ms db = [] ↔ ∀ m, m ∈ ms → mig_version m ≤ user_version db.
Proof.
  split.
  - intros E m Hm. destruct (Z.le_gt_cases (mig_version m) (user_version db)) as [|Hlt]; [done|].
    assert (m ∈ pending ms db) as H by (by apply elem_of_pending). rewrite E in H. set_solver.
  - intros H. destruct (pending ms db) as [|m l] eqn:E; [done|].
    assert (m ∈ pending ms db) as [Hm Hlt]%elem_of_pending by (rewrite E; left). specialize (H m Hm). lia.
Qed.

Definition destructive (sql : string) : Prop :=
  ∃ p, p ∈ FORBIDDEN_DDL_PATTERNS ∧ occurs_in p (strip sql).
Lemma safe_not_destructive sql : is_safe_statement sql = true → strip sql ≠ "" → ¬ destructive sql.
Proof.
  unfold is_safe_statement. intros H Hne (p & Hp & Ho). apply orb_true_iff in H as [H|H].
  - by destruct (strip sql).
  - rewrite forallb_forall in H. specialize (H p (proj1 (list_elem_of_In _ _) Hp)). bool_prop.
    by apply H, re_search_spec.
Qed.

(** After a successful run nothing is pending. *)
Lemma run_complete backup ms baseline db ids db' : 0 ≤ user_version db → 0 < baseline →
  run_migrations backup ms baseline db = (Ok ids, db') →
  0 < user_version db' ∧ (∀ m, m ∈ ms → mig_version m ≤ user_version db') ∧ ids = map mig_id (pending ms db).
Proof.
  intros H0 Hb. unfold run_migrations. destruct (pending ms db) as [|m l] eqn:E.
  - pose proof (proj1 (pending_nil ms db) E) as Hle. intros [= <- <-].
    destruct (Z.eqb_spec (user_version db) 0) as [Hz|]; simpl.
    + rewrite (proj2 (Z.ltb_lt _ _)) by done. simpl. split_and!; [done| |done].
      intros m Hm. specialize (Hle m Hm). lia.
    + split_and!; [lia|done|done].
  - destruct (default _ backup); [|done]. destruct (apply_pending _ _ _) as [[ids0 d]|] eqn:Ea; [|done].
    intros [= <- <-]. apply apply_pending_spec in Ea as (-> & Hv & _). rewrite <-E in *.
    assert (Forall (λ m, user_version db + 1 ≤ mig_version m) (pending ms db)) as Hall.
    { apply Forall_forall. intros x [_ Hx]%elem_of_pending. lia. }
    assert (List.last (map mig_version (pending ms db)) (user_version db)
            = List.last (map mig_version (pending ms db)) (user_version db + 1)) as El.
    { rewrite E. cbn [map]. by rewrite !last_cons. }
    destruct (last_bound (pending ms db) (user_version db + 1) (pending_sorted ms db) Hall) as [H1 H2].
    split_and!; [lia| |done]. intros x Hx. rewrite Hv, El.
    destruct (Z.le_gt_cases (mig_version x) (user_version db)) as [|Hlt]; [lia|].
    rewrite Forall_forall in H2. apply H2. by apply elem_of_pending.
Qed.

(** Migrations are all or nothing, additive and idempotent.  A run that
    raises leaves the database as it was.  A run that returns applied exactly
    the migrations above the stored version, in version order, executed no
    statement that matches a destructive pattern, and left a positive version
    that no migration exceeds: running the same migrations again applies
    nothing and changes nothing. *)
Theorem migrations_atomic backup ms baseline db : 0 ≤ user_version db → 0 < baseline →
  match run_migrations backup ms baseline db with
  | (Raise _, db') => db' = db
  | (Ok ids, db') =>
      ids = map mig_id (pending ms db) ∧
      (∀ m, m ∈ pending ms db ↔ m ∈ ms ∧ user_version db < mig_version m) ∧
      StronglySorted (λ a b, mig_version a ≤ mig_version b) (pending ms db) ∧
      (∀ m q, m ∈ pending ms db → q ∈ statements m → strip q ≠ "" → ¬ destructive q) ∧
      (∀ m, m ∈ ms → mig_version m ≤ user_version db') ∧
      ∀ backup', run_migrations backup' ms baseline db' = (Ok [], db')
  end.
Proof.
  intros H0 Hb. destruct (run_migrations backup ms baseline db) as [[ids|e] db'] eqn:Er.
  - pose proof (run_complete backup ms baseline db ids db' H0 Hb Er) as (Hpos & Hall & Hids).
    split_and!; [done|apply elem_of_pending|apply pending_sorted| |done|].
    + intros m q Hm Hq Hne. apply safe_not_destructive; [|done]. unfold run_migrations in Er. destruct (pending ms db) as [|m0 l]; [set_solver|].
      destruct (default _ backup); [|done]. destruct (apply_pending _ _ _) as [[ids0 d]|] eqn:Ea; [|done].
      apply apply_pending_spec in Ea as (_ & _ & Hs). rewrite Forall_forall in Hs.
      specialize (Hs m Hm). rewrite Forall_forall in Hs. by apply Hs.
    + intros backup'. unfold run_migrations. rewrite (proj2 (pending_nil ms db') Hall).
      rewrite (proj2 (Z.eqb_neq _ _)) by lia. done.
  - unfold run_migrations in Er. destruct (pending ms db); [by injection Er|].
    destruct (default _ backup); [|by injection Er]. destruct (apply_pending _ _ _) as [[ids0 d]|]; [done|].
    by injection Er.
Qed.
End runner.

(** A log of executed statements stands for the schema. *)
Definition log_execute (q : string) (s : list string) : res (list string) := Ok (s ++ [q]).
Definition log_columns (t : string) (s : list string) : list string := ["created_by"].

(** The shipped migrations pass the safety screen, and a column that exists is
    not added again. *)
Example runs_migrations_applied :
  match run_migrations log_execute log_columns (Some (Ok ())) (RUNS_MIGRATIONS log_execute) 1 (mkDb 1 []) with
  | (Ok ids, db) => ids = ["0002_add_runs_principal_and_approvals"] ∧ user_version db = 2
                    ∧ length (schema db) = 5%nat
  | _ => False
  end.
Proof. vm_compute. done. Qed.
Example safe_statements :
  is_safe_statement "drop
table runs" = false ∧ is_safe_statement "ALTER TABLE t RENAME TO u" = false ∧
  is_safe_statement "CREATE TABLE backdrop (tablet TEXT)" = true ∧
  is_safe_statement "DROP/**/TABLE runs" = true.
Proof. by vm_compute. Qed.

Lemma migrations_atomic_witness :
  match run_migrations log_execute log_columns None
          [mkMigration "3" 3 ["DROP TABLE t"] None ""; mkMigration "2" 2 ["CREATE TABLE t (x)"] None ""] 1 (mkDb 0 [])
  with (Raise _, db') => db' = mkDb 0 [] | (Ok _, _) => False end ∧
  run_migrations log_execute log_columns None (PERMISSIONS_MIGRATIONS (S:=list string)) 1
    (snd (run_migrations log_execute log_columns None PERMISSIONS_MIGRATIONS 1 (mkDb 0 [])))
  = (Ok [], snd (run_migrations log_execute log_columns None PERMISSIONS_MIGRATIONS 1 (mkDb 0 []))).
Proof.
  split.
  - pose proof (migrations_atomic log_execute log_columns None
      [mkMigration "3" 3 ["DROP TABLE t"] None ""; mkMigration "2" 2 ["CREATE TABLE t (x)"] None ""] 1 (mkDb 0 [])
      (Z.le_refl 0) Z.lt_0_1) as H.
    destruct (run_migrations _ _ _ _ _ _) as [r d] eqn:E. destruct r; [|exact H].
    vm_compute in E. discriminate.
  - pose proof (migrations_atomic log_execute log_columns None PERMISSIONS_MIGRATIONS 1 (mkDb 0 [])
      (Z.le_refl 0) Z.lt_0_1) as H.
    destruct (run_migrations _ _ _ _ _ _) as [r d] eqn:E. destruct r; [|vm_compute in E; discriminate].
    destruct H as (_ & _ & _ & _ & _ & H). apply H.
Defined.
