(* ===== verification/Backup.v ===== *)
(** * The backup of a database file (agent_os/migrations.py)

    What [backup_database] copies, on the filesystem of Paths.v.  A database is
    its main file and the write-ahead log beside it; what they hold together,
    the version they carry and what a checkpoint does to them is SQLite's.  The
    index of the log (-shm) is rebuilt by SQLite and holds nothing. *)
From S2P Require Export Paths Migrations.

Definition sibling (suffix : string) (p : path) : path := path_parent p ++ [path_name p +:+ suffix].
Definition file_at (f : fs) (p : path) : option string := match f !! p with Some (NFile c _) => Some c | _ => None end.

Section backup.
(** The answer of a checkpoint: whether another connection blocked it, and the
    two files it leaves. *)
Context (fuel : nat) (cwd : path)
  (user_version_of : string → option string → res (option Z))
  (wal_checkpoint : string → option string → res (bool * string * option string)).
Implicit Types (f : fs) (p : path).

(** [shutil.copy2]: into a directory, or onto a file, with the time of the
    source. *)
Definition copy2 (src dst : path) f : res fs :=
  let dst := if is_dir fuel f dst then dst ++ [path_name src] else dst in
  from ← walk fuel f src;
  x ← stat fuel f src;
  to ← walk fuel f dst;
  if bool_decide (from = to) then Raise (OtherError "SameFileError")
  else match x, lookup_node f to with
       | NFile c mtime, (None | Some (NFile _ _)) => Ok (<[to := NFile c mtime]> f)
       | _, _ => Raise (OtherError "IsADirectoryError")
       end.

Definition put_file (now : Z) (p : path) (c : option string) f : fs :=
  match c with Some c => <[p := NFile c now]> f | None => delete p f end.

(** The checkpoint, when SQLite does it: whether it did, and the files after
    it.  What it answers is not read. *)
Definition checkpoint_files (now : Z) (p : path) f : bool * fs :=
  match file_at f p with
  | None => (false, f)
  | Some main =>
      match wal_checkpoint main (file_at f (sibling "-wal" p)) with
      | Raise _ => (false, f)
      | Ok (_, main', wal') => (true, put_file now (sibling "-wal" p) wal' (<[p := NFile main' now]> f))
      end
  end.

Definition copy_sidecar (suffix : string) (p backup : path) f : res fs :=
  if exists_ fuel f (sibling suffix p) then copy2 (sibling suffix p) (sibling suffix backup) f else Ok f.
(** The files are there in part when a copy fails. *)
Definition copy_files (checkpointed : bool) (p backup : path) f : res unit * fs :=
  match copy2 p backup f with
  | Raise e => (Raise e, f)
  | Ok f1 =>
      if checkpointed then (Ok tt, f1)
      else match copy_sidecar "-wal" p backup f1 with
           | Raise e => (Raise e, f1)
           | Ok f2 => match copy_sidecar "-shm" p backup f2 with Raise e => (Raise e, f2) | Ok f3 => (Ok tt, f3) end
           end
  end.

Definition in_memory (path_str : string) : bool := String.eqb path_str ":memory:" || startswith "file::memory:" path_str.
Definition backup_version (version : option Z) (p : path) f : Z :=
  match version with
  | Some v => v
  | None =>
      match file_at f p with
      | Some main => match user_version_of main (file_at f (sibling "-wal" p)) with Ok (Some v) => v | _ => 1 end
      | None => 1
      end
  end.
Definition backup_suffix (version : Z) : string := ".bak-" +:+ str_of_Z version.

Definition backup_database (now : Z) (path_str : string) (version : option Z) f : res (option path) * fs :=
  if in_memory path_str then (Ok None, f)
  else match realpath fuel f (join_path cwd (parse_path path_str)) with
       | Raise e => (Raise e, f)
       | Ok p =>
           if negb (exists_ fuel f p) || negb (is_file fuel f p) then (Ok None, f)
           else
             let backup := sibling (backup_suffix (backup_version version p f)) p in
             let '(checkpointed, f1) := checkpoint_files now p f in
             match copy_files checkpointed p backup f1 with
             | (Ok _, f2) => (Ok (Some backup), f2)
             | (Raise e, f2) => (Raise (RuntimeError ("Failed to create pre-migration backup for " +:+ abs_str p +:+ ": " +:+ exn_msg e)), f2)
             end
       end.

(** [run_migrations] of a path: the files are copied when something is
    pending, before the transaction begins. *)
Definition migrate_file {S} (execute : string → S → res S) (table_info : string → S → list string) (now : Z) (path_str : string)
    (ms : list (migration S)) (baseline_version : Z) (db : database S) f : res (list string) * database S * fs :=
  match pending ms db with
  | [] => (run_migrations execute table_info None ms baseline_version db, f)
  | _ =>
      let '(r, f') := backup_database now path_str (Some (user_version db)) f in
      (run_migrations execute table_info (Some (_ ← r; Ok tt)) ms baseline_version db, f')
  end.
End backup.



Lemma sibling_sibling s s' p : sibling s' (sibling s p) = sibling (s +:+ s') p.
Proof. unfold sibling, path_parent, path_name. rewrite removelast_last, last_snoc. cbn [from_option id]. by rewrite sapp_assoc. Qed.


Section siblings.
Context (fuel : nat) (f : fs) (p : path) (Hp : p ≠ []) (Hcan : canonical f p) (Hwalk : walk fuel f p = Ok p).


End siblings.



Section copies.
Context (fuel : nat) (f : fs) (p : path) (Hp : p ≠ []) (Hcan : canonical f p) (Hwalk : walk fuel f p = Ok p).
Notation wide s := (String.length s ≠ 1 ∧ String.length s ≠ 2)%nat.


End copies.

(** ** The backup holds the database *)
Section restores.
Context {D : Type} (fuel : nat) (cwd : path) (user_version_of : string → option string → res (option Z))
  (wal_checkpoint : string → option string → res (bool * string * option string))
  (reads : string → option string → D).
(** A checkpoint moves frames from the log to the main file; one that nothing
    blocks leaves the main file complete. *)
Hypothesis checkpoint_keeps : ∀ main wal busy main' wal', wal_checkpoint main wal = Ok (busy, main', wal') →
  reads main' wal' = reads main wal ∧ (busy = false → reads main' None = reads main wal).
Notation backup_database := (backup_database fuel cwd user_version_of wal_checkpoint).

(** What the database at a path holds. *)
Definition reads_at (f : fs) (p : path) : option D := (λ c, reads c (file_at f (sibling "-wal" p))) <$> file_at f p.



Lemma reads_at_eq f p s c : p ≠ [] → file_at f (sibling s p) = Some c →
  reads_at f (sibling s p) = Some (reads c (file_at f (sibling (s +:+ "-wal") p))).
Proof. intros Hp Hc. unfold reads_at. by rewrite Hc, sibling_sibling. Qed.





End restores.

(** ** Runs *)
(** A database is the text of its file and that of its log. *)
Definition demo_reads (main : string) (wal : option string) : string := main +:+ default EmptyString wal.
Definition demo_checkpoint (main : string) (wal : option string) : res (bool * string * option string) :=
  Ok (false, demo_reads main wal, Some EmptyString).
Definition demo_home : fs := {[ ["d"] := NDir; ["d"; "runs.db"] := NFile "rows" 1; ["d"; "runs.db-wal"] := NFile "+frames" 2 ]}.
Definition demo_ms : list (migration (list string)) := [mkMigration "2" 2 ["CREATE TABLE t (x)"] None EmptyString].
Definition demo_migrate (ck : string → option string → res (bool * string * option string)) (f : fs) :=
  migrate_file 9 [] (λ _ _, Ok None) ck log_execute log_columns 7 "/d/runs.db" demo_ms 1 (mkDb 1 []) f.
Definition demo_backup : path := ["d"; "runs.db.bak-1"].



(** When SQLite cannot checkpoint, the log is copied too. *)
Example log_copied :
  reads_at demo_reads (demo_migrate (λ _ _, Raise (OtherError "locked")) demo_home).2 demo_backup = Some "rows+frames"%string.
Proof. vm_compute. reflexivity. Qed.
(** A checkpoint that another connection blocks is reported in its answer,
    which is not read: the frames are not in the backup. *)
Example blocked_checkpoint_loses :
  reads_at demo_reads (demo_migrate (λ main wal, Ok (true, main, wal)) demo_home).2 demo_backup = Some "rows"%string.
Proof. vm_compute. reflexivity. Qed.
(** The log of an earlier backup of the same version stays beside the new one. *)
Example stale_log_joins :
  reads_at demo_reads (demo_migrate demo_checkpoint (<[["d"; "runs.db.bak-1-wal"] := NFile "+old" 0]> demo_home)).2 demo_backup
  = Some "rows+frames+old"%string.
Proof. vm_compute. reflexivity. Qed.
