(* ===== verification/Validation.v ===== *)
(** * Evidence-bounded validation (agent_os/validation.py,
    agent_os/semantic_judge.py, the self-check of agent_os/nodes/executor.py)

    The rules an acceptance criterion becomes, the checks that decide them on
    the evidence a report carries, and the judge that asks a model.  [compile]
    parses the text of a regular expression (the syntax of [re] is not
    modelled; matching is [PyRe]'s); the model behind the judge is an
    argument.  The Vietnamese alternatives of the criterion pattern lie outside
    the modelled range of characters. *)
From S2P Require Export PyRe Json.

(** ** Rules and results *)
Inductive rule_kind := Deterministic | Llm.
Record ValidationRule := mkRule {
  rule_id : string; rule_description : string; kind : rule_kind;
  check : option string; param : option string }.
Record ValidationResult := mkResult {
  result_rule_id : string; passed : bool; method : rule_kind; evidence : string }.

(** A judge answers with a flag, or a flag and a reason; both are coerced. *)
Inductive judged := JValue (v : pyval) | JPair (flag reason : pyval).

Definition text (v : option pyval) : string := match v with Some (VStr s) => s | _ => "" end.

Definition strings_of (l : list pyval) : list string :=
  omap (λ v, match v with VStr s => Some s | _ => None end) l.
Definition artifacts_of (context : pydict) : list string :=
  match dget "artifacts" context with
  | Some (VStr s) => [s]
  | Some (VList l) => strings_of l
  | _ => []
  end.
Definition actual_output (context : pydict) : string :=
  sjoin nl (List.filter truthy
    (text (dget "verify_output" context) :: text (dget "diff" context) :: artifacts_of context)).

Definition param_text (r : ValidationRule) : option string :=
  match param r with Some p => if sempty p then None else Some p | None => None end.

(** [context.get("verify_commands", context.get("verify_cmds", {}))] *)
Definition commands_of (context : pydict) : option pyval :=
  match dget "verify_commands" context with Some v => Some v | None => dget "verify_cmds" context end.

Definition bool_text (b : bool) : string := if b then "True" else "False".

(** The integer a value is to [isinstance(_, int)] and [==]. *)
Definition int_value (v : pyval) : option (Z * string) :=
  match v with
  | VInt z => Some (z, str_of_Z z)
  | VBool b => Some ((if b then 1 else 0), bool_text b)
  | _ => None
  end.

Definition verify_outcome (p : string) (outcome : pyval) : bool * string :=
  match outcome with
  | VBool b => (b, p +:+ ": supplied boolean result=" +:+ bool_text b +:+ ".")
  | VInt z => (z =? 0, p +:+ ": exit_code=" +:+ str_of_Z z +:+ ".")
  | VDict d =>
      let exit_code := match dget "exit_code" d with Some v => Some v | None => dget "returncode" d end in
      let output := if sempty (text (dget "output" d)) then text (dget "stdout" d) else text (dget "output" d) in
      match exit_code ≫= int_value with
      | None => (false, p +:+ ": supplied result has no integer exit status.")
      | Some (z, shown) =>
          (z =? 0, p +:+ ": exit_code=" +:+ shown
                   +:+ (if sempty output then "" else "; output=" +:+ output))
      end
  | _ => (false, p +:+ ": supplied result has no exit status.")
  end.

Definition verify_command (r : ValidationRule) (context : pydict) : bool * string :=
  match param_text r with
  | None => (false, "verify_cmd requires the command key in param."%string)
  | Some p =>
      match commands_of context with
      | Some (VDict commands) =>
          match dget p commands with
          | None => (false, "No supplied verification result for: " +:+ p)
          | Some outcome => verify_outcome p outcome
          end
      | _ => (false, "No supplied verification result for: " +:+ p)
      end
  end.

Definition file_exists (r : ValidationRule) (context : pydict) : bool * string :=
  match param_text r with
  | None => (false, "file_exists requires the expected path in param."%string)
  | Some p =>
      if existsb (String.eqb p) (artifacts_of context) then (true, "Found " +:+ p +:+ " in supplied artifacts.")
      else if contains p (text (dget "diff" context)) then (true, "Found " +:+ p +:+ " in supplied diff.")
      else (false, p +:+ " is absent from supplied artifacts and diff.")
  end.

Definition contains_text (r : ValidationRule) (context : pydict) : bool * string :=
  match param_text r with
  | None => (false, "contains requires the expected text in param."%string)
  | Some p =>
      let matched := contains p (actual_output context) in
      (matched, "Text " +:+ repr_str p +:+ " " +:+ (if matched then "was found in" else "was absent from")
                +:+ " supplied output.")
  end.

(** [{k: context[k] for k in keys if k in context}] *)
Definition restrict (keys : list string) (context : pydict) : pydict :=
  omap (λ k, v ← dget k context; Some (k, v)) keys.
Definition JUDGE_KEYS : list string := ["verify_output"; "diff"; "artifacts"].

Section validation.
Context (compile : string → res re).

Definition regex (r : ValidationRule) (context : pydict) : bool * string :=
  match param_text r with
  | None => (false, "regex requires the pattern in param."%string)
  | Some p =>
      match compile p with
      | Raise e => (false, "Invalid regex " +:+ repr_str p +:+ ": " +:+ exn_msg e +:+ ".")
      | Ok pattern =>
          let matched := bool_decide (is_Some (re_search pattern (actual_output context))) in
          (matched, "Regex " +:+ repr_str p +:+ " " +:+ (if matched then "matched" else "did not match")
                    +:+ " supplied output.")
      end
  end.

Definition DETERMINISTIC_CHECKERS : list (string * (ValidationRule → pydict → bool * string)) :=
  [("verify_cmd", verify_command); ("file_exists", file_exists); ("regex", regex); ("contains", contains_text)].

Definition run_llm_judge (llm_judge : option (ValidationRule → pydict → res judged)) (r : ValidationRule)
    (context : pydict) : ValidationResult :=
  match llm_judge with
  | None => mkResult (rule_id r) false Llm "No LLM judge was injected for this semantic rule."
  | Some judge =>
      match judge r (restrict JUDGE_KEYS context) with
      | Raise e => mkResult (rule_id r) false Llm ("LLM judge failed: " +:+ exn_class e +:+ ".")
      | Ok (JPair flag reason) => mkResult (rule_id r) (py_truthy flag) Llm (py_str reason)
      | Ok (JValue v) =>
          mkResult (rule_id r) (py_truthy v) Llm "LLM judge evaluated the supplied independent evidence."
      end
  end.

Definition check_repr (c : option string) : string := match c with Some s => repr_str s | None => "None" end.

Definition run_rule (llm_judge : option (ValidationRule → pydict → res judged)) (context : pydict)
    (r : ValidationRule) : ValidationResult :=
  match kind r with
  | Llm => run_llm_judge llm_judge r context
  | Deterministic =>
      match dget (default "" (check r)) DETERMINISTIC_CHECKERS with
      | None => mkResult (rule_id r) false Deterministic
                  ("Unknown deterministic checker: " +:+ check_repr (check r) +:+ ".")
      | Some checker => let '(ok, why) := checker r context in mkResult (rule_id r) ok Deterministic why
      end
  end.

Definition run_validation (rules : list ValidationRule) (context : pydict)
    (llm_judge : option (ValidationRule → pydict → res judged)) : list ValidationResult :=
  map (run_rule llm_judge context) rules.

Definition kind_text (k : rule_kind) : string := match k with Deterministic => "deterministic" | Llm => "llm" end.
Definition dump_result (r : ValidationResult) : pyval :=
  VDict [("rule_id", VStr (result_rule_id r)); ("passed", VBool (passed r));
         ("method", VStr (kind_text (method r))); ("evidence", VStr (evidence r))].
Definition summarize (results : list ValidationResult) : pydict :=
  [("total", VInt (Z.of_nat (length results)));
   ("met", VInt (Z.of_nat (length (List.filter passed results))));
   ("results", VList (map dump_result results))].
End validation.

(** ** The model judge (semantic_judge.py) *)

Definition starts_word (w s : string) : bool := matches (re_match (Seqs [Bos; Str w; Wordb]) s).

Definition parse_judge_response (response : string) : bool * string :=
  match nonblank_lines (strip response) with
  | [] => (false, "Judge returned empty response."%string)
  | first :: rest =>
      let reasoning := match rest with second :: _ => second | [] => first end in
      if starts_word "PASS" (upper first) then (true, reasoning)
      else if starts_word "FAIL" (upper first) then (false, reasoning)
      else (false, "Indeterminate judge response: " +:+ first)
  end.

Definition evidence_section (title : string) (body : option pyval) (shown : pyval → string) : list string :=
  match body with
  | Some v => if py_truthy v then ["=== " +:+ title +:+ " ===" +:+ nl +:+ shown v] else []
  | None => []
  end.
Definition show_artifacts (v : pyval) : string :=
  match v with VList l => sjoin nl (map (λ a, "- " +:+ py_str a) l) | _ => py_str v end.
Definition format_evidence_context (context : pydict) : string :=
  match (evidence_section "Verify Command Output" (dget "verify_output" context) py_str
        ++ evidence_section "Code / File Diff" (dget "diff" context) py_str
        ++ evidence_section "Generated Artifacts" (dget "artifacts" context) show_artifacts)%list with
  | [] => "(No execution evidence provided)"
  | parts => sjoin (nl +:+ nl) parts
  end.

Definition user_prompt (r : ValidationRule) (context : pydict) : string :=
  "Evaluate this acceptance criterion:" +:+ nl +:+ "Criterion ID: " +:+ rule_id r +:+ nl
  +:+ "Description: " +:+ rule_description r +:+ nl
  +:+ "Parameter: " +:+ default "(none)" (param_text r) +:+ nl +:+ nl
  +:+ "Execution Evidence:" +:+ nl +:+ format_evidence_context context +:+ nl.

(** What the model does with a prompt within the time limit. *)
Inductive llm_outcome := Answered (content : string) | TimedOut | LlmFailed (e : exn).

Definition build_llm_judge (invoke : string → llm_outcome) : ValidationRule → pydict → res judged :=
  λ r context,
    let '(ok, why) :=
      match invoke (user_prompt r context) with
      | TimedOut => (false, "LLM judge timeout"%string)
      | LlmFailed e => (false, "LLM judge execution error: " +:+ exn_class e)
      | Answered content => parse_judge_response content
      end in
    Ok (JPair (VBool ok) (VStr why)).

(** The model behind the judge: an object with the methods it has.  [bind]
    takes the keyword that carries the limit on tokens; a call takes the
    messages, each its role and text. *)
Inductive llm_response := Content (content : pyval) | NoContent (text : string).
Inductive llm_object :=
  LlmObject (bind : option (string → res llm_object)) (invoke call : option (list (string * string) → res llm_response)).

Definition JUDGE_SYSTEM_PROMPT : string :=
  sjoin nl ["You are an objective acceptance criteria evaluator.";
    "Your role is to evaluate whether a specific acceptance criterion is met based STRICTLY AND ONLY on the provided execution evidence.";
    EmptyString; "Rules:";
    "1. ONLY rely on the provided evidence (verify_output, diff, artifacts).";
    "2. Do NOT invent, assume, or extrapolate facts not directly present in the evidence.";
    "3. If the evidence lacks proof or is ambiguous, you must judge FAIL.";
    "4. Format:";
    "   First line MUST begin with either " +:+ q "PASS" +:+ " or " +:+ q "FAIL" +:+ ".";
    "   Second line should provide a concise 1-sentence factual justification based on the evidence.";
    EmptyString]%string.

Definition bind_llm (llm : llm_object) : llm_object :=
  let '(LlmObject bind _ _) := llm in
  match bind with
  | None => llm
  | Some bind =>
      match bind "max_tokens"%string with
      | Ok bound => bound
      | Raise _ => match bind "max_output_tokens"%string with Ok bound => bound | Raise _ => llm end
      end
  end.

Definition part_text (part : pyval) : res string :=
  match part with
  | VDict d =>
      match default (VStr EmptyString) (dget "text" d) with
      | VStr s => Ok s
      | _ => Raise (TypeError "sequence item: expected str instance")
      end
  | v => Ok (py_str v)
  end.
Definition response_text (r : llm_response) : res string :=
  match r with
  | Content (VList parts) => texts ← res_all (map part_text parts); Ok (sjoin " " texts)
  | Content v => Ok (py_str v)
  | NoContent s => Ok s
  end.
Definition invoke_llm (llm : llm_object) (prompt : string) : res string :=
  let '(LlmObject _ invoke call) := llm in
  let messages := [("system", JUDGE_SYSTEM_PROMPT); ("human", prompt)]%string in
  r ← match invoke, call with
      | Some f, _ => f messages
      | None, Some f => f messages
      | None, None => Raise (TypeError "LLM object is neither callable nor an invoker.")
      end;
  response_text r.

(** [late]: the answer does not come within the time limit, or the model
    itself raises a TimeoutError. *)
Definition judged_within (late : bool) (r : res string) : llm_outcome :=
  if late then TimedOut else match r with Ok content => Answered content | Raise e => LlmFailed e end.
Definition llm_judge (late : bool) (llm : llm_object) : ValidationRule → pydict → res judged :=
  build_llm_judge (λ prompt, judged_within late (invoke_llm (bind_llm llm) prompt)).

(** The judge fails closed: it is satisfied only by an answer in time whose
    first line that is not blank starts with the word PASS. *)
Lemma llm_judge_fail_closed late llm r context flag why :
  llm_judge late llm r context = Ok (JPair (VBool flag) why) →
  flag = true ↔ late = false ∧ ∃ answer line rest, invoke_llm (bind_llm llm) (user_prompt r context) = Ok answer ∧
                  nonblank_lines (strip answer) = line :: rest ∧ starts_word "PASS" (upper line) = true.
Proof.
  unfold llm_judge, build_llm_judge, judged_within, parse_judge_response.
  destruct late; [intros [= <- <-]; split; [done|by intros [? _]]|].
  destruct (invoke_llm _ _) as [answer|e]; [|intros [= <- <-]; split; [done|by intros (_ & ? & ? & ? & ? & _)]].
  destruct (nonblank_lines (strip answer)) as [|line rest] eqn:El.
  { intros [= <- <-]. split; [done|]. intros (_ & a & l & r' & [= <-] & Hl & _). by rewrite El in Hl. }
  destruct (starts_word "PASS" (upper line)) eqn:Ep.
  { intros [= <- <-]. split; [|done]. intros _. split; [done|]. by exists answer, line, rest. }
  assert (¬ (false = false ∧ ∃ a l r', Ok answer = Ok a ∧ nonblank_lines (strip a) = l :: r' ∧ starts_word "PASS" (upper l) = true)).
  { intros (_ & a & l & r' & [= <-] & Hl & Hp). rewrite El in Hl. injection Hl as <- <-. congruence. }
  destruct (starts_word "FAIL" (upper line)); intros [= <- <-]; by split.
Qed.

(** ** The self-check of the executor *)

(** [^(file_exists|regex|contains|verify_cmd)\s*:\s*(.+)$] *)
Definition space : re := Cls is_space.
Definition not_newline : re := Cls (λ c, negb (Ascii.eqb c newline)).
Definition EXPLICIT_CHECK : re :=
  Seqs [Bos; Grp 1 (Alts (Str_i "verify_cmd") [Str_i "file_exists"; Str_i "regex"; Str_i "contains"]);
        Star space; Lit ":"; Star space; Grp 2 (Plus not_newline); Eos].
(** [(?:file)\s+Q?([\w./-]+)Q?\s+(?:exists|is present)(?:[.!?]|\s|$)] with Q a
    backtick, a double or a single quote. *)
Definition quote_mark : re := Opt (Cls (λ c, (code c =? 96) || (code c =? 34) || (code c =? 39))).
Definition path_char (c : ascii) : bool := is_word c || Ascii.eqb c "." || Ascii.eqb c "/" || Ascii.eqb c "-".
Definition FILE_EXISTS : re :=
  Seqs [Str_i "file"; Plus space; quote_mark; Grp 1 (Plus (Cls path_char)); quote_mark; Plus space;
        Alt (Str_i "exists") (Str_i "is present");
        Alt (Cls (λ c, Ascii.eqb c "." || Ascii.eqb c "!" || Ascii.eqb c "?")) (Alt space Eos)].

(** [\b(?:exit[_ ]?code|returncode)\s*[:=]\s*(-?\d+)\b] *)
Definition VERIFY_EXIT_CODE : re :=
  Seqs [Wordb;
        Alt (Seqs [Str_i "exit"; Opt (Cls (λ c, Ascii.eqb c "_" || Ascii.eqb c " ")); Str_i "code"])
            (Str_i "returncode");
        Star space; Cls (λ c, Ascii.eqb c ":" || Ascii.eqb c "="); Star space;
        Grp 1 (Seq (Opt (Lit "-")) (Plus (Cls is_digit))); Wordb].

Definition search_group (r : re) (n : nat) (s : string) : option string :=
  '(_, _, g) ← re_search r s; group n g.

Definition criterion_id (index : nat) : string := "criterion-" +:+ str_of_Z (Z.of_nat index).

Definition validation_rule_for_criterion (index : nat) (criterion : string) : ValidationRule :=
  let normalized := strip criterion in
  match (g ← re_match EXPLICIT_CHECK normalized; c ← group 1 g; p ← group 2 g; Some (c, p)) with
  | Some (c, p) =>
      mkRule (criterion_id index) normalized Deterministic (Some (lower c)) (Some (strip p))
  | None =>
      match search_group FILE_EXISTS 1 normalized with
      | Some path => mkRule (criterion_id index) normalized Deterministic (Some "file_exists") (Some path)
      | None => mkRule (criterion_id index) normalized Llm None None
      end
  end.

(** What the self-check reads of a plan and of a report: [plan_verify_cmd] is
    the command of an ArchitectBrief, the optional fields are attributes that
    the class of the report may lack. *)
Record plan_view := mkPlanView { acceptance_criteria : list string; plan_verify_cmd : option string }.
Record report_view := mkReport {
  verify_output : option string; diff : option string; artifacts : list string; self_check : pydict }.

(** [int(s)] of an optional sign and digits. *)
Definition int_of_text (s : string) : Z :=
  match s with
  | String c s' => if Ascii.eqb c "-" then - (pdigits s' 0 0).1.2 else (pdigits s 0 0).1.2
  | EmptyString => 0
  end.

Definition execution_evidence (p : plan_view) (r : report_view) : pydict :=
  let out := default "" (verify_output r) in
  [("verify_output", VStr out); ("diff", VStr (default "" (diff r)));
   ("artifacts", VList (map VStr (artifacts r)))] ++
  match plan_verify_cmd p, search_group VERIFY_EXIT_CODE 1 out with
  | Some cmd, Some digits =>
      [("verify_commands",
        VDict [(cmd, VDict [("exit_code", VInt (int_of_text digits)); ("output", VStr out)])])]
  | _, _ => []
  end.

Fixpoint rules_from (index : nat) (criteria : list string) : list ValidationRule :=
  match criteria with
  | [] => []
  | c :: l =>
      (if truthy (strip c) then [validation_rule_for_criterion index c] else []) ++ rules_from (S index) l
  end.

Definition with_self_check (r : report_view) (d : pydict) : report_view :=
  mkReport (verify_output r) (diff r) (artifacts r) d.

(** [judge_llm]: the first configured model, if one can be built. *)
Definition attach_self_check (compile : string → res re) (judge_llm : option (string → llm_outcome))
    (r : report_view) (p : plan_view) : report_view :=
  match rules_from 1 (acceptance_criteria p) with
  | [] => r
  | rules =>
      let judge := if existsb (λ x, match kind x with Llm => true | _ => false end) rules
                   then build_llm_judge <$> judge_llm else None in
      with_self_check r (summarize (run_validation compile rules (execution_evidence p r) judge))
  end.

(** ** Examples *)
Example rule_1 : validation_rule_for_criterion 1 " Contains :  all  tests passed "
  = mkRule "criterion-1" "Contains :  all  tests passed" Deterministic (Some "contains") (Some "all  tests passed").
Proof. vm_compute. reflexivity. Qed.
Example rule_2 : validation_rule_for_criterion 2 "The file `src/app.py` exists."
  = mkRule "criterion-2" "The file `src/app.py` exists." Deterministic (Some "file_exists") (Some "src/app.py").
Proof. vm_compute. reflexivity. Qed.
Example rule_3 : kind (validation_rule_for_criterion 3 "The code is readable") = Llm.
Proof. vm_compute. reflexivity. Qed.
Example judge_1 : parse_judge_response (" pass: ok" +:+ nl +:+ nl +:+ " the tests ran ") = (true, "the tests ran"%string).
Proof. vm_compute. reflexivity. Qed.
Example judge_2 : (parse_judge_response "PASSED").1 = false ∧ (parse_judge_response "").1 = false.
Proof. by vm_compute. Qed.
Example exit_code_1 :
  search_group VERIFY_EXIT_CODE 1 ("tests" +:+ nl +:+ "Exit code: -12") = Some "-12"%string.
Proof. vm_compute. reflexivity. Qed.

(** An [exit_code] that is the boolean [False] counts as success. *)
Example false_exit_code_passes :
  verify_outcome "pytest" (VDict [("exit_code", VBool false)]) = (true, "pytest: exit_code=False"%string).
Proof. reflexivity. Qed.
(** The diff check looks for the path anywhere in the text of the diff. *)
Example file_found_inside_a_longer_name :
  (file_exists (mkRule "r" "" Deterministic (Some "file_exists") (Some "app.py"))
     [("diff", VStr "--- a/snapp.py")]).1 = true.
Proof. reflexivity. Qed.

(** ** What counts as evidence *)
Section spec.
Context (compile : string → res re) (llm_judge : option (ValidationRule → pydict → res judged)).

(** A result a command can have that means success. *)
Inductive succeeded : pyval → Prop :=
  | succ_bool : succeeded (VBool true)
  | succ_int : succeeded (VInt 0)
  | succ_exit_code d v : dget "exit_code" d = Some v → (v = VInt 0 ∨ v = VBool false) → succeeded (VDict d)
  | succ_returncode d v :
      dget "exit_code" d = None → dget "returncode" d = Some v → (v = VInt 0 ∨ v = VBool false) →
      succeeded (VDict d).

(** The evidence that makes a rule pass. *)
Inductive evidence_for (context : pydict) : ValidationRule → Prop :=
  | ev_verify i d p cmds outcome :
      p ≠ "" → commands_of context = Some (VDict cmds) → dget p cmds = Some outcome → succeeded outcome →
      evidence_for context (mkRule i d Deterministic (Some "verify_cmd") (Some p))
  | ev_artifact i d p :
      p ≠ "" → p ∈ artifacts_of context → evidence_for context (mkRule i d Deterministic (Some "file_exists") (Some p))
  | ev_diff i d p a b :
      p ≠ "" → text (dget "diff" context) = a +:+ p +:+ b →
      evidence_for context (mkRule i d Deterministic (Some "file_exists") (Some p))
  | ev_regex i d p r :
      p ≠ "" → compile p = Ok r → occurs_in r (actual_output context) →
      evidence_for context (mkRule i d Deterministic (Some "regex") (Some p))
  | ev_contains i d p a b :
      p ≠ "" → actual_output context = a +:+ p +:+ b →
      evidence_for context (mkRule i d Deterministic (Some "contains") (Some p))
  | ev_judge i d c p judge v :
      llm_judge = Some judge →
      judge (mkRule i d Llm c p) (restrict JUDGE_KEYS context) = Ok v →
      py_truthy (match v with JValue x => x | JPair x _ => x end) = true →
      evidence_for context (mkRule i d Llm c p).

Lemma param_text_Some i d k c o p : param_text (mkRule i d k c o) = Some p ↔ o = Some p ∧ p ≠ "".
Proof.
  unfold param_text. simpl. destruct o as [[|ch s]|]; simpl; split; try done.
  - by intros [[= <-] ?].
  - by intros [= <-].
  - by intros [[= <-] _].
  - by intros [? _].
Qed.

Lemma verify_outcome_iff p v : (verify_outcome p v).1 = true ↔ succeeded v.
Proof.
  split.
  - destruct v as [|b|z| | | |d|]; simpl; try done.
    + intros ->. constructor.
    + intros ->%Z.eqb_eq. constructor.
    + destruct (dget "exit_code" d) as [x|] eqn:E.
      * destruct x as [|b|z| | | | |]; simpl; try done; intros H%Z.eqb_eq; eapply succ_exit_code; [exact E| |exact E|].
        { right. by destruct b. }
        { left. by subst. }
      * destruct (dget "returncode" d) as [x|] eqn:E'; [|done].
        destruct x as [|b|z| | | | |]; simpl; try done; intros H%Z.eqb_eq;
          (eapply succ_returncode; [exact E|exact E'|]).
        { right. by destruct b. }
        { left. by subst. }
  - intros [| |d x H [->| ->]|d x H H' [->| ->]]; simpl; try done.
    + by rewrite H.
    + by rewrite H.
    + by rewrite H, H'.
    + by rewrite H, H'.
Qed.

Lemma existsb_str p l : existsb (String.eqb p) l = true ↔ p ∈ l.
Proof.
  rewrite existsb_exists. split.
  - intros (x & Hx & ->%String.eqb_eq). by apply list_elem_of_In.
  - intros H. exists p. split; [by apply list_elem_of_In|apply String.eqb_refl].
Qed.

Lemma checker_cases x ch : dget x (DETERMINISTIC_CHECKERS compile) = Some ch →
  x = "verify_cmd" ∧ ch = verify_command ∨ x = "file_exists" ∧ ch = file_exists ∨
  x = "regex" ∧ ch = regex compile ∨ x = "contains" ∧ ch = contains_text.
Proof.
  intros H%dget_Some_elem. unfold DETERMINISTIC_CHECKERS in H.
  rewrite !elem_of_cons, elem_of_nil in H. naive_solver.
Qed.

(** The executable checks decide [evidence_for]. *)
Lemma run_rule_iff context r :
  passed (run_rule compile llm_judge context r) = true ↔ evidence_for context r.
Proof.
  destruct r as [i d k c o]. split.
  - unfold run_rule. cbn [kind check]. destruct k.
    + destruct (dget (default "" c) (DETERMINISTIC_CHECKERS compile)) as [ch|] eqn:Hch; [|done].
      apply checker_cases in Hch as [[Hc ->]|[[Hc ->]|[[Hc ->]|[Hc ->]]]];
        (destruct c as [c|]; cbn in Hc; [subst c|discriminate Hc]).
      * unfold verify_command. destruct (param_text _) as [p|] eqn:Hp; [|done].
        apply param_text_Some in Hp as [-> Hp]. destruct (commands_of context) as [[]|] eqn:Hcmd; try done.
        destruct (dget p _) as [outcome|] eqn:Ho; [|done].
        destruct (verify_outcome p outcome) as [ok why] eqn:Ev. simpl. intros ->.
        eapply ev_verify; eauto. apply (verify_outcome_iff p). by rewrite Ev.
      * unfold file_exists. destruct (param_text _) as [p|] eqn:Hp; [|done].
        apply param_text_Some in Hp as [-> Hp]. destruct (existsb _ _) eqn:Hx.
        { intros _. apply ev_artifact; [done|]. by apply existsb_str. }
        destruct (contains p _) eqn:Hk; [|done]. intros _.
        apply contains_iff in Hk as (a & b & Hk). by eapply ev_diff.
      * unfold regex. destruct (param_text _) as [p|] eqn:Hp; [|done].
        apply param_text_Some in Hp as [-> Hp]. destruct (compile p) as [r|] eqn:Hr; [|done].
        simpl. intros H. bool_prop. eapply ev_regex; [done|done|]. by apply re_search_spec.
      * unfold contains_text. destruct (param_text _) as [p|] eqn:Hp; [|done].
        apply param_text_Some in Hp as [-> Hp]. simpl. intros (a & b & Hk)%contains_iff. by eapply ev_contains.
    + unfold run_llm_judge. destruct llm_judge as [judge|] eqn:Ej; [|done].
      destruct (judge _ _) as [v|] eqn:Ev; [|done]. intros H. eapply ev_judge; [done|exact Ev|]. by destruct v.
  - intros H. destruct H as [i' d' p cmds outcome Hp Hcmd Ho Hs|i' d' p Hp Hin|i' d' p a b Hp Hk|i' d' p r Hp Hr Hs|i' d' p a b Hp Hk|i' d' c' p judge v Hj Hv Ht].
    + cbn. unfold verify_command. rewrite (proj2 (param_text_Some _ _ _ _ _ p)) by done. rewrite Hcmd, Ho.
      apply (verify_outcome_iff p) in Hs. by destruct (verify_outcome p outcome).
    + cbn. unfold file_exists. rewrite (proj2 (param_text_Some _ _ _ _ _ p)) by done.
      apply existsb_str in Hin. by rewrite Hin.
    + cbn. unfold file_exists. rewrite (proj2 (param_text_Some _ _ _ _ _ p)) by done.
      destruct (existsb _ _); [done|]. rewrite (proj2 (contains_iff p _)) by eauto. done.
    + cbn. unfold regex. rewrite (proj2 (param_text_Some _ _ _ _ _ p)) by done. rewrite Hr. simpl.
      by apply bool_decide_eq_true, re_search_spec.
    + cbn. unfold contains_text. rewrite (proj2 (param_text_Some _ _ _ _ _ p)) by done. simpl.
      apply contains_iff. eauto.
    + unfold run_rule, run_llm_judge. cbn [kind]. rewrite Hj. cbn iota. rewrite Hv. by destruct v.
Qed.

(** Only five keys of the context are looked at. *)
Definition EVIDENCE_KEYS : list string :=
  ["verify_commands"; "verify_cmds"; "verify_output"; "diff"; "artifacts"].

Lemma run_rule_agree c1 c2 r : (∀ k, k ∈ EVIDENCE_KEYS → dget k c1 = dget k c2) →
  run_rule compile llm_judge c1 r = run_rule compile llm_judge c2 r.
Proof.
  intros H.
  assert (commands_of c1 = commands_of c2) as Hc.
  { unfold commands_of. by rewrite (H "verify_commands"), (H "verify_cmds") by (unfold EVIDENCE_KEYS; set_solver). }
  assert (dget "verify_output" c1 = dget "verify_output" c2) as Ho by (apply H; unfold EVIDENCE_KEYS; set_solver).
  assert (dget "diff" c1 = dget "diff" c2) as Hd by (apply H; unfold EVIDENCE_KEYS; set_solver).
  assert (dget "artifacts" c1 = dget "artifacts" c2) as Ha by (apply H; unfold EVIDENCE_KEYS; set_solver).
  assert (artifacts_of c1 = artifacts_of c2) as Hl by (unfold artifacts_of; by rewrite Ha).
  assert (actual_output c1 = actual_output c2) as Hout by (unfold actual_output; by rewrite Ho, Hd, Hl).
  assert (restrict JUDGE_KEYS c1 = restrict JUDGE_KEYS c2) as Hr.
  { unfold restrict, JUDGE_KEYS. simpl. by rewrite Ho, Hd, Ha. }
  unfold run_rule. destruct (kind r).
  - destruct (dget (default "" (check r)) (DETERMINISTIC_CHECKERS compile)) as [ch|] eqn:Hch; [|done]. replace (ch r c2) with (ch r c1); [done|].
    apply checker_cases in Hch as [[_ ->]|[[_ ->]|[[_ ->]|[_ ->]]]];
      unfold verify_command, file_exists, regex, contains_text; by rewrite ?Hc, ?Hd, ?Hl, ?Hout.
  - unfold run_llm_judge. by rewrite Hr.
Qed.
End spec.

(** Validation is bounded by evidence and fails closed.  Every rule gets
    one result, in order; a rule passes exactly when the supplied evidence
    establishes it (a command result that means success, a path among the
    artifacts or in the diff, a match or an occurrence in the output, or a
    judge that was injected, answered and said yes); everything else, a
    missing parameter, an unknown check, a pattern that does not parse, a judge
    that raises, fails; and nothing of the context but the five evidence keys
    has any influence. *)
Theorem validation_evidence_bounded compile rules context judge :
  map result_rule_id (run_validation compile rules context judge) = map rule_id rules ∧
  (∀ i r x, rules !! i = Some r → run_validation compile rules context judge !! i = Some x →
     (passed x = true ↔ evidence_for compile judge context r)) ∧
  (∀ context', (∀ k, k ∈ EVIDENCE_KEYS → dget k context = dget k context') →
     run_validation compile rules context' judge = run_validation compile rules context judge).
Proof.
  unfold run_validation. split_and!.
  - rewrite map_map. apply map_ext. intros r. unfold run_rule, run_llm_judge. destruct (kind r).
    + destruct (dget _ _) as [ch|]; [|done]. by destruct (ch r context).
    + destruct judge as [j|]; [|done]. by destruct (j _ _) as [[]|].
  - intros i r x Hr Hx. change (map ?f ?l) with (f <$> l) in Hx. rewrite list_lookup_fmap, Hr in Hx.
    injection Hx as <-. apply run_rule_iff.
  - intros c' H. apply map_ext. intros r. symmetry. by apply run_rule_agree.
Qed.
