(* ===== verification/SkillAuthoring.v ===== *)
(** * Authored skills (agent_os/skill_authoring.py)

    The requests of a workspace are the rows of a table (their JSON columns
    hold the values they encode); the staging and approved packages and the
    configuration are files of the workspace.  A service operation reads its
    request in one transaction and writes it in another; the operations run
    here one after the other, and [Race] below shows what an interleaving can
    do.  SHA-256, the TOML parser, the execution of a module, the loading of a
    configuration and the reload of the server are parameters. *)
From S2P Require Export SkillPackages FileTree Table.
From S2P Require Import Validation Float.

Definition AUTHORING_DB_NAME : string := "skill_authoring.db".
Definition DRAFTS_DIRECTORY : string := "skill-drafts".
Definition APPROVED_DIRECTORY : string := "skill-packages".

Inductive authoring_status := BriefReady | ValidationFailed | Validated | Cancelled | Registered.
#[export] Instance authoring_status_eq_dec : EqDecision authoring_status.
Proof. solve_decision. Defined.
Definition authoring_status_str (s : authoring_status) : string :=
  match s with
  | BriefReady => "brief_ready" | ValidationFailed => "validation_failed" | Validated => "validated"
  | Cancelled => "cancelled" | Registered => "registered"
  end.

Record CandidateAuthoringInput := mkCandidate {
  candidate_id : string; signature : string; ca_task_kind : string;
  occurrence_count : Z; success_count : Z; ca_outcome_score : SpecFloat.spec_float;
  sample_run_ids : list string; suggested_skill_name : string; rationale : string }.

Definition length_in (lo hi : nat) (s : string) : bool := (lo <=? String.length s)%nat && (String.length s <=? hi)%nat.
(** The constraints of the fields. *)
Definition candidate_ok (c : CandidateAuthoringInput) : bool :=
  length_in 1 160 (candidate_id c) && length_in 1 128 (signature c) && length_in 1 80 (ca_task_kind c)
  && (1 <=? occurrence_count c) && (0 <=? success_count c)
  && SpecFloat.SFleb fzero (ca_outcome_score c) && SpecFloat.SFleb (ca_outcome_score c) (of_int 1)
  && (length (sample_run_ids c) <=? 3)%nat
  && length_in 1 120 (suggested_skill_name c) && length_in 1 900 (rationale c).

Record AuthoringRequest := mkRequest {
  request_id : string; ar_workspace_id : string; candidate : CandidateAuthoringInput; brief : pydict;
  ar_status : authoring_status; prepared_at : Z;
  draft_path : option string; draft_digest : option string; validation : option pydict;
  registration_confirmed_at : option Z; registered_at : option Z; registration_result : option pydict;
  ar_error : option string }.

Record ValidationAudit := mkAudit {
  au_digest : string; au_summary : pydict; au_passed : bool; au_package_path : string }.

(** ** The store *)
Notation requests := (list AuthoringRequest).

Definition get_request (rid : string) (rows : requests) : option AuthoringRequest :=
  select_one (has_key request_id rid) rows.
(** [ORDER BY prepared_at DESC, request_id ASC] *)
Definition newest_first (a b : AuthoringRequest) : bool :=
  if prepared_at b <? prepared_at a then true
  else if prepared_at a <? prepared_at b then false else str_leb (request_id a) (request_id b).
Definition list_requests (workspace_id : string) (rows : requests) : requests :=
  sort_by newest_first (select (λ r, String.eqb (ar_workspace_id r) workspace_id) rows).

(** The primary key and the unique pair of the table. *)
Definition create_request (r : AuthoringRequest) (rows : requests) : res requests :=
  if existsb (λ x, String.eqb (request_id x) (request_id r)
                   || (String.eqb (ar_workspace_id x) (ar_workspace_id r)
                       && String.eqb (candidate_id (candidate x)) (candidate_id (candidate r)))) rows
  then Raise (SkillAuthoringError "An immutable authoring brief already exists for this candidate")
  else Ok (rows ++ [r]).

Definition set_validation (status : authoring_status) (path : string) (audit : ValidationAudit) (err : option string)
    (r : AuthoringRequest) : AuthoringRequest :=
  mkRequest (request_id r) (ar_workspace_id r) (candidate r) (brief r) status (prepared_at r)
    (Some path) (Some (au_digest audit)) (Some (au_summary audit))
    (registration_confirmed_at r) (registered_at r) (registration_result r) err.
Definition set_registered (confirmed_at now : Z) (result : pydict) (r : AuthoringRequest) : AuthoringRequest :=
  mkRequest (request_id r) (ar_workspace_id r) (candidate r) (brief r) Registered (prepared_at r)
    (draft_path r) (draft_digest r) (validation r) (Some confirmed_at) (Some now) (Some result) None.
Definition set_cancelled (r : AuthoringRequest) : AuthoringRequest :=
  mkRequest (request_id r) (ar_workspace_id r) (candidate r) (brief r) Cancelled (prepared_at r)
    (draft_path r) (draft_digest r) (validation r)
    (registration_confirmed_at r) (registered_at r) (registration_result r) None.

(** An UPDATE by key and the SELECT that follows it. *)
Definition update_request (rid : string) (g : AuthoringRequest → AuthoringRequest) (rows : requests)
    : res AuthoringRequest * requests :=
  let rows' := update_where (has_key request_id rid) g rows in
  (match get_request rid rows' with
   | Some r => Ok r
   | None => Raise (SkillAuthoringError "Authoring request not found")
   end, rows').

(** ** The text of the configuration *)

(** [value.splitlines(keepends=True)] *)
Fixpoint lines_keepends (s : string) : list string :=
  match s with
  | EmptyString => []
  | String c s' =>
      if line_break c && negb ((code c =? 13) && startswith nl s') then String c "" :: lines_keepends s'
      else match lines_keepends s' with
           | l :: ls => String c l :: ls
           | [] => [String c ""]
           end
  end.
(** A line whose first key is [skills]. *)
Definition is_skills_line (line : string) : bool :=
  let stripped := lstrip line in startswith "skills" stripped && startswith "=" (lstrip (sdrop 6 stripped)).
Fixpoint skills_start (offset : nat) (lines : list string) : option nat :=
  match lines with
  | [] => None
  | line :: lines' => if is_skills_line line then Some offset else skills_start (offset + String.length line) lines'
  end.
Definition top_level_skills_list_start (content : string) : option nat := skills_start 0 (lines_keepends content).

(** The scan for the bracket that closes the list: the offset after it.
    [quote] is the open quote, [escaped] follows a backslash inside it. *)
Fixpoint list_end (s : string) (index depth : nat) (quote : option ascii) (escaped : bool) : option nat :=
  match s with
  | EmptyString => None
  | String char s' =>
      match quote with
      | Some q =>
          if escaped then list_end s' (S index) depth quote false
          else if Ascii.eqb char backslash then list_end s' (S index) depth quote true
          else list_end s' (S index) depth (if Ascii.eqb char q then None else quote) false
      | None =>
          if is_quote char then list_end s' (S index) depth (Some char) false
          else if Ascii.eqb char "[" then list_end s' (S index) (S depth) None false
          else if Ascii.eqb char "]" then
            if (depth =? 1)%nat then Some (S index) else list_end s' (S index) (pred depth) None false
          else list_end s' (S index) depth None false
      end
  end.
Fixpoint find_char (c : ascii) (s : string) : option nat :=
  match s with
  | EmptyString => None
  | String d s' => if Ascii.eqb d c then Some O else S <$> find_char c s'
  end.
Definition matching_list_end (content : string) (start : nat) : option nat :=
  match find_char "[" (sdrop start content) with
  | None => None
  | Some k => list_end (sdrop (start + k) content) (start + k) 0 None false
  end.

Definition render_skills (items : list string) : string :=
  "skills = [" +:+ nl +:+ String.concat "" (map (λ item, "  " +:+ json_string item +:+ "," +:+ nl) items) +:+ "]".

Definition string_list (v : option pyval) : option (list string) :=
  match v with
  | Some (VList l) => mapM (λ x, match x with VStr s => Some s | _ => None end) l
  | _ => None
  end.

Section authoring.
Context (fuel : nat) (sha256 : string → string) (toml_loads : string → option pydict).
Context (exec_module : path → fs → option module) (compile : string → res PyRe.re) (home : string → option path).
Context (load_config : path → fs → res unit) (reload : fs → res unit).
Implicit Types (f : fs).

Definition add_skill_path_to_workspace_toml (original p : string) : res string :=
  parsed ← match toml_loads original with Some d => Ok d | None => Raise (ValueError "TOMLDecodeError") end;
  match string_list (dget "skills" parsed) with
  | None => Raise (SkillAuthoringError "workspace.toml has no writable top-level skills list")
  | Some skills =>
      if mem_str p skills then Raise (SkillAuthoringError "Skill path is already configured")
      else
        match top_level_skills_list_start original with
        | None => Raise (SkillAuthoringError "workspace.toml has no writable top-level skills list")
        | Some start =>
            match matching_list_end original start with
            | None => Raise (SkillAuthoringError "workspace.toml skills list is malformed")
            | Some stop =>
                let updated := stake start original +:+ render_skills (skills ++ [p]) +:+ sdrop stop original in
                match toml_loads updated with
                | Some _ => Ok updated
                | None => Raise (SkillAuthoringError "Could not write a valid workspace skills list")
                end
            end
        end
  end.

(** ** The workspace and its packages *)
Context (base_path : path) (ws_skills : list string) (cwd : path).

Definition workspace_id : string := abs_str base_path.
Definition staging_root f : res path := realpath fuel f (base_path ++ [DRAFTS_DIRECTORY]).

(** [Path(s).expanduser()] *)
Definition expanduser (s : string) : res purepath :=
  let p := parse_path s in
  match components p with
  | u :: rest =>
      if negb (absolute p) && startswith "~" u then
        match home (sdrop 1 u) with
        | Some h => Ok (mkPath true (h ++ rest))
        | None => Raise (RuntimeError "Could not determine home directory.")
        end
      else Ok p
  | [] => Ok p
  end.

(** No configured skill directory contains the package, nor the converse. *)
Fixpoint outside_configured (package_dir : path) (skills : list string) f : res unit :=
  match skills with
  | [] => Ok ()
  | configured :: skills' =>
      p ← expanduser configured;
      q ← realpath fuel f (join_path cwd p);
      if is_relative_to q package_dir || is_relative_to package_dir q then
        Raise (SkillAuthoringError "Draft package must remain outside configured skill directories")
      else outside_configured package_dir skills' f
  end.

Definition resolve_staging_package (value : string) f : res path :=
  raw ← expanduser value;
  if negb (absolute raw) then Raise (SkillAuthoringError "Draft path must be an absolute canonical staging path")
  else
    match walk fuel f (components raw) with
    | Raise _ => Raise (SkillAuthoringError "Draft package path does not exist")
    | Ok package_dir =>
        if negb (bool_decide (is_Some (lookup_node f package_dir))) then
          Raise (SkillAuthoringError "Draft package path does not exist")
        else
          root ← staging_root f;
          if negb (is_relative_to root package_dir) || bool_decide (package_dir = root) then
            Raise (SkillAuthoringError "Draft package must be inside the canonical skill-drafts directory")
          else if negb (is_dir fuel f package_dir && is_file fuel f (package_dir ++ ["manifest.toml"])) then
            Raise (SkillAuthoringError "Draft package requires a manifest.toml directory")
          else
            _ ← outside_configured package_dir ws_skills f;
            Ok package_dir
    end.

(** The bytes that the digest hashes. *)
Definition nul : string := String (chr 0) "".
Definition digest_skips (entry : path) : bool :=
  mem_str "__pycache__" entry || String.eqb (stem_suffix (path_name entry)).2 ".pyc".
Definition is_symlink f (p : path) : bool := match f !! p with Some (NLink _) => true | _ => false end.
Fixpoint digest_input (package_dir : path) (entries : list path) f : res string :=
  match entries with
  | [] => Ok ""
  | entry :: entries' =>
      if is_symlink f entry then Raise (SkillAuthoringError "Draft packages cannot contain symbolic links")
      else
        match f !! entry with
        | Some (NFile content _) =>
            if digest_skips entry then digest_input package_dir entries' f
            else
              rest ← digest_input package_dir entries' f;
              Ok (utf8 (as_posix (default [] (relative_parts package_dir entry))) +:+ nul +:+ utf8 content +:+ nul +:+ rest)
        | _ => digest_input package_dir entries' f
        end
  end.
Definition package_digest (package_dir : path) f : res string :=
  input ← digest_input package_dir (descendants f package_dir) f;
  Ok (hexdigest (sha256 input)).

(** The two rules, and the evidence of the preflight process. *)
Definition preflight_command (package_dir : path) : string := "skill-package-preflight:" +:+ abs_str package_dir.
Definition preflight_rules (package_dir : path) : list ValidationRule :=
  [mkRule "manifest-present" "Draft package includes manifest.toml" Deterministic (Some "file_exists"%string)
     (Some (abs_str (package_dir ++ ["manifest.toml"])));
   mkRule "isolated-loader-preflight" "Fresh registry loads the manifest and expected handler" Deterministic
     (Some "verify_cmd"%string) (Some (preflight_command package_dir))].
Definition preflight_context (package_dir : path) (returncode : Z) (output : string) : pydict :=
  [("artifacts", VList [VStr (abs_str (package_dir ++ ["manifest.toml"]))]);
   ("verify_commands", VDict [(preflight_command package_dir,
      VDict [("exit_code", VInt returncode); ("output", VStr output)])])].

Definition all_met (summary : pydict) : bool :=
  match dget "total" summary, dget "met" summary with
  | Some (VInt total), Some (VInt met) => (0 <? total) && (met =? total)
  | _, _ => false
  end.

Definition validate_staged_package (package_dir : path) (expected_name : string) f : res ValidationAudit :=
  digest ← package_digest package_dir f;
  let '(returncode, output) := preflight_main fuel toml_loads exec_module base_path [abs_str package_dir; expected_name] f in
  let summary := summarize (run_validation compile (preflight_rules package_dir)
                              (preflight_context package_dir returncode (strip output)) None) in
  Ok (mkAudit digest summary (all_met summary) (abs_str package_dir)).

(** ** Promotion *)
Definition config_path : path := base_path ++ ["workspace.toml"].

(** [shutil.copytree(src, dst, symlinks=False)] of a tree without links, which
    is what [package_digest] has let through. *)
Definition copytree (src dst : path) f : res fs :=
  if existsb (is_symlink f) (descendants f src) then Raise (OtherError "copytree of a link")
  else
    f1 ← mkdirs fuel (path_parent dst) f;
    if bool_decide (is_Some (f1 !! dst)) then Raise (OtherError "FileExistsError")
    else Ok (copy_nodes src dst f1).

(** Where the package goes, and the hidden name under which it is copied; the
    approved directory is created. *)
Definition promotion_paths (uuid expected_name : string) f : res (path * path) * fs :=
  match (root ← realpath fuel f (base_path ++ [APPROVED_DIRECTORY]); f1 ← mkdirs fuel root f; Ok (root, f1)) with
  | Raise exc => (Raise exc, f)
  | Ok (destination_root, f1) =>
      (destination ← realpath fuel f1 (join_path destination_root (parse_path expected_name));
       if negb (is_relative_to destination_root destination) || exists_ fuel f1 destination then
         Raise (SkillAuthoringError "Approved package destination is unavailable")
       else
         temp ← realpath fuel f1
                  (destination_root ++ components (parse_path ("." +:+ expected_name +:+ "." +:+ uuid +:+ ".tmp")));
         Ok (destination, temp), f1)
  end.

(** The copy is moved to its place, the configuration checked, replaced and
    reloaded; a failure puts the original text back and removes the package. *)
Definition swap_config (now : Z) (temp_destination destination config_temp : path) (original : string) f
    : res unit * fs :=
  if negb (is_dir fuel f (path_parent destination)) then
    (Raise (OtherError "FileNotFoundError"), delete config_temp f)
  else
    let f4 := rename_tree temp_destination destination f in
    match load_config config_temp f4 with
    | Raise exc => (Raise exc, rmtree destination (delete config_temp f4))
    | Ok _ =>
        match rename_file config_temp config_path f4 with
        | Raise exc => (Raise exc, rmtree destination f4)
        | Ok f5 =>
            match reload f5 with
            | Ok _ => (Ok (), f5)
            | Raise _ =>
                (Raise (SkillAuthoringError "Workspace reload failed; configuration was rolled back"),
                 rmtree destination (<[config_path := NFile original now]> f5))
            end
        end
    end.

(** The copy loads alone and the new configuration is written beside the old. *)
Definition prepare_config (temp_destination destination : path) (expected_name : string) f : res (string * string) :=
  _ ← assert_fresh_loader fuel toml_loads exec_module temp_destination expected_name f;
  original ← read_text fuel f config_path;
  updated ← add_skill_path_to_workspace_toml original (abs_str destination);
  Ok (original, updated).

Definition promote_and_register (now : Z) (uuid : string) (config_temp_name : string) (package_dir : path)
    (expected_name : string) f : res pydict * fs :=
  match promotion_paths uuid expected_name f with
  | (Raise exc, f1) => (Raise exc, f1)
  | (Ok (destination, temp_destination), f1) =>
      match copytree package_dir temp_destination f1 with
      | Raise exc => (Raise exc, f1)
      | Ok f2 =>
          match prepare_config temp_destination destination expected_name f2 with
          | Raise exc => (Raise exc, rmtree temp_destination f2)
          | Ok (original, updated) =>
              let config_temp := base_path ++ [config_temp_name] in
              match swap_config now temp_destination destination config_temp original
                      (<[config_temp := NFile updated now]> f2) with
              | (Raise exc, f') => (Raise exc, rmtree temp_destination f')
              | (Ok _, f') =>
                  (Ok [("package_path", VStr (abs_str destination));
                       ("registered_skill_name", VStr expected_name)], f')
              end
          end
      end
  end.

(** ** The service *)
Definition state := (requests * fs)%type.

Definition build_brief (rid : string) (c : CandidateAuthoringInput) f : res pydict :=
  staging ← staging_root f;
  Ok [("version", VStr "skill-authoring-v1"); ("request_id", VStr rid); ("candidate_id", VStr (candidate_id c));
      ("suggested_skill_name", VStr (suggested_skill_name c)); ("task_signature", VStr (signature c));
      ("task_kind", VStr (ca_task_kind c)); ("rationale", VStr (rationale c));
      ("sample_run_ids", VList (map VStr (sample_run_ids c))); ("staging_directory", VStr (abs_str staging));
      ("constraints", VList (map VStr
        ["A human must author the package; this request does not generate code.";
         "Keep the draft outside configured skill directories until validation passes.";
         "Registration requires a separate explicit confirmation after deterministic validation."]%string))].

Definition prepare_brief (rid : string) (c : CandidateAuthoringInput) (now : Z) (st : state) : res AuthoringRequest * state :=
  match
    b ← build_brief rid c st.2;
    let r := mkRequest rid workspace_id c b BriefReady now None None None None None None None in
    rows ← create_request r st.1;
    Ok (r, rows)
  with
  | Ok (r, rows) => (Ok r, (rows, st.2))
  | Raise exc => (Raise exc, st)
  end.

Definition require_request (rid : string) (allowed : list authoring_status) (rows : requests) : res AuthoringRequest :=
  match get_request rid rows with
  | None => Raise (SkillAuthoringError "Authoring request not found")
  | Some r =>
      if negb (String.eqb (ar_workspace_id r) workspace_id) then Raise (SkillAuthoringError "Authoring request not found")
      else if bool_decide (ar_status r ∈ allowed) then Ok r
      else Raise (SkillAuthoringError ("Authoring request is not ready for this action: " +:+ authoring_status_str (ar_status r)))
  end.
Definition open_statuses : list authoring_status := [BriefReady; ValidationFailed; Validated].

Definition submit_draft (rid path_text : string) (st : state) : res AuthoringRequest * state :=
  match
    r ← require_request rid open_statuses st.1;
    package_dir ← resolve_staging_package path_text st.2;
    audit ← validate_staged_package package_dir (suggested_skill_name (candidate r)) st.2;
    Ok (package_dir, audit)
  with
  | Raise exc => (Raise exc, st)
  | Ok (package_dir, audit) =>
      let '(out, rows) :=
        update_request rid
          (set_validation (if au_passed audit then Validated else ValidationFailed) (abs_str package_dir) audit
             (if au_passed audit then None else Some "Validation did not meet every deterministic rule"%string)) st.1 in
      (out, (rows, st.2))
  end.

Definition confirm_registration (rid : string) (confirm : bool) (now : Z) (uuid config_temp_name : string) (st : state)
    : res AuthoringRequest * state :=
  if negb confirm then (Raise (SkillAuthoringError "Final registration requires explicit confirm=true"), st)
  else
    match
      r ← require_request rid [Validated] st.1;
      match draft_path r, draft_digest r with
      | Some p, Some d =>
          if sempty p || sempty d then Raise (SkillAuthoringError "Validated draft evidence is missing")
          else
            package_dir ← resolve_staging_package p st.2;
            digest ← package_digest package_dir st.2;
            if negb (String.eqb digest d) then
              Raise (SkillAuthoringError "Draft changed after validation; submit it for validation again")
            else
              audit ← validate_staged_package package_dir (suggested_skill_name (candidate r)) st.2;
              Ok (r, d, package_dir, audit)
      | _, _ => Raise (SkillAuthoringError "Validated draft evidence is missing")
      end
    with
    | Raise exc => (Raise exc, st)
    | Ok (r, d, package_dir, audit) =>
        if negb (au_passed audit) || negb (String.eqb (au_digest audit) d) then
          let '(out, rows) :=
            update_request rid (set_validation ValidationFailed (abs_str package_dir) audit
              (Some "Revalidation failed before registration"%string)) st.1 in
          (_ ← out; Raise (SkillAuthoringError "Revalidation failed; registry and workspace configuration were left unchanged"),
           (rows, st.2))
        else
          match promote_and_register now uuid config_temp_name package_dir (suggested_skill_name (candidate r)) st.2 with
          | (Raise exc, f') => (Raise exc, (st.1, f'))
          | (Ok result, f') =>
              let '(out, rows) := update_request rid (set_registered now now result) st.1 in (out, (rows, f'))
          end
    end.

Definition cancel (rid : string) (st : state) : res AuthoringRequest * state :=
  match require_request rid open_statuses st.1 with
  | Raise exc => (Raise exc, st)
  | Ok r => let '(out, rows) := update_request (request_id r) set_cancelled st.1 in (out, (rows, st.2))
  end.
End authoring.

(** ** Promotion is all or nothing *)
Section promotion.
Context (fuel : nat) (toml_loads : string → option pydict) (exec_module : path → fs → option module).
Context (load_config : path → fs → res unit) (reload : fs → res unit) (base_path : path).
Implicit Types (f : fs).
Notation config_path := (config_path base_path).

(** A directory that was missing. *)
Definition newdir f f' (p : path) : Prop := f !! p = None ∧ f' !! p = Some NDir.

Lemma mkdirs_new root f f1 : canonical f root → mkdirs fuel root f = Ok f1 → ∀ p, f1 !! p = f !! p ∨ newdir f f1 p.
Proof.
  intros Hc Hm p. destruct (mkdirs_go_spec fuel root [] f f1 Hc Hm) as [H _].
  destruct (H p) as [?|(? & ? & _)]; [by left|by right].
Qed.
Lemma newdir_trans f f1 f2 :
  (∀ p, f1 !! p = f !! p ∨ newdir f f1 p) → (∀ p, f2 !! p = f1 !! p ∨ newdir f1 f2 p) →
  ∀ p, f2 !! p = f !! p ∨ newdir f f2 p.
Proof.
  intros H1 H2 p. unfold newdir in *. destruct (H1 p) as [E1|[E1 E1']], (H2 p) as [E2|[E2 E2']]; rewrite ?E2, ?E1 in *; auto.
Qed.

Lemma copytree_spec src dst f f2 : canonical f dst → copytree fuel src dst f = Ok f2 →
  ∃ f1, (∀ p, f1 !! p = f !! p ∨ newdir f f1 p) ∧ f1 !! dst = None ∧ f2 = copy_nodes src dst f1.
Proof.
  intros Hc. unfold copytree. destruct (existsb _ _); [done|]. intros (f1 & Hm & H)%res_bind_ok. case_bool_decide as Hd; [done|].
  injection H as <-. exists f1. split_and!; [|by apply eq_None_not_Some|done].
  apply (mkdirs_new (path_parent dst)); [by apply canonical_parent|done].
Qed.

Lemma promotion_paths_spec uuid name f r f1 : promotion_paths fuel base_path uuid name f = (r, f1) →
  (∀ p, f1 !! p = f !! p ∨ newdir f f1 p) ∧ (∀ d t, r = Ok (d, t) → canonical f1 t).
Proof.
  unfold promotion_paths. destruct (realpath fuel f (base_path ++ [APPROVED_DIRECTORY])) as [root|] eqn:Er;
    [|intros [= <- <-]; split; [by left|done]]. cbn [mbind res_bind].
  destruct (mkdirs fuel root f) as [f1'|] eqn:Em; [|intros [= <- <-]; split; [by left|done]]. cbn [mbind res_bind].
  intros [= <- <-]. split.
  - apply (mkdirs_new root); [by eapply realpath_canonical|done].
  - intros d t H. apply res_bind_ok in H as (d' & _ & H). destruct (_ || _); [done|].
    apply res_bind_ok in H as (t' & Ht & [= -> ->]). by eapply realpath_canonical.
Qed.

Lemma outside_rename t d f p : is_relative_to d p = false → is_relative_to t p = false →
  rename_tree t d f !! p = f !! p.
Proof.
  intros Hd Ht. rewrite rename_tree_lookup, rmtree_lookup, Ht.
  unfold is_relative_to in Hd. apply bool_decide_eq_false in Hd. by destruct (relative_parts d p); [destruct Hd; eauto|].
Qed.

Lemma swap_config_frame now t d ct original f : ct ≠ config_path →
  is_relative_to t ct = false → is_relative_to d ct = false →
  is_relative_to t config_path = false → is_relative_to d config_path = false →
  let '(r, f') := swap_config fuel load_config reload base_path now t d ct original f in
  f' !! ct = None ∧
  (∀ p, p ≠ config_path → p ≠ ct → is_relative_to t p = false → is_relative_to d p = false → f' !! p = f !! p) ∧
  match r with
  | Raise _ =>
      (f' !! config_path = f !! config_path ∨ f' !! config_path = Some (NFile original now)) ∧
      (∀ p, is_relative_to d p = true → is_relative_to t p = false → f' !! p = f !! p ∨ f' !! p = None)
  | Ok _ =>
      reload f' = Ok () ∧ f' !! config_path = f !! ct ∧
      ∀ rel x, f !! (t ++ rel) = Some x → f' !! (d ++ rel) = Some x
  end.
Proof.
  intros Hne Htc Hdc Htf Hdf. unfold swap_config.
  assert (config_path ≠ ct) as Hne' by done.
  destruct (negb (is_dir _ _ _)).
  { split_and!; [apply lookup_delete_eq|intros; by apply lookup_delete_ne|left; by apply lookup_delete_ne|].
    intros p Hp _. destruct (decide (p = ct)) as [->|]; [congruence|left; by apply lookup_delete_ne]. }
  cbn zeta. set (f4 := rename_tree t d f).
  assert (∀ p, is_relative_to d p = false → is_relative_to t p = false → f4 !! p = f !! p) as H4 by (intros; by apply outside_rename).
  destruct (load_config ct f4).
  2: { split_and!; [rewrite rmtree_lookup, Hdc; apply lookup_delete_eq| | |].
       - intros p Hpc Hpt Ht Hd. rewrite rmtree_lookup, Hd, lookup_delete_ne by done. by apply H4.
       - left. rewrite rmtree_lookup, Hdf, lookup_delete_ne by done. by apply H4.
       - intros p Hd _. right. by rewrite rmtree_lookup, Hd. }
  unfold rename_file. destruct (f4 !! ct) as [x|] eqn:Ex.
  2: { split_and!; [by rewrite rmtree_lookup, Hdc| | |].
       - intros p Hpc Hpt Ht Hd. rewrite rmtree_lookup, Hd. by apply H4.
       - left. rewrite rmtree_lookup, Hdf. by apply H4.
       - intros p Hd _. right. by rewrite rmtree_lookup, Hd. }
  set (f5 := <[config_path := x]> (delete ct f4)).
  destruct (reload f5) as [[]|] eqn:Erl.
  - unfold f5. split_and!; [rewrite lookup_insert_ne by done; apply lookup_delete_eq| |done| |].
    + intros p Hpc Hpt Ht Hd. rewrite lookup_insert_ne, lookup_delete_ne by done. by apply H4.
    + rewrite lookup_insert_eq. rewrite <-H4, Ex by done. done.
    + intros rel y Hy. assert (is_relative_to d (d ++ rel) = true) as Hrel by (apply is_relative_to_spec; eauto).
      rewrite lookup_insert_ne by (intros E; rewrite <-E in Hrel; congruence).
      rewrite lookup_delete_ne by (intros E; rewrite <-E in Hrel; congruence).
      unfold f4. rewrite rename_tree_lookup, (proj2 (relative_parts_Some d (d ++ rel) rel) eq_refl). by rewrite Hy.
  - split_and!.
    + rewrite rmtree_lookup, Hdc, lookup_insert_ne by done. unfold f5. rewrite lookup_insert_ne by done. apply lookup_delete_eq.
    + intros p Hpc Hpt Ht Hd. unfold f5. rewrite rmtree_lookup, Hd, !lookup_insert_ne, lookup_delete_ne by done. by apply H4.
    + right. rewrite rmtree_lookup, Hdf. apply lookup_insert_eq.
    + intros p Hd _. right. by rewrite rmtree_lookup, Hd.
Qed.

Lemma newdir_keeps f f' p x : f' !! p = f !! p ∨ newdir f f' p → f !! p = Some x → f' !! p = Some x.
Proof. intros [->|[H _]]; congruence. Qed.

Lemma outside_copy s t f p : is_relative_to t p = false → copy_nodes s t f !! p = f !! p.
Proof.
  intros Ht. rewrite copy_nodes_lookup. unfold is_relative_to in Ht. apply bool_decide_eq_false in Ht.
  by destruct (relative_parts t p); [destruct Ht; eauto|].
Qed.

Lemma read_config f f' raw mt original : canonical f config_path → f !! config_path = Some (NFile raw mt) →
  (∀ q r, config_path = q ++ r → f' !! q = f !! q ∨ newdir f f' q) →
  read_text fuel f' config_path = Ok original → original = universal_newlines raw.
Proof.
  intros [Hd Hl] Hf Hq. assert (canonical f' config_path) as Hc'.
  { split; [done|]. intros q r t E. specialize (Hl q r t E). destruct q as [|c q]; [done|]. simpl in *.
    destruct (Hq (c :: q) r E) as [->|[_ ->]]; done. }
  unfold read_text, stat. intros (x & (q & Hw & Hx)%res_bind_ok & H)%res_bind_ok.
  pose proof (walk_canonical _ _ _ _ Hc' Hw) as ->.
  assert (config_path ≠ []) as Hne by (unfold SkillAuthoring.config_path; by destruct base_path).
  rewrite lookup_node_cons in Hx by done.
  rewrite (newdir_keeps f f' config_path (NFile raw mt)) in Hx; [|by apply (Hq _ []); rewrite app_nil_r|done].
  injection Hx as <-. by injection H as <-.
Qed.

Lemma under_prefix t q r : is_relative_to t (q ++ r) = false → is_relative_to t q = false.
Proof.
  intros H. apply not_true_iff_false. intros (x & ->)%is_relative_to_spec. apply not_true_iff_false in H. apply H.
  apply is_relative_to_spec. exists (x ++ r). by rewrite app_assoc.
Qed.

(** A subtree that holds neither the configuration nor its temporary file. *)
Definition clear_of (ct t : path) : Prop := is_relative_to t config_path = false ∧ is_relative_to t ct = false.

(** Promotion is all or nothing.  If it fails, wherever it fails, the
    configuration file is the one of before (after a rollback, the same text
    with its newlines normalised), its temporary is gone, and every other path
    is as before, is a directory created on the way, or lay under the package's
    destination or its hidden copy, which are empty.  If it succeeds, the
    configuration holds the text with the path added, the server has reloaded
    it, and every node of the package is at its destination. *)
Theorem promote_atomic now uuid config_temp_name package_dir expected_name f raw mt :
  let ct := base_path ++ [config_temp_name] in
  (∀ d t f1, promotion_paths fuel base_path uuid expected_name f = (Ok (d, t), f1) → clear_of ct d ∧ clear_of ct t) →
  f !! config_path = Some (NFile raw mt) → canonical f config_path → ct ≠ config_path → f !! ct = None →
  let '(r, f') := promote_and_register fuel toml_loads exec_module load_config reload base_path now uuid config_temp_name
                    package_dir expected_name f in
  match r with
  | Raise _ =>
      (f' !! config_path = f !! config_path ∨ f' !! config_path = Some (NFile (universal_newlines raw) now)) ∧
      ∀ p, p ≠ config_path → f' !! p = f !! p ∨ newdir f f' p ∨
        (f' !! p = None ∧ ∃ d t f1, promotion_paths fuel base_path uuid expected_name f = (Ok (d, t), f1) ∧
           (is_relative_to d p = true ∨ is_relative_to t p = true))
  | Ok _ =>
      ∃ d t f1 updated, promotion_paths fuel base_path uuid expected_name f = (Ok (d, t), f1) ∧
        add_skill_path_to_workspace_toml toml_loads (universal_newlines raw) (abs_str d) = Ok updated ∧
        f' !! config_path = Some (NFile updated now) ∧ reload f' = Ok () ∧
        ∀ rel x, f !! (package_dir ++ rel) = Some x → f' !! (d ++ rel) = Some x
  end.
Proof.
  intros ct Happ Hf Hcan Hct Hfresh. unfold promote_and_register.
  destruct (promotion_paths fuel base_path uuid expected_name f) as [[[d t]|exc] f1] eqn:Ep; cycle 1.
  { destruct (promotion_paths_spec _ _ _ _ _ Ep) as [H1 _]. split.
    - left. rewrite Hf. by eapply newdir_keeps.
    - intros p _. destruct (H1 p); auto. }
  destruct (promotion_paths_spec _ _ _ _ _ Ep) as [H1 Ht]. specialize (Ht d t eq_refl).
  destruct (Happ d t f1 eq_refl) as [[Hdf Hdc] [Htf Htc]]. fold ct in Hdc, Htc.
  destruct (copytree fuel package_dir t f1) as [f2|exc] eqn:E2; cycle 1.
  { split; [left; rewrite Hf; by eapply newdir_keeps|]. intros p _. destruct (H1 p); auto. }
  destruct (copytree_spec _ _ _ _ Ht E2) as (f1b & H1b & Hfree & ->).
  pose proof (newdir_trans _ _ _ H1 H1b) as Hnew. clear H1 H1b E2.
  set (f2 := copy_nodes package_dir t f1b).
  assert (∀ p, is_relative_to t p = false → f2 !! p = f !! p ∨ newdir f f2 p) as H2.
  { intros p Hp. unfold newdir, f2. rewrite outside_copy by done. apply Hnew. }
  assert (f2 !! config_path = Some (NFile raw mt)) as H2c by (by eapply newdir_keeps; [apply H2|]).
  unfold prepare_config. destruct (assert_fresh_loader _ _ _ _ _ _) as [reg|exc]; cbn [mbind res_bind]; cycle 1.
  { split; [left; rewrite rmtree_lookup, Htf; by rewrite H2c, Hf|]. intros p _. unfold newdir. rewrite rmtree_lookup.
    destruct (is_relative_to t p) eqn:Etp; [right; right; split; [done|eauto 10]|]. destruct (H2 p Etp); auto. }
  assert (∀ p, p ≠ config_path → rmtree t f2 !! p = f !! p ∨ newdir f (rmtree t f2) p ∨
    (rmtree t f2 !! p = None ∧ ∃ d0 t0 f0, (Ok (d, t), f1) = (Ok (d0, t0), f0) ∧ (is_relative_to d0 p = true ∨ is_relative_to t0 p = true))) as Hrm.
  { intros p _. unfold newdir. rewrite rmtree_lookup. destruct (is_relative_to t p) eqn:Etp; [right; right; split; [done|eauto 10]|].
    destruct (H2 p Etp); auto. }
  destruct (read_text fuel f2 config_path) as [original|exc] eqn:Eread; cbn [mbind res_bind]; cycle 1.
  { split; [left; rewrite rmtree_lookup, Htf; by rewrite H2c, Hf|exact Hrm]. }
  assert (original = universal_newlines raw) as ->.
  { eapply (read_config f f2 raw mt); [done|done| |done]. intros q r E. apply H2. apply (under_prefix t q r). by rewrite <-E. }
  destruct (add_skill_path_to_workspace_toml toml_loads (universal_newlines raw) (abs_str d)) as [updated|exc] eqn:Eadd; cbn [mbind res_bind]; cycle 1.
  { split; [left; rewrite rmtree_lookup, Htf; by rewrite H2c, Hf|exact Hrm]. }
  pose proof (swap_config_frame now t d ct (universal_newlines raw) (<[ct := NFile updated now]> f2) Hct Htc Hdc Htf Hdf) as Hs.
  destruct (swap_config _ _ _ _ _ _ _ _ _ _) as [[[]|exc] f'].
  - destruct Hs as (_ & _ & Hre & Hcfg & Hpkg). exists d, t, f1, updated. split_and!; [done|done| |done|].
    + by rewrite Hcfg, lookup_insert_eq.
    + intros rel x Hx. apply Hpkg. assert (is_relative_to t (t ++ rel) = true) as Hrel by (apply is_relative_to_spec; eauto).
      rewrite lookup_insert_ne by (intros E; rewrite <-E in Hrel; congruence).
      unfold f2. rewrite copy_nodes_lookup, (proj2 (relative_parts_Some t (t ++ rel) rel) eq_refl).
      by rewrite (newdir_keeps f f1b (package_dir ++ rel) x (Hnew _) Hx).
  - destruct Hs as (Hgone & Hframe & Hcfg & Hd). split.
    + rewrite rmtree_lookup, Htf. destruct Hcfg as [-> | ->]; [left|by right]. by rewrite lookup_insert_ne, H2c, Hf.
    + intros p Hp. unfold newdir. rewrite rmtree_lookup. destruct (is_relative_to t p) eqn:Etp; [right; right; split; [done|eauto 10]|].
      destruct (decide (p = ct)) as [->|Hpc]; [left; by rewrite Hgone, Hfresh|].
      destruct (is_relative_to d p) eqn:Edp.
      * destruct (Hd p Edp Etp) as [-> | ->]; [|right; right; split; [done|eauto 10]]. rewrite lookup_insert_ne by done.
        destruct (H2 p Etp) as [->|?]; auto.
      * rewrite Hframe, lookup_insert_ne by done. destruct (H2 p Etp) as [->|?]; auto.
Qed.
End promotion.

(** ** The life of a request *)
Section lifecycle.
Context (fuel : nat) (sha256 : string → string) (toml_loads : string → option pydict).
Context (exec_module : path → fs → option module) (compile : string → res PyRe.re) (home : string → option path).
Context (load_config : path → fs → res unit) (reload : fs → res unit).
Context (base_path : path) (ws_skills : list string) (cwd : path).
Implicit Types (f : fs) (st : state) (r : AuthoringRequest).
Notation validate_staged_package := (validate_staged_package fuel sha256 toml_loads exec_module compile base_path).
Notation resolve_staging_package := (resolve_staging_package fuel home base_path ws_skills cwd).
Notation promote_and_register := (promote_and_register fuel toml_loads exec_module load_config reload base_path).
Notation confirm_registration :=
  (confirm_registration fuel sha256 toml_loads exec_module compile home load_config reload base_path ws_skills cwd).
Notation submit_draft := (submit_draft fuel sha256 toml_loads exec_module compile home base_path ws_skills cwd).

(** The calls of the service, and what people do to the files meanwhile. *)
Inductive authoring_op :=
  | OpPrepare (rid : string) (c : CandidateAuthoringInput) (now : Z)
  | OpSubmit (rid path_text : string)
  | OpConfirm (rid : string) (confirm : bool) (now : Z) (uuid config_temp_name : string)
  | OpCancel (rid : string)
  | OpFiles (g : fs → fs).
Definition run_op (o : authoring_op) st : state :=
  match o with
  | OpPrepare rid c now => (prepare_brief fuel base_path rid c now st).2
  | OpSubmit rid p => (submit_draft rid p st).2
  | OpConfirm rid confirm now uuid tmp => (confirm_registration rid confirm now uuid tmp st).2
  | OpCancel rid => (cancel base_path rid st).2
  | OpFiles g => (st.1, g st.2)
  end.
Definition run_ops (l : list authoring_op) st : state := fold_left (λ st o, run_op o st) l st.

Definition terminal r : Prop := ar_status r = Cancelled ∨ ar_status r = Registered.
(** A validated or registered request carries the evidence of a validation
    that met every rule; only a registered one has its time and result. *)
Definition evidence_ok r : Prop :=
  (ar_status r = Validated ∨ ar_status r = Registered →
    ∃ s p d, validation r = Some s ∧ all_met s = true ∧ draft_path r = Some p ∧ draft_digest r = Some d) ∧
  (ar_status r = Registered ↔ is_Some (registered_at r)) ∧
  (ar_status r = Registered ↔ is_Some (registration_result r)).
Definition requests_ok (rows : requests) : Prop := keyed request_id rows ∧ Forall evidence_ok rows.

Lemma require_request_Ok rid allowed rows r : require_request base_path rid allowed rows = Ok r →
  r ∈ rows ∧ request_id r = rid ∧ ar_status r ∈ allowed ∧ ar_workspace_id r = workspace_id base_path.
Proof.
  unfold require_request, get_request. destruct (select_one (has_key request_id rid) rows) as [x|] eqn:E; [|done].
  apply select_one_Some in E as [Hin Hk]. unfold has_key in Hk. destruct (negb _) eqn:Ew; [done|]. case_bool_decide; [|done].
  intros [= ->]. bool_prop. done.
Qed.

Lemma validate_staged_passed d n f a : validate_staged_package d n f = Ok a → au_passed a = all_met (au_summary a).
Proof.
  unfold SkillAuthoring.validate_staged_package. intros (dg & _ & H)%res_bind_ok.
  destruct (preflight_main _ _ _ _ _ _) as [code out]. by injection H as <-.
Qed.

(** One row is replaced; the row was not terminal. *)
Lemma update_row rows r0 rid g : requests_ok rows → r0 ∈ rows → request_id r0 = rid → ¬ terminal r0 →
  (∀ r, request_id (g r) = request_id r) → evidence_ok (g r0) →
  let rows' := (update_request rid g rows).2 in
  requests_ok rows' ∧ ∀ r, r ∈ rows → terminal r → r ∈ rows'.
Proof.
  intros [Hk He] Hin Hid Hnt Hg Heg. cbn [update_request snd]. rewrite Forall_forall in He.
  assert (∀ r, r ∈ rows → has_key request_id rid r = true → r = r0) as Huniq.
  { intros r Hr E. unfold has_key in E. bool_prop. apply (keyed_inj request_id rows); [done..|congruence]. }
  split; [split|].
  - by apply keyed_update.
  - apply Forall_forall. intros r' Hr'. unfold update_where in Hr'. apply list_elem_of_fmap in Hr' as (r & -> & Hr).
    destruct (has_key request_id rid r) eqn:E; [|by apply He]. by rewrite (Huniq r Hr E).
  - intros r Hr Ht. unfold update_where. apply list_elem_of_fmap. exists r. split; [|done].
    destruct (has_key request_id rid r) eqn:E; [|done]. rewrite (Huniq r Hr E) in Ht. done.
Qed.

Lemma open_not_terminal r : ar_status r ∈ open_statuses → ¬ terminal r.
Proof. unfold open_statuses, terminal. intros H [E|E]; rewrite E in H; set_solver. Qed.

Lemma submit_ok rid p st : requests_ok st.1 →
  requests_ok (submit_draft rid p st).2.1 ∧ ∀ r, r ∈ st.1 → terminal r → r ∈ (submit_draft rid p st).2.1.
Proof.
  intros Hok. unfold SkillAuthoring.submit_draft. destruct (_ ≫= _) as [[dir audit]|exc] eqn:E; [|done].
  apply res_bind_ok in E as (r0 & Hr0 & (dir' & Hdir & (a & Ha & [= -> ->])%res_bind_ok)%res_bind_ok).
  apply require_request_Ok in Hr0 as (Hin & Hid & Hst & _). pose proof (validate_staged_passed _ _ _ _ Ha) as Hpass.
  set (g := set_validation _ _ _ _). destruct (update_request rid g st.1) as [out rows] eqn:Eu.
  cbn [snd fst]. replace rows with (update_request rid g st.1).2 by (by rewrite Eu).
  apply (update_row st.1 r0); [done..|by apply open_not_terminal|done|].
  assert (Forall evidence_ok st.1) as He by apply Hok. rewrite Forall_forall in He. specialize (He r0 Hin).
  destruct He as (_ & H2 & H3). pose proof (open_not_terminal r0 Hst) as Hnt. unfold terminal in Hnt.
  unfold evidence_ok, g. cbn. split_and!.
  - intros H. exists (au_summary audit), (abs_str dir), (au_digest audit). split_and!; try done.
    destruct (au_passed audit); [done|]. destruct H; done.
  - rewrite <-H2. destruct (au_passed audit); naive_solver.
  - rewrite <-H3. destruct (au_passed audit); naive_solver.
Qed.

Lemma cancel_ok rid st : requests_ok st.1 →
  requests_ok (cancel base_path rid st).2.1 ∧ ∀ r, r ∈ st.1 → terminal r → r ∈ (cancel base_path rid st).2.1.
Proof.
  intros Hok. unfold cancel. destruct (require_request base_path rid open_statuses st.1) as [r0|exc] eqn:E; [|done].
  apply require_request_Ok in E as (Hin & Hid & Hst & _).
  destruct (update_request (request_id r0) set_cancelled st.1) as [out rows] eqn:Eu. cbn [snd fst].
  replace rows with (update_request (request_id r0) set_cancelled st.1).2 by (by rewrite Eu).
  apply (update_row st.1 r0); [done|done|done|by apply open_not_terminal|done|].
  assert (Forall evidence_ok st.1) as He by apply Hok. rewrite Forall_forall in He. specialize (He r0 Hin).
  destruct He as (_ & H2 & H3). pose proof (open_not_terminal r0 Hst) as Hnt. unfold terminal in Hnt.
  unfold evidence_ok. cbn. rewrite <-H2, <-H3. split_and!; naive_solver.
Qed.

(** What [confirm_registration] has established when it registers. *)
Lemma confirm_cases rid confirm now uuid tmp st :
  let '(out, st') := confirm_registration rid confirm now uuid tmp st in
  (st'.1 = st.1 ∧ ∃ exc, out = Raise exc) ∨
  ∃ r0 p d dir audit, confirm = true ∧ r0 ∈ st.1 ∧ request_id r0 = rid ∧ ar_status r0 = Validated ∧
    draft_path r0 = Some p ∧ draft_digest r0 = Some d ∧
    resolve_staging_package p st.2 = Ok dir ∧ package_digest sha256 dir st.2 = Ok d ∧
    validate_staged_package dir (suggested_skill_name (candidate r0)) st.2 = Ok audit ∧
    ((st'.1 = (update_request rid (set_validation ValidationFailed (abs_str dir) audit
                 (Some "Revalidation failed before registration"%string)) st.1).2 ∧ st'.2 = st.2 ∧ ∃ exc, out = Raise exc) ∨
     (au_passed audit = true ∧ ∃ result,
        promote_and_register now uuid tmp dir (suggested_skill_name (candidate r0)) st.2 = (Ok result, st'.2) ∧
        (out, st'.1) = update_request rid (set_registered now now result) st.1)).
Proof.
  unfold SkillAuthoring.confirm_registration. destruct confirm; cbn [negb]; [|left; eauto].
  match goal with |- context [match ?x with Ok _ => _ | Raise _ => _ end] => destruct x as [[[[r0 d] dir] audit]|exc] eqn:E end; [|left; eauto].
  apply res_bind_ok in E as (r & Hr & E). destruct (draft_path r) as [p|] eqn:Ep; [|done]. destruct (draft_digest r) as [d'|] eqn:Ed; [|done].
  destruct (_ || _); [done|]. apply res_bind_ok in E as (dir' & Hdir & E). apply res_bind_ok in E as (dg & Hdg & E).
  destruct (negb (String.eqb dg d')) eqn:Edg; [done|]. apply res_bind_ok in E as (a & Ha & [= -> -> -> ->]). bool_prop. subst dg.
  apply require_request_Ok in Hr as (Hin & Hid & Hst%list_elem_of_singleton & _).
  destruct (negb (au_passed audit) || _) eqn:Epass.
  - destruct (update_request rid _ st.1) as [out rows] eqn:Eu. right. exists r0, p, d, dir, audit. split_and!; try done.
    left. rewrite Eu. cbn. split_and!; [done..|]. destruct out; cbn; eauto.
  - apply orb_false_iff in Epass as [Hp%negb_false_iff _].
    destruct (promote_and_register _ _ _ _ _ _) as [[result|exc] f'] eqn:Epr; [|left; eauto].
    destruct (update_request rid (set_registered now now result) st.1) as [out rows] eqn:Eu. right.
    exists r0, p, d, dir, audit. split_and!; try done. right. split; [done|]. exists result. by rewrite Eu.
Qed.

Lemma confirm_ok rid confirm now uuid tmp st : requests_ok st.1 →
  let st' := (confirm_registration rid confirm now uuid tmp st).2 in
  requests_ok st'.1 ∧ ∀ r, r ∈ st.1 → terminal r → r ∈ st'.1.
Proof.
  intros Hok. pose proof (confirm_cases rid confirm now uuid tmp st) as Hc.
  destruct (confirm_registration rid confirm now uuid tmp st) as [out st']. cbn [snd].
  destruct Hc as [[-> _]|(r0 & p & d & dir & audit & _ & Hin & Hid & Hst & Hp & Hd & _ & _ & Ha & Hcase)]; [done|].
  assert (Forall evidence_ok st.1) as He by apply Hok. rewrite Forall_forall in He. specialize (He r0 Hin).
  destruct He as (H1 & H2 & H3).
  assert (¬ terminal r0) as Hnt by (intros [E|E]; congruence).
  destruct Hcase as [(-> & _)|(Hpass & result & _ & Heq)].
  - apply (update_row st.1 r0); [done|done|done|done|done|]. unfold evidence_ok. cbn. rewrite <-H2, <-H3, Hst. split_and!; naive_solver.
  - assert (st'.1 = (update_request rid (set_registered now now result) st.1).2) as -> by (by rewrite <-Heq).
    apply (update_row st.1 r0); [done|done|done|done|done|]. unfold evidence_ok. cbn. split_and!; [|by split; eauto..].
    intros _. apply H1. by left.
Qed.

Lemma prepare_ok rid c now st : requests_ok st.1 →
  requests_ok (prepare_brief fuel base_path rid c now st).2.1 ∧
  ∀ r, r ∈ st.1 → terminal r → r ∈ (prepare_brief fuel base_path rid c now st).2.1.
Proof.
  intros Hok. unfold prepare_brief. destruct (_ ≫= _) as [[r rows]|exc] eqn:E; [|done]. cbn [snd fst].
  apply res_bind_ok in E as (b & _ & (rows' & Hc & [= <- <-])%res_bind_ok).
  unfold create_request in Hc. destruct (existsb _ st.1) eqn:Ex; [done|]. injection Hc as <-.
  destruct Hok as [Hk He]. split; [split|].
  - apply keyed_snoc; [done|]. rewrite to_map_select. apply select_one_None. intros x Hx.
    apply not_true_iff_false. intros E. apply not_true_iff_false in Ex. apply Ex, existsb_exists. exists x.
    split; [by apply list_elem_of_In|]. unfold has_key in E. cbn in E. cbn. by rewrite E.
  - apply Forall_app. split; [done|]. repeat constructor; cbn; try naive_solver; intros [? [=]].
  - intros x Hx _. apply elem_of_app. by left.
Qed.

Lemma run_ops_ok l : ∀ st, requests_ok st.1 →
  requests_ok (run_ops l st).1 ∧ ∀ r, r ∈ st.1 → terminal r → r ∈ (run_ops l st).1.
Proof.
  induction l as [|o l IH]; intros st Hok; [done|]. cbn [run_ops fold_left].
  assert (requests_ok (run_op o st).1 ∧ ∀ r, r ∈ st.1 → terminal r → r ∈ (run_op o st).1) as [H1 H2].
  { destruct o; cbn [run_op]; [by apply prepare_ok|by apply submit_ok|by apply confirm_ok|by apply cancel_ok|done]. }
  destruct (IH (run_op o st) H1) as [H3 H4]. split; [exact H3|auto].
Qed.

(** The life of an authoring request, whatever calls the service gets one after
    the other and whatever happens to the files in between: a request that was
    cancelled or registered is never changed again, and every validated or
    registered request carries a digest and a validation in which every rule
    was met. *)
Theorem authoring_lifecycle l1 l2 f r :
  let rows1 := (run_ops l1 ([], f)).1 in
  let rows2 := (run_ops (l1 ++ l2) ([], f)).1 in
  (r ∈ rows1 → terminal r → r ∈ rows2) ∧
  (r ∈ rows1 → ar_status r = Validated ∨ ar_status r = Registered →
    ∃ s p d, validation r = Some s ∧ all_met s = true ∧ draft_path r = Some p ∧ draft_digest r = Some d).
Proof.
  assert (requests_ok []) as H0 by (by repeat constructor). cbn zeta.
  destruct (run_ops_ok l1 ([], f) H0) as [H1 _]. split.
  - intros Hr Ht. unfold run_ops. rewrite fold_left_app. fold (run_ops l1 ([], f)). fold (run_ops l2 (run_ops l1 ([], f))).
    by apply run_ops_ok.
  - intros Hr. destruct H1 as [_ He]. rewrite Forall_forall in He. apply He, Hr.
Qed.

(** C18. Registration is gated: it takes an explicit confirmation, a request that is
    validated, a package that still has the digest of its validation and passes
    it once more, and a promotion that succeeded. *)
Theorem registration_gated rid confirm now uuid tmp st req st' :
  confirm_registration rid confirm now uuid tmp st = (Ok req, st') →
  confirm = true ∧ ∃ r0 p d dir audit result, r0 ∈ st.1 ∧ request_id r0 = rid ∧ ar_status r0 = Validated ∧
    draft_path r0 = Some p ∧ draft_digest r0 = Some d ∧ resolve_staging_package p st.2 = Ok dir ∧
    package_digest sha256 dir st.2 = Ok d ∧
    validate_staged_package dir (suggested_skill_name (candidate r0)) st.2 = Ok audit ∧ au_passed audit = true ∧
    promote_and_register now uuid tmp dir (suggested_skill_name (candidate r0)) st.2 = (Ok result, st'.2) ∧
    (Ok req, st'.1) = update_request rid (set_registered now now result) st.1.
Proof.
  intros H. pose proof (confirm_cases rid confirm now uuid tmp st) as Hc. rewrite H in Hc.
  destruct Hc as [[_ [exc [=]]]|(r0 & p & d & dir & audit & Hcf & Hin & Hid & Hst & Hp & Hd & Hdir & Hdg & Ha & Hcase)].
  destruct Hcase as [(_ & _ & [exc [=]])|(Hpass & result & Hpr & Hu)]. split; [done|]. eauto 20.
Qed.
End lifecycle.

(** Two calls interleaved between their transactions: the write of [submit]
    does not look at the status again, so a request cancelled meanwhile is
    validated. *)
Example Race (r : AuthoringRequest) audit : ar_status r = BriefReady →
  let rows1 := (update_request (request_id r) set_cancelled [r]).2 in
  map ar_status rows1 = [Cancelled] ∧
  map ar_status (update_request (request_id r) (set_validation Validated "p" audit None) rows1).2 = [Validated].
Proof.
  intros _. unfold update_request, update_where, has_key. cbn [snd map]. rewrite String.eqb_refl. cbn. by rewrite String.eqb_refl.
Qed.

(** Different packages with one digest input. *)
Example digest_collision :
  digest_input ["d"] [["d"; "a"]; ["d"; "b"]]
    {[ ["d"; "a"] := NFile "x" 0; ["d"; "b"] := NFile "y" 0 ]}
  = digest_input ["d"] [["d"; "a"]] {[ ["d"; "a"] := NFile ("x" +:+ nul +:+ "b" +:+ nul +:+ "y") 0 ]}.
Proof. vm_compute. reflexivity. Qed.

(** The list that is rewritten is the first line of the form [skills =],
    here in a table below the top-level list with a quoted key. *)
Definition quoted_key_config : string :=
  json_string "skills" +:+ " = []" +:+ nl +:+ "[tool]" +:+ nl +:+ "skills = []" +:+ nl.
Example nested_list_rewritten : top_level_skills_list_start quoted_key_config = Some 21%nat.
Proof. vm_compute. reflexivity. Qed.

(** ** A registration from the brief to the configuration *)
Definition demo_toml_of (s : string) : option pydict :=
  if String.eqb s "m" then demo_toml s
  else if startswith "skills" s then Some [("skills", VList [])] else None.
Definition demo_workspace : fs := {[
  ["w"] := NDir; ["w"; "workspace.toml"] := NFile "skills = []" 0; ["w"; "skill-drafts"] := NDir;
  ["w"; "skill-drafts"; "p"] := NDir; ["w"; "skill-drafts"; "p"; "manifest.toml"] := NFile "m" 0;
  ["w"; "skill-drafts"; "p"; "mod.py"] := NFile "def run" 0 ]}.
Definition demo_candidate : CandidateAuthoringInput :=
  mkCandidate "c1" "sig" "kind" 3 2 fhalf ["r1"] "greet" "often asked".
Definition demo_ops : list authoring_op :=
  [OpPrepare "q1" demo_candidate 1; OpSubmit "q1" "/w/skill-drafts/p"].
Notation demo_promote := (promote_and_register 20 demo_toml_of demo_module (λ _ _, Ok ()) (λ _, Ok ()) ["w"]).
Notation demo_run := (run_ops 20 (λ s, s) demo_toml_of demo_module (λ _, Raise (ValueError "re")) (λ _, None)
                        (λ _ _, Ok ()) (λ _, Ok ()) ["w"] [] ["w"]).
Notation demo_confirm := (confirm_registration 20 (λ s, s) demo_toml_of demo_module (λ _, Raise (ValueError "re")) (λ _, None)
                        (λ _ _, Ok ()) (λ _, Ok ()) ["w"] [] ["w"]).

Lemma promote_atomic_witness :
  ∃ d updated, add_skill_path_to_workspace_toml demo_toml_of (universal_newlines "skills = []") (abs_str d) = Ok updated ∧
    (demo_promote 9 "u" ".workspace.x.toml" ["w"; "skill-drafts"; "p"] "greet" demo_workspace).2 !! ["w"; "workspace.toml"]
    = Some (NFile updated 9).
Proof.
  pose proof (promote_atomic 20 demo_toml_of demo_module (λ _ _, Ok ()) (λ _, Ok ()) ["w"] 9 "u" ".workspace.x.toml"
    ["w"; "skill-drafts"; "p"] "greet" demo_workspace "skills = []" 0) as H. cbv zeta in H.
  assert (is_ok (demo_promote 9 "u" ".workspace.x.toml" ["w"; "skill-drafts"; "p"] "greet" demo_workspace).1 = true) as Hok
    by (vm_compute; reflexivity).
  destruct (demo_promote 9 "u" ".workspace.x.toml" ["w"; "skill-drafts"; "p"] "greet" demo_workspace) as [[result|exc] f'];
    [|discriminate Hok].
  destruct H as (d & t & f1 & updated & _ & Hadd & Hcfg & _).
  - intros d t f1 E.
    assert ((promotion_paths 20 ["w"] "u" "greet" demo_workspace).1
            = Ok (["w"; "skill-packages"; "greet"], ["w"; "skill-packages"; ".greet.u.tmp"])%string) as Hp by (vm_compute; reflexivity).
    rewrite E in Hp. injection Hp as -> ->. split; split; vm_compute; reflexivity.
  - vm_compute. reflexivity.
  - split; [vm_compute; set_solver|]. intros q r t E. vm_compute in E.
    destruct q as [|a [|b [|c q]]]; [done| | |by destruct q].
    + injection E as <- _. vm_compute. discriminate.
    + injection E as <- <- _. vm_compute. discriminate.
  - discriminate.
  - vm_compute. reflexivity.
  - exists d, updated. split; [exact Hadd|exact Hcfg].
Defined.

Lemma authoring_lifecycle_witness :
  let rows := (demo_run demo_ops ([], demo_workspace)).1 in
  map ar_status rows = [Validated] ∧
  ∀ r, r ∈ rows → ar_status r = Validated ∨ ar_status r = Registered →
    ∃ s p d, validation r = Some s ∧ all_met s = true ∧ draft_path r = Some p ∧ draft_digest r = Some d.
Proof.
  intros rows. split; [vm_compute; reflexivity|]. intros r.
  apply (authoring_lifecycle 20 (λ s, s) demo_toml_of demo_module (λ _, Raise (ValueError "re")) (λ _, None)
           (λ _ _, Ok ()) (λ _, Ok ()) ["w"] [] ["w"] demo_ops [] demo_workspace r).
Defined.

Lemma registration_gated_witness :
  let st := demo_run demo_ops ([], demo_workspace) in
  ∃ req st', demo_confirm "q1" true 9 "u" ".workspace.x.toml" st = (Ok req, st') ∧ ar_status req = Registered ∧
    ∃ r0 : AuthoringRequest, r0 ∈ st.1 ∧ ar_status r0 = Validated.
Proof.
  intros st. destruct (demo_confirm "q1" true 9 "u" ".workspace.x.toml" st) as [[req|exc] st'] eqn:E.
  - exists req, st'. split; [done|].
    pose proof (registration_gated _ _ _ _ _ _ _ _ _ _ _ _ _ _ _ _ _ _ _ E) as (_ & r0 & p & d & dir & audit & result & H1 & _ & H2 & _ & _ & _ & _ & _ & _ & _ & Hu).
    split; [|eauto].
    assert ((λ x, ar_status <$> x) (demo_confirm "q1" true 9 "u" ".workspace.x.toml" st).1 = Ok Registered) as Hs by (vm_compute; reflexivity).
    rewrite E in Hs. by injection Hs.
  - assert (is_ok (demo_confirm "q1" true 9 "u" ".workspace.x.toml" st).1 = true) as Hs by (vm_compute; reflexivity).
    rewrite E in Hs. discriminate Hs.
Defined.
