(* ===== verification/Context.v ===== *)
(** * Context injected before planning (agent_os/context.py)

    [load_injected_context]: which providers are asked, with which budget, how
    their answers are normalised, and the framed text that reaches the
    architect.  A provider is its name and a function from the remaining budget
    to what it does within the time limit; the task, the principal and the
    workspace it is also given do not influence the loader.  The provenance
    events of a run are returned beside the text; recording them is best
    effort. *)
From S2P Require Export PyVal.

Record ContextBlock := mkBlock { source : string; content : string; title : option string }.

(** What a provider returns: a text, a block, or a sequence of items. *)
Inductive item := IBlock (b : ContextBlock) | IDict (d : pydict) | IStr (s : string) | IOther.
Inductive raw_result := RStr (s : string) | RBlock (b : ContextBlock) | RSeq (l : list item) | ROther.
Inductive provided := Provided (r : raw_result) | ProviderTimeout | ProviderRaised (e : exn).
Record ContextProvider := mkProvider { name : string; provide : Z → provided }.

Definition zlen (s : string) : Z := Z.of_nat (String.length s).

(** [str(d.get(k) or dflt)] *)
Definition or_str (v : option pyval) (dflt : string) : string :=
  match v with Some x => if py_truthy x then py_str x else dflt | None => dflt end.

Definition block_of_item (provider_name : string) (i : item) : option ContextBlock :=
  match i with
  | IBlock b => Some b
  | IDict d =>
      let src := or_str (dget "source" d) provider_name in
      let cnt := or_str (dget "content" d) "" in
      if sempty (strip cnt) then None
      else Some (mkBlock src (strip cnt)
                   (t ← dget "title" d; if py_truthy t then Some (py_str t) else None))
  | IStr s => if sempty (strip s) then None else Some (mkBlock provider_name (strip s) None)
  | IOther => None
  end.

Definition blocks_of (provider_name : string) (raw : raw_result) : list ContextBlock :=
  match raw with
  | RStr s => if sempty (strip s) then [] else [mkBlock provider_name (strip s) None]
  | RBlock b => [b]
  | RSeq l => omap (block_of_item provider_name) l
  | ROther => []
  end.

Definition begin_line (b : ContextBlock) (with_title : bool) : string :=
  match title b with
  | Some t => if with_title && truthy t
              then "--- BEGIN CONTEXT [" +:+ source b +:+ ": " +:+ t +:+ "] ---"
              else "--- BEGIN CONTEXT [" +:+ source b +:+ "] ---"
  | None => "--- BEGIN CONTEXT [" +:+ source b +:+ "] ---"
  end.
Definition end_line (b : ContextBlock) : string := "--- END CONTEXT [" +:+ source b +:+ "] ---".

Definition has_title (b : ContextBlock) : bool := match title b with Some t => truthy t | None => false end.

Definition envelope_len (header : string) (b : ContextBlock) : Z := zlen header + zlen (end_line b) + 3.
(** The title is dropped when the frame would not fit with it. *)
Definition header_for (remaining : Z) (b : ContextBlock) : string :=
  if (remaining <? envelope_len (begin_line b true) b) && has_title b
  then begin_line b false else begin_line b true.

(** The text of a block within [remaining] characters, [None] when the frame
    alone does not fit. *)
Definition frame (remaining : Z) (b : ContextBlock) : option string :=
  let header := header_for remaining b in
  if remaining <? envelope_len header b then None
  else Some (header +:+ nl +:+ stake (Z.to_nat (remaining - envelope_len header b)) (content b) +:+ nl
             +:+ end_line b +:+ nl).

(** The payload of a provenance event. *)
Definition context_event (provider_name : string) (b : ContextBlock) : pydict :=
  [("provider", VStr provider_name); ("source", VStr (source b));
   ("title", match title b with Some t => VStr t | None => VNone end); ("chars", VInt (zlen (content b)))].

(** The parts so far, the characters they take when joined, the events. *)
Record loaded := mkLoaded { parts : list string; current_chars : Z; events : list pydict }.

Definition join_len (st : loaded) : Z := if 0 <? current_chars st then 1 else 0.

Section loader.
Context (max_chars : Z) (policy : option (string → res string)).

Fixpoint add_blocks (provider_name : string) (bs : list ContextBlock) (st : loaded) : loaded :=
  match bs with
  | [] => st
  | b :: bs' =>
      if sempty (content b) then add_blocks provider_name bs' st
      else
        let remaining := max_chars - current_chars st - join_len st in
        if remaining <=? 0 then st
        else match frame remaining b with
             | None => st
             | Some formatted =>
                 add_blocks provider_name bs'
                   (mkLoaded (parts st ++ [formatted]) (current_chars st + zlen formatted + join_len st)
                      (events st ++ [context_event provider_name b]))
             end
  end.

Definition denied (provider_name : string) : bool :=
  match policy with
  | None => false
  | Some evaluate =>
      match evaluate provider_name with Ok d => String.eqb d "deny" | Raise _ => true end
  end.

Fixpoint run_providers (ps : list ContextProvider) (st : loaded) : loaded :=
  match ps with
  | [] => st
  | p :: ps' =>
      let remaining_budget := max_chars - current_chars st - join_len st in
      if remaining_budget <=? 0 then st
      else if denied (name p) then run_providers ps' st
      else match provide p remaining_budget with
           | ProviderTimeout | ProviderRaised _ => run_providers ps' st
           | Provided raw => run_providers ps' (add_blocks (name p) (blocks_of (name p) raw) st)
           end
  end.

Definition load_injected_context (ps : list ContextProvider) (run_id : option string)
    : string * list pydict :=
  match ps with
  | [] => ("", [])
  | _ =>
      if max_chars <=? 0 then ("", [])
      else
        let st := run_providers ps (mkLoaded [] 0 []) in
        (sjoin nl (parts st), match run_id with Some r => if truthy r then events st else [] | None => [] end)
  end.
End loader.

(** ** Lemmas *)

(** A complete block: its delimiters around a prefix of its content. *)
Definition framed (b : ContextBlock) (s : string) : Prop :=
  ∃ t n, s = begin_line b t +:+ nl +:+ stake n (content b) +:+ nl +:+ end_line b +:+ nl.

Lemma zlen_app a b : zlen (a +:+ b) = zlen a + zlen b.
Proof. unfold zlen. rewrite slen_app. lia. Qed.
Lemma zlen_stake n s : zlen (stake n s) ≤ Z.of_nat n.
Proof. unfold zlen. rewrite slen_stake. lia. Qed.

Lemma zlen_frame h x e : zlen (h +:+ nl +:+ x +:+ nl +:+ e +:+ nl) = zlen h + zlen x + zlen e + 3.
Proof. rewrite !zlen_app. change (zlen nl) with 1. lia. Qed.

Lemma frame_spec remaining b s : frame remaining b = Some s → framed b s ∧ 0 < zlen s ≤ remaining.
Proof.
  unfold frame. assert (∃ t, header_for remaining b = begin_line b t) as [t Ht]
    by (unfold header_for; destruct (_ && _); eauto).
  rewrite Ht. generalize (zlen_stake (Z.to_nat (remaining - envelope_len (begin_line b t) b)) (content b)).
  unfold envelope_len. destruct (Z.ltb_spec remaining (zlen (begin_line b t) + zlen (end_line b) + 3)) as [|Hge]; [done|].
  intros Hs H. apply (inj Some) in H. rewrite <-H. split; [by do 2 eexists|]. rewrite zlen_frame.
  unfold zlen in *. lia.
Qed.

(** What the loader keeps true: the parts are complete blocks, as long joined
    as it counts, and within the budget. *)
Definition joined (l : list string) : Z := zlen (sjoin nl l).
Record loaded_ok (max_chars : Z) (allowed : list string) (st : loaded) : Prop := {
  lo_count : joined (parts st) = current_chars st;
  lo_bound : current_chars st ≤ max_chars;
  lo_empty : parts st = [] ↔ current_chars st = 0;
  lo_framed : Forall2 (λ s e, ∃ p b, framed b s ∧ e = context_event p b ∧ p ∈ allowed ∧ content b ≠ "")
                (parts st) (events st) }.

Lemma add_blocks_ok max_chars p bs : ∀ allowed st, p ∈ allowed → loaded_ok max_chars allowed st →
  loaded_ok max_chars allowed (add_blocks max_chars p bs st).
Proof.
  induction bs as [|b bs IH]; intros allowed st Hp Hst; simpl; [done|].
  destruct (sempty (content b)) eqn:Hc; [by apply IH|].
  destruct (Z.leb_spec (max_chars - current_chars st - join_len st) 0) as [|Hr]; [done|].
  destruct (frame _ b) as [s|] eqn:Hf; [|done]. apply frame_spec in Hf as [Hf Hlen].
  apply IH; [done|]. destruct Hst as [Hcount Hbound Hempty Hall].
  assert (joined (parts st ++ [s]) = current_chars st + zlen s + join_len st) as Hj.
  { unfold joined, join_len in *. destruct (parts st) as [|x l] eqn:E.
    - simpl. rewrite (proj1 Hempty) by done. simpl. lia.
    - rewrite <-E in *. rewrite sjoin_snoc, !zlen_app, Hcount by (by rewrite E). change (zlen nl) with 1.
      assert (current_chars st ≠ 0) by (intros H; apply Hempty in H; by rewrite E in H).
      assert (0 ≤ current_chars st) by (rewrite <-Hcount; unfold zlen; lia).
      rewrite (proj2 (Z.ltb_lt _ _)) by lia. lia. }
  constructor; simpl; [done|lia| |].
  - split; [by destruct (parts st)|]. intros H.
    assert (0 ≤ current_chars st) by (rewrite <-Hcount; unfold joined, zlen; lia).
    assert (0 ≤ join_len st) by (unfold join_len; destruct (_ <? _); lia). lia.
  - apply Forall2_app; [done|]. repeat constructor. exists p, b. split_and!; [done..|].
    intros E. by rewrite E in Hc.
Qed.

Lemma run_providers_ok max_chars policy ps : ∀ allowed st,
  (∀ p, p ∈ ps → denied policy (name p) = false → name p ∈ allowed) →
  loaded_ok max_chars allowed st → loaded_ok max_chars allowed (run_providers max_chars policy ps st).
Proof.
  induction ps as [|p ps IH]; intros allowed st Hal Hst; simpl; [done|].
  assert (∀ q, q ∈ ps → denied policy (name q) = false → name q ∈ allowed) as Hal' by (intros; apply Hal; [by right|done]).
  destruct (_ <=? _); [done|]. destruct (denied policy (name p)) eqn:Hd; [by apply IH|].
  destruct (provide p _); [|by apply IH..]. apply IH; [done|].
  apply add_blocks_ok; [|done]. apply Hal; [left|done].
Qed.

(** Injected context stays within its budget and its frame.  Whatever
    the providers return, raise or time out on, the text is at most
    [max_chars] long and is a sequence of complete blocks, each between its own
    begin and end lines around a prefix of non-empty content; every block comes
    from a provider the policy did not deny (a policy that raises denies), and
    the provenance events of a run list the blocks in order. *)
Theorem context_within_budget max_chars policy ps run_id :
  0 ≤ max_chars →
  ∃ blocks,
    load_injected_context max_chars policy ps run_id
    = (sjoin nl (map (λ x, x.1.2) blocks),
       match run_id with
       | Some r => if truthy r then map (λ x, context_event x.2 x.1.1) blocks else []
       | None => []
       end) ∧
    zlen (sjoin nl (map (λ x, x.1.2) blocks)) ≤ max_chars ∧
    ∀ b s p, (b, s, p) ∈ blocks →
      framed b s ∧ content b ≠ "" ∧ ∃ q, q ∈ ps ∧ name q = p ∧ denied policy p = false.
Proof.
  intros Hmax.
  set (allowed := map name (List.filter (λ p, negb (denied policy (name p))) ps)).
  set (st := if max_chars <=? 0 then mkLoaded [] 0 [] else run_providers max_chars policy ps (mkLoaded [] 0 [])).
  assert (loaded_ok max_chars allowed st) as [Hcount Hbound _ Hall].
  { assert (loaded_ok max_chars allowed (mkLoaded [] 0 [])) as H0 by (constructor; simpl; [done|lia|done|constructor]).
    unfold st. destruct (_ <=? _); [done|]. apply run_providers_ok; [|done].
    intros p Hp Hd. unfold allowed. apply list_elem_of_In, in_map, filter_In. rewrite Hd.
    split; [by apply list_elem_of_In|done]. }
  assert (load_injected_context max_chars policy ps run_id
    = (sjoin nl (parts st), match run_id with Some r => if truthy r then events st else [] | None => [] end)) as ->.
  { unfold load_injected_context, st. destruct ps as [|p ps].
    - destruct (_ <=? _); by destruct run_id as [[]|].
    - destruct (_ <=? _); [|done]. by destruct run_id as [[]|]. }
  unfold joined in Hcount. rewrite <-Hcount in Hbound. clear Hcount.
  assert (∃ blocks : list (ContextBlock * string * string),
    parts st = map (λ x, x.1.2) blocks ∧ events st = map (λ x, context_event x.2 x.1.1) blocks ∧
    ∀ b s p, (b, s, p) ∈ blocks → framed b s ∧ p ∈ allowed ∧ content b ≠ "") as (blocks & Hp & He & Hb).
  { revert Hall. generalize (parts st) (events st). induction 1 as [|s e l l' (p & b & Hf & -> & Hp & Hc) _ IH].
    - exists []. set_solver.
    - destruct IH as (bl & -> & -> & H). exists ((b, s, p) :: bl). split_and!; [done..|].
      intros b' s' p' [[= -> -> ->]|Hin]%elem_of_cons; eauto. }
  exists blocks. rewrite <-Hp, <-He. split_and!; [done..|].
  intros b s p (Hf & Hal & Hc)%Hb. split_and!; [done..|]. unfold allowed in Hal.
  apply list_elem_of_In, in_map_iff in Hal as (q & <- & [Hq Hd]%filter_In). bool_prop.
  exists q. split_and!; [by apply list_elem_of_In|done..].
Qed.

Definition sample_provider : ContextProvider :=
  mkProvider "notes" (λ n, Provided (RSeq [IStr " first "; IDict [("content", VStr "second"); ("title", VStr "T")]; IOther])).

Lemma context_within_budget_witness :
  load_injected_context 120 None [sample_provider] (Some "r1")
  = ("--- BEGIN CONTEXT [notes] ---" +:+ nl +:+ "first" +:+ nl +:+ "--- END CONTEXT [notes] ---" +:+ nl,
     [context_event "notes" (mkBlock "notes" "first" None)])%list ∧
  zlen (load_injected_context 120 None [sample_provider] (Some "r1")).1 ≤ 120.
Proof.
  split; [vm_compute; reflexivity|].
  destruct (context_within_budget 120 None [sample_provider] (Some "r1")) as (bl & -> & H & _); [lia|exact H].
Defined.
