(* ===== verification/Workspace.v ===== *)
(** * Workspaces (agent_os/workspace.py)

    Loading a workspace file and composing its registries, policy, context
    providers and event sinks.  What the installed distributions publish, the
    TOML parser, [Path.expanduser], the resolver of host names and the opening
    of the SQLite store are parameters.  The text of a parse or validation error
    is left out of messages, and logging is omitted. *)
From S2P Require Import Webhooks.
From S2P Require Export Profiles HotContext Connectors SkillPackages Policy.
From Corelib Require Import SpecFloat.

(** A [ValueError] of its own class, told apart by the prefix. *)
Definition WorkspaceLoadError (msg : string) : exn := ValueError ("WorkspaceLoadError: " +:+ msg).
Definition is_workspace_error (e : exn) : bool := startswith "WorkspaceLoadError: " (exn_msg e).

Record Workspace := mkWorkspace {
  ws_name : string; ws_department : option string; ws_organization : option string;
  ws_backends : list (string * option string); ws_skills : list string; ws_connectors : list string;
  ws_memory : pydict; ws_policy : pydict; ws_context : pydict; ws_limits : pydict; ws_webhooks : pydict;
  base_path : path }.
Definition with_paths (memory : pydict) (skills : list string) (ws : Workspace) : Workspace :=
  mkWorkspace (ws_name ws) (ws_department ws) (ws_organization ws) (ws_backends ws) skills (ws_connectors ws)
    memory (ws_policy ws) (ws_context ws) (ws_limits ws) (ws_webhooks ws) (base_path ws).

Definition BACKEND_ROLES : list string := ["router"; "architect"; "executor"].
Definition PATH_KEYS : list string := ["path"; "root"; "root_path"; "vault_path"].
Definition RESTRICTED_FILENAMES : list string := ["db_config.php"; "mail_config.php"; ".env"].

(** [int(v)]: a number is cut towards zero, a text is a decimal integer. *)
Fixpoint int_digits (s : string) (acc : Z) (underscore_ok : bool) : option Z :=
  match s with
  | EmptyString => if underscore_ok then Some acc else None
  | String c s' =>
      if is_digit c then int_digits s' (10 * acc + (code c - 48)) true
      else if Ascii.eqb c "_" && underscore_ok then int_digits s' acc false
      else None
  end.
Definition int_of_str (s : string) : option Z :=
  match strip s with
  | String "-" t => Z.opp <$> int_digits t 0 false
  | String "+" t => int_digits t 0 false
  | t => int_digits t 0 false
  end.
Definition trunc (f : spec_float) : res Z :=
  match f with
  | S754_zero _ => Ok 0
  | S754_finite neg m e =>
      let n := if 0 <=? e then Z.pos m * 2 ^ e else Z.pos m / 2 ^ (- e) in Ok (if neg then - n else n)
  | S754_infinity _ => Raise (OverflowError "cannot convert float infinity to integer")
  | S754_nan => Raise (ValueError "cannot convert float NaN to integer")
  end.
Definition py_int (v : pyval) : res Z :=
  match v with
  | VInt z => Ok z
  | VBool b => Ok (if b then 1 else 0)
  | VFloat f => trunc f
  | VStr s => match int_of_str s with
              | Some z => Ok z
              | None => Raise (ValueError ("invalid literal for int() with base 10: " +:+ repr_str s))
              end
  | _ => Raise (TypeError "int() argument must be a string, a bytes-like object or a real number")
  end.
Definition get_or (k : string) (dflt : pyval) (d : pydict) : pyval := default dflt (dget k d).

(** ** The model *)
Definition str_map (v : pyval) : option (list (string * option string)) :=
  match v with
  | VDict d => mapM (λ '(k, x), match x with VStr s => Some (k, Some s) | VNone => Some (k, None) | _ => None end) d
  | _ => None
  end.
Definition dict_or (k : string) (d : pydict) : option pydict :=
  match dget k d with None => Some [] | Some (VDict x) => Some x | Some _ => None end.
Definition workspace_fields : list string :=
  ["workspace"; "backends"; "skills"; "connectors"; "memory"; "policy"; "context"; "limits"; "webhooks"].
Definition validate_workspace (base : path) (d : pydict) : option Workspace :=
  if negb (known_keys workspace_fields d) then None
  else
    meta ← match dget "workspace" d with Some (VDict m) => Some m | _ => None end;
    if negb (known_keys ["name"; "department"; "organization"] meta) then None
    else
      name ← match dget "name" meta with Some (VStr s) => Some s | _ => None end;
      department ← opt_str "department" meta;
      organization ← opt_str "organization" meta;
      backends ← match dget "backends" d with None => Some [] | Some v => str_map v end;
      skills ← strs_or "skills" [] d;
      connectors ← strs_or "connectors" [] d;
      memory ← dict_or "memory" d;
      policy ← dict_or "policy" d;
      context ← dict_or "context" d;
      limits ← dict_or "limits" d;
      webhooks ← dict_or "webhooks" d;
      Some (mkWorkspace name department organization backends skills connectors memory policy context limits webhooks base).

(** ** Restricted files *)
Definition restricted_name (name : string) : bool :=
  let name := lower name in
  mem_str name RESTRICTED_FILENAMES || contains "credentials" name || contains "token" name || startswith "auth" name.
Definition reject_restricted_path (p : path) : res unit :=
  if restricted_name (path_name p)
  then Raise (WorkspaceLoadError ("Refusing to load restricted configuration path: " +:+ abs_str p)) else Ok tt.

(** ** Plugins of a group *)
Record plugin_kind := mkKind {
  pk_group : string; pk_builtins : list string;
  pk_override : string;       (* cannot override built-in ... *)
  pk_unknown : string;        (* Unknown ... / Available ...s *)
  pk_load : string;           (* Failed to load ... *)
  pk_interface : string → string }.

(** [discover] with the check of the built-in names. *)
Definition checked_discover {A} (eps : string → list (entry_point A)) (group override : string) (builtins : list string)
    : res (list (string * entry_point A)) :=
  match discover eps group with
  | Raise exc => Raise (WorkspaceLoadError ("Plugin discovery failed for group '" +:+ group +:+ "': " +:+ exn_msg exc))
  | Ok discovered =>
      match List.find (λ n, mem_str n builtins) (dkeys discovered) with
      | Some ep_name => Raise (WorkspaceLoadError ("Plugin in '" +:+ group +:+ "' cannot override built-in " +:+ override
                                                   +:+ " '" +:+ ep_name +:+ "'."))
      | None => Ok discovered
      end
  end.
Definition listing (l : list string) : string := or_text "none" (sjoin ", " l).
Definition available_plugins {A} (eps : string → list (entry_point A)) (group : string) : res string :=
  l ← list_available eps group; Ok (listing l).

(** A configured plugin: a factory that takes the configuration entries its
    signature names, or an object; [None] lacks the interface. *)
Inductive configured_object (A : Type) :=
  | CFactory (params : list string) (call : pydict → res (option A))
  | CObject (o : option A).
Arguments CFactory {_} _ _. Arguments CObject {_} _.
Definition call_configured {A} (config : pydict) (o : configured_object A) : res (option A) :=
  match o with
  | CFactory params call => call (List.filter (λ '(k, _), mem_str k params) config)
  | CObject o => Ok o
  end.
Fixpoint load_configured {A} (eps : string → list (entry_point (configured_object A))) (kind : plugin_kind)
    (discovered : list (string * entry_point (configured_object A))) (config : pydict) (configured : list pyval) : res (list A) :=
  match configured with
  | [] => Ok []
  | name :: rest =>
      let clean_name := strip (py_str name) in
      if negb (dhas clean_name discovered) then
        available ← available_plugins eps (pk_group kind);
        Raise (WorkspaceLoadError ("Unknown " +:+ pk_unknown kind +:+ " '" +:+ clean_name +:+ "'. Available "
                                   +:+ pk_unknown kind +:+ "s: " +:+ available +:+ "."))
      else
        plugin_obj ← match resolve_plugin eps (pk_group kind) clean_name with
                     | Ok o => Ok o
                     | Raise exc => Raise (WorkspaceLoadError ("Failed to load " +:+ pk_load kind +:+ " '" +:+ clean_name
                                                               +:+ "': " +:+ exn_msg exc))
                     end;
        inst ← call_configured config plugin_obj;
        match inst with
        | None => Raise (WorkspaceLoadError (pk_interface kind clean_name))
        | Some x => xs ← load_configured eps kind discovered config rest; Ok (x :: xs)
        end
  end.
(** A list or one name; anything else is no list. *)
Definition names_or_list (v : pyval) : list pyval :=
  match v with VStr s => [VStr s] | VList l => l | _ => [] end.
(** What a [for] loop runs over. *)
Definition py_iter (v : pyval) : res (list pyval) :=
  match v with
  | VList l => Ok l
  | VDict d => Ok (map (λ p, VStr p.1) d)
  | VStr s => Ok (map (λ c, VStr (String c EmptyString)) (String.list_ascii_of_string s))
  | _ => Raise (TypeError "object is not iterable")
  end.

Definition BUILT_IN_POLICY_NAMES : list string := ["local"; "manual"; "smart"; "off"].
Definition BUILT_IN_CONTEXT_PROVIDER_NAMES : list string := ["hot_context"; "memory"; "vault"; "static"].
Definition BUILT_IN_EVENT_SINK_NAMES : list string := ["webhook"; "console"; "null"; "noop"].
Definition BUILT_IN_MEMORY_NAMES : list string := ["markdown"; "markdown_vault"; "gbrain"].
Definition BUILT_IN_ACTION_NAMES : list string := ["filesystem"; "memory"; "markdown"; "markdown_vault"; "gbrain"].
Definition policy_kind : plugin_kind := mkKind "agent_os.policies" BUILT_IN_POLICY_NAMES "policy" "policy plugin" "policy plugin"
  (λ n, "Policy plugin '" +:+ n +:+ "' does not implement evaluate() method.").
Definition context_kind : plugin_kind :=
  mkKind "agent_os.context_providers" BUILT_IN_CONTEXT_PROVIDER_NAMES "context provider" "context provider" "context provider plugin"
  (λ n, "Context provider plugin '" +:+ n +:+ "' does not satisfy the ContextProvider interface.").
Definition sink_kind : plugin_kind :=
  mkKind "agent_os.event_sinks" BUILT_IN_EVENT_SINK_NAMES "event sink" "event sink" "event sink plugin"
  (λ n, "Event sink plugin '" +:+ n +:+ "' does not satisfy the EventSink interface.").

(** ** Policy and context providers *)
Definition build_policy (eps : string → list (entry_point (configured_object plugin))) (ws : Workspace) : res engine :=
  let policy_rules := ws_policy ws in
  let policy_mode := py_str (get_or "mode" (VStr "manual") policy_rules) in
  let base_policy := ELocal (LocalPolicy_init policy_rules policy_mode None) in
  discovered ← checked_discover eps (pk_group policy_kind) (pk_override policy_kind) (pk_builtins policy_kind);
  let configured := get_or "plugins" (get_or "policies" (VList []) policy_rules) policy_rules in
  let configured := match configured with VStr s => VList [VStr s] | v => v end in
  if negb (py_truthy configured) then Ok base_policy
  else
    configured_plugins ← py_iter configured;
    loaded_plugins ← load_configured eps policy_kind discovered policy_rules configured_plugins;
    Ok (EComposite base_policy loaded_plugins).

Definition build_context_providers {P} (eps : string → list (entry_point (configured_object P))) (ws : Workspace) : res (list P) :=
  discovered ← checked_discover eps (pk_group context_kind) (pk_override context_kind) (pk_builtins context_kind);
  load_configured eps context_kind discovered (ws_context ws) (names_or_list (get_or "providers" (VList []) (ws_context ws))).

(** ** Event sinks *)
Inductive event_sink (K : Type) :=
  | PluginSink (k : K)
  | WebhookSink (c : sink_config) (timeout_seconds : spec_float).
Arguments PluginSink {_} _. Arguments WebhookSink {_} _ _.

Definition literal_secret : exn := WorkspaceLoadError
  "Webhook secrets must be referenced by 'secret_env'; literal secrets in workspace configuration are not allowed.".
(** The hosts; a list with something else than texts raises on [strip()] once
    the hosts are read. *)
Definition host_list (v : pyval) : res (list string) :=
  res_all (map (λ x, match x with VStr s => Ok s | _ => Raise (OtherError "AttributeError") end) (names_or_list v)).
Definition webhook_sink {K} (dns : resolver) (env : environ) (webhooks : pydict) : res (list (event_sink K)) :=
  let url := strip (py_str (get_or "url" (VStr EmptyString) webhooks)) in
  if negb (truthy url) then Ok []
  else
    let secret_env := strip (py_str (get_or "secret_env" (VStr EmptyString) webhooks)) in
    let secret := strip (default EmptyString (dget secret_env env)) in
    if negb (truthy secret_env) || negb (truthy secret) then Ok []
    else
      allowed ← host_list (get_or "allowed_internal_hosts" (VList []) webhooks);
      let allow_insecure_http := py_truthy (get_or "allow_insecure_http" (VBool false) webhooks) in
      reason ← is_safe_webhook_url dns url allowed allow_insecure_http;
      match reason with
      | Some reason => Raise (WorkspaceLoadError ("Invalid webhook URL configuration: " +:+ reason))
      | None =>
          max_retries ← py_int (get_or "max_retries" (VInt 3) webhooks);
          timeout_s ← py_float (get_or "timeout_seconds" (VFloat (of_int 2)) webhooks);
          Ok [WebhookSink (WebhookEventSink url secret allowed allow_insecure_http max_retries 1000 1) timeout_s]
      end.
Definition build_event_sinks {K} (eps : string → list (entry_point (configured_object K))) (dns : resolver) (env : environ)
    (ws : Workspace) : res (list (event_sink K)) :=
  discovered ← checked_discover eps (pk_group sink_kind) (pk_override sink_kind) (pk_builtins sink_kind);
  loaded ← load_configured eps sink_kind discovered (ws_webhooks ws) (names_or_list (get_or "sinks" (VList []) (ws_webhooks ws)));
  if dhas "secret" (ws_webhooks ws) then Raise literal_secret
  else
    hook ← webhook_sink dns env (ws_webhooks ws);
    Ok (map PluginSink loaded ++ hook).

(** ** Connectors *)
Inductive memory_connector (C : Type) := MarkdownVault (root : path) | Gbrain | PluginMemory (name : string) (c : C).
Arguments MarkdownVault {_} _. Arguments Gbrain {_}. Arguments PluginMemory {_} _ _.
Definition memory_name {C} (m : memory_connector C) : string :=
  match m with MarkdownVault _ => "markdown_vault" | Gbrain => "gbrain" | PluginMemory name _ => name end.
(** A memory plugin: a callable with its signature, or an object; the object has
    a name, and [None] lacks the interface. *)
Inductive memory_object (C : Type) :=
  | MCallable (parameters : list parameter) (call : pydict → res (option (string * C)))
  | MObject (o : option (string * C)).
Arguments MCallable {_} _ _. Arguments MObject {_} _.

(** The keyword arguments of a factory, and the required ones that are missing. *)
Definition is_kind (k : parameter_kind) (p : parameter) : bool :=
  match k, par_kind p with
  | Ordinary, Ordinary | VarPositional, VarPositional | VarKeyword, VarKeyword => true
  | _, _ => false
  end.
Definition memory_kwargs (memory : pydict) (parameters : list parameter) : pydict * list string :=
  if existsb (is_kind VarKeyword) parameters then (memory, [])
  else
    (omap (λ p, if is_kind Ordinary p then v ← dget (par_name p) memory; Some (par_name p, v) else None) parameters,
     omap (λ p, if is_kind Ordinary p && negb (dhas (par_name p) memory) && negb (par_default p)
                then Some (par_name p) else None) parameters).

Section connectors.
Context {A C : Type} (fuel : nat) (expanduser : string → string).
Definition resolve_relative_path (base : path) (value : string) (f : fs) : res path :=
  realpath fuel f (join_path base (parse_path (expanduser value))).

Definition memory_type (memory : pydict) : string :=
  lower (strip (py_str (get_or "type" (get_or "connector" (VStr "markdown") memory) memory))).
Definition memory_root (memory : pydict) : string :=
  py_str (get_or "path" (get_or "root_path" (get_or "root" (VStr ".") memory) memory) memory).
Definition memory_error (memory_type msg : string) : exn :=
  WorkspaceLoadError ("Memory connector plugin '" +:+ memory_type +:+ "' " +:+ msg).
Definition instantiate_memory (mt : string) (memory : pydict) (o : memory_object C) : res (memory_connector C) :=
  connector ←
    match o with
    | MObject o => Ok o
    | MCallable parameters call =>
        let '(kwargs, missing_required) := memory_kwargs memory parameters in
        match missing_required with
        | [] => match call kwargs with
                | Ok o => Ok o
                | Raise exc => Raise (WorkspaceLoadError ("Failed to instantiate memory connector plugin '" +:+ mt +:+ "': " +:+ exn_msg exc))
                end
        | _ => Raise (memory_error mt ("in group 'agent_os.memory_connectors' requires parameter(s) " +:+ repr_names missing_required
                 +:+ " which are not provided in workspace memory configuration."))
        end
    end;
  match connector with
  | Some (name, c) => Ok (PluginMemory name c)
  | None => Raise (memory_error mt
              "does not satisfy the MemoryConnector interface (requires read methods plus WritableMemory write methods).")
  end.
Definition MEMORY_GROUP : string := "agent_os.memory_connectors".
Definition build_memory_connector (eps : string → list (entry_point (memory_object C))) (ws : Workspace) (f : fs)
    : res (memory_connector C) :=
  discovered ← checked_discover eps MEMORY_GROUP "memory connector" BUILT_IN_MEMORY_NAMES;
  let mt := memory_type (ws_memory ws) in
  if mem_str mt ["markdown"; "markdown_vault"] then
    root_path ← resolve_relative_path (base_path ws) (memory_root (ws_memory ws)) f; Ok (MarkdownVault root_path)
  else if String.eqb mt "gbrain" then Ok Gbrain
  else if negb (dhas mt discovered) then
    available ← available_plugins eps MEMORY_GROUP;
    Raise (WorkspaceLoadError ("Unknown memory connector '" +:+ mt
      +:+ "'. Available built-ins: markdown, gbrain. Discovered plugins: " +:+ available +:+ "."))
  else
    match resolve_plugin eps MEMORY_GROUP mt with
    | Raise exc => Raise (WorkspaceLoadError ("Failed to load memory connector plugin '" +:+ mt +:+ "': " +:+ exn_msg exc))
    | Ok o => instantiate_memory mt (ws_memory ws) o
    end.

Inductive connector := Filesystem | Memory (m : memory_connector C) | Action (a : A).
Definition connectors := list (string * connector).
Definition ACTION_GROUP : string := "agent_os.connectors".
Definition instantiate_action (ep_name : string) (o : plugin_object A) : res A :=
  inst ← call_plugin
    (λ required, WorkspaceLoadError ("Action connector plugin '" +:+ ep_name
       +:+ "' in group 'agent_os.connectors' requires unsupported arguments: " +:+ repr_names required
       +:+ ". Action connector factory must accept 0 required arguments."))
    (λ exc, WorkspaceLoadError ("Failed to instantiate action connector plugin '" +:+ ep_name +:+ "': " +:+ exn_msg exc)) o;
  match inst with
  | Some a => Ok a
  | None => Raise (WorkspaceLoadError ("Action connector plugin '" +:+ ep_name
      +:+ "' does not satisfy the Connector interface (requires 'name' string plus callable 'capabilities', 'describe_side_effect', and 'invoke')."))
  end.
Fixpoint register_actions (eps : string → list (entry_point (plugin_object A))) (discovered : list string) (reg : connectors) : res connectors :=
  match discovered with
  | [] => Ok reg
  | ep_name :: rest =>
      o ← match resolve_plugin eps ACTION_GROUP ep_name with
          | Ok o => Ok o
          | Raise exc => Raise (WorkspaceLoadError ("Failed to load action connector plugin '" +:+ ep_name +:+ "': " +:+ exn_msg exc))
          end;
      a ← instantiate_action ep_name o;
      reg ← Connectors.register ep_name (Action a) reg;
      register_actions eps rest reg
  end.
Definition build_connector_registry (actions : string → list (entry_point (plugin_object A)))
    (memories : string → list (entry_point (memory_object C))) (ws : Workspace) (f : fs) : res (connectors * memory_connector C) :=
  discovered ← checked_discover actions ACTION_GROUP "connector" BUILT_IN_ACTION_NAMES;
  reg ← Connectors.register "filesystem" Filesystem [];
  memory ← build_memory_connector memories ws f;
  reg ← Connectors.register "memory" (Memory memory) reg;
  reg ← match Connectors.register (memory_name memory) (Memory memory) reg with
        | Ok reg => Ok reg
        | Raise exc => Raise (WorkspaceLoadError ("Failed to register memory connector '" +:+ memory_name memory +:+ "': " +:+ exn_msg exc))
        end;
  reg ← (if String.eqb (memory_name memory) "markdown_vault" then Connectors.register "markdown" (Memory memory) reg else Ok reg);
  reg ← register_actions actions (dkeys discovered) reg;
  Ok (reg, memory).
Fixpoint validate_references (names : list string) (reg : connectors) : res unit :=
  match names with
  | [] => Ok tt
  | connector :: rest =>
      match Connectors.resolve connector reg with
      | Raise _ => Raise (WorkspaceLoadError ("Unknown workspace connector '" +:+ connector +:+ "'. Available connectors: "
                                              +:+ listing (list_connectors reg) +:+ "."))
      | Ok _ => validate_references rest reg
      end
  end.
End connectors.

(** ** Backends and skills *)
Definition roles_text : string := sjoin ", " (sort_by str_leb BACKEND_ROLES).
Fixpoint validate_backend_bindings {I} (ws : Workspace) (bindings : list (string * option string)) (adapters : backends (I:=I)) : res unit :=
  match bindings with
  | [] => Ok tt
  | (role, value) :: rest =>
      if negb (mem_str role BACKEND_ROLES) then
        Raise (WorkspaceLoadError ("Unknown backend role '" +:+ role +:+ "' in workspace '" +:+ ws_name ws
                                   +:+ "'. Expected one of: " +:+ roles_text +:+ "."))
      else
        _ ← match value with
            | None => Ok tt
            | Some value =>
                let backend_value := strip value in
                if negb (truthy backend_value) then
                  Raise (WorkspaceLoadError ("Backend value for role '" +:+ role +:+ "' must be a non-empty string."))
                else if String.eqb role "router" then
                  if startswith "cli/" backend_value
                  then Raise (WorkspaceLoadError ("Router cannot be a CLI backend: " +:+ backend_value)) else Ok tt
                else
                  let backend_name := if startswith "cli/" backend_value then sdrop 4 backend_value else backend_value in
                  match Backends.resolve role backend_name adapters with
                  | Ok _ => Ok tt
                  | Raise exc => Raise (WorkspaceLoadError ("Workspace backend '" +:+ role +:+ "' is not resolvable: " +:+ exn_msg exc))
                  end
            end;
        validate_backend_bindings ws rest adapters
  end.

Definition looks_like_path (value : string) : bool :=
  sexists (λ c, Ascii.eqb c "/" || Ascii.eqb c (chr 92)) value || startswith "." value || endswith ".toml" value.

Section skills.
Context (fuel : nat) (expanduser : string → string) (toml_loads : string → option pydict)
  (exec_module : path → fs → option module) (iterdir : fs → path → list string) (cwd : path)
  (eps : string → list (entry_point plugin_target)) (mcp_tools : list (string * list string * string)).

Definition same_names (a b : list string) : bool := forallb (λ n, mem_str n b) a && forallb (λ n, mem_str n a) b.
Definition load_skill_path (entry : string) (p : path) (f : fs) (reg : Skills.registry) : res Skills.registry :=
  let loaded :=
    if is_dir fuel f p && exists_ fuel f (p ++ ["manifest.toml"]) then load_package fuel toml_loads exec_module p f reg
    else if is_dir fuel f p then load_from_directories fuel toml_loads exec_module iterdir [p] f reg
    else Raise (WorkspaceLoadError ("Skill path '" +:+ entry +:+ "' is not a directory.")) in
  match loaded with
  | Raise exc => Raise (if is_workspace_error exc then exc
                        else WorkspaceLoadError ("Workspace skill '" +:+ entry +:+ "' is not resolvable: " +:+ exn_msg exc))
  | Ok reg' =>
      if same_names (Skills.names reg') (Skills.names reg)
      then Raise (WorkspaceLoadError ("Workspace skill path '" +:+ entry +:+ "' did not register any skills."))
      else Ok reg'
  end.
Fixpoint load_workspace_skills (entries : list string) (f : fs) (reg : Skills.registry) : res Skills.registry :=
  match entries with
  | [] => Ok reg
  | entry :: rest =>
      reg' ← match Skills.get entry reg with
             | Some _ => Ok reg
             | None =>
                 let p := join_path cwd (parse_path (expanduser entry)) in
                 if exists_ fuel f p then load_skill_path entry p f reg
                 else if looks_like_path entry then
                   Raise (WorkspaceLoadError ("Workspace skill path '" +:+ entry +:+ "' does not exist."))
                 else Raise (WorkspaceLoadError ("Unknown workspace skill '" +:+ entry +:+ "'. Available skills: "
                                                 +:+ listing (Skills.names reg) +:+ "."))
             end;
      load_workspace_skills rest f reg'
  end.
Definition public_read_only (ws : Workspace) : bool :=
  String.eqb (lower (strip (py_str (get_or "mode" (VStr EmptyString) (ws_policy ws))))) "public-read-only".
Definition build_workspace_skill_registry (ws : Workspace) (f : fs) : res Skills.registry :=
  reg ← (if public_read_only ws then Ok [] else Skills.build_default_registry mcp_tools);
  reg ← match load_from_entry_points fuel toml_loads exec_module cwd eps f reg with
        | Ok reg => Ok reg
        | Raise exc => Raise (WorkspaceLoadError ("Failed to load skill package plugins: " +:+ exn_msg exc))
        end;
  load_workspace_skills (ws_skills ws) f reg.
End skills.

(** ** Environment *)
Definition ROLE_TO_ENV : list (string * string) :=
  [("router", "LLM_ROUTER"); ("architect", "LLM_ARCHITECT"); ("executor", "LLM_EXECUTOR")].
Definition role_environment (bindings : list (string * option string)) : list (string * option string) :=
  omap (λ '(role, env_name),
    match dget role bindings with
    | None => None
    | Some None => Some (env_name, None)
    | Some (Some value) =>
        let normalized := strip value in
        Some (env_name, Some (if mem_str role ["architect"; "executor"] && negb (startswith "cli/" normalized)
                              then "cli/" +:+ normalized else normalized))
    end) ROLE_TO_ENV.
Definition workspace_environment (fuel : nat) (expanduser : string → string) (ws : Workspace) (f : fs)
    : res (list (string * option string)) :=
  let mt := memory_type (ws_memory ws) in
  memory_env ←
    (if mem_str mt ["markdown"; "markdown_vault"] then
       root ← resolve_relative_path fuel expanduser (base_path ws) (memory_root (ws_memory ws)) f;
       Ok [("AGENT_OS_MEMORY_CONNECTOR", Some "markdown"); ("AGENT_OS_VAULT_PATH", Some (abs_str root))]
     else if String.eqb mt "gbrain" then Ok [("AGENT_OS_MEMORY_CONNECTOR", Some "gbrain")]
     else Ok [("AGENT_OS_MEMORY_CONNECTOR", Some mt)])%string;
  Ok (role_environment (ws_backends ws) ++ memory_env).

Definition set_var (env : environ) (kv : string * option string) : environ :=
  match kv with (k, Some v) => dset k v env | (k, None) => ddel k env end.
(** [with _patched_environment(values): body] *)
Definition patched_environment {B} (values : list (string * option string)) (body : environ → res B * environ) (env : environ)
    : res B * environ :=
  let previous := map (λ '(k, _), (k, dget k env)) values in
  let '(r, env') := body (foldl set_var env values) in
  (r, foldl set_var env' previous).

Definition optional_string_list (v : option pyval) (field_name : string) : res (option (list string)) :=
  match v with
  | None | Some VNone => Ok None
  | Some (VList l) =>
      match mapM (λ x, match x with VStr s => Some s | _ => None end) l with
      | Some ss => Ok (Some ss)
      | None => Raise (WorkspaceLoadError (field_name +:+ " must be a list of strings."))
      end
  | Some _ => Raise (WorkspaceLoadError (field_name +:+ " must be a list of strings."))
  end.

(** ** Permission database *)
Definition resolve_permission_db_path (fuel : nat) (expanduser : string → string) (cwd : path) (env : environ)
    (base : option path) (f : fs) : res string :=
  let configured := strip (default EmptyString (dget "AGENT_OS_PERMISSIONS_DB" env)) in
  if truthy configured then p ← resolve_relative_path fuel expanduser cwd configured f; Ok (abs_str p)
  else match base with
       | Some b => p ← realpath fuel f (b ++ ["permissions.db"]); Ok (abs_str p)
       | None => Ok "./permissions.db"
       end.
(** The store, [None] when it does not open. *)
Definition open_permission_store {St} (open_db : string → res St) (db_path : res string) : res (option St) :=
  p ← db_path; Ok (match open_db p with Ok st => Some st | Raise _ => None end).

(** ** Loading and composing *)
Record installed (I A C P K : Type) := mkInstalled {
  i_backends : string → list (entry_point (plugin_object (BackendAdapter I)));
  i_skills : string → list (entry_point plugin_target);
  i_policies : string → list (entry_point (configured_object plugin));
  i_providers : string → list (entry_point (configured_object P));
  i_sinks : string → list (entry_point (configured_object K));
  i_actions : string → list (entry_point (plugin_object A));
  i_memories : string → list (entry_point (memory_object C)) }.
Arguments i_backends {_ _ _ _ _} _. Arguments i_skills {_ _ _ _ _} _. Arguments i_policies {_ _ _ _ _} _.
Arguments i_providers {_ _ _ _ _} _. Arguments i_sinks {_ _ _ _ _} _. Arguments i_actions {_ _ _ _ _} _.
Arguments i_memories {_ _ _ _ _} _. Arguments mkInstalled {_ _ _ _ _} _ _ _ _ _ _ _.

Record ComposedWorkspace (I A C P K St : Type) := mkComposed {
  c_workspace : Workspace;
  c_backend_binding : BackendBinding;
  c_backend_registry : backends (I:=I);
  c_skill_registry : Skills.registry;
  c_connector_registry : connectors (A:=A) (C:=C);
  c_memory_connector : memory_connector C;
  c_policy : engine;
  c_store : option St;
  c_hot_context : string;
  c_limits : pydict;
  c_environment : list (string * option string);
  c_context_providers : list P;
  c_event_sinks : list (event_sink K) }.
Arguments mkComposed {_ _ _ _ _ _} _ _ _ _ _ _ _ _ _ _ _ _ _.
Arguments c_workspace {_ _ _ _ _ _} _. Arguments c_backend_binding {_ _ _ _ _ _} _.
Arguments c_backend_registry {_ _ _ _ _ _} _. Arguments c_skill_registry {_ _ _ _ _ _} _.
Arguments c_connector_registry {_ _ _ _ _ _} _. Arguments c_memory_connector {_ _ _ _ _ _} _.
Arguments c_policy {_ _ _ _ _ _} _. Arguments c_environment {_ _ _ _ _ _} _.
Arguments c_event_sinks {_ _ _ _ _ _} _. Arguments c_hot_context {_ _ _ _ _ _} _.

Section compose.
Context {I A C P K St : Type} (inst : installed I A C P K) (claude codex antigravity : BackendAdapter I)
  (fuel : nat) (expanduser : string → string) (toml_loads : string → option pydict)
  (exec_module : path → fs → option module) (iterdir : fs → path → list string)
  (mcp_tools : list (string * list string * string)) (dns : resolver) (open_db : string → res St).
(** What the hot context sees of the memory: the listing, the reads, the file
    times of a markdown vault; the clock and the dates. *)
Context (memory_view : memory_connector C → fs → res (list string) * (string → res note) * option (string → option spec_float))
  (now : spec_float) (timestamp : string → option spec_float).
Notation skills := (build_workspace_skill_registry fuel expanduser toml_loads exec_module iterdir).

Definition resolve_workspace_path (given : string) (cwd : path) (f : fs) : res path :=
  let candidate := join_path cwd (parse_path (expanduser given)) in
  realpath fuel f (if is_dir fuel f candidate then candidate ++ ["workspace.toml"] else candidate).

Fixpoint resolve_keys (keys : list string) (base : path) (memory : pydict) (f : fs) : res pydict :=
  match keys with
  | [] => Ok memory
  | key :: rest =>
      memory ← match dget key memory with
               | Some (VStr value) =>
                   if truthy (strip value) then
                     p ← resolve_relative_path fuel expanduser base value f; Ok (dset key (VStr (abs_str p)) memory)
                   else Ok memory
               | _ => Ok memory
               end;
      resolve_keys rest base memory f
  end.
Definition resolve_skill (base : path) (f : fs) (skill : string) : res string :=
  let candidate := join_path base (parse_path (expanduser skill)) in
  if exists_ fuel f candidate then p ← realpath fuel f candidate; Ok (abs_str p) else Ok skill.
Definition resolve_workspace_paths (ws : Workspace) (f : fs) : res Workspace :=
  memory ← resolve_keys PATH_KEYS (base_path ws) (ws_memory ws) f;
  resolved_skills ← res_all (map (resolve_skill (base_path ws) f) (ws_skills ws));
  Ok (with_paths memory resolved_skills ws).

(** The registries that loading checks and composing keeps. *)
Definition build_registries (ws : Workspace) (cwd : path) (f : fs)
    : res (backends (I:=I) * connectors (A:=A) (C:=C) * memory_connector C * Skills.registry) :=
  backend_registry ← Backends.build_default_registry claude codex antigravity (i_backends inst);
  _ ← validate_backend_bindings ws (ws_backends ws) backend_registry;
  '(connector_registry, memory_connector) ← build_connector_registry fuel expanduser (i_actions inst) (i_memories inst) ws f;
  skill_registry ← skills cwd (i_skills inst) mcp_tools ws f;
  _ ← validate_references (ws_connectors ws) connector_registry;
  Ok (backend_registry, connector_registry, memory_connector, skill_registry).

Definition load_workspace (given : string) (env : environ) (cwd : path) (f : fs) : res Workspace :=
  workspace_path ← resolve_workspace_path given cwd f;
  _ ← reject_restricted_path workspace_path;
  content ← match read_bytes fuel f workspace_path with
            | Ok content => Ok content
            | Raise exc => Raise (WorkspaceLoadError ("Unable to read workspace file '" +:+ abs_str workspace_path +:+ "': " +:+ exn_msg exc))
            end;
  data ← match toml_loads content with
         | Some data => Ok data
         | None => Raise (WorkspaceLoadError ("Malformed TOML in workspace file '" +:+ abs_str workspace_path +:+ "'"))
         end;
  ws ← match validate_workspace (path_parent workspace_path) data with
       | Some ws => Ok ws
       | None => Raise (WorkspaceLoadError ("Invalid workspace configuration in '" +:+ abs_str workspace_path +:+ "'"))
       end;
  ws ← resolve_workspace_paths ws f;
  _ ← build_registries ws cwd f;
  _ ← build_policy (i_policies inst) ws;
  _ ← build_context_providers (i_providers inst) ws;
  _ ← build_event_sinks (i_sinks inst) dns env ws;
  Ok ws.

Definition composed_hot_context (ws : Workspace) (m : memory_connector C) (f : fs) : res string :=
  sources ← optional_string_list (dget "sources" (ws_context ws)) "context.sources";
  max_chars ← py_int (get_or "max_chars" (VInt 8000) (ws_context ws));
  max_age_days ← py_int (get_or "max_age_days" (VInt 14) (ws_context ws));
  let '(list_notes, read_note, mtimes) := memory_view m f in
  Ok (load_hot_context read_note now mtimes timestamp list_notes max_chars max_age_days sources).

(** The binding, resolved under the workspace's environment. *)
Definition workspace_binding (ws : Workspace) (environment : list (string * option string)) (e : senv) (f : fs) (env : environ)
    : res BackendBinding * environ :=
  patched_environment environment
    (λ env', (resolve_backend_binding fuel expanduser (λ k, dget k env') (Some ("workspace:" +:+ ws_name ws)) e f, env')) env.

Definition compose_workspace (ws : Workspace) (e : senv) (f : fs) (env : environ)
    : res (ComposedWorkspace I A C P K St) * environ :=
  match (registries ← build_registries ws (cwd e) f;
         environment ← workspace_environment fuel expanduser ws f;
         Ok (registries, environment)) with
  | Raise exc => (Raise exc, env)
  | Ok ((backend_registry, connector_registry, memory, skill_registry), environment) =>
      let '(backend_binding, env) := workspace_binding ws environment e f env in
      (backend_binding ← backend_binding;
       hot_context ← composed_hot_context ws memory f;
       store ← open_permission_store open_db
                 (resolve_permission_db_path fuel expanduser (cwd e) env (Some (base_path ws)) f);
       policy ← build_policy (i_policies inst) ws;
       context_providers ← build_context_providers (i_providers inst) ws;
       event_sinks ← build_event_sinks (i_sinks inst) dns env ws;
       Ok (mkComposed ws backend_binding backend_registry skill_registry connector_registry memory policy store
             hot_context (ws_limits ws) environment context_providers event_sinks), env)
  end.
End compose.

(** ** The environment is put back *)
Lemma set_var_get (k : string) (kv : string * option string) (env : environ) : NoDup (dkeys env) →
  dget k (set_var env kv) = (if decide (kv.1 = k) then kv.2 else dget k env) ∧ NoDup (dkeys (set_var env kv)).
Proof.
  intros Hn. destruct kv as [k' [v|]]; simpl.
  - split; [|by apply dset_NoDup]. destruct (decide (k' = k)) as [->|Hne]; [apply dget_dset|by apply dget_dset_ne].
  - split; [|by apply ddel_NoDup]. destruct (decide (k' = k)) as [->|Hne]; [by apply dget_ddel|by apply dget_ddel_ne].
Qed.
Lemma set_vars_NoDup (l : list (string * option string)) : ∀ env : environ, NoDup (dkeys env) → NoDup (dkeys (foldl set_var env l)).
Proof. induction l as [|kv l IH]; intros env Hn; [done|]. apply IH. by apply (set_var_get EmptyString). Qed.
Lemma set_vars_get (g : string → option string) (k : string) (l : list (string * option string)) : ∀ env : environ,
  NoDup (dkeys env) → (∀ kv, kv ∈ l → kv.2 = g kv.1) →
  dget k (foldl set_var env l) = (if decide (k ∈ l.*1) then g k else dget k env) ∧ NoDup (dkeys (foldl set_var env l)).
Proof.
  induction l as [|kv l IH]; intros env Hn Hg; cbn [foldl].
  { split; [|done]. case_decide as H; [by apply not_elem_of_nil in H|done]. }
  destruct (set_var_get k kv env Hn) as [Hk Hn']. destruct (IH (set_var env kv) Hn') as [H1 H2]; [intros; apply Hg; by right|].
  split; [|done]. rewrite H1, Hk, fmap_cons. clear IH H1 H2.
  destruct (decide (kv.1 = k)) as [<-|Hne].
  - rewrite (decide_True (P := kv.1 ∈ kv.1 :: _)) by (by left). case_decide; [done|]. apply Hg. by left.
  - destruct (decide (k ∈ l.*1)) as [Hin|Hin].
    + by rewrite decide_True by (by right).
    + rewrite decide_False; [done|]. intros [?|?]%elem_of_cons; [by apply Hne|by apply Hin].
Qed.

(** What a body sees under the patched environment, and what is left after it,
    however it ends: the patched variables are as before, the others as the
    body left them. *)
Lemma patched_environment_spec {B} values (body : environ → res B * environ) (env : environ) :
  NoDup (dkeys env) → NoDup (dkeys (body (foldl set_var env values)).2) →
  let '(r, env') := patched_environment values body env in
  r = (body (foldl set_var env values)).1 ∧
  ∀ k, dget k env' = if decide (k ∈ values.*1) then dget k env else dget k (body (foldl set_var env values)).2.
Proof.
  intros Hn Hb. unfold patched_environment. destruct (body _) as [r env1]. simpl in *. split; [done|]. intros k.
  destruct (set_vars_get (λ k, dget k env) k (map (λ '(k, _), (k, dget k env)) values) env1 Hb) as [-> _].
  { intros kv H. apply list_elem_of_fmap in H as ([k' v] & -> & _). done. }
  rewrite <-list_fmap_compose. assert (((fst ∘ λ '(k, _), (k, dget k env)) <$> values) = values.*1) as ->; [|done].
  apply list_fmap_ext. by intros ? [] ?.
Qed.

(** A variable of a role in the patched environment: the workspace's value when
    it declares the role. *)
Lemma role_environment_in bindings kv : kv ∈ role_environment bindings →
  ∃ role v, (role, kv.1) ∈ ROLE_TO_ENV ∧ dget role bindings = Some v ∧
    kv.2 = (value ← v; Some (if mem_str role ["architect"; "executor"] && negb (startswith "cli/" (strip value))
                            then "cli/" +:+ strip value else strip value)).
Proof.
  unfold role_environment. intros ([role env_name] & Hin & H)%list_elem_of_omap.
  destruct (dget role bindings) as [[v|]|] eqn:E; [|by injection H as <-; exists role, None|done].
  injection H as <-. by exists role, (Some v).
Qed.

Lemma validate_bindings_ok {I} ws bindings (adapters : backends (I:=I)) : validate_backend_bindings ws bindings adapters = Ok tt →
  ∀ role v, (role, Some v) ∈ bindings → role ∈ BACKEND_ROLES ∧ strip v ≠ EmptyString ∧
    if decide (role = "router") then startswith "cli/" (strip v) = false
    else ∃ a, Backends.resolve role (removeprefix "cli/" (strip v)) adapters = Ok a.
Proof.
  induction bindings as [|[role0 v0] rest IH]; intros H role v Hin; [by apply not_elem_of_nil in Hin|].
  cbn [validate_backend_bindings] in H. destruct (mem_str role0 BACKEND_ROLES) eqn:Er; cbn [negb] in H; [|done].
  destruct (match v0 with Some _ => _ | None => _ end) as [[]|] eqn:Ev; cbn [mbind res_bind] in H; [|done].
  apply elem_of_cons in Hin as [[= <- <-]|Hin]; [|by apply IH]. split; [by apply mem_str_iff|].
  destruct (truthy (strip v)) eqn:Et; cbn [negb] in Ev; [|done].
  split; [by intros E; rewrite E in Et|].
  destruct (String.eqb_spec role "router") as [->|Hne].
  - rewrite decide_True by done. by destruct (startswith _ _).
  - rewrite decide_False by done. unfold removeprefix. change (String.length "cli/") with 4%nat.
    destruct (Backends.resolve role _ adapters) as [a|] eqn:Ea; [|done]. by exists a.
Qed.
Lemma cli_prefixed value : (if negb (startswith "cli/" value) then "cli/" +:+ value else value) = "cli/" +:+ removeprefix "cli/" value.
Proof.
  unfold removeprefix. destruct (startswith "cli/" value) eqn:E; cbn [negb]; [|done].
  apply startswith_iff in E as [t ->]. by rewrite sdrop_app.
Qed.

(** The value a binding gets for a declared role. *)
Definition declared (ws : Workspace) (role : string) (ambient : option string) : option string :=
  match dget role (ws_backends ws) with
  | None => ambient
  | Some v => value ← v; Some (if String.eqb role "router" then strip value else "cli/" +:+ removeprefix "cli/" (strip value))
  end.

Lemma workspace_environment_keys fuel expanduser ws f environment :
  workspace_environment fuel expanduser ws f = Ok environment →
  ∃ memory_env, environment = role_environment (ws_backends ws) ++ memory_env ∧
    ∀ k, k ∈ memory_env.*1 → k = "AGENT_OS_MEMORY_CONNECTOR" ∨ k = "AGENT_OS_VAULT_PATH".
Proof.
  unfold workspace_environment. intros (memory_env & H & <-%Ok_inj)%res_bind_ok. exists memory_env. split; [done|].
  destruct (mem_str _ _); [|destruct (String.eqb _ _)].
  1: apply res_bind_ok in H as (? & _ & H). all: apply Ok_inj in H as <-; intros k; simpl; rewrite ?elem_of_cons, elem_of_nil; naive_solver.
Qed.
Lemma patched_get (env : environ) ws memory_env role env_name :
  NoDup (dkeys env) → (role, env_name) ∈ ROLE_TO_ENV →
  (∀ k, k ∈ memory_env.*1 → k = "AGENT_OS_MEMORY_CONNECTOR" ∨ k = "AGENT_OS_VAULT_PATH") →
  dget env_name (foldl set_var env (role_environment (ws_backends ws) ++ memory_env)) = declared ws role (dget env_name env).
Proof.
  intros Hn Hin Hmem. rewrite foldl_app.
  assert (∀ l e, NoDup (dkeys e) → env_name ∉ l.*1 → dget env_name (foldl set_var e l) = dget env_name e) as Hskip.
  { induction l as [|kv l IH]; intros e Hne Hnot; [done|]. cbn [foldl]. destruct (set_var_get env_name kv e Hne) as [Hg Hn'].
    rewrite fmap_cons, elem_of_cons in Hnot. rewrite IH, Hg; [|done|naive_solver]. rewrite decide_False; [done|]. intros E. apply Hnot. by left. }
  assert (NoDup (dkeys (foldl set_var env (role_environment (ws_backends ws))))) as Hn1.
  { by apply set_vars_NoDup. }
  rewrite Hskip; [|done|].
  2:{ intros Hin'%Hmem. unfold ROLE_TO_ENV in Hin. rewrite !elem_of_cons, elem_of_nil in Hin. naive_solver. }
  unfold declared, role_environment, ROLE_TO_ENV in *. rewrite !elem_of_cons, elem_of_nil in Hin.
  destruct Hin as [[= -> ->]|[[= -> ->]|[[= -> ->]|[]]]]; cbn [omap list_omap];
    destruct (dget "router" (ws_backends ws)) as [[r|]|] eqn:Er; destruct (dget "architect" (ws_backends ws)) as [[a|]|] eqn:Ea;
    destruct (dget "executor" (ws_backends ws)) as [[x|]|] eqn:Ex; cbn [foldl set_var mem_str existsb String.eqb Ascii.eqb Bool.eqb orb andb];
    rewrite ?cli_prefixed.
  all: repeat first [rewrite dget_dset | rewrite dget_dset_ne by done | rewrite dget_ddel_ne by done |
     rewrite dget_ddel by (repeat first [done | apply dset_NoDup | apply ddel_NoDup]) ]; done.
Qed.

Section compose_lemmas.
Context {I A C P K St : Type} (inst : installed I A C P K) (claude codex antigravity : BackendAdapter I)
  (fuel : nat) (expanduser : string → string) (toml_loads : string → option pydict)
  (exec_module : path → fs → option module) (iterdir : fs → path → list string)
  (mcp_tools : list (string * list string * string)) (dns : resolver) (open_db : string → res St)
  (memory_view : memory_connector C → fs → res (list string) * (string → res note) * option (string → option spec_float))
  (now : spec_float) (timestamp : string → option spec_float).
Notation compose := (compose_workspace inst claude codex antigravity fuel expanduser toml_loads exec_module iterdir
  mcp_tools dns open_db memory_view now timestamp).

Lemma workspace_binding_spec ws environment e f env :
  NoDup (dkeys env) → workspace_environment fuel expanduser ws f = Ok environment →
  let '(r, env') := workspace_binding fuel expanduser ws environment e f env in
  (∀ k, dget k env' = dget k env) ∧
  ∀ b, r = Ok b → b_router b = declared ws "router" (dget "LLM_ROUTER" env) ∧
    b_architect b = declared ws "architect" (dget "LLM_ARCHITECT" env) ∧
    b_executor b = declared ws "executor" (dget "LLM_EXECUTOR" env) ∧ b_profile_name b = Some ("workspace:" +:+ ws_name ws).
Proof.
  intros Hn Henv. unfold workspace_binding.
  pose proof (patched_environment_spec environment
    (λ env', (resolve_backend_binding fuel expanduser (λ k, dget k env') (Some ("workspace:" +:+ ws_name ws)) e f, env')) env Hn
    (set_vars_NoDup _ _ Hn)) as H.
  destruct (patched_environment _ _ _) as [r env']. destruct H as [-> H]. cbn [fst snd] in *. split.
  - intros k. rewrite H. case_decide as Hk; [done|].
    assert (∀ l (e0 : environ), NoDup (dkeys e0) → k ∉ l.*1 → dget k (foldl set_var e0 l) = dget k e0) as Hskip; [|by apply Hskip].
    induction l as [|kv l IH]; intros e0 Hne Hnot; [done|]. cbn [foldl]. destruct (set_var_get k kv e0 Hne) as [Hg Hn'].
    rewrite fmap_cons, elem_of_cons in Hnot. rewrite IH, Hg; [|done|naive_solver]. rewrite decide_False; [done|]. intros E. apply Hnot. by left.
  - apply workspace_environment_keys in Henv as (memory_env & -> & Hmem). intros b Hb. unfold resolve_backend_binding in Hb.
    apply res_bind_ok in Hb as (root & _ & Hb). apply res_bind_ok in Hb as (sb & _ & Hb). apply Ok_inj in Hb as <-.
    cbn [b_router b_architect b_executor b_profile_name].
    rewrite (patched_get env ws memory_env "router"), (patched_get env ws memory_env "architect"), (patched_get env ws memory_env "executor");
      try done; by repeat constructor.
Qed.

(** C30. Composing a workspace leaves the process environment as it was, whether it
    succeeds or not.  The binding of a composed workspace has, for every role,
    the value the workspace declares, or the ambient one; a declared architect
    or executor is a CLI backend that the composed registry resolves for the
    role, and a declared router is no CLI backend. *)
Theorem compose_isolated (ws : Workspace) (e : senv) (f : fs) (env : environ) r env' :
  NoDup (dkeys env) → compose ws e f env = (r, env') →
  (∀ k, dget k env' = dget k env) ∧
  ∀ c, r = Ok c →
    b_router (c_backend_binding c) = declared ws "router" (dget "LLM_ROUTER" env) ∧
    b_architect (c_backend_binding c) = declared ws "architect" (dget "LLM_ARCHITECT" env) ∧
    b_executor (c_backend_binding c) = declared ws "executor" (dget "LLM_EXECUTOR" env) ∧
    ∀ role v, dget role (ws_backends ws) = Some (Some v) →
      if decide (role = "router") then startswith "cli/" (strip v) = false
      else ∃ a, Backends.resolve role (removeprefix "cli/" (strip v)) (c_backend_registry c) = Ok a.
Proof.
  intros Hn Hc. unfold compose_workspace in Hc.
  destruct (build_registries _ _ _ _ _ _ _ _ _ _ _ _ _) as [[[[br cr] m] sr]|] eqn:Er; cbn [mbind res_bind] in Hc;
    [|by injection Hc as <- <-].
  destruct (workspace_environment fuel expanduser ws f) as [environment|] eqn:Ee; cbn [mbind res_bind] in Hc; [|by injection Hc as <- <-].
  pose proof (workspace_binding_spec ws environment e f env Hn Ee) as Hb.
  destruct (workspace_binding _ _ _ _ _ _ _) as [b env1]. destruct Hb as [Henv Hb].
  injection Hc as <- <-. split; [done|]. intros c Hc.
  apply res_bind_ok in Hc as (binding & -> & Hc). destruct (Hb binding eq_refl) as (H1 & H2 & H3 & _).
  apply res_bind_ok in Hc as (hot & _ & Hc). apply res_bind_ok in Hc as (st & _ & Hc). apply res_bind_ok in Hc as (pol & _ & Hc).
  apply res_bind_ok in Hc as (cp & _ & Hc). apply res_bind_ok in Hc as (es & _ & Hc). apply Ok_inj in Hc as <-.
  cbn [c_backend_binding c_backend_registry]. split_and!; try done. intros role v Hv.
  unfold build_registries in Er. apply res_bind_ok in Er as (br' & _ & Er). apply res_bind_ok in Er as ([] & Hval & Er).
  apply res_bind_ok in Er as ([cr' m'] & _ & Er). apply res_bind_ok in Er as (sr' & _ & Er). apply res_bind_ok in Er as (? & _ & Er).
  apply Ok_inj in Er. injection Er as -> _ _ _.
  exact (proj2 (proj2 (validate_bindings_ok ws _ _ Hval role v (dget_Some_elem _ _ _ Hv)))).
Qed.
End compose_lemmas.

(** ** Event sinks *)
Lemma load_configured_resolved {X} eps kind discovered config : ∀ configured (l : list X),
  load_configured eps kind discovered config configured = Ok l →
  Forall2 (λ name x, ∃ o, dhas (strip (py_str name)) discovered = true ∧
             resolve_plugin eps (pk_group kind) (strip (py_str name)) = Ok o ∧ call_configured config o = Ok (Some x)) configured l.
Proof.
  induction configured as [|name rest IH]; intros l H; cbn [load_configured] in H; [by apply Ok_inj in H as <-|].
  destruct (dhas _ _) eqn:Ed; cbn [negb] in H; [|by apply res_bind_ok in H as (? & _ & H)].
  apply res_bind_ok in H as (o & Ho & H). destruct (resolve_plugin _ _ _) as [o'|] eqn:Er; [|done]. apply Ok_inj in Ho as ->.
  apply res_bind_ok in H as ([x|] & Hx & H); [|done]. apply res_bind_ok in H as (xs & Hxs & <-%Ok_inj).
  constructor; [by exists o|]. by apply IH.
Qed.
Lemma checked_discover_ok {X} (eps : string → list (entry_point X)) group override builtins d :
  checked_discover eps group override builtins = Ok d →
  discover eps group = Ok d ∧ ∀ n, n ∈ dkeys d → n ∉ builtins.
Proof.
  unfold checked_discover. destruct (discover eps group) as [d'|]; [|done]. destruct (List.find _ _) eqn:Ef; [done|].
  intros <-%Ok_inj. split; [done|]. intros n Hn Hb.
  eapply find_none in Ef; [|by apply list_elem_of_In]. apply mem_str_iff in Hb. simpl in Ef. congruence.
Qed.

(** The sinks of a workspace are, in order, one per configured plugin name, none
    of which is a built-in name, and at most one webhook.  The webhook has the
    configured URL, which passed the safety check, and as its secret the
    non-empty value of the variable that the configuration names; a literal
    secret in the configuration is refused. *)
Theorem event_sinks_safe {K} (eps : string → list (entry_point (configured_object K))) (dns : resolver) (env : environ)
    (ws : Workspace) (sinks : list (event_sink K)) :
  build_event_sinks eps dns env ws = Ok sinks →
  dhas "secret" (ws_webhooks ws) = false ∧
  ∃ plugins hooks, sinks = map PluginSink plugins ++ hooks ∧ (length hooks ≤ 1)%nat ∧
    Forall2 (λ name k, strip (py_str name) ∉ BUILT_IN_EVENT_SINK_NAMES ∧
               ∃ o, resolve_plugin eps "agent_os.event_sinks" (strip (py_str name)) = Ok o ∧
                    call_configured (ws_webhooks ws) o = Ok (Some k))
      (names_or_list (get_or "sinks" (VList []) (ws_webhooks ws))) plugins ∧
    ∀ h, h ∈ hooks → ∃ c t, h = WebhookSink c t ∧ sk_secret c ≠ EmptyString ∧ 1 ≤ max_retries c ∧
      sk_url c = strip (py_str (get_or "url" (VStr EmptyString) (ws_webhooks ws))) ∧
      sk_secret c = strip (default EmptyString
        (dget (strip (py_str (get_or "secret_env" (VStr EmptyString) (ws_webhooks ws)))) env)) ∧
      is_safe_webhook_url dns (sk_url c) (allowed_internal_hosts c) (allow_insecure c) = Ok None.
Proof.
  unfold build_event_sinks. intros (d & Hd & H)%res_bind_ok. apply res_bind_ok in H as (plugins & Hp & H).
  destruct (dhas "secret" _); [done|]. apply res_bind_ok in H as (hook & Hh & <-%Ok_inj). split; [done|].
  apply checked_discover_ok in Hd as [_ Hd]. apply load_configured_resolved in Hp.
  exists plugins, hook. split; [done|].
  assert (Forall2 (λ name k, strip (py_str name) ∉ BUILT_IN_EVENT_SINK_NAMES ∧
               ∃ o, resolve_plugin eps "agent_os.event_sinks" (strip (py_str name)) = Ok o ∧
                    call_configured (ws_webhooks ws) o = Ok (Some k))
      (names_or_list (get_or "sinks" (VList []) (ws_webhooks ws))) plugins) as Hall.
  { eapply Forall2_impl; [exact Hp|]. intros name k (o & Hin & Ho & Hc). split; [|by exists o].
    apply Hd. by apply dhas_iff. }
  unfold webhook_sink in Hh. destruct (truthy (strip (py_str (get_or "url" _ _)))) eqn:Eu; cbn [negb] in Hh.
  2:{ apply Ok_inj in Hh as <-. split_and!; [simpl; lia|done|]. intros h H. by apply not_elem_of_nil in H. }
  destruct (truthy _) eqn:Ese in Hh; cbn [negb orb] in Hh.
  2:{ apply Ok_inj in Hh as <-. split_and!; [simpl; lia|done|]. intros h H. by apply not_elem_of_nil in H. }
  destruct (truthy _) eqn:Es in Hh; cbn [negb] in Hh.
  2:{ apply Ok_inj in Hh as <-. split_and!; [simpl; lia|done|]. intros h H. by apply not_elem_of_nil in H. }
  apply res_bind_ok in Hh as (allowed & _ & Hh). apply res_bind_ok in Hh as ([reason|] & Hsafe & Hh); [done|].
  apply res_bind_ok in Hh as (mr & _ & Hh). apply res_bind_ok in Hh as (t & _ & <-%Ok_inj).
  split_and!; [simpl; lia|done|]. intros h ->%list_elem_of_singleton. do 2 eexists. split; [reflexivity|].
  cbn [WebhookEventSink sk_secret sk_url max_retries allowed_internal_hosts allow_insecure].
  split_and!; [by intros E; rewrite E in Es|lia|done|done|done].
Qed.

(** ** Connectors *)
Lemma connectors_register_ok {X} name (c : X) reg reg' : Connectors.register name c reg = Ok reg' →
  dget name reg = None ∧ reg' = reg ++ [(name, c)].
Proof.
  unfold Connectors.register, dhas. destruct (dget name reg) eqn:E; [done|]. intros <-%Ok_inj. split; [done|].
  apply dset_append. by apply dget_None_iff.
Qed.
Lemma register_actions_extends {A C} (eps : string → list (entry_point (plugin_object A))) names :
  ∀ (reg reg' : connectors (A:=A) (C:=C)), register_actions eps names reg = Ok reg' →
  ∃ added, reg' = reg ++ added ∧ Forall (λ '(n, c), n ∈ names ∧ dget n reg = None ∧
    ∃ o a, c = Action a ∧ resolve_plugin eps ACTION_GROUP n = Ok o ∧ instantiate_action n o = Ok a) added.
Proof.
  induction names as [|n rest IH]; intros reg reg' H; cbn [register_actions] in H.
  { apply Ok_inj in H as <-. exists []. by rewrite app_nil_r. }
  apply res_bind_ok in H as (o & Ho & H). destruct (resolve_plugin _ _ n) as [o'|] eqn:Er; [|done]. apply Ok_inj in Ho as ->.
  apply res_bind_ok in H as (a & Ha & H). apply res_bind_ok in H as (reg1 & [Hn ->]%connectors_register_ok & H).
  apply IH in H as (added & -> & Hall). exists ((n, Action a) :: added). rewrite <-app_assoc. split; [done|]. constructor.
  - split_and!; [by left|done|]. by exists o, a.
  - eapply Forall_impl; [exact Hall|]. intros [m c] (Hin & Hm & Hrest). split_and!; [by right| |done].
    destruct (dget m reg) eqn:E; [|done]. by rewrite (dget_app_Some _ _ _ _ E) in Hm.
Qed.

(** A connector registry that is built answers "filesystem" with the built-in
    connector and "memory", like the memory's own name, with the workspace's
    memory; every other name is that of an action plugin, published under a name
    that is not built in. *)
Theorem connector_registry_spec {A C} (fuel : nat) (expanduser : string → string)
    (actions : string → list (entry_point (plugin_object A))) (memories : string → list (entry_point (memory_object C)))
    (ws : Workspace) (f : fs) (reg : connectors (A:=A) (C:=C)) (m : memory_connector C) :
  build_connector_registry fuel expanduser actions memories ws f = Ok (reg, m) →
  build_memory_connector fuel expanduser memories ws f = Ok m ∧
  Connectors.resolve "filesystem" reg = Ok Filesystem ∧ Connectors.resolve "memory" reg = Ok (Memory m) ∧
  Connectors.resolve (memory_name m) reg = Ok (Memory m) ∧
  ∀ name c, (name, c) ∈ reg → c = Filesystem ∧ name = "filesystem" ∨
    c = Memory m ∧ (name = "memory" ∨ name = memory_name m ∨ name = "markdown" ∧ memory_name m = "markdown_vault") ∨
    name ∉ BUILT_IN_ACTION_NAMES ∧ name ≠ memory_name m ∧
      ∃ o a, c = Action a ∧ resolve_plugin actions ACTION_GROUP name = Ok o ∧ instantiate_action name o = Ok a.
Proof.
  unfold build_connector_registry. intros (d & Hd & H)%res_bind_ok. apply checked_discover_ok in Hd as [_ Hd].
  apply res_bind_ok in H as (r1 & [_ ->]%connectors_register_ok & H). apply res_bind_ok in H as (m' & Hm & H).
  apply res_bind_ok in H as (r2 & [H2 ->]%connectors_register_ok & H).
  apply res_bind_ok in H as (r3 & H3 & H). destruct (Connectors.register (memory_name m') _ _) as [r3'|] eqn:E3; [|done].
  apply Ok_inj in H3 as ->. apply connectors_register_ok in E3 as [Hfresh ->].
  apply res_bind_ok in H as (r4 & H4 & H). apply res_bind_ok in H as (r5 & H5 & H). apply Ok_inj in H as [= <- <-].
  assert (∃ md, r4 = ([] ++ [("filesystem", Filesystem)]) ++ [("memory", Memory m')] ++ [(memory_name m', Memory m')] ++ md ∧
            ∀ p, p ∈ md → p = ("markdown", Memory m') ∧ memory_name m' = "markdown_vault") as (md & -> & Hmd).
  { destruct (String.eqb_spec (memory_name m') "markdown_vault") as [E|E].
    - apply connectors_register_ok in H4 as [_ ->]. exists [("markdown", Memory m')]. rewrite <-!app_assoc. split; [done|].
      intros p ->%list_elem_of_singleton. done.
    - apply Ok_inj in H4 as <-. exists []. rewrite app_nil_r, <-!app_assoc. split; [done|]. intros p Hp. by apply not_elem_of_nil in Hp. }
  apply register_actions_extends in H5 as (added & -> & Hall). split; [done|]. unfold Connectors.resolve.
  split_and!; [reflexivity|reflexivity| |].
  - set (l := _ ++ added). change l with ([("filesystem"%string, Filesystem); ("memory"%string, Memory m')] ++ (memory_name m', Memory m') :: md ++ added).
    rewrite dget_app_None by exact Hfresh. cbn [dget]. by rewrite String.eqb_refl.
  - intros name c Hin. simpl app in Hin. rewrite !elem_of_cons, elem_of_app in Hin.
    destruct Hin as [[= -> ->]|[[= -> ->]|[[= -> ->]|[Hin|Hin]]]]; [by left|right; left; auto|right; left; auto| |].
    + apply Hmd in Hin as [[= -> ->] ?]. right. left. auto.
    + apply (proj1 (Forall_forall _ _) Hall) in Hin as (Hn & Hg & o & a & Hc & Ho & Ha). right. right. split_and!.
      * by apply Hd.
      * intros ->. apply dget_None_iff in Hg. apply Hg, list_elem_of_fmap. exists (memory_name m', Memory m').
        split; [done|]. simpl app. rewrite !elem_of_cons. auto.
      * by exists o, a.
Qed.

(** ** A composed workspace *)
Definition demo_ws : Workspace :=
  mkWorkspace "acme" None None [("architect", Some " codex "); ("router", None)] [] ["filesystem"; "markdown"] [("path", VStr "vault")]
    [("mode", VStr "smart")] [] [("recursion", VInt 7)]
    [("url", VStr "https://hooks.example/x"); ("secret_env", VStr "HOOK"); ("allowed_internal_hosts", VStr "hooks.example")] ["w"].
Definition demo_installed : installed Z Z Z Z Z := mkInstalled (λ _, []) (λ _, []) (λ _, []) (λ _, []) (λ _, [])
  (λ g, [mkEntryPoint "crm" (Ok (Object (Some 1)))]) (λ _, [mkEntryPoint "Acme" (Ok (MObject (Some ("acme"%string, 2))))]).
Definition demo_builtin (name : string) : BackendAdapter Z := builtin_adapter name name false (λ _, 0).
Definition demo_view (m : memory_connector Z) (f : fs) : res (list string) * (string → res note) * option (string → option spec_float) :=
  (Ok ["hot.md"], λ ref, Ok (mkNote "remember" []), None).
Definition demo_environ : environ := [("LLM_EXECUTOR", "cli/codex"); ("HOOK", "s3cret"); ("LLM_ARCHITECT", "old")].
Definition demo_compose (ws : Workspace) :=
  compose_workspace (St:=Z) demo_installed (demo_builtin "claude-code") (demo_builtin "codex") (demo_builtin "antigravity")
    20 id (λ _, None) (λ _ _, None) (λ _ _, []) [] (λ _ _, Ok []) (λ _, Ok 0) demo_view fzero (λ _, None)
    ws (mkSenv None ["w"] None) {[ ["w"] := NDir ]} demo_environ.
Definition binding_of (r : res (ComposedWorkspace Z Z Z Z Z Z)) : res BackendBinding := c ← r; Ok (c_backend_binding c).

Lemma compose_isolated_witness :
  binding_of (demo_compose demo_ws).1 = Ok (mkBinding None (Some "cli/codex") (Some "cli/codex") (Some "workspace:acme") "/w/sandbox") ∧
  ∀ k, dget k (demo_compose demo_ws).2 = dget k demo_environ.
Proof.
  split; [vm_compute; reflexivity|].
  assert (NoDup (dkeys demo_environ)) as Hn by (apply (bool_decide_unpack _); vm_compute; exact Logic.I).
  unfold demo_compose.
  exact (proj1 (compose_isolated demo_installed (demo_builtin "claude-code") (demo_builtin "codex") (demo_builtin "antigravity")
    20 id (λ _, None) (λ _ _, None) (λ _ _, []) [] (λ _ _, Ok []) (λ _, Ok 0) demo_view fzero (λ _, None)
    demo_ws (mkSenv None ["w"] None) {[ ["w"] := NDir ]} demo_environ _ _
    Hn (surjective_pairing _))).
Defined.
Lemma event_sinks_safe_witness :
  build_event_sinks (K:=Z) (λ _, []) (λ _ _, Ok []) demo_environ demo_ws
  = Ok [WebhookSink (WebhookEventSink "https://hooks.example/x" "s3cret" ["hooks.example"] false 3 1000 1) (of_int 2)] ∧
  dhas "secret" (ws_webhooks demo_ws) = false.
Proof.
  split; [vm_compute; reflexivity|]. refine (proj1 (event_sinks_safe (K:=Z) (λ _, []) (λ _ _, Ok []) demo_environ demo_ws
    [WebhookSink (WebhookEventSink "https://hooks.example/x" "s3cret" ["hooks.example"] false 3 1000 1) (of_int 2)] _)).
  vm_compute. reflexivity.
Defined.
Lemma connector_registry_spec_witness :
  ∃ reg, build_connector_registry 20 id (i_actions demo_installed) (i_memories demo_installed) demo_ws ∅ = Ok (reg, MarkdownVault ["w"; "vault"]) ∧
    Connectors.resolve "memory" reg = Ok (Memory (MarkdownVault ["w"; "vault"])).
Proof.
  eexists. split; [vm_compute; reflexivity|].
  refine (proj1 (proj2 (proj2 (connector_registry_spec 20 id (i_actions demo_installed) (i_memories demo_installed) demo_ws ∅ _ _ _)))).
  vm_compute. reflexivity.
Defined.

(** The configured type is lower-cased and the names of entry points are not: a
    memory plugin published as "Acme" cannot be selected. *)
Example capital_memory_unreachable :
  build_memory_connector 20 id (i_memories demo_installed)
    (with_paths [("type", VStr "Acme")] [] demo_ws) ∅
  = Raise (WorkspaceLoadError "Unknown memory connector 'acme'. Available built-ins: markdown, gbrain. Discovered plugins: Acme.").
Proof. vm_compute. reflexivity. Qed.
