(* ===== verification/Runtime.v ===== *)
(** * The server's runtime (agent_os/server/runtime.py)

    What every request reads: the composed workspace, cached by an
    [lru_cache] of one entry that an exception does not fill; the run
    configuration, the policy of a session, the initial state of a workflow and
    the summary that the health check shows.  Composing the workspace, opening
    the stores and reading the package metadata are arguments: they are
    Workspace.v's, the stores' and the standard library's. *)
From S2P Require Import Policy.
From S2P Require Import Workspace Strategies.
From S2P Require Workflow.

Definition package_version (metadata : res string) : res string :=
  match metadata with
  | Ok v => Ok v
  | Raise (OtherError "PackageNotFoundError") => Ok "2.0.0"
  | Raise e => Raise e
  end.

(** ** Workspace ids and observation databases (observations.py) *)
(** [workspace] is the text of its [base_path] or of a directory;
    [resolve_path] is [str(Path(x).expanduser().resolve())], which raises
    OSError or ValueError. *)
Definition path_error (e : exn) : bool :=
  match e with ValueError _ => true | OtherError m => startswith "OSError" m | _ => false end.
Definition observation_workspace_id (resolve_path : string → res string) (workspace : option string) : res string :=
  match workspace with
  | None => Ok "standalone"
  | Some w => match resolve_path w with
              | Ok p => Ok p
              | Raise e => if path_error e then Ok "standalone" else Raise e
              end
  end.
Definition DEFAULT_OBSERVATION_DB : string := "./observations.db".
Definition resolve_observation_db_path (resolve_path : string → res string) (env_db workspace : option string) : res string :=
  let configured := strip (default EmptyString env_db) in
  if truthy configured then resolve_path configured
  else match workspace with
       | None => Ok DEFAULT_OBSERVATION_DB
       | Some w => match resolve_path w with
                   | Ok p => Ok ((if String.eqb p "/" then EmptyString else p) +:+ "/observations.db")
                   | Raise e => if path_error e then Ok DEFAULT_OBSERVATION_DB else Raise e
                   end
       end.
Definition open_observation_store {S} (open_db : string → res S) (db_path : res string) : res (option S) :=
  p ← db_path; Ok (match open_db p with Ok s => Some s | Raise _ => None end).

(** ** Inputs *)
Definition task_kind_for_input (task : string) : string :=
  if startswith "memory_write" (lower (lstrip task)) then "memory_write" else "workflow".

Section runtime.
Context {I A C P K St : Type}.
Notation composed := (ComposedWorkspace I A C P K St).

(** [None]: AGENT_OS_WORKSPACE is not set.  [compose] is
    [compose_workspace(load_workspace(path))] at the time of the call. *)
Definition runtime := option composed.
Definition cache := option runtime.
Definition composed_workspace (env_workspace : option string) (compose : string → res composed) (c : cache)
    : res runtime * cache :=
  match c with
  | Some r => (Ok r, c)
  | None =>
      let workspace_path := strip (default EmptyString env_workspace) in
      if sempty workspace_path then (Ok None, Some None)
      else match compose workspace_path with
           | Ok w => (Ok (Some w), Some (Some w))
           | Raise e => (Raise e, None)
           end
  end.
(** [composed_workspace.cache_clear()] *)
Definition cache_clear (c : cache) : cache := None.

(** A function of the runtime. *)
Definition with_runtime {B} (env_workspace : option string) (compose : string → res composed)
    (f : runtime → res B) (c : cache) : res B * cache :=
  let '(r, c') := composed_workspace env_workspace compose c in (r ≫= f, c').

(** [configurable["workspace"]] and the recursion limit, which a positive
    integer of the workspace replaces. *)
Record run_config := mkConfig { rc_thread_id : string; rc_workspace : runtime; rc_recursion_limit : Z }.
Definition positive_int (v : option pyval) : option Z :=
  match v with
  | Some (VInt z) => if 0 <? z then Some z else None
  | Some (VBool true) => Some 1
  | _ => None
  end.
Definition runtime_config (thread_id : string) (r : runtime) : res run_config :=
  '(base, thread) ← Workflow.build_runtime_config thread_id;
  Ok (mkConfig thread r
        (match r with
         | None => Z.of_nat base
         | Some w => default (Z.of_nat base) (positive_int (dget "recursion_limit" (c_limits _ _ _ _ _ _ w)))
         end)).

(** [store] is [open_permission_store()] and its rules. *)
Definition runtime_policy_for_session (session_key : option string) (standalone : LocalPolicy) (r : runtime) : engine :=
  match r with
  | Some w => with_session session_key (c_policy w)
  | None => ELocal (lp_with_session session_key standalone)
  end.

Definition runtime_registry (r : runtime) : option Skills.registry := c_skill_registry <$> r.
Definition runtime_memory (default_connector : res (memory_connector C)) (r : runtime) : res (memory_connector C) :=
  match r with Some w => Ok (c_memory_connector w) | None => default_connector end.

(** The keys of the initial state that are not None. *)
Record graph_input := mkInput {
  gi_task : string;
  gi_run_id : option string;
  gi_hot_context : option string;
  gi_strategy_hint : StrategyHint;
  gi_backend_binding : Backends.BackendBinding }.

(** [binding] is [resolve_backend_binding(None)], [opened] the observation
    store of the workspace, opened for a run only, and [ws] its id. *)
Definition initial_state (sha256 : string → string) (now task : string) (run_id strategy_override : option string)
    (binding : res Backends.BackendBinding) (opened : res (option store)) (ws : res string) (r : runtime)
    : res graph_input * res (option store) :=
  match (b ← (match r with Some w => Ok (c_backend_binding w) | None => binding end);
         st ← (match run_id with Some _ => opened | None => Ok None end);
         w ← ws; Ok (b, st, w)) with
  | Raise e => (Raise e, opened)
  | Ok (b, st, w) =>
      let '(selection, st') := select_strategy sha256 now st w (task_kind_for_input task) run_id strategy_override in
      (s ← selection; Ok (mkInput task run_id (c_hot_context <$> r) (hint s) b),
       match run_id with Some _ => Ok st' | None => opened end)
  end.

(** ** The summary *)
Inductive summary :=
  | SNotConfigured
  | SError (configured : bool) (workspace_path : option string) (error : string)
  | SOk (path name memory_connector : string) (skills : nat) (hot_context : bool) (recursion_limit : option pyval).

Definition runtime_summary (env_workspace : option string) (r : res runtime) : summary :=
  let workspace_path := strip (default EmptyString env_workspace) in
  match r with
  | Raise e => SError (truthy workspace_path) (if truthy workspace_path then Some workspace_path else None) (exn_msg e)
  | Ok None => SNotConfigured
  | Ok (Some w) =>
      SOk (abs_str (base_path (c_workspace w) ++ ["workspace.toml"])) (ws_name (c_workspace w))
        (memory_name (c_memory_connector w)) (length (Skills.names (c_skill_registry w)))
        (truthy (c_hot_context w)) (dget "recursion_limit" (c_limits _ _ _ _ _ _ w))
  end.

(** ** What the endpoints open (server/api.py) *)
Definition runtime_base (r : runtime) : option string := (λ w, abs_str (base_path (c_workspace w))) <$> r.
Definition runtime_observation_store (open_store : option string → res (option store)) (workspace_id : option string → res string)
    (r : runtime) : res (store * string) :=
  st ← open_store (runtime_base r);
  match st with
  | None => Raise (RuntimeError "Observations store is unavailable")
  | Some s => ws ← workspace_id (runtime_base r); Ok (s, ws)
  end.
Definition runtime_skill_candidate_context (open_store : option string → res (option store))
    (workspace_id : option string → res string) (r : runtime) : res (store * string * Skills.registry) :=
  st ← open_store (runtime_base r);
  match st with
  | None => Raise (RuntimeError "Observations store is unavailable")
  | Some s => ws ← workspace_id (runtime_base r); Ok (s, ws, default [] (runtime_registry r))
  end.
Definition runtime_skill_authoring_workspace (r : runtime) : res Workspace :=
  match r with
  | None => Raise (RuntimeError "Skill authoring requires an active workspace")
  | Some w => Ok (c_workspace w)
  end.

Record health := mkHealth { h_status : string; h_version : string; h_workspace : summary; h_active_runs : nat }.
Definition health_check (server_version : string) (env_workspace : option string) (r : res runtime) (active_runs : nat) : health :=
  let workspace := runtime_summary env_workspace r in
  mkHealth (match workspace with SError _ _ _ => "degraded" | _ => "ok" end) server_version workspace active_runs.
End runtime.

(** ** One composition serves every request *)
Section cached.
Context {I A C P K St : Type}.
Notation composed := (ComposedWorkspace I A C P K St).

(** Calls one after another, each with the environment and the files of its
    time. *)
Fixpoint runtime_calls (calls : list (option string * (string → res composed))) (c : cache) : list (res runtime) * cache :=
  match calls with
  | [] => ([], c)
  | (env, compose) :: calls' =>
      let '(r, c1) := composed_workspace env compose c in
      let '(rs, c2) := runtime_calls calls' c1 in (r :: rs, c2)
  end.

Lemma runtime_calls_cached (r : runtime) calls : runtime_calls calls (Some r) = (replicate (length calls) (Ok r), Some r).
Proof. induction calls as [|[env compose] calls IH]; [done|]. cbn [runtime_calls composed_workspace length replicate]. by rewrite IH. Qed.

(** Whatever the environment and the files become, all requests
    see the first workspace that composed, until the cache is cleared; a failed
    composition is tried again by the next request. *)
Theorem runtime_stable (calls : list (option string * (string → res composed))) :
  let '(rs, c) := runtime_calls calls (cache_clear None) in
  ∃ (failed : list (res runtime)) (served : nat),
    Forall (λ r, is_ok r = false) failed ∧
    match c with
    | None => rs = failed ∧ served = 0%nat
    | Some r => rs = failed ++ replicate served (Ok r) ∧ served ≠ 0%nat ∧
        match r with
        | Some w => ∃ env compose, (env, compose) ∈ calls ∧ compose (strip (default EmptyString env)) = Ok w
        | None => ∃ env compose, (env, compose) ∈ calls ∧ strip (default EmptyString env) = EmptyString
        end
    end.
Proof.
  unfold cache_clear. induction calls as [|[env compose] calls IH].
  { exists [], 0%nat. by split; [constructor|]. }
  cbn [runtime_calls composed_workspace]. destruct (sempty (strip _)) eqn:Es.
  { rewrite runtime_calls_cached. exists [], (S (length calls)). split; [constructor|]. split_and!; [done|done|].
    exists env, compose. split; [by left|]. by destruct (strip _). }
  destruct (compose (strip _)) as [w|e] eqn:Ec.
  { rewrite runtime_calls_cached. exists [], (S (length calls)). split; [constructor|]. split_and!; [done|done|].
    exists env, compose. split; [by left|done]. }
  destruct (runtime_calls calls None) as [rs c]. destruct IH as (failed & served & Hf & H).
  exists (Raise e :: failed), served. split; [by constructor|]. destruct c as [r|].
  - destruct H as (-> & Hs & Hr). split_and!; [done|done|].
    destruct r as [w|]; destruct Hr as (env' & compose' & ? & ?); exists env', compose'; (split; [by right|done]).
  - by destruct H as [-> ->].
Qed.
End cached.
