(* ===== verification/Chat.v ===== *)
(** * The chat socket (agent_os/server/api.py, websocket_endpoint)

    One WebSocket conversation: access is checked before the handshake is
    accepted, a pending interrupt is restored, and then every message of the
    client either resumes the interrupt or starts a new task on the thread.
    The graph is LangGraph's with the checkpointer: what a pass over it streams,
    how it ends and the snapshot after it are arguments, on a state type of
    their own.  A frame is the data of the JSON text that is sent. *)
From S2P Require Import Access RunExecutor.

Definition WEBSOCKET_PROTOCOL : string := "agent-os".

Inductive frame :=
  | FInterrupt (prompt : pyval)
  | FToken (content : pyval)
  | FDone
  | FError (status error : string).

Inductive graph_call := Resume (feedback : string) | Start (task : string).

Inductive outcome :=
  | Closed (code : Z) (reason : string)                   (* refused before the handshake *)
  | Disconnected                                          (* the client went away *)
  | Crashed (e : exn).

(** A snapshot: its values and the value of the first interrupt of its tasks
    ([_pending_interrupt], cli/app.py). *)
Record snapshot := mkSnapshot { sn_values : pyval; sn_tasks : list (list pyval) }.
Fixpoint pending_interrupt (tasks : list (list pyval)) : option pyval :=
  match tasks with
  | [] => None
  | interrupts :: rest => match interrupts with i :: _ => Some i | [] => pending_interrupt rest end
  end.
(** An interrupt whose value is None is not told from none. *)
Definition interrupt_of (sn : snapshot) : option pyval :=
  match pending_interrupt (sn_tasks sn) with Some VNone => None | o => o end.

Section chat.
Context {G : Type}.
(** One pass: the contents of its chat model chunks, and the graph's state at
    the end or the exception; [aget_state]. *)
Context (astream : graph_call → G → list pyval * res G) (aget_state : G → res snapshot).

Definition tokens (contents : list pyval) : list frame := map FToken (List.filter py_truthy contents).

Definition closing_frame (sn : snapshot) : frame :=
  match interrupt_of sn with
  | Some prompt => FInterrupt prompt
  | None => match terminal_tool_failure (sn_values sn) with
            | None => FDone
            | Some (st, message) => FError st message
            end
  end.
Definition call_of (pending : bool) (data : string) : graph_call := if pending then Resume data else Start data.

(** The loop over the messages of the client, which then disconnects: the
    frames, the calls on the graph and how it ends. *)
Fixpoint chat_loop (pending : bool) (messages : list string) (g : G) : list frame * list graph_call * outcome :=
  match messages with
  | [] => ([], [], Disconnected)
  | data :: rest =>
      let call := call_of pending data in
      let '(contents, end_) := astream call g in
      match (g' ← end_; sn ← aget_state g'; Ok (g', sn)) with
      | Raise e => (tokens contents, [call], Crashed e)
      | Ok (g', sn) =>
          let '(fs, calls, o) := chat_loop (bool_decide (is_Some (interrupt_of sn))) rest g' in
          (tokens contents ++ closing_frame sn :: fs, call :: calls, o)
      end
  end.

(** The conversation, and the session whose grants are cleared at its end.
    [start] builds the graph and its configuration. *)
Definition chat (messages : list string) (start : res G) : list frame * list graph_call * outcome :=
  match (g ← start; sn ← aget_state g; Ok (g, sn)) with
  | Raise e => ([], [], Crashed e)
  | Ok (g, sn) =>
      let existing := interrupt_of sn in
      let '(fs, calls, o) := chat_loop (bool_decide (is_Some existing)) messages g in
      (match existing with Some p => [FInterrupt p] | None => [] end ++ fs, calls, o)
  end.

Record conversation := mkConversation {
  cv_accepted : option (option string);     (* the subprotocol, once accepted *)
  cv_frames : list frame;
  cv_calls : list graph_call;
  cv_outcome : outcome;
  cv_cleared : bool }.                      (* LocalPolicy.clear_session(session_key) *)

(** [policy] is [runtime_policy_for_session], read before the [try]. *)
Definition websocket_endpoint (cors_origins : list string) (token_env : option string) (c : connection)
    (messages : list string) (policy : res unit) (start : res G) : res conversation :=
  refused ← private_api_access_error cors_origins token_env c;
  match refused with
  | Some _ => Ok (mkConversation None [] [] (Closed 1008 "Forbidden") false)
  | None =>
      let sub := if mem_str WEBSOCKET_PROTOCOL (requested_websocket_protocols c) then Some WEBSOCKET_PROTOCOL else None in
      match policy with
      | Raise e => Ok (mkConversation (Some sub) [] [] (Crashed e) false)
      | Ok _ =>
          let '(fs, calls, o) := chat messages start in
          Ok (mkConversation (Some sub) fs calls o true)
      end
  end.
End chat.

(** ** A message answers the last interrupt *)

(** Whether the client was last sent an interrupt. *)
Definition awaiting (p : bool) (fs : list frame) : bool :=
  foldl (λ b f, match f with FInterrupt _ => true | FToken _ => b | _ => false end) p fs.

Lemma awaiting_tokens p cs fs : awaiting p (tokens cs ++ fs) = awaiting p fs.
Proof. unfold awaiting, tokens. induction (List.filter py_truthy cs) as [|c l IH]; [done|exact IH]. Qed.
Lemma closing_not_token sn c : closing_frame sn ≠ FToken c.
Proof. unfold closing_frame. destruct (interrupt_of sn); [done|]. by destruct (terminal_tool_failure _) as [[]|]. Qed.
Lemma awaiting_closing p sn fs :
  awaiting p (closing_frame sn :: fs) = awaiting (bool_decide (is_Some (interrupt_of sn))) fs.
Proof.
  unfold closing_frame. destruct (interrupt_of sn) as [x|].
  - by rewrite bool_decide_eq_true_2 by by eexists.
  - rewrite bool_decide_eq_false_2 by by intros [? ?]. by destruct (terminal_tool_failure _) as [[]|].
Qed.

Section chat_lemmas.
Context {G : Type} (astream : graph_call → G → list pyval * res G) (aget_state : G → res snapshot).

(** What one more message adds. *)
Definition answered (fs' : list frame) (o : outcome) : Prop :=
  o = Disconnected → ∃ contents closing, fs' = tokens contents ++ [closing] ∧ ∀ c, closing ≠ FToken c.

Lemma chat_loop_snoc m messages : ∀ p g fs calls,
  chat_loop astream aget_state p messages g = (fs, calls, Disconnected) →
  ∃ fs' o, chat_loop astream aget_state p (messages ++ [m]) g = (fs ++ fs', calls ++ [call_of (awaiting p fs) m], o) ∧
    answered fs' o.
Proof.
  induction messages as [|data rest IH]; intros p g fs calls; cbn [chat_loop app].
  - intros [= <- <-]. destruct (astream _ g) as [contents end_]. destruct (_ ≫= _) as [[g' sn]|e].
    + eexists _, _. split; [done|]. intros _. exists contents, (closing_frame sn). split; [done|]. apply closing_not_token.
    + eexists _, _. split; [done|]. done.
  - destruct (astream _ g) as [contents end_]. destruct (_ ≫= _) as [[g' sn]|e]; [|done].
    destruct (chat_loop _ _ _ rest g') as [[fs1 calls1] o1] eqn:E. intros [= <- <- ->].
    destruct (IH _ _ _ _ E) as (fs' & o & -> & Ha). exists fs', o. split; [|done].
    by rewrite awaiting_tokens, awaiting_closing, <-!app_assoc.
Qed.

Lemma chat_snoc m messages start fs calls : chat astream aget_state messages start = (fs, calls, Disconnected) →
  ∃ fs' o, chat astream aget_state (messages ++ [m]) start = (fs ++ fs', calls ++ [call_of (awaiting false fs) m], o) ∧
    answered fs' o.
Proof.
  unfold chat. destruct (_ ≫= _) as [[g sn]|e]; [|done].
  destruct (chat_loop _ _ _ messages g) as [[fs1 calls1] o1] eqn:E. intros [= <- <- ->].
  destruct (chat_loop_snoc m _ _ _ _ _ E) as (fs' & o & -> & Ha). exists fs', o. split; [|done].
  destruct (interrupt_of sn) as [x|]; cbn [app].
  - by rewrite bool_decide_eq_true_2 by by eexists.
  - by rewrite bool_decide_eq_false_2 by by intros [? ?].
Qed.

(** What the rule asks of a connection (Access.private_access_spec has its
    endpoints): its origin, if it has one, is configured, and it presents the
    configured token, or none is configured and the peer is local. *)
Definition may_connect (cors_origins : list string) (token_env : option string) (c : connection) : Prop :=
  (strip (origin c) = "" ∨ strip (origin c) ∈ cors_origins) ∧
  (strip (default "" token_env) ≠ "" → execution_token_from_connection c = strip (default "" token_env)) ∧
  (strip (default "" token_env) = "" → is_loopback_client (client_host c) = true).
Lemma access_error_spec cors_origins token_env c refused :
  private_api_access_error cors_origins token_env c = Ok refused → (refused = None ↔ may_connect cors_origins token_env c).
Proof.
  unfold private_api_access_error, check_private_api_access, may_connect.
  assert (truthy (strip (origin c)) && negb (mem_str (strip (origin c)) cors_origins) = false ↔
    strip (origin c) = "" ∨ strip (origin c) ∈ cors_origins) as Horg.
  { rewrite <-mem_str_iff. destruct (strip (origin c)) as [|x o]; [cbn; tauto|]. cbn [truthy sempty negb andb].
    destruct (mem_str _ cors_origins); cbn; naive_solver. }
  destruct (truthy _ && _); cbn [mbind res_bind].
  { intros [= <-]. split; [done|]. intros [H _]. by apply Horg in H. }
  destruct (strip (default "" token_env)) as [|x q]; cbn [sempty].
  - destruct (is_loopback_client _); cbn [mbind res_bind]; intros [= <-]; naive_solver.
  - unfold compare_digest. destruct (_ && _); cbn [mbind res_bind]; [|done].
    destruct (String.eqb_spec (execution_token_from_connection c) (String x q)); intros [= <-]; naive_solver.
Qed.

(** C28. The socket is accepted exactly when the access rule allows the
    connection; otherwise it is closed as forbidden, no frame is sent and the
    graph is not called.  Once accepted, an interrupt that was pending is sent
    first; the next message resumes the graph when the last answer was an
    interrupt, that one included, starts a new task otherwise, and is answered
    by tokens and then one interrupt, done or error frame; the session's grants
    end with the conversation. *)
Theorem chat_resumes cors_origins token_env c policy start messages (cv : conversation) :
  websocket_endpoint astream aget_state cors_origins token_env c messages policy start = Ok cv →
  ((∃ sub, cv_accepted cv = Some sub) ↔
     (strip (origin c) = "" ∨ strip (origin c) ∈ cors_origins) ∧
     (strip (default "" token_env) ≠ "" → execution_token_from_connection c = strip (default "" token_env)) ∧
     (strip (default "" token_env) = "" → is_loopback_client (client_host c) = true)) ∧
  match cv_accepted cv with
  | None => cv_frames cv = [] ∧ cv_calls cv = [] ∧ cv_outcome cv = Closed 1008 "Forbidden"
  | Some _ =>
      (policy = Ok tt → cv_cleared cv = true) ∧
      (∀ g sn prompt, policy = Ok tt → start = Ok g → aget_state g = Ok sn → interrupt_of sn = Some prompt →
         head (cv_frames cv) = Some (FInterrupt prompt)) ∧
      (cv_outcome cv = Disconnected → ∀ m : string, ∃ fs' o,
         websocket_endpoint astream aget_state cors_origins token_env c (messages ++ [m]) policy start
         = Ok (mkConversation (cv_accepted cv) (cv_frames cv ++ fs')
                 (cv_calls cv ++ [if awaiting false (cv_frames cv) then Resume m else Start m]) o true) ∧
         (o = Disconnected → ∃ contents closing, fs' = tokens contents ++ [closing] ∧ ∀ x, closing ≠ FToken x))
  end.
Proof.
  unfold websocket_endpoint. intros (refused & Hr & H)%res_bind_ok. rewrite Hr. cbn [mbind res_bind].
  pose proof (access_error_spec _ _ _ _ Hr) as Ha. fold (may_connect cors_origins token_env c).
  destruct refused as [e|].
  { apply Ok_inj in H as <-. cbn. split; [|done]. rewrite <-Ha. split; [by intros []|done]. }
  assert (may_connect cors_origins token_env c) as Hmay by by apply Ha. split.
  { split; [done|]. intros _. destruct policy; [destruct (chat _ _ _ _) as [[] ]|]; apply Ok_inj in H as <-; by eexists. }
  destruct policy as [[]|e]; [|apply Ok_inj in H as <-; done].
  destruct (chat _ _ messages start) as [[fs calls] o] eqn:E. apply Ok_inj in H as <-.
  cbn [cv_accepted cv_frames cv_calls cv_outcome cv_cleared]. split_and!; [done| |].
  - intros g sn prompt _ -> Hsn Hi. unfold chat in E. cbn [mbind res_bind] in E. rewrite Hsn in E. cbn [mbind res_bind] in E.
    rewrite Hi in E. destruct (chat_loop _ _ _ _ _) as [[fs1 ?] ?]. by injection E as <- _ _.
  - intros -> m. destruct (chat_snoc m _ _ _ _ E) as (fs' & o & -> & Hans). by exists fs', o.
Qed.
End chat_lemmas.

(** A graph that asks for approval once: its state counts the calls. *)
Definition demo_stream (call : graph_call) (g : nat) : list pyval * res nat := ([VStr "tok"; VStr EmptyString], Ok (S g)).
Definition demo_state (g : nat) : res snapshot :=
  Ok (mkSnapshot (VDict []) (if (g =? 1)%nat then [[]; [VStr "approve?"]] else [])).
Definition demo_socket : connection :=
  mkConn true EmptyString EmptyString EmptyString EmptyString "agent-os" EmptyString (Some "127.0.0.1"%string) "/api/chat/t".
Lemma chat_resumes_witness :
  websocket_endpoint demo_stream demo_state [] None demo_socket ["build it"] (Ok tt) (Ok 0%nat)
  = Ok (mkConversation (Some (Some "agent-os"%string)) [FToken (VStr "tok"); FInterrupt (VStr "approve?")]
          [Start "build it"] Disconnected true) ∧
  ∃ fs' o, websocket_endpoint demo_stream demo_state [] None demo_socket ["build it"; "approved"] (Ok tt) (Ok 0%nat)
    = Ok (mkConversation (Some (Some "agent-os"%string)) ([FToken (VStr "tok"); FInterrupt (VStr "approve?")] ++ fs')
            [Start "build it"; Resume "approved"] o true) ∧ answered fs' o.
Proof.
  assert (websocket_endpoint demo_stream demo_state [] None demo_socket ["build it"] (Ok tt) (Ok 0%nat)
  = Ok (mkConversation (Some (Some "agent-os"%string)) [FToken (VStr "tok"); FInterrupt (VStr "approve?")]
          [Start "build it"] Disconnected true)) as H by (vm_compute; reflexivity).
  split; [exact H|].
  exact (proj2 (proj2 (proj2 (chat_resumes demo_stream demo_state [] None demo_socket (Ok tt) (Ok 0%nat) ["build it"] _ H))) eq_refl "approved").
Defined.
