(* ===== verification/UpdateCheck.v ===== *)
(** * Update discovery (agent_os/update_check.py)

    The release check with its cache file.  [packaging.version.Version], the
    HTTP request and the package metadata are arguments.  Clock readings and
    file times are in microseconds; the text of a decoding error is left out of
    [error]. *)
From S2P Require Import Sandbox JsonIndent.

Definition DEFAULT_RELEASES_URL : string := "https://api.github.com/repos/simon-aibc/agent-os-langgraph/releases/latest".
Definition CACHE_TTL : Z := 86400 * 1000000.

Record UpdateInfo := mkInfo {
  current_version : string;
  latest_version : string;
  update_available : bool;
  release_url : pyval;
  release_notes : pyval;
  checked_at : pyval;
  ui_error : pyval }.
(** [asdict(info)] *)
Definition to_dict (i : UpdateInfo) : pydict :=
  [("current_version", VStr (current_version i)); ("latest_version", VStr (latest_version i));
   ("update_available", VBool (update_available i)); ("release_url", release_url i);
   ("release_notes", release_notes i); ("checked_at", checked_at i); ("error", ui_error i)].

(** [resolve_path] is [Path(x).expanduser().resolve()]. *)
Definition get_cache_path (resolve_path : string → res path) (home : path) (env_cache custom_path : option string) : res path :=
  match (match custom_path with Some p => if truthy p then Some p else None | None => None end) with
  | Some p => resolve_path p
  | None => match env_cache with
            | Some p => if truthy p then resolve_path p else Ok (home ++ [".agent_os"; "update_cache.json"])
            | None => Ok (home ++ [".agent_os"; "update_cache.json"])
            end
  end.

Definition clean_version_str (ver_str : string) : string :=
  match strip ver_str with
  | String c s => if Ascii.eqb c "v" || Ascii.eqb c "V" then s else String c s
  | EmptyString => EmptyString
  end.

Section update_check.
(** [Version(text)], [None] for an InvalidVersion, and [a > b]. *)
Context {V : Type} (Version : string → option V) (gt : V → V → bool) (fuel : nat).

Definition parse_version (ver_str : string) : option V := Version (clean_version_str ver_str).
Definition newer (latest current : string) : option bool :=
  match parse_version current, parse_version latest with Some c, Some l => Some (gt l c) | _, _ => None end.

Definition get_or (k : string) (d0 : pyval) (d : pydict) : pyval := default d0 (dget k d).
Definition read_cache (now : Z) (cache_path : path) (current : string) (f : fs) : option UpdateInfo :=
  match stat fuel f cache_path with
  | Ok (NFile _ mtime) =>
      if CACHE_TTL <? now - mtime then None
      else
        match read_text fuel f cache_path with
        | Raise _ => None
        | Ok text =>
            match loads text with
            | Some (VDict data) =>
                match get_or "latest_version" (VStr current) data with
                | VStr latest =>
                    let cached := py_truthy (get_or "update_available" (VBool false) data) in
                    Some (mkInfo current latest (default cached (newer latest current))
                            (get_or "release_url" VNone data) (get_or "release_notes" VNone data)
                            (get_or "checked_at" VNone data) (get_or "error" VNone data))
                | _ => None
                end
            | _ => None
            end
        end
  | _ => None
  end.

Definition write_cache (now : Z) (cache_path : path) (info : UpdateInfo) (f : fs) : fs :=
  match mkdirs fuel (path_parent cache_path) f with
  | Raise _ => f
  | Ok f1 => match write_text fuel now f1 cache_path (dumps_indent 0 (VDict (to_dict info))) with
             | Ok f2 => f2
             | Raise _ => f1
             end
  end.

Definition current_or (package_version : res string) (current : option string) : res string :=
  match current with Some c => if truthy c then Ok c else package_version | None => package_version end.

(** [cache_path] is [_get_cache_path(cache_path)]. *)
Definition read_cached_update (now : Z) (now_iso : string) (package_version : res string) (current : option string)
    (cache_path : res path) (f : fs) : res UpdateInfo :=
  current_ver ← current_or package_version current;
  p ← cache_path;
  Ok (match read_cache now p current_ver f with
      | Some cached => cached
      | None => mkInfo current_ver current_ver false VNone VNone (VStr now_iso) (VStr "no_cache")
      end).

(** The release a response names: the status and the decoded body. *)
Definition release_of (response : Z * res string) : res (string + string * pyval * pyval) :=
  if negb (fst response =? 200) then Ok (inl ("HTTP " +:+ str_of_Z (fst response)))
  else
    body ← snd response;
    match loads body with
    | None => Raise (ValueError "JSONDecodeError")
    | Some (VDict payload) =>
        match get_or "tag_name" (VStr EmptyString) payload with
        | VStr raw_tag => Ok (inr (raw_tag, get_or "html_url" VNone payload, get_or "body" VNone payload))
        | _ => Raise (OtherError "AttributeError")
        end
    | Some _ => Raise (OtherError "AttributeError")
    end.

Definition check_for_update (now : Z) (now_iso : string) (package_version : res string) (urlopen : string → res (Z * res string))
    (env_url : option string) (current : option string) (cache_path : res path) (force read_cache_only : bool) (f : fs)
    : res UpdateInfo * fs :=
  if read_cache_only then (read_cached_update now now_iso package_version current cache_path f, f)
  else
    match (c ← current_or package_version current; p ← cache_path; Ok (c, p)) with
    | Raise e => (Raise e, f)
    | Ok (current_ver, p) =>
        match (if force then None else read_cache now p current_ver f) with
        | Some cached => (Ok cached, f)
        | None =>
            let none err := mkInfo current_ver current_ver false VNone VNone (VStr now_iso) (VStr err) in
            match (response ← urlopen (default DEFAULT_RELEASES_URL env_url); release_of response) with
            | Raise e => (Ok (none (exn_msg e)), f)
            | Ok (inl err) => (Ok (none err), f)
            | Ok (inr (raw_tag, url, notes)) =>
                let latest_ver_clean := clean_version_str raw_tag in
                let info := mkInfo current_ver (if truthy latest_ver_clean then latest_ver_clean else current_ver)
                              (default false (newer latest_ver_clean current_ver)) url notes (VStr now_iso) VNone in
                (Ok info, write_cache now p info f)
            end
        end
    end.
End update_check.

(** ** The cache *)
Definition no_cr (c : ascii) : bool := negb (code c =? 13).
Lemma universal_newlines_id s : sforall no_cr s = true → universal_newlines s = s.
Proof.
  induction s as [|c s IH]; [done|]. cbn [sforall universal_newlines]. intros [Hc Hs]%andb_true_iff.
  unfold no_cr in Hc. apply negb_true_iff in Hc. rewrite Hc. by rewrite IH.
Qed.
Lemma json_char_no_cr c : sforall no_cr (json_char c) = true.
Proof. by destruct c as [[] [] [] [] [] [] [] []]. Qed.
Lemma json_string_no_cr s : sforall no_cr (json_string s) = true.
Proof.
  unfold json_string. cbn [sforall]. rewrite sforall_app. change (no_cr dquote) with true. cbn [andb].
  induction s as [|c s IH]; [done|]. cbn [sflat_map]. rewrite sforall_app, json_char_no_cr. exact IH.
Qed.
Lemma sjoin_no_cr sep l : sforall no_cr sep = true → Forall (λ s, sforall no_cr s = true) l → sforall no_cr (sjoin sep l) = true.
Proof.
  intros Hs Hl. induction Hl as [|x l Hx Hl IH]; [done|]. destruct l as [|y l]; [done|].
  by rewrite sjoin_cons, !sforall_app, Hx, Hs, IH.
Qed.
Lemma digit_no_cr z : 0 ≤ z < 10 → no_cr (chr (48 + z)) = true.
Proof. intros Hz. unfold no_cr. rewrite digit_code by done. apply negb_true_iff, Z.eqb_neq. lia. Qed.
Lemma str_of_Z_no_cr z : sforall no_cr (str_of_Z z) = true.
Proof.
  assert (∀ fuel n acc, sforall no_cr acc = true → sforall no_cr (digits_aux fuel n acc) = true) as H.
  { induction fuel as [|fuel IH]; intros n acc Ha; [done|]. cbn [digits_aux]. cbn zeta.
    assert (sforall no_cr (String (chr (48 + n mod 10)) acc) = true) as Hc.
    { cbn [sforall]. rewrite digit_no_cr by (apply Z.mod_pos_bound; lia). done. }
    destruct (n <? 10); [done|by apply IH]. }
  unfold str_of_Z. cbn zeta. destruct (z <? 0); [cbn [sforall String.append]|]; by rewrite ?H.
Qed.
Lemma indentation_no_cr n : sforall no_cr (indentation n) = true.
Proof.
  pose proof (indentation_ws n) as H. unfold indentation in *. cbn [sforall] in *. change (no_cr newline) with true.
  clear H. cbn [andb]. induction n as [|n IH]; [done|]. cbn [repeat String.concat]. destruct n as [|n]; [done|].
  cbn [repeat] in *. change ("  " ++ "" ++ String.concat "" ("  " :: repeat "  " n))%string with ("  " +:+ String.concat "" ("  " :: repeat "  " n)).
  by rewrite sforall_app, IH.
Qed.
Lemma dumps_indent_no_cr v : ∀ n, json_ok v = true → sforall no_cr (dumps_indent n v) = true.
Proof.
  induction v as [|b|z|x|s|l IH|d IH|cls d IH] using pyval_ind'; intros n Hok; try discriminate Hok.
  - done.
  - by destruct b.
  - apply str_of_Z_no_cr.
  - apply json_string_no_cr.
  - destruct l as [|v l]; [done|]. cbn [dumps_indent]. rewrite !sforall_app, !indentation_no_cr.
    rewrite sjoin_no_cr; [done|by rewrite sforall_app, indentation_no_cr|].
    cbn [json_ok] in Hok. rewrite forallb_forall in Hok. rewrite Forall_forall. rewrite Forall_forall in IH.
    intros x (y & <- & Hy%list_elem_of_In)%list_elem_of_In%in_map_iff. apply IH; [done|]. by apply Hok, list_elem_of_In.
  - destruct d as [|p d]; [done|]. cbn [dumps_indent]. rewrite !sforall_app, !indentation_no_cr.
    rewrite sjoin_no_cr; [done|by rewrite sforall_app, indentation_no_cr|].
    cbn [json_ok] in Hok. apply andb_true_iff in Hok as [_ Hok]. rewrite forallb_forall in Hok. rewrite Forall_forall. rewrite Forall_forall in IH.
    intros x ([k y] & <- & Hy%list_elem_of_In)%list_elem_of_In%in_map_iff. rewrite !sforall_app, json_string_no_cr.
    cbn [andb sforall]. apply (IH (k, y)); [done|]. apply (Hok (k, y)). by apply list_elem_of_In.
Qed.

Section theorems.
Context {V : Type} (Version : string → option V) (gt : V → V → bool) (fuel : nat).
Notation check := (check_for_update Version gt fuel).
Notation read_cached := (read_cached_update Version gt fuel).

Lemma write_cache_read now p info f : canonical f p →
  (∃ f1 f2, mkdirs fuel (path_parent p) f = Ok f1 ∧ write_text fuel now f1 p (dumps_indent 0 (VDict (to_dict info))) = Ok f2) →
  json_ok (VDict (to_dict info)) = true →
  stat fuel (write_cache fuel now p info f) p = Ok (NFile (dumps_indent 0 (VDict (to_dict info))) now) ∧
  read_text fuel (write_cache fuel now p info f) p = Ok (dumps_indent 0 (VDict (to_dict info))).
Proof.
  intros Hc (f1 & f2 & Hm & Hw) Hok. unfold write_cache. rewrite Hm, Hw.
  destruct (mkdirs_parent fuel f f1 p Hc Hm) as [_ Hc1].
  destruct (write_text_canonical fuel _ _ _ _ _ Hc1 Hw) as (Hwalk & Hp & -> & _).
  assert (∀ text, stat fuel (<[p := NFile text now]> f1) p = Ok (NFile text now)) as Hs.
  { intros text. unfold stat, walk. rewrite (walk_go_insert f1 p text now Hc1 fuel [] p eq_refl Hp Hwalk). cbn [mbind res_bind].
    by rewrite lookup_node_cons, lookup_insert_eq by done. }
  split; [apply Hs|]. unfold read_text. rewrite Hs. cbn [mbind res_bind].
  by rewrite universal_newlines_id by by apply dumps_indent_no_cr.
Qed.

(** A check always answers, for the version it was asked about.  A
    forced check reports an update only for a release that is strictly newer,
    and none after a failure; the files change only at the cache and its
    directories, and only after a success. *)
Theorem update_check_fail_closed now now_iso pkg urlopen env_url current p cur f :
  Version EmptyString = None → current_or pkg current = Ok cur → canonical f p →
  ∃ info f', check now now_iso pkg urlopen env_url current (Ok p) true false f = (Ok info, f') ∧
    current_version info = cur ∧
    (update_available info = true → ui_error info = VNone ∧
       ∃ c l, parse_version Version cur = Some c ∧ parse_version Version (latest_version info) = Some l ∧ gt l c = true) ∧
    (ui_error info ≠ VNone → f' = f ∧ latest_version info = cur) ∧
    (∀ q, f' !! q = f !! q ∨ q = p ∨ (f !! q = None ∧ f' !! q = Some NDir ∧ ∃ a, p = q ++ a)).
Proof.
  intros Hempty Hcur Hcan. unfold check_for_update. rewrite Hcur. cbn [mbind res_bind].
  destruct (_ ≫= release_of) as [[err|[[tag url] notes]]|e]; [by eexists _, _; split_and!; eauto| |by eexists _, _; split_and!; eauto].
  eexists _, _. split; [reflexivity|]. cbn [current_version latest_version update_available ui_error]. split_and!; [done| |done|].
  - intros Ha. split; [done|]. unfold newer in Ha. destruct (parse_version Version cur) as [c|] eqn:Ec; [|done].
    destruct (parse_version Version (clean_version_str tag)) as [l|] eqn:El; [|done].
    destruct (truthy (clean_version_str tag)) eqn:Et; [by exists c, l|].
    destruct (clean_version_str tag); [|done]. unfold parse_version in El. change (clean_version_str EmptyString) with EmptyString in El.
    congruence.
  - intros q. unfold write_cache. destruct (mkdirs fuel (path_parent p) f) as [f1|] eqn:Em; [|by left].
    destruct (mkdirs_parent fuel f f1 p Hcan Em) as [H1 Hc1].
    assert (∀ q, f1 !! q = f !! q ∨ q = p ∨ (f !! q = None ∧ f1 !! q = Some NDir ∧ ∃ a, p = q ++ a)) as H.
    { intros q'. destruct (H1 q') as [?|(? & ? & c & r & ->)]; eauto 8. }
    destruct (write_text _ _ _ _ _) as [f2|] eqn:Ew; [|apply H].
    destruct (write_text_canonical fuel _ _ _ _ _ Hc1 Ew) as (_ & _ & -> & _).
    destruct (decide (q = p)) as [->|Hne]; [by right; left|]. rewrite lookup_insert_ne by done. apply H.
Qed.

(** C23. A check reads back.  What a forced check found and could store, a
    cached read shows unchanged for the next twenty-four hours. *)
Theorem update_cache_roundtrip now now_iso pkg urlopen env_url current p f info f' later later_iso :
  (∀ v, gt v v = false) → Version EmptyString = None →
  check now now_iso pkg urlopen env_url current (Ok p) true false f = (Ok info, f') →
  ui_error info = VNone → json_ok (release_url info) = true → json_ok (release_notes info) = true →
  canonical f p →
  (∃ f1 f2, mkdirs fuel (path_parent p) f = Ok f1 ∧ write_text fuel now f1 p (dumps_indent 0 (VDict (to_dict info))) = Ok f2) →
  later ≤ now + CACHE_TTL →
  read_cached later later_iso pkg current (Ok p) f' = Ok info.
Proof.
  intros Hirr Hempty Hcheck Herr Hurl Hnotes Hcan Hwrite Httl. unfold check_for_update in Hcheck. cbn [mbind res_bind] in Hcheck.
  unfold read_cached_update. destruct (current_or pkg current) as [cur|]; [|done]. cbn [mbind res_bind] in *.
  destruct (_ ≫= release_of) as [[err|[[tag url] notes]]|e]; [|injection Hcheck as <- <-|]; cycle 1.
  2-3: injection Hcheck as <- <-; discriminate Herr.
  cbn [release_url release_notes ui_error] in *.
  set (latest := clean_version_str tag) in *. set (info := mkInfo _ _ _ _ _ _ _) in *.
  assert (json_ok (VDict (to_dict info)) = true) as Hok.
  { cbn [json_ok]. apply andb_true_iff. split; [apply bool_decide_eq_true; apply (bool_decide_unpack _); vm_compute; exact Logic.I|].
    cbn [to_dict info forallb json_ok release_url release_notes checked_at ui_error]. by rewrite Hurl, Hnotes. }
  destruct (write_cache_read now p info f Hcan Hwrite Hok) as [Hs Hr].
  unfold read_cache. rewrite Hs, Hr, loads_indent by done. rewrite (proj2 (Z.ltb_ge _ _)) by lia.
  cbn -[newer CACHE_TTL]. f_equal. unfold info. f_equal. destruct (truthy latest) eqn:Et; [by destruct (newer _ _ _ _)|].
  assert (latest = EmptyString) as -> by by destruct latest. unfold newer.
  destruct (parse_version _ cur) as [c|]; [|done]. rewrite Hirr. unfold parse_version. cbn [clean_version_str strip]. change (clean_version_str EmptyString) with EmptyString. by rewrite Hempty.
Qed.
End theorems.

(** ** Witnesses: versions that are single digits, a release [v3]. *)
Definition demo_version (s : string) : option Z :=
  match s with String c EmptyString => if is_digit c then Some (code c - 48) else None | _ => None end.
Definition demo_gt (a b : Z) : bool := b <? a.
Definition demo_release (url : string) : res (Z * res string) :=
  Ok (200, Ok ("{" +:+ Json.q "tag_name" +:+ ": " +:+ Json.q "v3" +:+ ", " +:+ Json.q "body" +:+ ": " +:+ Json.q "notes" +:+ "}")).
Definition demo_home : fs := {[ ["h"] := NDir ]}.
Definition demo_cache : path := ["h"; ".agent_os"; "update_cache.json"].
Definition demo_info : UpdateInfo := mkInfo "2" "3" true VNone (VStr "notes") (VStr "t0") VNone.
Definition demo_check : res UpdateInfo * fs :=
  check_for_update demo_version demo_gt 20 5 "t0" (Ok "2"%string) demo_release None None (Ok demo_cache) true false demo_home.

Lemma demo_canonical : canonical demo_home demo_cache.
Proof.
  apply (realpath_canonical 20 demo_home demo_cache). vm_compute. reflexivity.
Qed.
Lemma update_check_fail_closed_witness :
  demo_check.1 = Ok demo_info ∧
  ∃ info f', demo_check = (Ok info, f') ∧ current_version info = "2"%string.
Proof.
  split; [vm_compute; reflexivity|].
  destruct (update_check_fail_closed demo_version demo_gt 20 5 "t0" (Ok "2"%string) demo_release None None demo_cache "2" demo_home)
    as (info & f' & H1 & H2 & _); [reflexivity|reflexivity|exact demo_canonical|].
  exists info, f'. split; [exact H1|exact H2].
Defined.
Lemma stored_ok fuel now p text f :
  is_ok (f1 ← mkdirs fuel (path_parent p) f; write_text fuel now f1 p text) = true →
  ∃ f1 f2, mkdirs fuel (path_parent p) f = Ok f1 ∧ write_text fuel now f1 p text = Ok f2.
Proof.
  destruct (mkdirs _ _ _) as [f1|]; cbn [mbind res_bind]; [|done].
  destruct (write_text _ _ _ _ _) as [f2|] eqn:E; [|done]. by exists f1, f2.
Qed.
Lemma update_cache_roundtrip_witness :
  read_cached_update demo_version demo_gt 20 86400000005 "t1" (Ok "2"%string) None (Ok demo_cache) demo_check.2 = Ok demo_info.
Proof.
  apply (update_cache_roundtrip demo_version demo_gt 20 5 "t0" (Ok "2"%string) demo_release None None demo_cache demo_home
    demo_info demo_check.2).
  - intros v. apply Z.ltb_irrefl.
  - reflexivity.
  - unfold demo_check. rewrite (surjective_pairing (check_for_update _ _ _ _ _ _ _ _ _ _ _ _ _)) at 1. f_equal.
  - reflexivity.
  - reflexivity.
  - reflexivity.
  - exact demo_canonical.
  - apply stored_ok. vm_compute. reflexivity.
  - vm_compute. congruence.
Defined.
