(* ===== verification/Sessions.v ===== *)
(** * Chat sessions (agent_os/sessions.py)

    One row per thread.  An upsert reads the row and then writes it in a second
    statement, so the two are separate operations here: [upsert_session] is one
    after the other, and an interleaving of two callers is a sequence of the
    four.  [now] is the ISO timestamp a call takes. *)
From S2P Require Export Table.

Record session := mkSession {
  se_thread_id : string;
  se_created_at : string;
  se_last_turn_at : string;
  se_turn_count : Z;
  se_title : string;
  se_workspace_id : option string;
  se_created_by : option string }.
#[export] Instance session_eq_dec : EqDecision session.
Proof. solve_decision. Defined.

(** The arguments of one call and the time it is made at. *)
Record turn := mkTurn {
  tn_thread_id : string;
  tn_now : string;
  tn_title : option string;
  tn_workspace_id : option string;
  tn_created_by : option string }.

(** [new if new is not None else old] *)
Definition or_existing {A} (new old : option A) : option A :=
  match new with Some x => Some x | None => old end.

Definition first_turn (c : turn) : session :=
  mkSession (tn_thread_id c) (tn_now c) (tn_now c) 1
    (match tn_title c with Some t => if truthy t then t else "New Session" | None => "New Session" end)
    (tn_workspace_id c) (tn_created_by c).

(** The row an UPDATE writes, from the row that was read. *)
Definition next_turn (read : session) (c : turn) (row : session) : session :=
  mkSession (se_thread_id row) (se_created_at row) (tn_now c) (se_turn_count read + 1)
    (default (se_title read) (tn_title c)) (or_existing (tn_workspace_id c) (se_workspace_id read))
    (or_existing (tn_created_by c) (se_created_by read)).

(** The SELECT of an upsert, and the statement it chooses. *)
Definition read_session (c : turn) (rows : list session) : option session :=
  select_one (has_key se_thread_id (tn_thread_id c)) rows.
Definition write_session (c : turn) (read : option session) (rows : list session) : res (list session) :=
  match read with
  | Some old => Ok (update_where (has_key se_thread_id (tn_thread_id c)) (next_turn old c) rows)
  | None =>
      match select_one (has_key se_thread_id (tn_thread_id c)) rows with
      | Some _ => Raise (IntegrityError "UNIQUE constraint failed: sessions.thread_id")
      | None => Ok (rows ++ [first_turn c])
      end
  end.
Definition upsert_session (c : turn) (rows : list session) : res (list session) :=
  write_session c (read_session c rows) rows.

Definition latest_first (a b : session) : bool := str_leb (se_last_turn_at b) (se_last_turn_at a).
Definition list_sessions (rows : list session) : list session := sort_by latest_first rows.
Definition get_session (thread_id : string) (rows : list session) : option session :=
  select_one (has_key se_thread_id thread_id) rows.
Definition delete_session (thread_id : string) (rows : list session) : list session :=
  delete_where (has_key se_thread_id thread_id) rows.

Fixpoint upsert_all (cs : list turn) (rows : list session) : res (list session) :=
  match cs with
  | [] => Ok rows
  | c :: cs' => rows' ← upsert_session c rows; upsert_all cs' rows'
  end.

(** ** What a thread's row records *)

(** The last value of an optional argument that was not None. *)
Definition latest {A} (f : turn → option A) (start : option A) (cs : list turn) : option A :=
  foldl (λ x c, or_existing (f c) x) start cs.
Definition latest_title (start : string) (cs : list turn) : string :=
  foldl (λ t c, default t (tn_title c)) start cs.
Definition last_now (start : string) (cs : list turn) : string := foldl (λ _ c, tn_now c) start cs.

(** The row after the calls [c :: cs] of one thread. *)
Definition session_of (c : turn) (cs : list turn) : session :=
  mkSession (tn_thread_id c) (tn_now c) (last_now (tn_now c) cs) (1 + Z.of_nat (length cs))
    (latest_title (se_title (first_turn c)) cs) (latest tn_workspace_id (tn_workspace_id c) cs)
    (latest tn_created_by (tn_created_by c) cs).
Definition turns_of (t : string) (cs : list turn) : list turn :=
  List.filter (has_key tn_thread_id t) cs.

Definition recorded (t : string) (cs : list turn) : option session :=
  match turns_of t cs with [] => None | c :: cs' => Some (session_of c cs') end.

Lemma session_of_snoc c cs d : tn_thread_id d = tn_thread_id c →
  session_of c (cs ++ [d]) = next_turn (session_of c cs) d (session_of c cs).
Proof.
  intros Ht. unfold session_of, next_turn, last_now, latest_title, latest. cbn [se_thread_id se_created_at se_turn_count
    se_title se_workspace_id se_created_by].
  rewrite !foldl_app, length_app. cbn [foldl length]. f_equal. lia.
Qed.
Lemma recorded_snoc_same t cs d : tn_thread_id d = t →
  recorded t (cs ++ [d]) = Some (match recorded t cs with Some s => next_turn s d s | None => first_turn d end).
Proof.
  intros <-. unfold recorded, turns_of. rewrite List.filter_app. cbn [List.filter].
  assert (has_key tn_thread_id (tn_thread_id d) d = true) as -> by apply String.eqb_refl.
  destruct (List.filter _ cs) as [|c cs'] eqn:E; cbn [app]; [done|].
  assert (tn_thread_id c = tn_thread_id d) as Hc.
  { assert (In c (c :: cs')) as Hin by by left. rewrite <-E in Hin. apply filter_In in Hin as [_ Hk].
    by apply String.eqb_eq in Hk. }
  by rewrite session_of_snoc.
Qed.
Lemma recorded_snoc_other t cs d : tn_thread_id d ≠ t → recorded t (cs ++ [d]) = recorded t cs.
Proof.
  intros Hd. unfold recorded, turns_of. rewrite List.filter_app. cbn [List.filter].
  assert (has_key tn_thread_id t d = false) as -> by by apply String.eqb_neq.
  by rewrite app_nil_r.
Qed.

Lemma upsert_all_app cs ds rows : upsert_all (cs ++ ds) rows = rows' ← upsert_all cs rows; upsert_all ds rows'.
Proof.
  revert rows. induction cs as [|c cs IH]; intros rows; [done|]. cbn [app upsert_all].
  destruct (upsert_session c rows) as [rows'|e]; cbn [mbind res_bind]; [apply IH|done].
Qed.

Lemma upsert_session_map c rows : keyed se_thread_id rows → ∃ rows', upsert_session c rows = Ok rows' ∧
  keyed se_thread_id rows' ∧ ∀ t, get_session t rows' =
    if decide (t = tn_thread_id c) then
      Some (match get_session t rows with Some s => next_turn s c s | None => first_turn c end)
    else get_session t rows.
Proof.
  intros Hk. unfold upsert_session, write_session, read_session, get_session.
  assert (∀ l k, select_one (has_key se_thread_id k) l = to_map se_thread_id l !! k) as Hm
    by (intros; by rewrite to_map_select).
  rewrite !Hm. destruct (to_map se_thread_id rows !! tn_thread_id c) as [old|] eqn:E.
  - eexists. split; [done|]. split; [by apply keyed_update|]. intros t. rewrite !Hm, to_map_update; [|done].
    destruct (decide _) as [->|Hne]; [by rewrite lookup_alter_eq, E|by rewrite lookup_alter_ne].
  - eexists. split; [done|]. split; [by apply keyed_snoc|]. intros t.
    rewrite !Hm, (to_map_snoc se_thread_id rows (first_turn c)); [|done]. cbn [first_turn se_thread_id].
    destruct (decide _) as [->|Hne]; [by rewrite lookup_insert_eq, E|by rewrite lookup_insert_ne].
Qed.

(** Whatever the calls, one after another they all succeed, and the
    row of every thread records the calls for it. *)
Theorem sessions_recorded (cs : list turn) : ∃ rows : list session,
  upsert_all cs [] = Ok rows ∧
  keyed se_thread_id rows ∧
  (∀ t : string, get_session t rows = recorded t cs) ∧
  list_sessions rows ≡ₚ rows ∧
  StronglySorted (λ a b, str_leb (se_last_turn_at b) (se_last_turn_at a) = true) (list_sessions rows).
Proof.
  assert (∃ rows, upsert_all cs [] = Ok rows ∧ keyed se_thread_id rows ∧ ∀ t, get_session t rows = recorded t cs)
    as (rows & Hu & Hk & Hg).
  { induction cs as [|d cs (rows & Hu & Hk & Hg)] using rev_ind.
    { exists []. split; [done|]. split; [constructor|done]. }
    destruct (upsert_session_map d rows Hk) as (rows' & Hu' & Hk' & Hg').
    exists rows'. split; [by rewrite upsert_all_app, Hu; cbn [mbind res_bind upsert_all]; rewrite Hu'|].
    split; [done|]. intros t. rewrite Hg', Hg. destruct (decide _) as [->|Hne].
    - by rewrite recorded_snoc_same.
    - by rewrite recorded_snoc_other. }
  exists rows. split_and!; [done..| |].
  - apply sort_by_perm.
  - apply sort_by_sorted; unfold latest_first.
    + intros x y. pose proof (str_leb_total (se_last_turn_at x) (se_last_turn_at y)). intros Hf. destruct (str_leb (se_last_turn_at x) _); naive_solver.
    + intros x y z Hxy Hyz. by eapply str_leb_trans.
Qed.

(** Two callers for one thread that both read before either writes. *)
Definition interleaved (c d : turn) (rows : list session) : res (list session) :=
  let rc := read_session c rows in
  let rd := read_session d rows in
  rows1 ← write_session c rc rows; write_session d rd rows1.
Definition demo_turn (now : string) : turn := mkTurn "t" now None None None.

Example turn_lost : ∃ rows : list session,
  upsert_all [demo_turn "1"] [] = Ok rows ∧
  (rows2 ← interleaved (demo_turn "2") (demo_turn "3") rows; Ok (se_turn_count <$> get_session "t" rows2)) = Ok (Some 2) ∧
  is_ok (interleaved (demo_turn "2") (demo_turn "3") []) = false.
Proof. eexists. split_and!; vm_compute; reflexivity. Qed.
