(* ===== verification/Endpoints.v ===== *)
(** * The HTTP endpoints beside the run lifecycle (agent_os/server/api.py)

    What each handler answers and what it does to the stores, given what the
    stores answer.  A body is the data a handler returns, before FastAPI turns
    it into JSON; an exception that leaves a handler is Starlette's 500 and a
    [Raise] here.  The handlers that start, approve, cancel and watch runs are
    in RunApi.v, the chat socket in Chat.v.  That the saver of a session cannot
    delete a thread is ignored by the source, so a deletion is a parameter's
    effect at most. *)
From S2P Require Import PyVal Access PermissionStore ScheduleModels Strategies RunApi Sessions.

Inductive http (A : Type) :=
  | Body (a : A)
  | HTTPError (status_code : Z) (detail : string).
Arguments Body {_} _.
Arguments HTTPError {_} _ _.

(** ** Runs *)

(** [event["payload"].get("self_check")] of a result event, when a dict. *)
Definition event_self_check (e : event) : option pydict :=
  if String.eqb (de_kind e) "result" then
    match de_payload e with
    | VDict d => match dget "self_check" d with Some (VDict sc) => Some sc | _ => None end
    | _ => None
    end
  else None.
Definition latest_result_self_check (r : string) (L : ledger) : res (option pydict) :=
  es ← list_events r 0 L; Ok (head (omap event_self_check (reverse es))).

(** A run as it is returned: the row, and the key [self_check] when added. *)
Record run_view := mkView { rv_run : run_row; rv_self_check : option pydict }.
Definition with_result_self_check (L : ledger) (run : run_row) : res run_view :=
  if String.eqb (status run) "completed" then
    sc ← latest_result_self_check (run_id run) L; Ok (mkView run sc)
  else Ok (mkView run None).

Definition list_runs_endpoint (st by_workspace : option string) (lim : Z) (L : ledger) : res (list run_view) :=
  res_all (map (with_result_self_check L) (list_runs st by_workspace None lim L)).

Definition interrupt_prompt (e : event) : option pyval :=
  if String.eqb (de_kind e) "interrupt" then
    Some (match de_payload e with VDict d => default VNone (dget "prompt" d) | v => v end)
  else None.
Definition latest_interrupt_prompt (r : string) (L : ledger) : res pyval :=
  es ← list_events r 0 L; Ok (default VNone (head (omap interrupt_prompt (reverse es)))).

Definition run_not_found {A} : http A := HTTPError 404 "Run not found".

(** The view and the value of its key [interrupt]. *)
Definition get_run_endpoint (r : string) (L : ledger) : res (http (run_view * pyval)) :=
  match get_run r L with
  | None => Ok run_not_found
  | Some run =>
      view ← with_result_self_check L run;
      prompt ← (if String.eqb (status run) "interrupted" then latest_interrupt_prompt r L else Ok VNone);
      Ok (Body (view, prompt))
  end.

Definition get_run_approvals_endpoint (r : string) (L : ledger) : http (list approval_row) :=
  match get_run r L with
  | None => run_not_found
  | Some _ => Body (list_approvals r L)
  end.

(** ** The graph of the memory *)
Module Graph.

Definition GRAPH_MAX_NODES : Z := 200.
Record node := mkNode { node_id : string; node_title : pyval; node_group : string }.
#[export] Instance node_inhabited : Inhabited node := populate (mkNode EmptyString VNone EmptyString).

(** [ref.split("/")[0] if "/" in ref else ""] *)
Definition group_of (ref : string) : string :=
  if contains "/" ref then hd EmptyString (split_char "/" ref) else EmptyString.

(** The nodes of the listed notes.  A reference that is neither text nor falsy
    makes the body of the loop raise. *)
Fixpoint nodes_of (notes : list pydict) : res (list node) :=
  match notes with
  | [] => Ok []
  | note :: notes' =>
      let ref := default VNone (dget "ref" note) in
      if negb (py_truthy ref) then nodes_of notes'
      else
        match ref with
        | VStr r =>
            let t := default VNone (dget "title" note) in
            rest ← nodes_of notes';
            Ok (mkNode r (if py_truthy t then t else ref) (group_of r) :: rest)
        | _ => Raise (TypeError "ref")
        end
  end.

Definition hashable (v : pyval) : bool := match v with VList _ | VDict _ => false | _ => true end.
(** The comprehension over the nodes whose title is not their id; a title that
    is not text is never looked up. *)
Definition title_to_ref (nodes : list node) : res (list (string * string)) :=
  if forallb (λ n, hashable (node_title n)) nodes then
    Ok (foldl (λ d n, match node_title n with
                      | VStr t => if String.eqb t (node_id n) then d else dset t (node_id n) d
                      | _ => d
                      end) [] nodes)
  else Raise (TypeError "unhashable type").

(** [link if link in refs else title_to_ref.get(link)], when in [refs]. *)
Definition target (refs : list string) (titles : list (string * string)) (link : string) : option string :=
  if mem_str link refs then Some link
  else match dget link titles with
       | Some t => if mem_str t refs then Some t else None
       | None => None
       end.

Definition edge := (string * string)%type.
Definition mem_edge (e : edge) (l : list edge) : bool := bool_decide (e ∈ l).

(** [seen_edges] holds the edges so far. *)
Definition add_link (refs : list string) (titles : list (string * string)) (source : string)
    (edges : list edge) (link : string) : list edge :=
  match target refs titles link with
  | None => edges
  | Some t => if String.eqb t source || mem_edge (source, t) edges then edges else edges ++ [(source, t)]
  end.
(** [read] is [connector.read_note(ref).get("links") or []]. *)
Definition add_node (refs : list string) (titles : list (string * string)) (read : string → res (list string))
    (edges : list edge) (n : node) : list edge :=
  match read (node_id n) with
  | Raise _ => edges
  | Ok links => foldl (add_link refs titles (node_id n)) edges links
  end.

Definition build_graph_data (list_notes : res (list pydict)) (read : string → res (list string)) (max_nodes : Z)
    : res (list node * list edge) :=
  notes ← list_notes;
  nodes ← nodes_of (take (Z.to_nat (Z.max max_nodes 0)) notes);
  titles ← title_to_ref nodes;
  Ok (nodes, foldl (add_node (map node_id nodes) titles read) [] nodes).

(** [connector] is [memory_connector()] with its [list_notes] and [read_note]. *)
Definition get_graph_data (limit : Z) (connector : res (res (list pydict) * (string → res (list string))))
    : list node * list edge :=
  match
    '(list_notes, read) ← connector;
    build_graph_data list_notes read (Z.min (Z.max limit 0) GRAPH_MAX_NODES)
  with
  | Ok g => g
  | Raise _ => ([], [])
  end.
End Graph.

(** ** Sessions *)
Definition get_sessions (rows : list session) : list session := list_sessions rows.
(** [delete_thread] is the effect of the checkpoint saver: the [except] around
    it keeps its failure from the caller. *)
Definition remove_session {W} (connect : res unit) (delete_thread : string → W → W)
    (sid : string) (confirm : bool) (rows : list session) (w : W) : http (string * string) * list session * W :=
  if negb confirm then (HTTPError 400 "Missing confirm=true", rows, w)
  else match connect with
       | Raise e => (HTTPError 500 (exn_msg e), rows, w)
       | Ok _ => (Body ("deleted"%string, sid), delete_session sid rows, delete_thread sid w)
       end.

(** ** Token-gated endpoints *)
Section admin.
Context {S : Type} `{PermissionRuleStore S}.

(** What the handler does once [_require_permissions_admin] passes. *)
Definition as_admin {A} (token_env : option string) (c : connection) (s : S)
    (handler : http A * S) : res (http A * S) :=
  r ← require_admin token_env c;
  Ok (match r with
      | NotConfigured => (HTTPError 404 "Permissions administration is not configured", s)
      | Forbidden => (HTTPError 403 "Forbidden", s)
      | AdminOk => handler
      end).

(** [opened]: opening the store of the active workspace may raise. *)
Definition list_permissions_endpoint (token_env : option string) (c : connection) (opened : res unit) (s : S)
    : res (http (list PermissionRule) * S) :=
  as_admin token_env c s
    (match (_ ← opened; ps_list s) with
     | Ok rules => (Body rules, s)
     | Raise _ => (HTTPError 500 "Failed to read permissions store", s)
     end).

Definition revoke_error {A} (e : exn) : http A :=
  match e with
  | ValueError msg => HTTPError 400 msg
  | _ => HTTPError 500 "Failed to revoke permission rule"
  end.
Definition revoke_permission (k : string) (opened : res unit) (s : S) : http string * S :=
  match (_ ← opened; ps_get k s) with
  | Raise e => (revoke_error e, s)
  | Ok None => (HTTPError 404 ("Permission rule '" +:+ k +:+ "' not found"), s)
  | Ok (Some _) =>
      match ps_delete k s with
      | Raise e => (revoke_error e, s)
      | Ok (_, s') => (Body k, s')
      end
  end.
Definition revoke_permission_endpoint (k : string) (token_env : option string) (c : connection)
    (opened : res unit) (s : S) : res (http string * S) :=
  as_admin token_env c s (revoke_permission k opened s).
End admin.

(** The review of leads: [leads] is [list_public_leads(limit)]. *)
Definition public_concierge_leads {A} (token_env : option string) (c : connection) (leads : Z → res A) (lim : Z)
    : res (http A) :=
  r ← require_admin token_env c;
  match r with
  | NotConfigured => Ok (HTTPError 404 "Public concierge lead review is not configured")
  | Forbidden => Ok (HTTPError 403 "Forbidden")
  | AdminOk => Body <$> leads lim
  end.

(** ** Schedules *)
Section schedules.
Context `{Cron}.

Definition list_schedules_endpoint (kind : option string) (on : option bool) (rows : list schedule)
    : res (list (schedule * pyval)) := list_schedules kind on rows.

Definition create_schedule_endpoint (uuid : string) (now : Z) (x : ScheduleInput) (rows : list schedule)
    : res (http (schedule * pyval) * list schedule) :=
  match create_schedule uuid now (in_name x) (in_kind x) (ScheduleModels.trigger_kind x)
          (ScheduleModels.trigger_value x) (in_timezone x) (payload x) true rows with
  | Raise (ValueError msg) => Ok (HTTPError 422 msg, rows)
  | Raise e => Raise e
  | Ok (sid, rows') =>
      sched ← get_schedule sid rows';
      Ok (match sched with
          | None => HTTPError 500 "Failed to retrieve created schedule"
          | Some s => Body s
          end, rows')
  end.
End schedules.

(** ** Outcome evidence *)

(** The store of the active workspace, or why there is none; the handlers run
    on the rows [st] it holds. *)
Definition list_observations_endpoint (opened : res unit) (ws : string) (task_kind : option string) (n : Z) (st : store)
    : http (list observation) :=
  match (_ ← opened; list_observations (Some ws) task_kind n st) with
  | Ok os => Body os
  | Raise _ => HTTPError 500 "Failed to read observations store"
  end.

(** [ObservationValidationError], and the decoding errors that are not. *)
Definition outcome_error {A} (e : exn) : http A :=
  match e with
  | ValueError msg => if decide (e = JSONDecodeError) then HTTPError 500 "Failed to record observation outcome"
                      else HTTPError 422 msg
  | _ => HTTPError 500 "Failed to record observation outcome"
  end.
Definition record_observation_outcome_endpoint (opened : res unit) (ws oid : string) (signal : string)
    (evidence : option string) (now : string) (st : store) : http observation * store :=
  match (_ ← opened; Observations.get oid st) with
  | Raise e => (match opened with Raise _ => HTTPError 500 "Failed to record observation outcome" | Ok _ => outcome_error e end, st)
  | Ok None => (HTTPError 404 "Observation not found", st)
  | Ok (Some o) =>
      if negb (String.eqb (o_workspace_id o) ws) then (HTTPError 404 "Observation not found", st)
      else
        match record_outcome oid (VStr signal) (from_option VStr VNone evidence) now st with
        | (Raise e, st') => (outcome_error e, st')
        | (Ok None, st') => (HTTPError 404 "Observation not found", st')
        | (Ok (Some updated), st') => (Body updated, st')
        end
  end.

Definition get_strategy_assignment_endpoint (opened : res unit) (ws r : string) (st : store) : http StrategyAssignment :=
  match (_ ← opened; get_strategy_assignment r st) with
  | Raise _ => HTTPError 500 "Failed to read strategy assignment"
  | Ok None => HTTPError 404 "Strategy assignment not found"
  | Ok (Some a) =>
      if String.eqb (a_workspace_id a) ws then Body a else HTTPError 404 "Strategy assignment not found"
  end.

Definition list_skill_candidates_endpoint (context : res (store * string * registry))
    : http (string * list SkillCandidate) :=
  match
    '(st, ws, reg) ← context;
    cs ← mine_skill_candidates (Some st) reg ws MIN_SKILL_CANDIDATE_OCCURRENCES MIN_SKILL_CANDIDATE_OUTCOME_SCORE;
    Ok (ws, cs)
  with
  | Ok b => Body b
  | Raise _ => HTTPError 500 "Failed to mine skill candidates"
  end.

(** ** The graph is exact *)
Section graph_lemmas.
Import Graph.

Definition has_title (link : string) (n : node) : bool :=
  match node_title n with VStr t => String.eqb t link | _ => false end.
(** What a link points to: the node of that reference, else the last node of
    that title. *)
Definition resolves (nodes : list node) (link t : string) : Prop :=
  (link ∈ map node_id nodes ∧ t = link) ∨
  (link ∉ map node_id nodes ∧ ∃ n, last (List.filter (has_title link) nodes) = Some n ∧ node_id n = t).

Lemma nodes_of_spec notes nodes : nodes_of notes = Ok nodes →
  (length nodes ≤ length notes)%nat ∧
  Forall (λ n, ∃ note, note ∈ notes ∧ dget "ref" note = Some (VStr (node_id n)) ∧ node_id n ≠ EmptyString ∧
    node_title n = (let t := default VNone (dget "title" note) in if py_truthy t then t else VStr (node_id n))) nodes.
Proof.
  revert nodes. induction notes as [|note notes IH]; intros nodes.
  { intros <-%Ok_inj. split; [done|constructor]. }
  cbn [nodes_of]. destruct (dget "ref" note) as [ref|] eqn:Er; cycle 1.
  { cbn [from_option py_truthy negb]. intros [Hl Hf]%IH. split; [cbn [length]; lia|]. eapply Forall_impl; [exact Hf|].
    intros n (nt & ? & ? & ? & ?). exists nt. split; [by right|done]. }
  change (default VNone (Some ref)) with ref. destruct (py_truthy ref) eqn:Et; cbn [negb]; cycle 1.
  { intros [Hl Hf]%IH. split; [cbn [length]; lia|]. eapply Forall_impl; [exact Hf|].
    intros n (nt & ? & ? & ? & ?). exists nt. split; [by right|done]. }
  destruct ref as [| | | |r| | |]; try done. intros (rest & [Hl Hf]%IH & <-%Ok_inj)%res_bind_ok.
  split; [cbn [length]; lia|]. constructor.
  - exists note. split_and!; [by left|done| |done]. intros Hr. cbn [node_id] in Hr. by subst r.
  - eapply Forall_impl; [exact Hf|]. intros n (nt & ? & ? & ? & ?). exists nt. split; [by right|done].
Qed.

Definition add_title (d : list (string * string)) (n : node) : list (string * string) :=
  match node_title n with VStr t => if String.eqb t (node_id n) then d else dset t (node_id n) d | _ => d end.

Lemma titles_spec nodes link : link ∉ map node_id nodes →
  dget link (foldl add_title [] nodes) = node_id <$> last (List.filter (has_title link) nodes).
Proof.
  induction nodes as [|n nodes IH] using rev_ind; intros Hl; [done|].
  rewrite map_app, elem_of_app in Hl. apply Decidable.not_or in Hl as [Hl Hn].
  rewrite foldl_app, List.filter_app. cbn [foldl List.filter]. unfold add_title at 1, has_title at 2.
  destruct (node_title n) as [| | | |t| | |]; try (by rewrite app_nil_r, <-IH).
  destruct (String.eqb_spec t link) as [->|Hne].
  - rewrite last_snoc. cbn [fmap option_fmap option_map]. destruct (String.eqb_spec link (node_id n)) as [->|].
    { by exfalso; apply Hn; left. }
    by rewrite dget_dset.
  - rewrite app_nil_r, <-IH by done. destruct (String.eqb t (node_id n)); [done|]. by rewrite dget_dset_ne.
Qed.

Lemma last_elem {A} (l : list A) x : last l = Some x → x ∈ l.
Proof. intros [l' ->]%last_Some. set_solver. Qed.

Lemma target_spec nodes link t :
  target (map node_id nodes) (foldl add_title [] nodes) link = Some t ↔ resolves nodes link t.
Proof.
  unfold target, resolves. destruct (mem_str link (map node_id nodes)) eqn:E.
  - apply mem_str_iff in E. split; [intros [= ->]; by left|]. by intros [[_ ->]|[? _]].
  - assert (link ∉ map node_id nodes) as Hl by (by rewrite <-mem_str_iff, E). rewrite titles_spec by done.
    destruct (last (List.filter _ nodes)) as [n|] eqn:En; cbn [fmap option_fmap option_map].
    + assert (node_id n ∈ map node_id nodes) as Hn.
      { apply last_elem, list_elem_of_In, filter_In in En as [En _]. by apply list_elem_of_In, in_map. }
      apply mem_str_iff in Hn as ->. split; [intros [= <-]; right; eauto|].
      intros [[? _]|(_ & n' & [= <-] & ->)]; done.
    + split; [done|]. intros [[? _]|(_ & n' & ? & _)]; done.
Qed.

Lemma add_link_spec refs titles source edges link e : NoDup edges →
  NoDup (add_link refs titles source edges link) ∧
  (e ∈ add_link refs titles source edges link ↔
   e ∈ edges ∨ (e.1 = source ∧ e.2 ≠ source ∧ target refs titles link = Some e.2)).
Proof.
  intros Hnd. unfold add_link. destruct (target refs titles link) as [t|]; [|naive_solver].
  destruct (String.eqb_spec t source) as [->|Hne]; cbn [orb].
  { split; [done|]. destruct e as [a b]; cbn [fst snd]. naive_solver. }
  unfold mem_edge. case_bool_decide as Hin.
  - split; [done|]. destruct e as [a b]; cbn [fst snd]. naive_solver.
  - split; [apply NoDup_app; split_and!; [done| |apply NoDup_singleton]; set_solver|].
    rewrite elem_of_app, list_elem_of_singleton. destruct e as [a b]; cbn [fst snd]. naive_solver.
Qed.

Lemma add_links_spec refs titles source links e : ∀ edges, NoDup edges →
  NoDup (foldl (add_link refs titles source) edges links) ∧
  (e ∈ foldl (add_link refs titles source) edges links ↔
   e ∈ edges ∨ (e.1 = source ∧ e.2 ≠ source ∧ ∃ link, link ∈ links ∧ target refs titles link = Some e.2)).
Proof.
  induction links as [|link links IH]; intros edges Hnd; cbn [foldl].
  { split; [done|]. set_solver. }
  destruct (add_link_spec refs titles source edges link e Hnd) as [H1 H2]. destruct (IH _ H1) as [H3 H4].
  split; [done|]. rewrite H4, H2. setoid_rewrite elem_of_cons. naive_solver.
Qed.

Lemma add_nodes_spec refs titles read nodes e : ∀ edges, NoDup edges →
  NoDup (foldl (add_node refs titles read) edges nodes) ∧
  (e ∈ foldl (add_node refs titles read) edges nodes ↔
   e ∈ edges ∨ (e.1 ∈ map node_id nodes ∧ e.2 ≠ e.1 ∧
                ∃ links link, read e.1 = Ok links ∧ link ∈ links ∧ target refs titles link = Some e.2)).
Proof.
  induction nodes as [|n nodes IH]; intros edges Hnd; cbn [foldl map].
  { split; [done|]. set_solver. }
  assert (NoDup (add_node refs titles read edges n) ∧
    (e ∈ add_node refs titles read edges n ↔ e ∈ edges ∨ (e.1 = node_id n ∧ e.2 ≠ node_id n ∧
      ∃ links link, read (node_id n) = Ok links ∧ link ∈ links ∧ target refs titles link = Some e.2))) as [H1 H2].
  { unfold add_node. destruct (read (node_id n)) as [links|] eqn:Er; [|naive_solver].
    destruct (add_links_spec refs titles (node_id n) links e edges Hnd) as [Ha Hb].
    split; [done|]. rewrite Hb. naive_solver. }
  destruct (IH _ H1) as [H3 H4]. split; [done|]. rewrite H4, H2, elem_of_cons.
  destruct e as [a b]; cbn [fst snd]. naive_solver.
Qed.
End graph_lemmas.

(** C35. Whatever the memory answers, the graph has at most [limit]
    and 200 nodes, each a listed note, and its edges are exactly the links of
    its readable notes that lead to another node of the graph, each once. *)
Theorem graph_data_exact (limit : Z) (list_notes : res (list pydict)) (read : string → res (list string)) :
  let '(nodes, edges) := Graph.get_graph_data limit (Ok (list_notes, read)) in
  Z.of_nat (length nodes) ≤ Z.min (Z.max limit 0) 200 ∧
  (∀ n, n ∈ nodes → ∃ notes note, list_notes = Ok notes ∧ note ∈ notes ∧
     dget "ref" note = Some (VStr (Graph.node_id n))) ∧
  NoDup edges ∧
  ∀ s t : string, (s, t) ∈ edges ↔
    s ∈ map Graph.node_id nodes ∧ t ≠ s ∧
    ∃ links link, read s = Ok links ∧ link ∈ links ∧ resolves nodes link t.
Proof.
  unfold Graph.get_graph_data, Graph.GRAPH_MAX_NODES. cbn [mbind res_bind].
  set (m := Z.min (Z.max limit 0) 200). assert (0 ≤ m) as Hm by lia.
  destruct (Graph.build_graph_data list_notes read m) as [[nodes edges]|] eqn:E; cycle 1.
  { cbn [length map]. split_and!; [lia|set_solver|constructor|]. set_solver. }
  unfold Graph.build_graph_data in E. apply res_bind_ok in E as (notes & Hnotes & E).
  apply res_bind_ok in E as (nodes' & Hn & E). apply res_bind_ok in E as (titles & Ht & [= <- <-]).
  apply nodes_of_spec in Hn as [Hlen Hf]. unfold Graph.title_to_ref in Ht.
  destruct (forallb _ _); [|done]. apply Ok_inj in Ht. fold add_title in Ht.
  rewrite length_take in Hlen. split_and!; [lia| | |].
  - intros n Hin. rewrite Forall_forall in Hf. destruct (Hf n Hin) as (note & Hnote & ? & _).
    exists notes, note. split_and!; [done| |done]. rewrite <-(take_drop (Z.to_nat (Z.max m 0)) notes). apply elem_of_app. by left.
  - by apply (add_nodes_spec _ titles read nodes' (EmptyString, EmptyString) []); constructor.
  - intros s t. destruct (add_nodes_spec (map Graph.node_id nodes') titles read nodes' (s, t) []) as [_ ->]; [constructor|].
    cbn [fst snd]. rewrite <-Ht. setoid_rewrite target_spec. set_solver.
Qed.

(** ** Rules are revoked behind the token only *)
Section revoke.
Context {S : Type} `{RuleStoreLaws S}.

(** A revocation removes exactly its rule, and only for an
    administrator; every other answer is an error and leaves the rules as they
    were. *)
Theorem revoke_gated (k : string) (token_env : option string) (c : connection) (opened : res unit) (s : S)
    (reply : http string) (s' : S) :
  ps_inv s → revoke_permission_endpoint k token_env c opened s = Ok (reply, s') →
  match reply with
  | Body key =>
      key = k ∧ require_admin token_env c = Ok AdminOk ∧ opened = Ok tt ∧ valid_key k = true ∧
      is_Some (ps_abs s !! k) ∧ ps_abs s' = delete k (ps_abs s)
  | HTTPError code _ =>
      code ∈ [400; 403; 404; 500] ∧ ps_abs s' = ps_abs s ∧
      (require_admin token_env c = Ok AdminOk → opened = Ok tt → valid_key k = true → ps_abs s !! k = None ∧ code = 404)
  end ∧ ps_inv s'.
Proof.
  intros Hinv Hr. unfold revoke_permission_endpoint, as_admin in Hr. apply res_bind_ok in Hr as (r & Ha & Hr).
  apply Ok_inj in Hr. rewrite Ha.
  destruct r; [|injection Hr as <- <-; split_and!; [set_solver|done|done|done]..].
  unfold revoke_permission in Hr. destruct opened as [[]|e]; cbn [mbind res_bind] in Hr; cycle 1.
  { injection Hr as <- <-. destruct e; cbn [revoke_error]; (split_and!; [set_solver|done|done|done]). }
  rewrite law_get in Hr by done. cbn [ps_get Spec.store] in Hr. unfold validate_key in Hr.
  destruct (valid_key k) eqn:Ek; cbn [mbind res_bind] in Hr; cycle 1.
  { injection Hr as <- <-. split_and!; [cbn; set_solver|done|done|done]. }
  destruct (ps_abs s !! k) as [rule|] eqn:El; cycle 1.
  { injection Hr as <- <-. split_and!; [set_solver|done|done|done]. }
  pose proof (law_delete k s Hinv) as Hd. cbn [ps_delete Spec.store] in Hd. unfold validate_key in Hd. rewrite Ek in Hd.
  cbn [mbind res_bind] in Hd. destruct (ps_delete k s) as [[b s2]|] eqn:E; [|done].
  injection Hr as <- <-. apply Ok_inj in Hd. injection Hd as _ Hd. split; [|by eapply law_delete_inv].
  split_and!; [done..|by eexists|done].
Qed.
End revoke.

(** ** Evidence stays in its workspace *)
Lemma filter_update {A} (p q : A → bool) (f : A → A) rows :
  (∀ r, r ∈ rows → p r = true → q r = false ∧ q (f r) = false) →
  List.filter q (update_where p f rows) = List.filter q rows.
Proof.
  induction rows as [|r rows IH]; intros Hr; [done|]. cbn [update_where map List.filter].
  fold (update_where p f rows). rewrite IH by (intros; apply Hr; [by right|done]).
  destruct (p r) eqn:Ep; [|done]. destruct (Hr r ltac:(by left) Ep) as [-> ->]. done.
Qed.

Lemma keyed_one {A} (key : A → string) k rows (r : A) : keyed key rows →
  select_one (has_key key k) rows = Some r → rowcount (has_key key k) rows = 1%nat.
Proof.
  unfold keyed, rowcount. induction rows as [|x rows IH]; [done|]. cbn [map select_one List.filter].
  intros [Hx Hn]%NoDup_cons. destruct (has_key key k x) eqn:Hk; [|by apply IH].
  intros _. cbn [length]. f_equal. rewrite length_zero_iff_nil.
  destruct (List.filter _ rows) as [|y ys] eqn:E; [done|]. exfalso.
  assert (y ∈ y :: ys) as Hy by left. rewrite <-E in Hy. apply list_elem_of_In, filter_In in Hy as [Hy Hp].
  unfold has_key in *. bool_prop. apply Hx. rewrite Hk, <-Hp. by apply list_elem_of_In, in_map.
Qed.

Lemma row_observation_fields r o : row_to_observation r = Ok o →
  observation_id o = observation_id r ∧ o_workspace_id o = o_workspace_id r ∧ outcome_signal o = outcome_signal r.
Proof. unfold row_to_observation. destruct (loads _) as [[]|]; try done; by intros <-%Ok_inj. Qed.
Lemma outcome_decodes r o s e now : row_to_observation r = Ok o →
  ∃ o', row_to_observation (set_outcome s e now r) = Ok o'.
Proof. unfold row_to_observation. cbn [set_outcome artifact_refs]. destruct (loads _) as [[]|]; try done; by eexists. Qed.

Definition other_workspaces (ws : string) (st : store) : list obs_row :=
  List.filter (λ r, negb (String.eqb (o_workspace_id r) ws)) (observations st).

Lemma record_outcome_decoded oid signal evidence now st row o : keyed observation_id (observations st) →
  select_one (has_key observation_id oid) (observations st) = Some row → row_to_observation row = Ok o →
  (∃ err, record_outcome oid (VStr signal) evidence now st = (Raise err, st)) ∨
  ∃ e o', signal ∈ ["accepted"; "rejected"; "edited"]%string ∧
    row_to_observation (set_outcome signal e now row) = Ok o' ∧
    record_outcome oid (VStr signal) evidence now st
    = (Ok (Some o'), mkStore (update_where (has_key observation_id oid) (set_outcome signal e now) (observations st)) (assignments st)).
Proof.
  intros Hk Hs Ho. unfold record_outcome. destruct (signal_check (VStr signal) _ _) as [s|err] eqn:Ec; cbn [mbind res_bind]; [|left; eauto].
  pose proof (signal_check_ok _ _ _ _ Ec) as Hin. unfold signal_check in Ec. destruct (in_strs _ _); [|done]. apply Ok_inj in Ec as <-.
  destruct (bounded_text evidence _ _ _) as [e|err]; cbn [mbind res_bind]; [|left; eauto]. right.
  destruct (outcome_decodes row o signal e now Ho) as [o' Ho']. exists e, o'. split_and!; [done|done|].
  rewrite (keyed_one _ _ _ _ Hk Hs). cbn [Nat.eqb]. f_equal. unfold Observations.get. cbn [observations].
  rewrite <-to_map_select, to_map_update, lookup_alter_eq, to_map_select, Hs by done. cbn [fmap option_fmap option_map].
  by rewrite Ho'.
Qed.

Lemma elem_of_limit {A} n (l : list A) x : x ∈ limit n l → x ∈ l.
Proof.
  unfold limit. destruct (n <? 0); [done|]. intros Hx. rewrite <-(take_drop (Z.to_nat n) l). apply elem_of_app. by left.
Qed.

(** The evidence endpoints show and change the rows of the active
    workspace alone: an outcome is recorded on the row it names, an error
    leaves the store as it was. *)
Theorem evidence_isolated (opened : res unit) (ws : string) (st : store) :
  keyed observation_id (observations st) →
  (∀ task_kind n os, list_observations_endpoint opened ws task_kind n st = Body os → Forall (λ o, o_workspace_id o = ws) os) ∧
  (∀ r a, get_strategy_assignment_endpoint opened ws r st = Body a → a_workspace_id a = ws) ∧
  ∀ oid signal evidence now reply st',
    record_observation_outcome_endpoint opened ws oid signal evidence now st = (reply, st') →
    match reply with
    | Body o =>
        observation_id o = oid ∧ o_workspace_id o = ws ∧ outcome_signal o = signal ∧
        signal ∈ ["accepted"; "rejected"; "edited"] ∧
        Observations.get oid st' = Ok (Some o) ∧
        (∀ oid', oid' ≠ oid → Observations.get oid' st' = Observations.get oid' st) ∧
        other_workspaces ws st' = other_workspaces ws st ∧ assignments st' = assignments st
    | HTTPError _ _ => st' = st
    end.
Proof.
  intros Hk. split_and!.
  - intros task_kind n os. unfold list_observations_endpoint. destruct opened; cbn [mbind res_bind]; [|done].
    destruct (list_observations _ _ _ _) as [os'|] eqn:E; [|done]. intros [= <-].
    unfold list_observations in E. cbv zeta in E. apply res_all_ok in E. apply Forall_forall. intros o Ho.
    assert (Ok o ∈ map Ok os') as Hin by (by apply list_elem_of_In, in_map, list_elem_of_In). rewrite <-E in Hin.
    apply list_elem_of_In, in_map_iff in Hin as (r & Hr%row_observation_fields & Hin%list_elem_of_In).
    destruct Hr as (_ & -> & _). apply elem_of_limit, elem_of_sort_by, elem_of_select in Hin as [_ Hin].
    apply andb_true_iff in Hin as [Hin _]. by apply String.eqb_eq in Hin.
  - intros r a. unfold get_strategy_assignment_endpoint. destruct opened; cbn [mbind res_bind]; [|done].
    destruct (get_strategy_assignment r st) as [[x|]|]; [|done..]. destruct (String.eqb_spec (a_workspace_id x) ws); [|done]. by intros [= <-].
  - intros oid signal evidence now reply st'. unfold record_observation_outcome_endpoint.
    destruct opened as [[]|]; cbn [mbind res_bind]; [|by intros [= <- <-]].
    destruct (Observations.get oid st) as [[o|]|e] eqn:Eg; [| |intros [= <- <-]]; cycle 1.
    { by intros [= <- <-]. }
    { destruct e; cbn [outcome_error]; try done. by destruct (decide _). }
    destruct (String.eqb_spec (o_workspace_id o) ws) as [Hws|]; cbn [negb]; [|by intros [= <- <-]].
    pose proof Eg as Eg'. unfold Observations.get in Eg'. destruct (select_one (has_key observation_id oid) (observations st)) as [row|] eqn:Es; [|done].
    apply res_bind_ok in Eg' as (o0 & Ho & [= ->]).
    destruct (record_outcome_decoded oid signal (from_option VStr VNone evidence) now st row o Hk Es Ho)
      as [(err & ->)|(e & o' & Hsig & Ho' & ->)].
    { intros [= <- <-]. destruct err; cbn [outcome_error]; try done. by destruct (decide _). }
    intros [= <- <-]. pose proof (row_observation_fields _ _ Ho) as (_ & Hw & _).
    pose proof (row_observation_fields _ _ Ho') as (-> & Hw' & ->). rewrite Hw'. cbn [set_outcome o_workspace_id outcome_signal observation_id].
    pose proof (select_one_Some _ _ _ Es) as [Hrow Hid]. apply String.eqb_eq in Hid.
    assert (∀ k, select_one (has_key observation_id k) (update_where (has_key observation_id oid) (set_outcome signal e now) (observations st))
      = if decide (k = oid) then Some (set_outcome signal e now row) else select_one (has_key observation_id k) (observations st)) as Hsel.
    { intros k. rewrite <-to_map_select, to_map_update by done. destruct (decide _) as [->|].
      - by rewrite lookup_alter_eq, to_map_select, Es.
      - by rewrite lookup_alter_ne, to_map_select by done. }
    split_and!; [done|congruence|done|done| | | |done].
    + unfold Observations.get. cbn [observations]. rewrite Hsel, decide_True by done. by rewrite Ho'.
    + intros oid' Hne. unfold Observations.get. cbn [observations]. by rewrite Hsel, decide_False.
    + unfold other_workspaces. cbn [observations]. apply filter_update. intros r Hr Hk'. apply String.eqb_eq in Hk'.
      assert (r = row) as -> by (eapply keyed_inj; [exact Hk|done..|congruence]).
      cbn [set_outcome o_workspace_id]. rewrite <-Hw, Hws, String.eqb_refl. done.
Qed.

Lemma evidence_isolated_witness :
  (record_observation_outcome_endpoint (Ok tt) "/srv/ws" "u1" "accepted" None "t2" sample_store).1
  = Body (mkObs "u1" 1 "/srv/ws" (Some "r1") None "workflow" None "default-v1" [VStr "a b"] "accepted" None
      "server.run" "t1" "t2") ∧
  keyed observation_id (observations sample_store) ∧
  Forall (λ o, o_workspace_id o = "/srv/ws"%string)
    (match list_observations_endpoint (Ok tt) "/srv/ws" None 5 sample_store with Body os => os | _ => [] end).
Proof.
  assert (keyed observation_id (observations sample_store)) as Hk by (apply (bool_decide_unpack _); vm_compute; exact Logic.I).
  split; [vm_compute; reflexivity|]. split; [exact Hk|].
  eapply (proj1 (evidence_isolated (Ok tt) "/srv/ws" sample_store Hk) None 5). vm_compute. reflexivity.
Defined.

(** ** What the run view shows *)

(** The self check a run is shown with is that of the last result
    event carrying one, and only a completed run has it; the prompt shown is
    that of the last interrupt, and only for an interrupted run. *)
Theorem run_view_latest (r : string) (L : ledger) (view : run_view) (prompt : pyval) :
  get_run_endpoint r L = Ok (Body (view, prompt)) →
  get_run r L = Some (rv_run view) ∧
  (∀ sc, rv_self_check view = Some sc → status (rv_run view) = "completed"%string ∧
     ∃ before e later, list_events (run_id (rv_run view)) 0 L = Ok (before ++ e :: later) ∧
       event_self_check e = Some sc ∧ Forall (λ e', event_self_check e' = None) later) ∧
  (prompt ≠ VNone → status (rv_run view) = "interrupted"%string ∧
     ∃ before e later, list_events r 0 L = Ok (before ++ e :: later) ∧
       interrupt_prompt e = Some prompt ∧ Forall (λ e', interrupt_prompt e' = None) later).
Proof.
  assert (∀ A (f : event → option A) es x, head (omap f (reverse es)) = Some x →
    ∃ before e later, es = before ++ e :: later ∧ f e = Some x ∧ Forall (λ e', f e' = None) later) as Hlast.
  { intros A f es x. induction es as [|e es IH] using rev_ind; [done|].
    rewrite reverse_snoc. cbn [omap list_omap]. destruct (f e) as [y|] eqn:Ef.
    - intros [= ->]. exists es, e, []. split_and!; [done|done|constructor].
    - intros (b & e' & l & -> & ? & ?)%IH. exists b, e', (l ++ [e]). rewrite <-app_assoc. split_and!; [done|done|].
      apply Forall_app. by repeat constructor. }
  unfold get_run_endpoint. destruct (get_run r L) as [run|] eqn:Er; [|done].
  intros (v & Hv & (p & Hp & [= -> ->])%res_bind_ok)%res_bind_ok. unfold with_result_self_check in Hv.
  assert (rv_run view = run) as Hrun.
  { destruct (String.eqb _ _); [|by apply Ok_inj in Hv as <-]. by apply res_bind_ok in Hv as (? & _ & <-%Ok_inj). }
  rewrite Hrun. split_and!; [done| |].
  - intros sc Hsc. destruct (String.eqb_spec (status run) "completed") as [Hs|]; [|apply Ok_inj in Hv as <-; done].
    split; [done|]. apply res_bind_ok in Hv as (o & Ho & <-%Ok_inj). cbn [rv_self_check] in Hsc. subst o.
    unfold latest_result_self_check in Ho. apply res_bind_ok in Ho as (es & Hes & Ho%Ok_inj).
    destruct (Hlast _ _ _ _ Ho) as (b & e & l & -> & ? & ?). eauto 6.
  - intros Hne. destruct (String.eqb_spec (status run) "interrupted") as [Hs|]; [|apply Ok_inj in Hp; congruence].
    split; [done|]. unfold latest_interrupt_prompt in Hp. apply res_bind_ok in Hp as (es & Hes & Hp%Ok_inj).
    destruct (head _) as [x|] eqn:Ex; [|by rewrite <-Hp in Hne].
    assert (x = prompt) as -> by exact Hp.
    destruct (Hlast _ _ _ _ Ex) as (b & e & l & -> & ? & ?). eauto 6.
Qed.

(** *** A schedule made over HTTP *)
Lemma dset_ok k v d : json_ok (VDict d) = true → json_ok v = true → json_ok (VDict (dset k v d)) = true.
Proof.
  cbn [json_ok]. rewrite !andb_true_iff, !bool_decide_eq_true. intros [Hn Hf] Hv. split; [by apply dset_NoDup|].
  clear Hn. induction d as [|[k' v'] d IH]; cbn [dset forallb] in *; [by rewrite Hv|].
  apply andb_true_iff in Hf as [H1 H2]. destruct (String.eqb k' k); cbn [forallb]; [by rewrite Hv, H2|by rewrite H1, IH].
Qed.
Lemma validated_ok `{Cron} kind tk tv tz d d' : validate_schedule_fields kind tk tv tz d = Ok d' →
  json_ok (VDict d) = true → json_ok (VDict d') = true.
Proof.
  unfold validate_schedule_fields. intros Hv Hd. do 2 (case_match; [done|]).
  apply res_bind_ok in Hv as (_ & _ & Hv). case_match.
  { apply res_bind_ok in Hv as (_ & _ & Hv). case_match; [done|]. by apply Ok_inj in Hv as <-. }
  case_match. { by apply res_bind_ok in Hv as (_ & _ & <-%Ok_inj). }
  unfold validate_callback in Hv. apply res_bind_ok in Hv as (_ & _ & Hv). case_match; [|done]. case_match; [done|].
  apply res_bind_ok in Hv as (url & _ & Hv). cbn zeta in Hv.
  match type of Hv with context [match ?m with _ => _ end] => destruct m as [| | | |me| | |]; try done end.
  case_match; [done|]. apply res_bind_ok in Hv as (_ & _ & Hv). apply res_bind_ok in Hv as (_ & _ & <-%Ok_inj).
  by repeat apply dset_ok.
Qed.

(** The endpoint that makes a schedule either refuses it with 422 and
    stores nothing, or answers with the row it appended, enabled and due after
    now; it never loses a row it made. *)
Theorem create_schedule_answered `{Cron} (uuid : string) (now : Z) (x : ScheduleInput) (rows : list schedule)
    (reply : http (schedule * pyval)) (rows' : list schedule) :
  cron_strict → json_ok (VDict (payload x)) = true →
  create_schedule_endpoint uuid now x rows = Ok (reply, rows') →
  match reply with
  | Body (row, v) =>
      rows' = rows ++ [row] ∧ select_one (has_key schedule_id uuid) rows = None ∧ schedule_id row = uuid ∧
      enabled row = true ∧ now < sc_next_run_at row ∧ sc_kind row = in_kind x ∧
      validate_schedule_fields (in_kind x) (ScheduleModels.trigger_kind x) (ScheduleModels.trigger_value x)
        (in_timezone x) (payload x) = (match v with VDict d => Ok d | _ => Raise JSONDecodeError end)
  | HTTPError code _ => code = 422 ∧ rows' = rows
  end.
Proof.
  intros Hcron Hok. unfold create_schedule_endpoint.
  destruct (create_schedule _ _ _ _ _ _ _ _ _ _) as [[sid rows2]|e] eqn:E; cycle 1.
  { destruct e; try done. by intros [= <- <-]. }
  unfold create_schedule in E. apply res_bind_ok in E as (p & Hp & E). apply res_bind_ok in E as (next & Hn & E).
  apply res_bind_ok in E as (text & Ht & E). destruct (select_one _ rows) eqn:Es; [done|]. injection E as <- <-.
  set (row := mkSchedule _ _ _ _ _ _ _ _ _ _ _ _ _ _).
  assert (get_schedule uuid (rows ++ [row]) = Ok (Some (row, VDict p))) as ->.
  { unfold get_schedule. rewrite <-to_map_select, (to_map_snoc schedule_id rows row) by by rewrite to_map_select.
    cbn [schedule_id row]. rewrite lookup_insert_eq. unfold decode_row. cbn [sc_payload row].
    by rewrite (loads_dumps _ _ Ht) by by eapply validated_ok. }
  cbn [mbind res_bind]. intros [= <- <-]. split_and!; try done. by eapply next_run_after.
Qed.

(** ** Witnesses *)
Definition admin_conn : connection :=
  mkConn false EmptyString EmptyString "s3cret" EmptyString EmptyString EmptyString None "/api/permissions/x".
Definition demo_rules : Sqlite.t := [demo_rule].

Lemma revoke_gated_witness :
  revoke_permission_endpoint (permission_key demo_rule) (Some "s3cret"%string) admin_conn (Ok tt) demo_rules
  = Ok (Body (permission_key demo_rule), []) ∧
  revoke_permission_endpoint (permission_key demo_rule) None admin_conn (Ok tt) demo_rules
  = Ok (HTTPError 404 "Permissions administration is not configured", demo_rules) ∧
  (ps_abs ([] : Sqlite.t) = delete (permission_key demo_rule) (ps_abs demo_rules)).
Proof.
  split; [vm_compute; reflexivity|]. split; [vm_compute; reflexivity|].
  refine (proj2 (proj2 (proj2 (proj2 (proj2 (proj1
    (revoke_gated (permission_key demo_rule) (Some "s3cret"%string) admin_conn (Ok tt) demo_rules
       (Body (permission_key demo_rule)) [] _ _))))))).
  - apply (bool_decide_unpack _). vm_compute. exact Logic.I.
  - vm_compute. reflexivity.
Defined.

Definition view_row : run_row :=
  mkRun "r1" "th" None None "completed" (Some "task"%string) None None "t0" "t0" None None.
Definition view_ledger : ledger :=
  mkLedger [view_row]
    [mkEvent "r1" 1 "t1" "result" ("{" +:+ Json.q "self_check" +:+ ": {}}");
     mkEvent "r1" 2 "t2" "status" "{}"] [].
Lemma run_view_latest_witness :
  get_run_endpoint "r1" view_ledger = Ok (Body (mkView view_row (Some []), VNone)) ∧
  status view_row = "completed"%string.
Proof.
  assert (get_run_endpoint "r1" view_ledger = Ok (Body (mkView view_row (Some []), VNone))) as Hr by (vm_compute; reflexivity).
  split; [exact Hr|].
  exact (proj1 (proj1 (proj2 (run_view_latest "r1" view_ledger (mkView view_row (Some [])) VNone Hr)) [] eq_refl)).
Defined.
Definition demo_created : schedule :=
  mkSchedule "s1" "hook" "app_callback" "interval" "5m" "UTC"
    (match dumps (VDict (payload demo_valid)) with Ok t => t | Raise _ => EmptyString end)
    true (300 * usec) None None None 0 0.
Lemma create_schedule_answered_witness :
  create_schedule_endpoint (H:=minutely) "s1" 0 demo_valid [] = Ok (Body (demo_created, VDict (payload demo_valid)), [demo_created]) ∧
  0 < sc_next_run_at demo_created.
Proof.
  assert (create_schedule_endpoint (H:=minutely) "s1" 0 demo_valid []
    = Ok (Body (demo_created, VDict (payload demo_valid)), [demo_created])) as Hr by (vm_compute; reflexivity).
  split; [exact Hr|].
  pose proof (create_schedule_answered (H:=minutely) "s1" 0 demo_valid []
    (Body (demo_created, VDict (payload demo_valid))) [demo_created] minutely_strict ltac:(vm_compute; reflexivity) Hr) as Hs.
  exact (proj1 (proj2 (proj2 (proj2 (proj2 Hs))))).
Defined.
