(* ===== verification/CliFormat.v ===== *)
(** * Console output of the CLI (agent_os/cli/formatter.py, agent_os/cli/parser.py)

    The events of a LangGraph stream as lines on a console, with the values of
    sensitive keys redacted.  A console is the list of what was printed; colours
    are left out.  Event names are texts, as LangGraph's are. *)
From S2P Require Import RunExecutor.

Definition SENSITIVE_KEYS : list string :=
  ["api_key"; "apikey"; "authorization"; "credential"; "credentials"; "password"; "secret"; "token"].
Definition sensitive (key : string) : bool := mem_str (lower key) SENSITIVE_KEYS.

(** [_redact_sensitive] *)
Fixpoint redact_sensitive (v : pyval) : pyval :=
  match v with
  | VDict d => VDict (map (λ '(k, x), (k, if sensitive k then VStr "***" else redact_sensitive x)) d)
  | VList l => VList (map redact_sensitive l)
  | _ => v
  end.

(** [json.dumps(v, ensure_ascii=False, sort_keys=True, default=str)] *)
Definition unicode_char (c : ascii) : string :=
  if 126 <? code c then String c EmptyString else json_char c.
Definition unicode_string (s : string) : string :=
  String dquote (sflat_map unicode_char s +:+ String dquote EmptyString).
Fixpoint dumps_unicode (v : pyval) : string :=
  match v with
  | VNone => "null"
  | VBool b => if b then "true" else "false"
  | VInt z => str_of_Z z
  | VFloat f => json_float f
  | VStr s => unicode_string s
  | VList l => "[" +:+ sjoin ", " (map dumps_unicode l) +:+ "]"
  | VDict d =>
      "{" +:+ sjoin ", " (map snd (sort_by (λ a b, str_leb a.1 b.1)
                 (map (λ '(k, x), (k, unicode_string k +:+ ": " +:+ dumps_unicode x)) d))) +:+ "}"
  | VObj _ _ => unicode_string (py_str v)
  end.

Definition format_compact (v : pyval) : string :=
  match v with
  | VNone => EmptyString
  | VDict _ | VList _ | VBool _ | VInt _ | VFloat _ => dumps_unicode (redact_sensitive v)
  | VStr _ | VObj _ _ => strip (py_str (redact_sensitive v))
  end.

Definition truncate (value : string) (limit : nat) : string :=
  if (String.length value <=? limit)%nat then value else stake (limit - 3) value +:+ "...".

(** [s.splitlines()]: a carriage return with its line feed is one break. *)
Fixpoint lines_go (s : string) : string * option (list string) :=
  let finish o := match o with
                  | (w, None) => if sempty w then [] else [w]
                  | (w, Some ls) => w :: ls
                  end in
  match s with
  | EmptyString => (EmptyString, None)
  | String c s' =>
      if line_break c then
        (EmptyString, Some (match s' with
                            | String d s'' => if (code c =? 13) && (code d =? 10) then finish (lines_go s'') else finish (lines_go s')
                            | EmptyString => []
                            end))
      else let '(w, o) := lines_go s' in (String c w, o)
  end.
Definition splitlines (s : string) : list string :=
  match lines_go s with
  | (w, None) => if sempty w then [] else [w]
  | (w, Some ls) => w :: ls
  end.

(** ** The formatter *)
Inductive printed :=
  | Labeled (label message : string)
  | WarningLine (message : string)          (* on the warning console *)
  | Token (text : string)
  | EndOfTokens
  | Plain (text : string)                   (* [print] of a command, on standard output *)
  | PlainError (text : string).             (* on standard error *)
Record formatter := mkFormatter { stream_open : bool; console : list printed }.
Definition new_formatter : formatter := mkFormatter false [].

Definition finish_stream (f : formatter) : formatter :=
  if stream_open f then mkFormatter false (console f ++ [EndOfTokens]) else f.
Definition put (p : printed) (f : formatter) : formatter :=
  let f := finish_stream f in mkFormatter (stream_open f) (console f ++ [p]).
Definition print_labeled (label message : string) : formatter → formatter := put (Labeled label message).
Definition print_thread_id := print_labeled "THREAD".
Definition print_supervisor_route (destination : string) := print_labeled "SUPERVISOR" ("-> " +:+ destination).
Definition print_info := print_labeled "INFO".
Definition print_error := print_labeled "ERROR".
Definition print_human_prompt := print_labeled "HUMAN".
Definition print_warning (message : string) : formatter → formatter := put (WarningLine message).
Definition print_token (token : string) (f : formatter) : formatter :=
  if sempty token then f else mkFormatter true (console f ++ [Token token]).

Definition print_tool_start (name : string) (arguments : pyval) : formatter → formatter :=
  print_labeled "TOOL" (name +:+ "(" +:+ truncate (format_compact arguments) 200 +:+ ")").
Definition result_text (output : pyval) : string :=
  let rendered := format_compact output in
  let lines := splitlines rendered in
  truncate (if (5 <? length lines)%nat then sjoin nl (take 5 lines) +:+ nl +:+ "..." else rendered) 500.
Definition print_tool_result (output : pyval) : formatter → formatter := print_labeled "RESULT" (result_text output).

(** ** One event (parser.py) *)
Definition stream_block (f : formatter) (block : pyval) : formatter :=
  match block with
  | VStr s => print_token s f
  | VDict b =>
      match dget "type" b, dget "text" b with
      | Some (VStr "text"), Some (VStr t) => print_token t f
      | _, _ => f
      end
  | _ => f
  end.
Definition stream_content (content : pyval) (f : formatter) : formatter :=
  match content with
  | VStr s => print_token s f
  | VList l => foldl stream_block f l
  | _ => f
  end.

(** [getattr(v, name, d)] *)
Definition getattr (v : pyval) (name : string) (d : pyval) : pyval :=
  match v with VObj _ attrs => default d (dget name attrs) | _ => d end.
Definition supervisor_destination (output : pyval) : option string :=
  match getattr output "goto" VNone with
  | VStr s => Some s
  | VList (x :: _) => Some (py_str x)
  | _ => None
  end.

Definition as_dict (v : option pyval) : pydict := match v with Some (VDict d) => d | _ => [] end.
Definition is_text (v : option pyval) (s : string) : bool := match v with Some (VStr t) => String.eqb t s | _ => false end.
(** A name that is shown in verbose mode. *)
Definition shown_name (name : option pyval) : option string :=
  match name with Some (VStr n) => if mem_str n ["LangGraph"; "__start__"] then None else Some n | _ => None end.

Definition format_event (verbose : bool) (event : pyval) (f : formatter) : formatter :=
  match event with
  | VDict e =>
      let name := dget "name" e in
      let data := as_dict (dget "data" e) in
      let metadata := as_dict (dget "metadata" e) in
      let ty t := is_text (dget "event" e) t in
      if ty "on_chat_model_stream" then stream_content (getattr (default VNone (dget "chunk" data)) "content" VNone) f
      else
        match (if ty "on_tool_start" then match name with Some (VStr n) => if truthy n then Some n else None | _ => None end
               else None) with
        | Some n => print_tool_start n (default VNone (dget "input" data)) f
        | None =>
            if ty "on_tool_end" then
              let output := default VNone (dget "output" data) in print_tool_result (getattr output "content" output) f
            else if ty "on_chain_end" then
              if is_text name "supervisor" || is_text name "supervisor_node" || is_text (dget "langgraph_node" metadata) "supervisor" then
                match supervisor_destination (default VNone (dget "output" data)) with
                | Some d => print_supervisor_route d f
                | None => f
                end
              else match (if verbose then shown_name name else None) with
                   | Some n => print_info ("Node '" +:+ n +:+ "' completed.") f
                   | None => f
                   end
            else if ty "on_chain_start" then
              match (if verbose then shown_name name else None) with
              | Some n => print_info ("Node '" +:+ n +:+ "' started.") f
              | None => f
              end
            else f
        end
  | _ => f
  end.

Example splitlines_1 : splitlines ("a" +:+ String (chr 13) nl +:+ "b" +:+ nl) = ["a"; "b"] ∧ splitlines EmptyString = [].
Proof. by vm_compute. Qed.

(** ** Nothing sensitive is shown *)

(** Values that differ only under sensitive keys. *)
Inductive agree : pyval → pyval → Prop :=
  | agree_refl v : agree v v
  | agree_list l l' : Forall2 agree l l' → agree (VList l) (VList l')
  | agree_dict d d' : Forall2 (λ p q, p.1 = q.1 ∧ (sensitive p.1 = true ∨ agree p.2 q.2)) d d' → agree (VDict d) (VDict d').

Lemma agree_redact v w : agree v w → redact_sensitive v = redact_sensitive w.
Proof.
  revert w. induction v as [|b|z|x|s|l IH|d IH|cls d IH] using pyval_ind'; intros w H; inversion H as [|l0 l' Hl|d0 d' Hd]; subst; try done.
  - cbn [redact_sensitive]. f_equal. clear H. revert l' Hl. induction IH as [|x l Hx _ IHl]; intros l' Hl.
    + by apply Forall2_nil_inv_l in Hl as ->.
    + apply Forall2_cons_inv_l in Hl as (y & l2 & Hxy & Hl & ->). cbn [map]. by rewrite (Hx _ Hxy), (IHl _ Hl).
  - cbn [redact_sensitive]. f_equal. clear H. revert d' Hd. induction IH as [|[k x] d Hx _ IHd]; intros d' Hd.
    + by apply Forall2_nil_inv_l in Hd as ->.
    + apply Forall2_cons_inv_l in Hd as ([k' y] & d2 & [Hk Hxy] & Hd & ->). cbn [fst snd] in *. subst k'. cbn [map].
      rewrite (IHd _ Hd). destruct (sensitive k) eqn:Es; [done|]. destruct Hxy as [?|Hxy]; [done|]. by rewrite (Hx _ Hxy).
Qed.
Lemma agree_compact v w : agree v w → format_compact v = format_compact w.
Proof. intros H. pose proof (agree_redact _ _ H) as He. inversion H; subst; [done|..]; unfold format_compact; by rewrite He. Qed.

Lemma length_truncate s n : (3 ≤ n)%nat → (String.length (truncate s n) ≤ n)%nat.
Proof.
  intros Hn. unfold truncate. destruct (Nat.leb_spec (String.length s) n) as [|Hlt]; [done|].
  rewrite slen_app, slen_stake. cbn [String.length]. lia.
Qed.

(** What is printed of a tool call and of its result does not
    depend on what a sensitive key maps to, at any depth, and its rendering is
    at most 200 and 500 characters long. *)
Theorem tools_redacted (name : string) (v w : pyval) (f : formatter) : agree v w →
  print_tool_start name v f = print_tool_start name w f ∧
  print_tool_result v f = print_tool_result w f ∧
  (String.length (truncate (format_compact v) 200) ≤ 200)%nat ∧
  (String.length (result_text v) ≤ 500)%nat.
Proof.
  intros H. unfold print_tool_start, print_tool_result, result_text. rewrite (agree_compact _ _ H).
  split_and!; [done|done| |]; apply length_truncate; lia.
Qed.
Lemma tools_redacted_witness :
  print_tool_start "login" (VDict [("user", VStr "u"); ("opts", VList [VDict [("API_Key", VStr "k1")]])]) new_formatter
  = print_tool_start "login" (VDict [("user", VStr "u"); ("opts", VList [VDict [("API_Key", VInt 7)]])]) new_formatter.
Proof.
  apply (tools_redacted "login" (VDict [("user", VStr "u"); ("opts", VList [VDict [("API_Key", VStr "k1")]])])).
  apply agree_dict. constructor; [split; [reflexivity|right; apply agree_refl]|]. constructor; [|constructor].
  split; [reflexivity|]. right. apply agree_list. constructor; [|constructor].
  apply agree_dict. constructor; [|constructor]. split; [reflexivity|]. left. reflexivity.
Defined.

(** A result that is text is printed as it is, keys and all. *)
Example text_result_not_redacted :
  result_text (VStr ("{" +:+ Json.q "token" +:+ ": 1}")) = "{" +:+ Json.q "token" +:+ ": 1}".
Proof. by vm_compute. Qed.
