(* ===== verification/CliRun.v ===== *)
(** * Workflows and chats on the command line (agent_os/cli/app.py)

    [_run_graph] and [_chat_loop] with what they call.  The graph is LangGraph's
    with the checkpointer: a pass over it, the snapshot of a thread and the
    update of a binding are arguments on a state type of their own.  The
    operator is the list of what is typed: a line, Ctrl+C or the end of the
    input; when the list is used up the input is closed.  The loops are bounded
    by that list: every turn after the first reads from it.  Tracebacks of
    verbose mode are left out. *)
From S2P Require Import Events CliFormat Backends Sessions.
From S2P Require Workflow Chat.
From S2P Require Import Policy.

Definition POLICY_APPROVAL_PROMPT_PREFIX : string := "Policy approval required:".

Inductive typed := Line (s : string) | CtrlC | Eof.

(** What is given to the graph: the initial state of a new workflow, a message
    on an existing thread, the answer to an interrupt, or nothing to go on. *)
Inductive graph_input :=
  | Start (task : string) (binding : BackendBinding) (hot_context : option string)
  | Message (content : string)
  | Resume (feedback : string)
  | Continue.

Inductive pass_end := Streamed | Interrupted | InputClosed | Failed (e : exn).

Record snapshot := mkSnapshot {
  sn_created_at : bool;
  sn_values : pyval;
  sn_next : list string;
  sn_tasks : list (list pyval) }.

Definition checkpoint_exists (sn : snapshot) : bool := sn_created_at sn || py_truthy (sn_values sn).
Definition finished (sn : snapshot) : bool := match sn_next sn with [] => true | _ => false end.
Definition next_node_name (sn : snapshot) : string := hd "unknown"%string (sn_next sn).
Definition pending_prompt (sn : snapshot) : option pyval :=
  match Chat.pending_interrupt (sn_tasks sn) with Some VNone => None | o => o end.
Definition completed_with_tool_failure (sn : snapshot) : bool :=
  match sn_values sn with
  | VDict vs => match getattr (default VNone (dget "tool_result" vs)) "success" VNone with VBool false => true | _ => false end
  | _ => false
  end.

Definition repr_opt (o : option string) : string := match o with Some s => repr_str s | None => "None" end.
Definition render_binding (b : BackendBinding) : string :=
  sjoin ", " [ "router=" +:+ repr_opt (b_router b); "architect=" +:+ repr_opt (b_architect b);
    "executor=" +:+ repr_opt (b_executor b); "profile_name=" +:+ repr_opt (b_profile_name b);
    "sandbox_root=" +:+ repr_str (b_sandbox_root b) ].

Definition is_llm_configuration_error (e : exn) : bool :=
  let message := lower (exn_msg e) in
  existsb (λ i, contains i message) ["model configured"; "api_key"; "api key"; "api_base"; "api base"; "credentials"].

Definition print_resume_hint (thread_id : string) : formatter → formatter :=
  print_info ("Checkpoint preserved. Resume with: agent-os --resume --thread-id " +:+ thread_id).

(** ** Feedback *)
Inductive answer := Feedback (s : string) | AInterrupted | AClosed.

Definition is_policy_prompt (prompt : pyval) : bool := startswith POLICY_APPROVAL_PROMPT_PREFIX (py_str prompt).
Definition normalizer (prompt : pyval) (raw : string) : res string :=
  if is_policy_prompt prompt then normalize_policy_feedback (VStr raw) else Workflow.normalize_human_feedback (VStr raw).
Definition guidance (prompt : pyval) : string :=
  if is_policy_prompt prompt
  then "Enter 'approved', 'session', 'always_approve', 'always_deny', or 'rejected: <reason>'."
  else "Enter 'approved', 'y', or 'rejected: <reason>'.".

(** The loop that asks again after an invalid line, and what is left to read. *)
Fixpoint ask (prompt : pyval) (ls : list typed) (f : formatter) : answer * list typed * formatter :=
  match ls with
  | [] => (AClosed, [], f)
  | Eof :: rest => (AClosed, rest, f)
  | CtrlC :: rest => (AInterrupted, rest, f)
  | Line raw :: rest =>
      match normalizer prompt raw with
      | Ok s => (Feedback s, rest, f)
      | Raise e => ask prompt rest (print_info (guidance prompt) (print_error ("Invalid feedback: " +:+ exn_msg e) f))
      end
  end.
Definition read_feedback (prompt : pyval) (ls : list typed) (f : formatter) : answer * list typed * formatter :=
  ask prompt ls (print_human_prompt (py_str prompt) f).

(** ** The policy of a pass *)
(** [base] is the policy of the composed workspace, [standalone] a LocalPolicy
    on [open_permission_store()]. *)
Definition stream_policy (thread_id : string) (base : option engine) (standalone : LocalPolicy) : engine :=
  let session_key := nonempty (Some thread_id) in
  match base with
  | Some (ELocal p) => ELocal (lp_with_session session_key p)
  | _ => ELocal (lp_with_session session_key standalone)
  end.

Section graph.
Context {G I : Type}.
Context (astream : engine → graph_input → G → list pyval * pass_end * G) (aget_state : G → res snapshot)
  (aupdate_state : BackendBinding → G → G) (validate_binding : pyval → res BackendBinding) (adapters : backends (I:=I)).
Context (verbose : bool) (thread_id : string) (current : BackendBinding) (force_rebind : bool)
  (base : option engine) (standalone : LocalPolicy) (initial_hot_context : option string).

(** The console, what is still to be typed, the graph, what it was given, and
    the table of sessions. *)
Record world := mkWorld {
  w_out : formatter;
  w_in : list typed;
  w_graph : G;
  w_calls : list graph_input;
  w_sessions : list session }.
Definition on_out (h : formatter → formatter) (w : world) : world :=
  mkWorld (h (w_out w)) (w_in w) (w_graph w) (w_calls w) (w_sessions w).
Definition with_in (ls : list typed) (f : formatter) (w : world) : world :=
  mkWorld f ls (w_graph w) (w_calls w) (w_sessions w).

Definition stream_pass (normalized_thread : string) (gi : graph_input) (w : world) : pass_end * world :=
  let '(events, e, g) := astream (stream_policy normalized_thread base standalone) gi (w_graph w) in
  let f := foldl (λ f ev, format_event verbose ev f) (w_out w) events in
  (e, mkWorld (match e with Streamed => finish_stream f | _ => f end) (w_in w) g (w_calls w ++ [gi]) (w_sessions w)).

Definition stop_interrupted (w : world) : Z * world :=
  (130, on_out (λ f, print_resume_hint thread_id (print_error "Interrupted by Ctrl+C." f)) w).
Definition stop_closed (message : string) (w : world) : Z * world :=
  (2, on_out (λ f, print_resume_hint thread_id (print_error message f)) w).
Definition awaiting_closed : string := "Input closed while awaiting human feedback.".

(** The feedback for a prompt, or the exit code without one. *)
Definition feedback_or_exit (prompt : pyval) (w : world) : (string + Z) * world :=
  let '(a, ls, f) := read_feedback prompt (w_in w) (w_out w) in
  let w' := with_in ls f w in
  match a with
  | Feedback s => (inl s, w')
  | AInterrupted => let '(c, w'') := stop_interrupted w' in (inr c, w'')
  | AClosed => let '(c, w'') := stop_closed awaiting_closed w' in (inr c, w'')
  end.

(** ** Resuming under a persisted binding *)
Definition raw_persisted (sn : snapshot) : pyval :=
  match sn_values sn with VDict vs => default VNone (dget "backend_binding" vs) | _ => VNone end.

Definition rebind (sn : snapshot) (w : world) : res (snapshot + Z) * world :=
  let w1 := if String.eqb (next_node_name sn) "executor"
            then on_out (print_warning "Partial edits may exist in the sandbox. Inspect before continuing.") w else w in
  let w2 := mkWorld (w_out w1) (w_in w1) (aupdate_state current (w_graph w1)) (w_calls w1) (w_sessions w1) in
  (sn' ← aget_state (w_graph w2); Ok (inl sn'), w2).

Definition refuse (message : string) (w : world) : res (snapshot + Z) * world := (Ok (inr 2), on_out (print_error message) w).

Definition show_change (c : string * (option string * option string)) : string :=
  let '(field, (old, new)) := c in field +:+ ": " +:+ repr_opt old +:+ " -> " +:+ repr_opt new.

Definition prepare_resume_binding (sn : snapshot) (w : world) : res (snapshot + Z) * world :=
  match raw_persisted sn with
  | VNone =>
      if negb force_rebind then
        refuse "This checkpoint has no persisted backend binding (created before R1.2e). Resuming without an explicit backend selection is not safe. Pass --force-rebind to attach the current binding and continue. Prior backend selection is not inferred." w
      else
        match validate_backend_binding current adapters with
        | Raise (ValueError m) => refuse ("Cannot force backend rebind: " +:+ m) w
        | Raise e => (Raise e, w)
        | Ok _ => rebind sn (on_out (print_warning
            ("Attaching current backend binding to a legacy checkpoint (no prior binding present). New binding: "
             +:+ render_binding current +:+ ". Current resume node: " +:+ next_node_name sn +:+ ".")) w)
        end
  | _ =>
      match validate_binding (raw_persisted sn) with
      | Raise (ValueError m) => refuse ("Persisted backend binding is invalid: " +:+ m) w
      | Raise e => (Raise e, w)
      | Ok persisted =>
          let changes := binding_conflicts persisted current in
          match changes with
          | [] => (Ok (inl sn), w)
          | _ =>
              if negb force_rebind then
                refuse ("Backend binding conflict. Persisted binding: " +:+ render_binding persisted
                  +:+ ". Conflicting effective overrides: " +:+ sjoin "; " (map show_change changes)
                  +:+ ". Edit the environment or profile to match, or pass --force-rebind.") w
              else
                match validate_backend_binding current adapters with
                | Raise (ValueError m) => refuse ("Cannot force backend rebind: " +:+ m) w
                | Raise e => (Raise e, w)
                | Ok _ =>
                    rebind sn (on_out (λ f, print_warning ("Current resume node: " +:+ next_node_name sn)
                      (foldl (λ f c, print_warning (show_change c) f) (print_warning "Forcing backend rebind:" f) changes)) w)
                end
          end
      end
  end.

(** ** One pass, and what follows from its end *)
(** [inl]: the exit code; [inr]: the snapshot after it. *)
Definition pass (chat : bool) (normalized_thread : string) (gi : graph_input) (w : world) : (Z + snapshot) * world :=
  let '(e, w1) := stream_pass normalized_thread gi w in
  let workflow_error m w := on_out (print_error m) w in
  let caught (x : exn) :=
    match x with
    | ValueError m =>
        if is_llm_configuration_error x then
          (inl 1, let w2 := on_out (print_error "Missing or invalid LLM configuration.") w1 in
                  if chat then w2
                  else on_out (print_info "Configure LLM_ROUTER, LLM_ARCHITECT, and LLM_EXECUTOR; see .env.example.") w2)
        else (inl 1, workflow_error ("Workflow error: " +:+ m) w1)
    | _ => (inl 1, workflow_error ("Workflow failed: " +:+ exn_msg x) w1)
    end in
  match e with
  | Interrupted => let '(c, w2) := stop_interrupted w1 in (inl c, w2)
  | InputClosed => let '(c, w2) := stop_closed awaiting_closed w1 in (inl c, w2)
  | Failed x => caught x
  | Streamed => match aget_state (w_graph w1) with Ok sn => (inr sn, w1) | Raise x => caught x end
  end.

Definition unsupported_node (w : world) : Z * world :=
  (1, on_out (λ f, print_resume_hint thread_id (print_error "Workflow paused at an unsupported node; checkpoint preserved." f)) w).

(** The inner [while True]: passes until the workflow has no next node.  [inl]:
    an exit code; [inr]: the last snapshot and the last input.  The fuel counts
    passes. *)
Fixpoint passes (fuel : nat) (chat : bool) (nt : string) (gi : graph_input) (w : world)
    : option ((Z + snapshot * graph_input) * world) :=
  match fuel with
  | O => None
  | S n =>
      match pass chat nt gi w with
      | (inl c, w1) => Some (inl c, w1)
      | (inr sn, w1) =>
          if finished sn then
            Some (if completed_with_tool_failure sn then inl 1 else inr (sn, gi), w1)
          else
            match pending_prompt sn with
            | None => let '(c, w2) := unsupported_node w1 in Some (inl c, w2)
            | Some prompt =>
                match feedback_or_exit prompt w1 with
                | (inr c, w2) => Some (inl c, w2)
                | (inl s, w2) => passes n chat nt (Resume s) w2
                end
            end
      end
  end.
(** Every pass but the first comes after a line that was typed. *)
Definition enough (w : world) : nat := S (length (w_in w)).

(** ** [_run_graph] *)
Definition missing_checkpoint (w : world) : Z * world :=
  (2, on_out (print_error ("Checkpoint not found for thread '" +:+ thread_id +:+ "'.")) w).

Definition run_from (nt : string) (gi : graph_input) (w : world) : option (res Z * world) :=
  match passes (enough w) false nt gi w with
  | None => None
  | Some (inl c, w') => Some (Ok c, w')
  | Some (inr _, w') => Some (Ok 0, w')
  end.

Definition run_graph (task : option string) (resume : bool) (w : world) : option (res Z * world) :=
  match Workflow.build_runtime_config thread_id with
  | Raise e => Some (Raise e, w)
  | Ok (_, nt) =>
      if resume then
        match aget_state (w_graph w) with
        | Raise e => Some (Raise e, w)
        | Ok sn =>
            if negb (checkpoint_exists sn) then let '(c, w') := missing_checkpoint w in Some (Ok c, w')
            else if finished sn then
              Some (Ok 2, on_out (print_error ("Workflow '" +:+ thread_id +:+ "' is already finished and cannot be resumed.")) w)
            else
              match prepare_resume_binding sn w with
              | (Raise e, w1) => Some (Raise e, w1)
              | (Ok (inr c), w1) => Some (Ok c, w1)
              | (Ok (inl sn'), w1) =>
                  match pending_prompt sn' with
                  | Some prompt =>
                      match feedback_or_exit prompt w1 with
                      | (inr c, w2) => Some (Ok c, w2)
                      | (inl s, w2) => run_from nt (Resume s) w2
                      end
                  | None => run_from nt Continue (on_out (print_info ("Resuming mid-run at node " +:+ next_node_name sn')) w1)
                  end
              end
        end
      else
        match task with
        | None => Some (Raise (OtherError "A new workflow requires a task"), w)
        | Some t => run_from nt (Start t current initial_hot_context) w
        end
  end.

(** ** [_chat_loop] *)
Definition message_content (gi : graph_input) : option string :=
  match gi with Start t _ _ => Some t | Message c => Some c | _ => None end.
(** [now] and [creator]: the clock and the local principal's id; [ws]: the base
    path of the workspace. *)
Definition turn_of (now creator : string) (ws : option string) (sn : snapshot) (gi : graph_input) : turn :=
  mkTurn thread_id now
    (if checkpoint_exists sn then None
     else content ← message_content gi;
          Some (stake 50 content +:+ (if (50 <? String.length content)%nat then "..." else EmptyString)))
    ws (Some creator).

(** The session log: the import of a name that [sessions] does not define
    raises before anything is written. *)
Definition import_error : string := "cannot import name '_get_db' from 'agent_os.sessions'".
Definition session_log (w : world) : world :=
  match (sn ← aget_state (w_graph w);
         match sn_values sn with
         | VDict vs => if py_truthy (default VNone (dget "conversation_summary" vs)) then Raise (OtherError import_error) else Ok tt
         | _ => Raise (OtherError "AttributeError")
         end) with
  | Ok _ => w
  | Raise e => on_out (print_warning ("Failed to write session log: " +:+ exn_msg e)) w
  end.

(** The turns: the fuel counts the lines. *)
Fixpoint chat_turns (fuel : nat) (nt now creator : string) (ws : option string) (w : world) : option (res Z * world) :=
  match fuel with
  | O => None
  | S n =>
      match w_in w with
      | [] => Some (Ok 0, session_log w)
      | Eof :: rest => Some (Ok 0, session_log (with_in rest (w_out w) w))
      | CtrlC :: rest => let '(c, w') := stop_interrupted (with_in rest (w_out w) w) in Some (Ok c, w')
      | Line user_input :: rest =>
          let w1 := with_in rest (w_out w) w in
          if mem_str (strip user_input) ["/exit"; "exit"] then Some (Ok 0, session_log w1)
          else
            match aget_state (w_graph w1) with
            | Raise e => Some (Raise e, w1)
            | Ok sn =>
                let gi := if checkpoint_exists sn then Message user_input else Start user_input current initial_hot_context in
                match passes (enough w1) true nt gi w1 with
                | None => None
                | Some (inl c, w2) => Some (Ok c, w2)
                | Some (inr (sn', gi'), w2) =>
                    match upsert_session (turn_of now creator ws sn' gi') (w_sessions w2) with
                    | Raise e => Some (Raise e, w2)
                    | Ok rows => chat_turns n nt now creator ws (mkWorld (w_out w2) (w_in w2) (w_graph w2) (w_calls w2) rows)
                    end
                end
            end
      end
  end.

(** The interrupt that is pending when a chat is resumed. *)
Definition chat_resume (nt : string) (sn : snapshot) (w : world) : option Z * world :=
  match pending_prompt sn with
  | None => (None, w)
  | Some prompt =>
      match feedback_or_exit prompt w with
      | (inr c, w1) => (Some c, w1)
      | (inl s, w1) =>
          let '(e, w2) := stream_pass nt (Resume s) w1 in
          match e with
          | Streamed => (None, w2)
          | Interrupted => let '(c, w3) := stop_interrupted w2 in (Some c, w3)
          | InputClosed => let '(c, w3) := stop_closed "Input closed." w2 in (Some c, w3)
          | Failed x => (Some 1, on_out (print_error ("Workflow failed: " +:+ exn_msg x)) w2)
          end
      end
  end.

Definition chat_loop (resume : bool) (now creator : string) (ws : option string) (w : world) : option (res Z * world) :=
  match Workflow.build_runtime_config thread_id with
  | Raise e => Some (Raise e, w)
  | Ok (_, nt) =>
      if resume then
        match aget_state (w_graph w) with
        | Raise e => Some (Raise e, w)
        | Ok sn =>
            if negb (checkpoint_exists sn) then let '(c, w') := missing_checkpoint w in Some (Ok c, w')
            else
              match prepare_resume_binding sn w with
              | (Raise e, w1) => Some (Raise e, w1)
              | (Ok (inr c), w1) => Some (Ok c, w1)
              | (Ok (inl sn'), w1) =>
                  match chat_resume nt sn' w1 with
                  | (Some c, w2) => Some (Ok c, w2)
                  | (None, w2) => chat_turns (enough w2) nt now creator ws w2
                  end
              end
        end
      else chat_turns (enough w) nt now creator ws w
  end.
End graph.

(** ** Every command line ends *)
Section lemmas.
Context {G I : Type}.
Context (astream : engine → graph_input → G → list pyval * pass_end * G) (aget_state : G → res snapshot)
  (aupdate_state : BackendBinding → G → G) (validate_binding : pyval → res BackendBinding) (adapters : backends (I:=I)).
Context (verbose : bool) (thread_id : string) (current : BackendBinding) (force_rebind : bool)
  (base : option engine) (standalone : LocalPolicy) (initial_hot_context : option string).
Notation world := (world (G:=G)).
Notation passes := (passes astream aget_state verbose thread_id base standalone).
Notation pass := (pass astream aget_state verbose thread_id base standalone).
Notation prepare := (prepare_resume_binding aget_state aupdate_state validate_binding adapters current force_rebind).
Notation run := (run_graph astream aget_state aupdate_state validate_binding adapters verbose thread_id current force_rebind base standalone initial_hot_context).
Notation chat := (chat_loop astream aget_state aupdate_state validate_binding adapters verbose thread_id current force_rebind base standalone initial_hot_context).
Notation turns := (chat_turns astream aget_state verbose thread_id current base standalone initial_hot_context).

(** What a step may do: read some of what is typed, and give the graph inputs
    that satisfy [P]. *)
Definition extends (P : graph_input → Prop) (w w' : world) : Prop :=
  (∃ read, w_in w = read ++ w_in w') ∧ ∃ calls, w_calls w' = w_calls w ++ calls ∧ Forall P calls.
#[local] Instance extends_preorder P : PreOrder (extends P).
Proof.
  split.
  - intros w. split; [by exists []|]. exists []. by rewrite app_nil_r.
  - intros w1 w2 w3 ((r1 & H1) & c1 & Hc1 & P1) ((r2 & H2) & c2 & Hc2 & P2). split.
    + exists (r1 ++ r2). by rewrite H1, H2, <-app_assoc.
    + exists (c1 ++ c2). rewrite Hc2, Hc1, <-app_assoc. split; [done|by apply Forall_app].
Qed.
Lemma extends_length P w w' : extends P w w' → (length (w_in w') ≤ length (w_in w))%nat.
Proof. intros [[read ->] _]. rewrite length_app. lia. Qed.
Lemma extends_out P h w : extends P w (on_out h w).
Proof. split; [by exists []|]. exists []. by rewrite app_nil_r. Qed.

(** An answer the operator typed. *)
Definition typed_answer (ls : list typed) (s : string) : Prop :=
  ∃ prompt raw, Line raw ∈ ls ∧ normalizer prompt raw = Ok s.

Lemma ask_spec prompt ls : ∀ f a rest f', ask prompt ls f = (a, rest, f') →
  (∃ read, ls = read ++ rest) ∧ ∀ s, a = Feedback s → (length rest < length ls)%nat ∧ typed_answer ls s.
Proof.
  induction ls as [|[raw| |] ls IH]; intros f a rest f'; cbn [ask].
  - intros [= <- <- <-]. split; [by exists []|done].
  - destruct (normalizer prompt raw) as [s|e] eqn:En.
    + intros [= <- <- <-]. split; [by exists [Line raw]|]. intros s' [= ->]. split; [cbn; lia|].
      exists prompt, raw. split; [by left|done].
    + intros [(read & ->) Hs]%IH. split; [by exists (Line raw :: read)|].
      intros s Ha. destruct (Hs s Ha) as [Hl (p & raw' & Hin & Hn)]. split; [cbn; lia|].
      exists p, raw'. split; [by right|done].
  - intros [= <- <- <-]. split; [by exists [CtrlC]|done].
  - intros [= <- <- <-]. split; [by exists [Eof]|done].
Qed.

Lemma feedback_spec P prompt w r w' : feedback_or_exit thread_id prompt w = (r, w') →
  extends P w w' ∧ w_calls w' = w_calls w ∧ w_graph w' = w_graph w ∧
  match r with
  | inl s => (length (w_in w') < length (w_in w))%nat ∧ typed_answer (w_in w) s
  | inr c => c = 130 ∨ c = 2
  end.
Proof.
  unfold feedback_or_exit, read_feedback. destruct (ask _ _ _) as [[a ls] f] eqn:E. destruct (ask_spec _ _ _ _ _ _ E) as [Hr Hs].
  destruct a as [s| |]; intros [= <- <-]; cbn.
  1: destruct (Hs s eq_refl).
  all: split_and!; auto; split; [done|]; exists []; by rewrite app_nil_r.
Qed.

Lemma pass_spec (P : graph_input → Prop) ch nt gi w r w' : P gi → pass ch nt gi w = (r, w') →
  extends P w w' ∧ w_in w' = w_in w ∧
  match r with inl c => c ≠ 0 | inr sn => aget_state (w_graph w') = Ok sn end.
Proof.
  intros Hgi. unfold CliRun.pass, stream_pass. destruct (astream _ _ _) as [[events e] g]. cbn zeta.
  assert (∀ f, extends P w (mkWorld f (w_in w) g (w_calls w ++ [gi]) (w_sessions w))) as He.
  { intros f. split; [by exists []|]. exists [gi]. split; [done|by constructor]. }
  destruct e as [| | |x]; cbn [stop_interrupted stop_closed w_graph].
  - destruct (aget_state g) as [sn|x] eqn:Eg; [intros [= <- <-]; cbn; auto|].
    destruct x; [destruct (is_llm_configuration_error _); destruct ch|..]; intros [= <- <-]; cbn; split_and!; done || apply He.
  - intros [= <- <-]. cbn. split_and!; done || apply He.
  - intros [= <- <-]. cbn. split_and!; done || apply He.
  - destruct x; [destruct (is_llm_configuration_error _); destruct ch|..]; intros [= <- <-]; cbn; split_and!; done || apply He.
Qed.

Definition later_answer (ls : list typed) (gi : graph_input) : Prop := ∃ s, gi = Resume s ∧ typed_answer ls s.
Lemma later_answer_app read ls gi : later_answer ls gi → later_answer (read ++ ls) gi.
Proof. intros (s & -> & p & raw & ? & ?). exists s. split; [done|]. exists p, raw. split; [set_solver|done]. Qed.

(** Enough fuel: a pass after the first follows a line that was typed. *)
Lemma passes_spec (P : graph_input → Prop) fuel : ∀ ch nt gi w, (length (w_in w) < fuel)%nat → P gi →
  (∀ gi', later_answer (w_in w) gi' → P gi') →
  ∃ r w', passes fuel ch nt gi w = Some (r, w') ∧ extends P w w' ∧
    match r with
    | inl c => c ≠ 0
    | inr (sn, _) => aget_state (w_graph w') = Ok sn ∧ finished sn = true ∧ completed_with_tool_failure sn = false
    end.
Proof.
  induction fuel as [|n IH]; intros ch nt gi w Hf Hgi HP; [lia|]. cbn [CliRun.passes].
  destruct (pass ch nt gi w) as [[c|sn] w1] eqn:Ep; destruct (pass_spec P _ _ _ _ _ _ Hgi Ep) as (He & Hin & Hr).
  { by exists (inl c), w1. }
  destruct (finished sn) eqn:Ef.
  { destruct (completed_with_tool_failure sn) eqn:Ec; eexists _, _; (split; [reflexivity|]); split_and!; done. }
  destruct (pending_prompt sn) as [prompt|].
  - destruct (feedback_or_exit thread_id prompt w1) as [[s|c] w2] eqn:Ea; destruct (feedback_spec P _ _ _ _ Ea) as (He2 & _ & _ & Hs).
    + destruct Hs as [Hlt Hty]. destruct (IH ch nt (Resume s) w2) as (r & w3 & -> & He3 & Hr3).
      * rewrite Hin in Hlt. lia.
      * apply HP. exists s. rewrite <-Hin. done.
      * intros gi' Hg. apply HP. destruct He2 as [[read Hread] _]. rewrite <-Hin, Hread. by apply later_answer_app.
      * exists r, w3. split_and!; [done| |done]. by rewrite He, He2.
    + eexists _, _. split; [reflexivity|]. split; [by rewrite He, He2|]. destruct Hs as [-> | ->]; done.
  - cbn [unsupported_node]. eexists _, _. split; [reflexivity|]. split; [rewrite He; apply extends_out|done].
Qed.

(** What lets a resumed workflow go on: the binding it was started with is the
    current one, or the change is forced and the current binding is valid. *)
Definition binding_agreed (sn : snapshot) : Prop :=
  ∃ persisted, raw_persisted sn ≠ VNone ∧ validate_binding (raw_persisted sn) = Ok persisted ∧ binding_conflicts persisted current = [].
Definition rebind_forced : Prop := force_rebind = true ∧ ∃ b, validate_backend_binding current adapters = Ok b.

Definition prepared (P : graph_input → Prop) (sn : snapshot) (w : world) (r : res (snapshot + Z)) (w' : world) : Prop :=
  extends P w w' ∧ w_in w' = w_in w ∧ w_calls w' = w_calls w ∧
  match r with
  | Ok (inl sn') => (w_graph w' = w_graph w ∧ sn' = sn ∧ binding_agreed sn) ∨
                    (rebind_forced ∧ w_graph w' = aupdate_state current (w_graph w) ∧ aget_state (w_graph w') = Ok sn')
  | Ok (inr c) => c = 2 ∧ w_graph w' = w_graph w
  | Raise _ => w_graph w' = w_graph w ∨ rebind_forced
  end.

Lemma rebind_spec P h sn w r w' b : force_rebind = true → validate_backend_binding current adapters = Ok b →
  rebind aget_state aupdate_state current sn (on_out h w) = (r, w') → prepared P sn w r w'.
Proof.
  intros Hf Hb. unfold rebind. intros E. assert (rebind_forced) as Hrf by (split; [done|by exists b]).
  destruct (String.eqb _ _); cbn in E; destruct (aget_state _) as [sn'|e] eqn:Eg; injection E as <- <-; unfold prepared; cbn;
    (split_and!; [split; [by exists []|exists []; by rewrite app_nil_r]|done|done|]); auto.
Qed.
Lemma prepare_spec P sn w r w' : prepare sn w = (r, w') → prepared P sn w r w'.
Proof.
  assert (∀ h, prepared P sn w (Ok (inr 2)) (on_out h w)) as Hrefuse.
  { intros h. split_and!; [apply extends_out|done..]. }
  assert (∀ e, prepared P sn w (Raise e) w) as Hraise by (intros e; split_and!; auto; reflexivity).
  unfold prepare_resume_binding, refuse.
  assert (raw_persisted sn = VNone ∨ raw_persisted sn ≠ VNone) as [En|En] by (destruct (raw_persisted sn); auto; by right).
  - rewrite En. destruct force_rebind eqn:Ef; cbn [negb].
    + destruct (validate_backend_binding current adapters) as [b|e] eqn:Eb; [by apply (rebind_spec _ _ _ _ _ _ b Ef Eb)|].
      destruct e; intros [= <- <-]; auto.
    + intros [= <- <-]. apply Hrefuse.
  - assert (∀ T (x y : T), match raw_persisted sn with VNone => x | _ => y end = y) as -> by (by destruct (raw_persisted sn)).
    destruct (validate_binding (raw_persisted sn)) as [persisted|e] eqn:Ev.
    2: { destruct e; intros [= <- <-]; auto. }
    cbn zeta. destruct (binding_conflicts persisted current) as [|ch chs] eqn:Ec.
    { intros [= <- <-]. split_and!; [reflexivity|done|done|]. left. split_and!; [done..|]. by exists persisted. }
    destruct force_rebind eqn:Ef; cbn [negb].
    2: { intros [= <- <-]. apply Hrefuse. }
    destruct (validate_backend_binding current adapters) as [b|e] eqn:Eb; [by apply (rebind_spec _ _ _ _ _ _ b Ef Eb)|].
    destruct e; intros [= <- <-]; auto.
Qed.

(** What a command may give to the graph. *)
Definition run_input (task : option string) (resume : bool) (ls : list typed) (gi : graph_input) : Prop :=
  match gi with
  | Start t b h => resume = false ∧ task = Some t ∧ b = current ∧ h = initial_hot_context
  | Message _ => False
  | Continue => resume = true
  | Resume s => typed_answer ls s
  end.
Definition chat_input (ls : list typed) (gi : graph_input) : Prop :=
  match gi with
  | Start t b h => Line t ∈ ls ∧ b = current ∧ h = initial_hot_context
  | Message c => Line c ∈ ls
  | Continue => False
  | Resume s => typed_answer ls s
  end.
Lemma typed_answer_app read ls s : typed_answer ls s → typed_answer (read ++ ls) s.
Proof. intros (p & raw & ? & ?). exists p, raw. split; [set_solver|done]. Qed.
Lemma chat_input_app read ls gi : chat_input ls gi → chat_input (read ++ ls) gi.
Proof. destruct gi; cbn; [set_solver..|apply typed_answer_app|done]. Qed.

(** The last word of a successful run. *)
Definition succeeded (w : world) : Prop :=
  ∃ sn, aget_state (w_graph w) = Ok sn ∧ finished sn = true ∧ completed_with_tool_failure sn = false.
Definition ended (r : option (res Z * world)) (P : res Z → world → Prop) : Prop := ∃ c w', r = Some (c, w') ∧ P c w'.

Lemma run_from_spec (P : graph_input → Prop) nt gi w : P gi → (∀ gi', later_answer (w_in w) gi' → P gi') →
  ended (run_from astream aget_state verbose thread_id base standalone nt gi w)
    (λ c w', extends P w w' ∧ (c = Ok 0 → succeeded w')).
Proof.
  intros Hgi HP. unfold run_from. destruct (passes_spec P (enough w) false nt gi w) as (r & w' & -> & He & Hr); [unfold enough; lia|done..|].
  destruct r as [c|[sn gi']]; eexists _, _; (split; [reflexivity|]); (split; [done|]).
  - intros [= ->]. done.
  - intros _. exists sn. naive_solver.
Qed.

(** A resumption that gives the graph anything was agreed or forced. *)
Definition resumption_allowed (w : world) : Prop :=
  ∃ sn, aget_state (w_graph w) = Ok sn ∧ checkpoint_exists sn = true ∧ (binding_agreed sn ∨ rebind_forced).
Definition unfinished (w : world) : Prop := ∃ sn, aget_state (w_graph w) = Ok sn ∧ finished sn = false.
Definition untouched (w w' : world) : Prop := w_calls w' = w_calls w ∧ w_graph w' = w_graph w.

Lemma run_spec task resume w : ended (run task resume w) (λ c w',
  extends (run_input task resume (w_in w)) w w' ∧ (c = Ok 0 → succeeded w') ∧
  (resume = true → untouched w w' ∨ resumption_allowed w ∧ unfinished w)).
Proof.
  unfold run_graph. destruct (Workflow.build_runtime_config thread_id) as [[cfg nt]|e].
  2: { eexists _, _. split; [done|]. split_and!; [reflexivity|done|by left]. }
  destruct resume.
  2: { destruct task as [t|].
    - destruct (run_from_spec (run_input (Some t) false (w_in w)) nt (Start t current initial_hot_context) w) as (c & w' & -> & He & Hc).
      + done.
      + intros gi (s & -> & Hs). exact Hs.
      + exists c, w'. by split_and!.
    - eexists _, _. split; [done|]. split_and!; [reflexivity|done..]. }
  destruct (aget_state (w_graph w)) as [sn|e] eqn:Eg.
  2: { eexists _, _. split; [done|]. split_and!; [reflexivity|done|by left]. }
  destruct (checkpoint_exists sn) eqn:Ex; cbn [negb].
  2: { eexists _, _. split; [done|]. split_and!; [apply extends_out|done|by left]. }
  destruct (finished sn) eqn:Ef.
  { eexists _, _. split; [done|]. split_and!; [apply extends_out|done|by left]. }
  destruct (prepare sn w) as [r w1] eqn:Ep.
  destruct (prepare_spec (run_input task true (w_in w)) _ _ _ _ Ep) as (He1 & Hin & Hcalls & Hr).
  destruct r as [[sn'|c]|e].
  - assert (resumption_allowed w ∧ unfinished w) as Hall.
    { split; [|by exists sn]. exists sn. split_and!; [done..|]. naive_solver. }
    destruct (pending_prompt sn') as [prompt|].
    + destruct (feedback_or_exit thread_id prompt w1) as [[s|c] w2] eqn:Ea;
        destruct (feedback_spec (run_input task true (w_in w)) _ _ _ _ Ea) as (He2 & _ & _ & Hs).
      * rewrite Hin in Hs. destruct Hs as [_ Hs].
        destruct (run_from_spec (run_input task true (w_in w)) nt (Resume s) w2) as (c & w' & -> & He & Hc).
        -- exact Hs.
        -- intros gi (s' & -> & Hs'). cbn. destruct He2 as [[read Hread] _]. rewrite <-Hin, Hread. by apply typed_answer_app.
        -- exists c, w'. split; [done|]. split_and!; [by (etransitivity; [exact He1|etransitivity; [exact He2|exact He]])|done|intros _; right; exact Hall].
      * eexists _, _. split; [done|]. split_and!; [by (etransitivity; [exact He1|exact He2])| |intros _; right; exact Hall]. destruct Hs as [-> | ->]; done.
    + destruct (run_from_spec (run_input task true (w_in w)) nt Continue
        (on_out (print_info ("Resuming mid-run at node " +:+ next_node_name sn')) w1)) as (c & w' & -> & He & Hc).
      * done.
      * cbn [on_out w_in]. rewrite Hin. intros gi (s & -> & Hs). exact Hs.
      * exists c, w'. split; [done|]. split_and!; [|done|intros _; right; exact Hall]. etransitivity; [exact He1|]. etransitivity; [apply extends_out|exact He].
  - destruct Hr as [-> Hg]. eexists _, _. split; [done|]. split_and!; [done|done|by left].
  - eexists _, _. split; [done|]. split_and!; [done|done|]. intros _. destruct Hr as [Hg|Hf]; [by left|right].
    split; [|by exists sn]. exists sn. auto.
Qed.

Lemma session_log_frame P w : extends P w (session_log aget_state w).
Proof.
  unfold session_log. match goal with |- extends _ _ (match ?x with Ok _ => _ | Raise _ => _ end) => destruct x end;
    [reflexivity|apply extends_out].
Qed.
Lemma skip_spec P ls f w read : w_in w = read ++ ls → extends P w (with_in ls f w).
Proof. intros E. split; [by exists read|]. exists []. by rewrite app_nil_r. Qed.

Lemma turns_spec (P : graph_input → Prop) nt now creator ws fuel : ∀ w, (length (w_in w) < fuel)%nat →
  (∀ gi, chat_input (w_in w) gi → P gi) →
  ended (turns fuel nt now creator ws w) (λ _ w', extends P w w').
Proof.
  induction fuel as [|n IH]; intros w Hf HP; [lia|]. cbn [chat_turns].
  destruct (w_in w) as [|[raw| |] ls] eqn:Ein.
  - eexists _, _. split; [done|apply session_log_frame].
  - assert (extends P w (with_in ls (w_out w) w)) as Hskip by (by apply (skip_spec _ _ _ _ [Line raw])).
    destruct (mem_str _ _).
    { eexists _, _. split; [done|]. etransitivity; [exact Hskip|apply session_log_frame]. }
    destruct (aget_state _) as [sn|e] eqn:Eg; [|by eexists _, _].
    set (gi := if checkpoint_exists sn then _ else _).
    destruct (passes_spec P (enough (with_in ls (w_out w) w)) true nt gi (with_in ls (w_out w) w)) as (r & w2 & -> & He & Hr).
    { unfold enough. lia. }
    { apply HP. unfold gi. destruct (checkpoint_exists sn); cbn; split_and?; auto; by left. }
    { intros gi' (s & -> & Hs). apply HP. cbn in *. by apply (typed_answer_app [Line raw]). }
    assert (extends P w w2) as Hw2 by (etransitivity; [exact Hskip|exact He]).
    destruct r as [c|[sn' gi']]; [by eexists _, _|].
    destruct (upsert_session _ _) as [rows|e]; [|by eexists _, _].
    destruct (IH (mkWorld (w_out w2) (w_in w2) (w_graph w2) (w_calls w2) rows)) as (c & w' & -> & He').
    { pose proof (extends_length _ _ _ He) as Hl. cbn in *. lia. }
    { intros gi'' Hgi''. apply HP. destruct He as [[read Hread] _]. cbn in Hread, Hgi''.
      apply (chat_input_app [Line raw]). rewrite Hread. by apply chat_input_app. }
    exists c, w'. split; [done|]. etransitivity; [exact Hw2|exact He'].
  - eexists _, _. split; [done|]. etransitivity; [by apply (skip_spec _ ls (w_out w) _ [CtrlC])|apply extends_out].
  - eexists _, _. split; [done|]. etransitivity; [by apply (skip_spec _ ls (w_out w) _ [Eof])|apply session_log_frame].
Qed.

Lemma stream_pass_spec (P : graph_input → Prop) nt gi w e w' : P gi →
  stream_pass astream verbose base standalone nt gi w = (e, w') → extends P w w' ∧ w_in w' = w_in w.
Proof.
  intros Hgi. unfold stream_pass. destruct (astream _ _ _) as [[events e0] g]. intros [= <- <-].
  split; [|done]. split; [by exists []|]. exists [gi]. split; [done|by constructor].
Qed.

Lemma chat_resume_spec (P : graph_input → Prop) nt sn w r w' : (∀ gi, chat_input (w_in w) gi → P gi) →
  chat_resume astream verbose thread_id base standalone nt sn w = (r, w') → extends P w w'.
Proof.
  intros HP. unfold chat_resume. destruct (pending_prompt sn) as [prompt|]; [|intros [= <- <-]; reflexivity].
  destruct (feedback_or_exit thread_id prompt w) as [[s|c] w1] eqn:Ea; destruct (feedback_spec P _ _ _ _ Ea) as (He & _ & _ & Hs).
  2: { intros [= <- <-]. done. }
  destruct Hs as [_ Hs]. destruct (stream_pass _ _ _ _ nt (Resume s) w1) as [e w2] eqn:Es.
  destruct (stream_pass_spec P nt (Resume s) w1 e w2) as [He2 _]; [by apply HP|done|].
  assert (extends P w w2) as Hw2 by (etransitivity; [exact He|exact He2]).
  destruct e; cbn [stop_interrupted stop_closed]; intros [= <- <-]; [done|..]; (etransitivity; [exact Hw2|apply extends_out]).
Qed.

Lemma chat_spec resume now creator ws w : ended (chat resume now creator ws w) (λ _ w',
  extends (chat_input (w_in w)) w w' ∧ (resume = true → untouched w w' ∨ resumption_allowed w)).
Proof.
  unfold chat_loop. destruct (Workflow.build_runtime_config thread_id) as [[cfg nt]|e].
  2: { eexists _, _. split; [done|]. split_and!; [reflexivity|by left]. }
  destruct resume.
  2: { destruct (turns_spec (chat_input (w_in w)) nt now creator ws (enough w) w) as (c & w' & -> & He); [unfold enough; lia|done|].
       exists c, w'. by split_and!. }
  destruct (aget_state (w_graph w)) as [sn|e] eqn:Eg.
  2: { eexists _, _. split; [done|]. split_and!; [reflexivity|by left]. }
  destruct (checkpoint_exists sn) eqn:Ex; cbn [negb].
  2: { eexists _, _. split; [done|]. split_and!; [apply extends_out|by left]. }
  destruct (prepare sn w) as [r w1] eqn:Ep.
  destruct (prepare_spec (chat_input (w_in w)) _ _ _ _ Ep) as (He1 & Hin & Hcalls & Hr).
  destruct r as [[sn'|c]|e].
  - assert (resumption_allowed w) as Hall by (exists sn; split_and!; [done..|naive_solver]).
    destruct (chat_resume _ _ _ _ _ nt sn' w1) as [[c|] w2] eqn:Ec.
    + apply (chat_resume_spec (chat_input (w_in w))) in Ec; [|by rewrite Hin].
      eexists _, _. split; [done|]. split; [by (etransitivity; [exact He1|exact Ec])|intros _; right; exact Hall].
    + apply (chat_resume_spec (chat_input (w_in w))) in Ec as He2; [|by rewrite Hin].
      destruct (turns_spec (chat_input (w_in w)) nt now creator ws (enough w2) w2) as (c & w' & -> & He).
      { unfold enough. lia. }
      { intros gi Hgi. destruct He2 as [[read Hread] _]. rewrite <-Hin, Hread. by apply chat_input_app. }
      exists c, w'. split; [done|]. split; [|intros _; right; exact Hall].
      etransitivity; [exact He1|]. etransitivity; [exact He2|exact He].
  - destruct Hr as [-> Hg]. eexists _, _. split; [done|]. split; [done|by left].
  - eexists _, _. split; [done|]. split; [done|]. intros _. destruct Hr as [Hg|Hf]; [by left|right].
    exists sn. auto.
Qed.

(** C19. Every command line ends: whatever the graph does, [agent-os run] and
    the chat come back with an exit code or an exception, because every pass
    after the first has consumed a line that was typed. *)
Theorem command_ends (task : option string) (resume : bool) (now creator : string) (ws : option string) (w : world) :
  (∃ c w', run task resume w = Some (c, w')) ∧ (∃ c w', chat resume now creator ws w = Some (c, w')).
Proof.
  destruct (run_spec task resume w) as (c & w' & -> & _). destruct (chat_spec resume now creator ws w) as (c2 & w2 & -> & _).
  split; by eexists _, _.
Qed.

(** Nothing reaches the graph but what the operator gave: a run starts with
    the task under the current binding, a chat with a typed line, every answer
    to an interrupt is the normalised form of a typed line, and a run goes on
    without input only when it is resumed. *)
Theorem inputs_typed (task : option string) (resume : bool) (now creator : string) (ws : option string) (w : world) (c : res Z) (w' : world) :
  (run task resume w = Some (c, w') →
   ∃ calls, w_calls w' = w_calls w ++ calls ∧ Forall (run_input task resume (w_in w)) calls) ∧
  (chat resume now creator ws w = Some (c, w') →
   ∃ calls, w_calls w' = w_calls w ++ calls ∧ Forall (chat_input (w_in w)) calls).
Proof.
  destruct (run_spec task resume w) as (c1 & w1 & -> & [_ H1] & _). destruct (chat_spec resume now creator ws w) as (c2 & w2 & -> & [_ H2] & _).
  by split; intros [= <- <-].
Qed.

(** C13. A thread is resumed, by a run or by a chat, only under the binding it
    was started with or a valid binding that the operator forced; otherwise the
    graph is given nothing and keeps its state.  A run resumes no finished
    thread. *)
Theorem resume_guarded (task : option string) (now creator : string) (ws : option string) (w : world) (c : res Z) (w' : world) :
  (run task true w = Some (c, w') → untouched w w' ∨ resumption_allowed w ∧ unfinished w) ∧
  (chat true now creator ws w = Some (c, w') → untouched w w' ∨ resumption_allowed w).
Proof.
  destruct (run_spec task true w) as (c1 & w1 & -> & _ & _ & H1). destruct (chat_spec true now creator ws w) as (c2 & w2 & -> & _ & H2).
  by split; intros [= <- <-]; auto.
Qed.

(** Exit code 0 of a run means success: the thread the graph holds then has
    no next node and its tool did not fail. *)
Theorem exit_zero_succeeded (task : option string) (resume : bool) (w w' : world) :
  run task resume w = Some (Ok 0, w') → succeeded w'.
Proof. destruct (run_spec task resume w) as (c1 & w1 & -> & _ & H & _). intros [= -> <-]. by apply H. Qed.
End lemmas.

(** ** A thread that asks once *)
Section example.
Definition demo_binding (executor : string) : BackendBinding :=
  mkBinding (Some "mock") (Some "mock") (Some executor) None "/w".
Definition demo_snapshot (g : nat) : snapshot :=
  match g with
  | 0%nat => mkSnapshot false (VDict []) [] []
  | 1%nat => mkSnapshot true (VDict [("backend_binding", VStr "mock")]) ["human_approval"] [[VStr "Approve the plan?"]]
  | _ => mkSnapshot true (VDict [("tool_result", VDict [("success", VBool true)])]) [] []
  end.
Definition demo_stream (_ : engine) (_ : graph_input) (g : nat) : list pyval * pass_end * nat := ([], Streamed, S g).
Definition demo_validate (raw : pyval) : res BackendBinding :=
  match raw with VStr s => Ok (demo_binding s) | _ => Raise (ValueError "invalid binding") end.
Definition demo_standalone : LocalPolicy := LocalPolicy_init [] "manual" None.
Definition demo_world (ls : list typed) (g : nat) : world (G:=nat) := mkWorld new_formatter ls g [] [].
Definition demo_run (executor : string) (task : option string) (resume : bool) (w : world (G:=nat)) : option (res Z * world (G:=nat)) :=
  run_graph (I:=unit) demo_stream (λ g, Ok (demo_snapshot g)) (λ _ g, g) demo_validate [] false "t1" (demo_binding executor)
    false None demo_standalone None task resume w.
End example.

(** A run that asks twice, and the resumption of its thread under another
    executor. *)
Example demo_run_approved : ∃ f, demo_run "mock" (Some "say hi") false (demo_world [Line "maybe"; Line "y"] 0)
  = Some (Ok 0, mkWorld f [] 2%nat [Start "say hi" (demo_binding "mock") None; Resume "approved"] []).
Proof. eexists. vm_compute. reflexivity. Qed.
Example demo_resume_refused : ∃ f, demo_run "other" None true (demo_world [Line "y"] 1)
  = Some (Ok 2, mkWorld f [Line "y"] 1%nat [] []).
Proof. eexists. vm_compute. reflexivity. Qed.
Example demo_resume_agreed : ∃ f, demo_run "mock" None true (demo_world [Line "y"] 1)
  = Some (Ok 0, mkWorld f [] 2%nat [Resume "approved"] []).
Proof. eexists. vm_compute. reflexivity. Qed.

Lemma inputs_typed_witness : ∃ w', Some (Ok 0, w') = demo_run "mock" (Some "say hi") false (demo_world [Line "maybe"; Line "y"] 0) ∧
  ∃ calls, w_calls w' = [] ++ calls ∧
    Forall (run_input (demo_binding "mock") None (Some "say hi") false [Line "maybe"; Line "y"]) calls.
Proof.
  eexists. split; [vm_compute; reflexivity|].
  refine (proj1 (inputs_typed (I:=unit) demo_stream (λ g, Ok (demo_snapshot g)) (λ _ g, g) demo_validate [] false "t1" (demo_binding "mock")
    false None demo_standalone None (Some "say hi") false EmptyString EmptyString None (demo_world [Line "maybe"; Line "y"] 0) (Ok 0) _) _).
  vm_compute. reflexivity.
Defined.
Lemma exit_zero_succeeded_witness : ∃ w', Some (Ok 0, w') = demo_run "mock" (Some "say hi") false (demo_world [Line "maybe"; Line "y"] 0) ∧
  succeeded (λ g, Ok (demo_snapshot g)) w'.
Proof.
  eexists. split; [vm_compute; reflexivity|].
  refine (exit_zero_succeeded (I:=unit) demo_stream (λ g, Ok (demo_snapshot g)) (λ _ g, g) demo_validate [] false "t1" (demo_binding "mock")
    false None demo_standalone None (Some "say hi") false (demo_world [Line "maybe"; Line "y"] 0) _ _).
  vm_compute. reflexivity.
Defined.
Lemma resume_guarded_witness : ∃ w', Some (Ok 2, w') = demo_run "other" None true (demo_world [Line "y"] 1) ∧
  (untouched (demo_world [Line "y"] 1) w' ∨
   resumption_allowed (I:=unit) (λ g, Ok (demo_snapshot g)) demo_validate [] (demo_binding "other") false (demo_world [Line "y"] 1) ∧
   unfinished (λ g, Ok (demo_snapshot g)) (demo_world [Line "y"] 1)).
Proof.
  eexists. split; [vm_compute; reflexivity|].
  refine (proj1 (resume_guarded (I:=unit) demo_stream (λ g, Ok (demo_snapshot g)) (λ _ g, g) demo_validate [] false "t1" (demo_binding "other")
    false None demo_standalone None None EmptyString EmptyString None (demo_world [Line "y"] 1) (Ok 2) _) _).
  vm_compute. reflexivity.
Defined.

(** With policy plugins the workspace's policy is a composite engine, which is
    not a [LocalPolicy]: the command line then decides by the bare local policy,
    without the plugins and without the rules and the mode of the workspace. *)
Example policy_plugins_dropped (thread_id : string) (b : engine) (ps : list plugin) (standalone : LocalPolicy) :
  stream_policy thread_id (Some (EComposite b ps)) standalone = stream_policy thread_id None standalone.
Proof. reflexivity. Qed.
