(* ===== verification/Cli.v ===== *)
(** * The command line (agent_os/cli/app.py)

    The commands around a workflow: the arguments as the parser's namespace
    gives them, one definition per [_handle_..._command] and per branch of
    [async_main].  A handler returns the exit code and the console; the stores
    it works on are those of their own files, opening them is an argument.
    Instants are printed by [iso], [datetime.isoformat]; a dash stands for the
    em dash of a schedule that never ran. *)
From S2P Require Import CliFormat CliRun Access Sessions Events Net.
From S2P Require CliBackends Backends Workspace Profiles.
From S2P Require Import Observations Strategies Scheduler ScheduleModels Endpoints MemoryIndex.

Definition print (s : string) (f : formatter) : formatter := mkFormatter (stream_open f) (console f ++ [Plain s]).
Definition print_stderr (s : string) (f : formatter) : formatter := mkFormatter (stream_open f) (console f ++ [PlainError s]).
Definition print_json (v : pyval) : formatter → formatter := print (dumps_indent 0 v).
Definition print_each {X} (line : X → string) (xs : list X) (f : formatter) : formatter :=
  foldl (λ f x, print_info (line x) f) f xs.

(** ** Arguments *)
Definition generate_thread_id (user_env : option string) (timestamp hex8 : string) : string :=
  let user := strip (default "user"%string user_env) in
  (if sempty user then "user" else user) +:+ "-" +:+ timestamp +:+ "-" +:+ hex8.

Definition COMMANDS : list string :=
  ["run"; "runs"; "doctor"; "update"; "chat"; "sessions"; "serve"; "brief"; "schedule"; "permissions"; "observations"; "memory"].
Definition is_command (s : string) : bool := mem_str s COMMANDS.
(** [_normalize_argv]: [run] is put in front of arguments without a command,
    after a leading workspace option. *)
Definition normalize_argv (argv : list string) : list string :=
  match argv with
  | [] => ["run"]
  | a :: rest =>
      if is_command a then argv
      else
        match rest with
        | w :: rest' =>
            if String.eqb a "--workspace" then
              if match rest' with c :: _ => is_command c | [] => false end then argv else a :: w :: "run" :: rest'
            else if startswith "--workspace=" a then (if is_command w then argv else a :: "run" :: rest)
            else "run" :: argv
        | [] => if startswith "--workspace=" a then [a; "run"] else "run" :: argv
        end
  end%string.

Definition is_loopback_bind_host (host : string) : bool :=
  let normalized := lower (strip host) in
  String.eqb normalized "localhost" ||
  match ip_address normalized with Some x => is_loopback x | None => false end.

(** ** agent-os schedule *)
Section schedule.
Context `{Cron} (iso : Z → string).

Inductive schedule_args :=
  | ScheduleAdd (a : ScheduleInput) (headers body : option string)     (* the two JSON texts *)
  | ScheduleList (kind : option string) (on : option string) (json_output : bool)
  | ScheduleRemove (sid : string)
  | ScheduleRunOnce (sid : string)
  | ScheduleNone.

Definition VOpt (o : option string) : pyval := from_option VStr VNone o.
(** A decoded row as a dict. *)
Definition schedule_item (sc : schedule * pyval) : pyval :=
  let '(r, payload) := sc in
  VDict [("schedule_id", VStr (schedule_id r)); ("name", VStr (sc_name r)); ("kind", VStr (sc_kind r));
    ("trigger_kind", VStr (Schedules.trigger_kind r)); ("trigger_value", VStr (Schedules.trigger_value r)); ("timezone", VStr (timezone r));
    ("payload", payload); ("enabled", VBool (enabled r)); ("next_run_at", VStr (iso (sc_next_run_at r)));
    ("last_run_at", VOpt (iso <$> last_run_at r)); ("last_status", VOpt (last_status r)); ("last_error", VOpt (last_error r));
    ("created_at", VStr (iso (sc_created_at r))); ("updated_at", VStr (iso (sc_updated_at r)))].
Definition schedule_line (sc : schedule * pyval) : string :=
  let '(r, _) := sc in
  schedule_id r +:+ "  " +:+ sc_name r +:+ "  " +:+ sc_kind r +:+ "  " +:+
  (if String.eqb (Schedules.trigger_kind r) "cron" then "cron=" else "every=") +:+ Schedules.trigger_value r +:+
  "  tz=" +:+ timezone r +:+ "  " +:+ (if enabled r then "enabled" else "disabled") +:+
  "  next=" +:+ stake 19 (iso (sc_next_run_at r)) +:+ "  last=" +:+ default "-"%string (nonempty (last_status r)) +:+
  match nonempty (last_error r) with Some e => " (" +:+ e +:+ ")" | None => EmptyString end.

(** An option that holds a JSON object: [None] when it is absent or empty. *)
Definition json_object (flag : string) (text : option string) : option pydict + string :=
  match nonempty text with
  | None => inl None
  | Some t =>
      match loads t with
      | Some (VDict d) => inl (Some d)
      | Some _ => inr (flag +:+ " must be a JSON object")
      | None => inr ("Invalid JSON for " +:+ flag +:+ ": JSONDecodeError")
      end
  end.
Definition text_items (d : pydict) : option (list (string * string)) :=
  mapM (λ '(k, v), match v with VStr s => Some (k, s) | _ => None end) d.
Definition schedule_input (a : ScheduleInput) (headers body : option pydict) : res ScheduleInput :=
  hs ← (match headers with
        | None => Ok None
        | Some d => match text_items d with Some l => Ok (Some l) | None => Raise (ValueError "headers: Input should be a valid string") end
        end);
  validate (mkInput (in_name a) (in_kind a) (in_cron a) (in_every a) (in_timezone a) (in_task a) (in_workspace a)
              (in_url a) (in_method a) hs body).

Definition schedule_add (uuid : string) (t : Z) (a : ScheduleInput) (headers body : option string) (f : formatter)
    (rows : list schedule) : res (Z * formatter * list schedule) :=
  match json_object "--headers" headers with
  | inr e => Ok (2, print_error e f, rows)
  | inl hs =>
      match json_object "--body" body with
      | inr e => Ok (2, print_error e f, rows)
      | inl b =>
          match schedule_input a hs b with
          | Raise e => Ok (2, print_error (exn_msg e) f, rows)
          | Ok x =>
              match create_schedule uuid t (in_name x) (in_kind x) (ScheduleModels.trigger_kind x)
                      (ScheduleModels.trigger_value x) (in_timezone x) (payload x) true rows with
              | Raise (ValueError m) => Ok (2, print_error m f, rows)
              | Raise e => Raise e
              | Ok (sid, rows') =>
                  sched ← get_schedule sid rows';
                  Ok (0, match sched with
                         | Some (r, _) =>
                             print_info ("  Next run: " +:+ iso (sc_next_run_at r))
                               (print_info ("  Name: " +:+ sc_name r) (print_info ("Created schedule " +:+ sid) f))
                         | None => f
                         end, rows')
              end
          end
      end
  end.

Definition report_dispatch (r : ScheduleDispatchResult) (f : formatter) : formatter :=
  match nonempty (dr_run_id r) with
  | Some run => print_info ("Run " +:+ run +:+ ": " +:+ dr_status r) f
  | None =>
      if String.eqb (dr_kind r) "app_callback" then
        print_info ("Callback " +:+ dr_status r +:+ " (status code: " +:+ default "None"%string (dr_ref r) +:+ ")") f
      else match nonempty (dr_ref r) with Some ref => print_info ("Written: " +:+ ref) f | None => f end
  end.

Definition schedule_not_found (sid : string) : formatter → formatter := print_error ("Schedule " +:+ sid +:+ " not found").
Definition schedule_command (uuid now : string) (t : Z) (w : Scheduler.world) (c : schedule_args) (f : formatter) (s : dstate)
    : res (Z * formatter) * dstate :=
  match c with
  | ScheduleAdd a headers body =>
      match schedule_add uuid t a headers body f (dsched s) with
      | Ok (code, f', rows) => (Ok (code, f'), mkD (drun s) rows)
      | Raise e => (Raise e, s)
      end
  | ScheduleList kind on json_output =>
      (schedules ← list_schedules kind ((λ v, String.eqb v "true") <$> on) (dsched s);
       Ok (0, if json_output then print_json (VList (map schedule_item schedules)) f
              else match schedules with [] => print_info "No schedules found." f | _ => print_each schedule_line schedules f end), s)
  | ScheduleRemove sid =>
      let '(removed, rows) := remove_schedule sid (dsched s) in
      (Ok (if removed then (0, print_info ("Removed schedule " +:+ sid) f) else (2, schedule_not_found sid f)), mkD (drun s) rows)
  | ScheduleRunOnce sid =>
      match get_schedule sid (dsched s) with
      | Raise e => (Raise e, s)
      | Ok None => (Ok (2, schedule_not_found sid f), s)
      | Ok (Some sc) =>
          match dispatch_schedule now t w sc s with
          | (None, s') => (Raise (OtherError "CancelledError"), s')
          | (Some r, s') =>
              (Ok (if String.eqb (dr_status r) "error"
                   then (1, print_error ("Dispatch failed: " +:+ default "None"%string (dr_error r)) f)
                   else (0, report_dispatch r f)), s')
          end
      end
  | ScheduleNone => (Ok (2, print_error "Unknown schedule subcommand. See: agent-os schedule --help" f), s)
  end.
End schedule.

(** ** agent-os permissions *)
Section permissions.
Context {S : Type} `{PermissionRuleStore S}.
Inductive permissions_args := PermissionsList (json_output : bool) | PermissionsRevoke (permission_key : string) | PermissionsNone.

Definition rule_item (r : PermissionRule) : pyval :=
  VDict [("permission_key", VStr (permission_key r)); ("effect", VStr (effect r)); ("tier_at_creation", VStr (tier_at_creation r));
    ("approve_count", VInt (approve_count r)); ("deny_count", VInt (deny_count r)); ("created_at", VInt (created_at r));
    ("updated_at", VInt (updated_at r)); ("workspace_id", VOpt (workspace_id r)); ("taught_by", VOpt (taught_by r))].
Definition rule_line (r : PermissionRule) : string :=
  permission_key r +:+ "  [" +:+ effect r +:+ "]  tier=" +:+ tier_at_creation r +:+ "  approved=" +:+ str_of_Z (approve_count r)
  +:+ "  denied=" +:+ str_of_Z (deny_count r).

Definition revoke_failed (e : exn) : formatter → formatter :=
  match e with
  | ValueError m => print_error ("Invalid permission key: " +:+ m)
  | _ => print_error ("Failed to revoke permission rule: " +:+ exn_msg e)
  end.
Definition permissions_command (c : permissions_args) (opened : res unit) (f : formatter) (s : S) : Z * formatter * S :=
  match opened with
  | Raise e => (2, print_error ("Failed to open permissions store: " +:+ exn_msg e) f, s)
  | Ok _ =>
      match c with
      | PermissionsList json_output =>
          match ps_list s with
          | Raise e => (2, print_error ("Failed to list permissions: " +:+ exn_msg e) f, s)
          | Ok rules =>
              (0, if json_output then print_json (VList (map rule_item rules)) f
                  else match rules with [] => print_info "No learned permission rules found." f | _ => print_each rule_line rules f end, s)
          end
      | PermissionsRevoke key =>
          let perm_key := strip key in
          if sempty perm_key then (2, print_error "Permission key is required to revoke." f, s)
          else
            match ps_get perm_key s with
            | Raise e => (2, revoke_failed e f, s)
            | Ok None => (1, print_error ("Permission rule '" +:+ perm_key +:+ "' not found.") f, s)
            | Ok (Some _) =>
                match ps_delete perm_key s with
                | Raise e => (2, revoke_failed e f, s)
                | Ok (_, s') => (0, print_info ("Revoked permission rule '" +:+ perm_key +:+ "'.") f, s')
                end
            end
      | PermissionsNone => (2, print_error "Unknown permissions subcommand. See: agent-os permissions --help" f, s)
      end
  end.
End permissions.

(** ** agent-os observations *)
Inductive observations_args :=
  | ObservationsList (task_kind : option string) (json_output : bool)
  | ObservationsRecord (observation_id signal : string) (evidence : option string)
  | ObservationsAssignment (run_id : string) (json_output : bool)
  | ObservationsNone.

Definition observation_item (o : observation) : pyval :=
  VDict [("observation_id", VStr (observation_id o)); ("schema_version", VInt (o_schema_version o));
    ("workspace_id", VStr (o_workspace_id o)); ("run_id", VOpt (o_run_id o)); ("thread_id", VOpt (o_thread_id o));
    ("task_kind", VStr (o_task_kind o)); ("task_signature", VOpt (o_task_signature o)); ("approach", VStr (o_approach o));
    ("artifact_refs", VList (artifact_refs o)); ("outcome_signal", VStr (outcome_signal o));
    ("outcome_evidence", VOpt (outcome_evidence o)); ("source", VStr (o_source o)); ("created_at", VStr (o_created_at o));
    ("updated_at", VStr (o_updated_at o))].
Definition observation_line (o : observation) : string :=
  observation_id o +:+ "  [" +:+ outcome_signal o +:+ "]  " +:+ o_task_kind o +:+ "  " +:+ o_approach o.
Definition assignment_items (a : StrategyAssignment) : pydict :=
  [("run_id", VStr (a_run_id a)); ("workspace_id", VStr (a_workspace_id a)); ("task_kind", VStr (a_task_kind a));
   ("strategy_id", VStr (a_strategy_id a)); ("strategy_version", VInt (a_strategy_version a));
   ("selection_reason", VStr (a_selection_reason a)); ("selector_version", VStr (a_selector_version a));
   ("evidence_summary", from_option VDict VNone (a_evidence_summary a)); ("selected_at", VStr (a_selected_at a))].
Definition assignment_line (kv : string * pyval) : res string :=
  let '(key, value) := kv in
  match value with
  | VNone => Ok (key +:+ ": None")
  | _ => if String.eqb key "evidence_summary" then t ← dumps value; Ok (key +:+ ": " +:+ t) else Ok (key +:+ ": " +:+ py_str value)
  end.

Definition observation_missing : formatter → formatter := print_error "Observation not found.".
Definition outcome_failed (e : exn) : formatter → formatter :=
  match e with
  | ValueError m => if decide (e = JSONDecodeError) then print_error ("Failed to record outcome: " +:+ m) else print_error ("Invalid outcome: " +:+ m)
  | _ => print_error ("Failed to record outcome: " +:+ exn_msg e)
  end.
Definition observations_command (c : observations_args) (opened : res unit) (ws now : string) (f : formatter) (st : store)
    : Z * formatter * store :=
  match opened with
  | Raise e => (2, print_error ("Failed to open observations store: " +:+ exn_msg e) f, st)
  | Ok _ =>
      match c with
      | ObservationsList task_kind json_output =>
          match list_observations (Some ws) task_kind 100 st with
          | Raise e => (2, print_error ("Failed to list observations: " +:+ exn_msg e) f, st)
          | Ok os =>
              (0, if json_output then print_json (VList (map observation_item os)) f
                  else match os with [] => print_info "No structured observations found." f | _ => print_each observation_line os f end, st)
          end
      | ObservationsRecord oid signal evidence =>
          match Observations.get oid st with
          | Raise e => (2, outcome_failed e f, st)
          | Ok None => (1, observation_missing f, st)
          | Ok (Some o) =>
              if negb (String.eqb (o_workspace_id o) ws) then (1, observation_missing f, st)
              else
                match record_outcome oid (VStr signal) (VOpt evidence) now st with
                | (Raise e, st') => (2, outcome_failed e f, st')
                | (Ok None, st') => (1, observation_missing f, st')
                | (Ok (Some updated), st') =>
                    (0, print_info ("Recorded " +:+ outcome_signal updated +:+ " outcome for " +:+ observation_id updated +:+ ".") f, st')
                end
          end
      | ObservationsAssignment run_id json_output =>
          match
            a ← get_strategy_assignment run_id st;
            match a with
            | None => Ok None
            | Some a =>
                if negb (String.eqb (a_workspace_id a) ws) then Ok None
                else if json_output then Ok (Some (print_json (VDict (assignment_items a)) f))
                else lines ← res_all (map assignment_line (assignment_items a)); Ok (Some (print_each Datatypes.id lines f))
            end
          with
          | Raise e => (2, print_error ("Failed to get strategy assignment: " +:+ exn_msg e) f, st)
          | Ok None => (1, print_error "Strategy assignment not found." f, st)
          | Ok (Some f') => (0, f', st)
          end
      | ObservationsNone => (2, print_error "Unknown observations subcommand. See: agent-os observations --help" f, st)
      end
  end.

(** ** agent-os runs *)
Inductive runs_args := RunsApprovals (run_id : string) (json_output : bool) | RunsNone.
Definition approval_item (a : approval_row) : pyval :=
  VDict [("run_id", VStr (apr_run_id a)); ("seq", VInt (apr_seq a)); ("decision", VStr (apr_decision a));
    ("actor_id", VStr (apr_actor_id a)); ("actor_kind", VStr (apr_actor_kind a)); ("on_behalf_of", VOpt (apr_on_behalf_of a));
    ("reason", VOpt (apr_reason a)); ("decided_at", VStr (apr_decided_at a))].
Definition approval_line (a : approval_row) : string :=
  "#" +:+ str_of_Z (apr_seq a) +:+ " [" +:+ apr_decision a +:+ "] actor=" +:+ apr_actor_id a +:+ " (" +:+ apr_actor_kind a
  +:+ ") at=" +:+ apr_decided_at a
  +:+ match nonempty (apr_reason a) with Some r => " reason=" +:+ r | None => EmptyString end
  +:+ match nonempty (apr_on_behalf_of a) with Some o => " on_behalf_of=" +:+ o | None => EmptyString end.
Definition runs_command (c : runs_args) (f : formatter) (L : ledger) : Z * formatter :=
  match c with
  | RunsApprovals run_id json_output =>
      if sempty run_id then (2, print_error "Run ID is required." f)
      else
        match get_run run_id L with
        | None => (1, print_error ("Run '" +:+ run_id +:+ "' not found.") f)
        | Some _ =>
            let approvals := list_approvals run_id L in
            (0, if json_output then print_json (VList (map approval_item approvals)) f
                else match approvals with
                     | [] => print_info ("No approval decisions recorded for run '" +:+ run_id +:+ "'.") f
                     | _ => print_each approval_line approvals f
                     end)
        end
  | RunsNone => (2, print_error "Unknown runs subcommand. See: agent-os runs --help" f)
  end.

(** ** agent-os memory *)
(** What the handler asks of a connector: its name, and its index if it has
    one. *)
Record indexer (W : Type) := mkIndexer {
  ix_index : option (list string) → W → res IndexResult * W;
  ix_reindex : W → res IndexResult * W;
  ix_status : W → res pydict }.
Arguments ix_index {_} _. Arguments ix_reindex {_} _. Arguments ix_status {_} _. Arguments mkIndexer {_} _ _ _.
Inductive memory_args := MemoryIndex (refs : list string) (reindex json_output : bool) | MemoryStatus (json_output : bool) | MemoryNone.
Definition memory_failed (json_output : bool) (message : string) (f : formatter) : Z * formatter :=
  (1, if json_output then match dumps (VDict [("error", VStr message)]) with Ok t => print t f | Raise _ => f end
      else print_error message f).
Definition index_item (r : IndexResult) : pyval :=
  VDict [("indexed_count", VInt (indexed_count r)); ("deleted_count", VInt (deleted_count r));
    ("errors", VList (map VStr (ir_errors r))); ("metadata", VDict (ir_metadata r))].
Definition index_report (r : IndexResult) (f : formatter) : formatter :=
  foldl (λ f err, print_warning ("  - " +:+ err) f)
    (print_info ("Memory index complete: " +:+ str_of_Z (indexed_count r) +:+ " indexed, " +:+ str_of_Z (deleted_count r)
                 +:+ " deleted, " +:+ str_of_Z (Z.of_nat (length (ir_errors r))) +:+ " errors.") f) (ir_errors r).
Definition item_leb {X} (a b : string * X) : bool := str_leb a.1 b.1.
(** [memory]: the connector of the workspace, or why it could not be loaded. *)
Definition memory_command {W} (c : memory_args) (memory : res (option (string * option (indexer W)))) (f : formatter) (w : W)
    : Z * formatter * W :=
  let json := match c with MemoryIndex _ _ j | MemoryStatus j => j | MemoryNone => false end in
  match c, memory with
  | MemoryNone, _ => (1, print_error "Missing memory command. Use: agent-os memory [index|status]" f, w)
  | _, Raise e => (memory_failed json ("Failed to load workspace: " +:+ exn_msg e) f, w)
  | _, Ok None => (memory_failed json "No memory connector available." f, w)
  | _, Ok (Some (name, None)) => (memory_failed json ("Memory connector '" +:+ name +:+ "' does not support indexing.") f, w)
  | MemoryIndex refs reindex _, Ok (Some (_, Some ix)) =>
      match (if reindex then ix_reindex ix w else ix_index ix (match refs with [] => None | _ => Some refs end) w) with
      | (Raise e, w') => (memory_failed json ("Indexing failed: " +:+ exn_msg e) f, w')
      | (Ok r, w') =>
          (match ir_errors r with [] => 0 | _ => if 0 <? indexed_count r then 0 else 1 end,
           if json then print_json (index_item r) f else index_report r f, w')
      end
  | MemoryStatus _, Ok (Some (name, Some ix)) =>
      match ix_status ix w with
      | Raise e => (memory_failed json ("Failed to get index status: " +:+ exn_msg e) f, w)
      | Ok d =>
          (0, if json then print_json (VDict d) f
              else print_each (λ '(k, v), "  " +:+ k +:+ ": " +:+ py_str v) (sort_by item_leb d)
                     (print_info ("Memory Connector: " +:+ name) f), w)
      end
  end.

(** ** agent-os sessions *)
Inductive sessions_args :=
  | SessionsList | SessionsInspect (thread_id : string) | SessionsDelete (thread_id : string).
Definition session_line (s : session) : string :=
  "ID: " +:+ se_thread_id s +:+ " | Turns: " +:+ str_of_Z (se_turn_count s) +:+ " | Last: " +:+ stake 16 (se_last_turn_at s)
  +:+ " | " +:+ se_title s.
(** [delete_thread]: the checkpoints of the thread are gone, or the saver
    raises; [typed]: what is answered to the question. *)
Definition sessions_command {W} (delete_thread : string → W → res W) (c : sessions_args) (ls : list typed) (f : formatter)
    (rows : list session) (w : W) : res (Z * formatter) * list session * W :=
  match c with
  | SessionsList => (Ok (0, print_each session_line (list_sessions rows) f), rows, w)
  | SessionsInspect tid =>
      (Ok (match get_session tid rows with
           | None => (1, print_error ("Session " +:+ tid +:+ " not found in index.") f)
           | Some s => (0, print_info ("Turns: " +:+ str_of_Z (se_turn_count s))
                             (print_info ("Title: " +:+ se_title s) (print_info ("Session: " +:+ tid) f)))
           end), rows, w)
  | SessionsDelete tid =>
      match get_session tid rows with
      | None => (Ok (1, print_error ("Session " +:+ tid +:+ " not found.") f), rows, w)
      | Some _ =>
          let f := print_human_prompt ("Are you sure you want to delete session '" +:+ tid
                     +:+ "'? This will permanently delete the checkpoint. (y/N)") f in
          match ls with
          | Line ans :: _ =>
              if mem_str (lower ans) ["y"; "yes"] then
                match delete_thread tid w with
                | Raise e => (Raise e, rows, w)
                | Ok w' => (Ok (0, print_info ("Session " +:+ tid +:+ " deleted.") f), delete_session tid rows, w')
                end
              else (Ok (0, print_info "Deletion cancelled." f), rows, w)
          | CtrlC :: _ => (Raise (OtherError "KeyboardInterrupt"), rows, w)
          | _ => (Raise (OtherError "EOFError"), rows, w)
          end
      end
  end.

(** ** agent-os brief *)
Section environment.
Context {I A C P K St : Type}.
Notation composed := (Workspace.ComposedWorkspace I A C P K St).
(** [compose_workspace(load_workspace(path))] under an environment that it puts
    back (Workspace.v); [load_profiles()], and [resolve_profile] with the default
    registry and the sandbox root. *)
Context (compose : string → CliBackends.environ → res composed) (profiles : res Profiles.ProfileFile)
  (resolve_profile : Profiles.ProfileFile → string → res Profiles.ResolvedProfile).
Notation environ := CliBackends.environ.
Notation set_var := Workspace.set_var.

Definition profile_name (cli_name : option string) (env : environ) (pf : Profiles.ProfileFile) : option string :=
  fst <$> Profiles.select_profile_name cli_name (dget "AGENT_OS_PROFILE" env) (Profiles.default_profile pf).

(** Only the architect of the profile is taken, and any failure is ignored. *)
Definition brief_environment (cli_profile : option string) (env : environ) : environ :=
  match
    pf ← profiles;
    match profile_name cli_profile env pf with
    | None => Ok None
    | Some n => p ← resolve_profile pf n; Ok (nonempty (Profiles.rp_architect p))
    end
  with
  | Ok (Some architect) => dset "LLM_ARCHITECT" architect env
  | _ => env
  end.
(** What [execute_brief] returns: where it was saved, or why not, and the text. *)
Record brief_result := mkBrief { br_saved : bool; br_ref : option string; br_error : option string; br_content : string }.
Definition brief_report (r : brief_result) (f : formatter) : Z * formatter :=
  let f := if br_saved r
           then print ("Morning Brief generated and saved to: " +:+ default "None"%string (br_ref r)) f
           else print_stderr ("Morning Brief was generated but not saved: "
                              +:+ default "brief write was not committed"%string (nonempty (br_error r))) f in
  (if br_saved r then 0 else 1, print (br_content r) f).
Definition brief_command (cli_profile workspace : option string)
    (execute_brief : option composed → environ → res brief_result) (f : formatter) (env : environ)
    : res (Z * formatter) * environ :=
  let env := brief_environment cli_profile env in
  (runtime ← match nonempty workspace with Some w => Some <$> compose w env | None => Ok None end;
   r ← execute_brief runtime env;
   Ok (brief_report r f), env).

(** ** agent-os serve *)
Definition saved (names : list string) (env : environ) : list (string * option string) := map (λ k, (k, dget k env)) names.
Definition SERVE_VARIABLES : list string :=
  ["LLM_ROUTER"; "LLM_ARCHITECT"; "LLM_EXECUTOR"; "AGENT_OS_MEMORY_CONNECTOR"; "AGENT_OS_VAULT_PATH"; "AGENT_OS_WORKSPACE"].
Definition EXECUTION_TOKEN_ENV : string := "AGENT_OS_EXECUTION_TOKEN".
Definition workspace_file (c : composed) : string :=
  abs_str (Workspace.base_path (Workspace.c_workspace c) ++ ["workspace.toml"]).
Definition enter_workspace (c : composed) (env : environ) : environ :=
  dset "AGENT_OS_WORKSPACE" (workspace_file c) (foldl set_var env (Workspace.c_environment c)).

Record serve_args := mkServe { sv_host : string; sv_port : Z; sv_profile : option string; sv_workspace : option string }.
(** [import_error e]: [e] is an ImportError. *)
Definition serve_failed (import_error : exn → bool) (e : exn) (f : formatter) : Z * formatter :=
  if import_error e then (1, print "FastAPI dependencies not installed. Please run: pip install agent-os-langgraph[serve]" f)
  else (2, print ("Workspace error: " +:+ exn_msg e) f).
(** [serve]: what uvicorn does until it stops, and the environment it leaves;
    [uvicorn], [fastapi_app]: importing uvicorn, which is first, and the
    application, which comes after the workspace has changed the environment. *)
Definition serve_command (import_error : exn → bool) (uvicorn fastapi_app : res unit)
    (serve : string → Z → environ → res unit * environ)
    (a : serve_args) (f : formatter) (env : environ) : res (Z * formatter) * environ :=
  let previous_env := saved SERVE_VARIABLES env in
  match (_ ← uvicorn; match nonempty (sv_workspace a) with Some w => Some <$> compose w env | None => Ok None end) with
  | Raise e => (Ok (serve_failed import_error e f), env)
  | Ok runtime =>
      let env := match runtime with Some c => enter_workspace c env | None => env end in
      match fastapi_app with
      | Raise e => (Ok (serve_failed import_error e f), env)
      | Ok _ =>
        let env := match nonempty (sv_profile a), nonempty (sv_workspace a) with
                   | Some p, None => dset "AGENT_OS_PROFILE" p env
                   | _, _ => env
                   end in
        if negb (is_loopback_bind_host (sv_host a)) && negb (truthy (strip (default EmptyString (dget EXECUTION_TOKEN_ENV env)))) then
          (Ok (2, print "Refusing to bind the execution API outside localhost without AGENT_OS_EXECUTION_TOKEN." f), env)
        else
          let '(r, env) := serve (sv_host a) (sv_port a) env in
          (_ ← r; Ok (0, f), foldl set_var env previous_env)
      end
  end.

(** ** agent-os run and agent-os chat *)
Record workflow_args := mkWorkflowArgs {
  wa_chat : bool;
  wa_task : option string;
  wa_resume : bool;
  wa_thread_id : option string;
  wa_verbose : bool;
  wa_sandbox : option string;
  wa_profile : option string;
  wa_workspace : option string;
  wa_force_rebind : bool }.
Definition resume_session (thread_id : string) (workspace : option string) : workflow_args :=
  mkWorkflowArgs true None true (Some thread_id) false None None workspace false.

Definition argument_error (a : workflow_args) : option string :=
  let task := nonempty (wa_task a) in
  match wa_chat a, wa_resume a, task with
  | false, true, Some _ => Some "Do not provide a task when using --resume."
  | false, false, None => Some "Task is required for a new workflow."
  | _, _, _ =>
      match wa_resume a, nonempty (wa_thread_id a) with
      | true, None => Some "--thread-id is required when using --resume."
      | _, _ => if wa_force_rebind a && negb (wa_resume a) then Some "--force-rebind flag requires --resume." else None
      end
  end%string.

(** The workspace, or the profile that is selected. *)
Definition select_runtime (a : workflow_args) (env : environ) : res (option composed * option string * option Profiles.ResolvedProfile) :=
  match nonempty (wa_workspace a) with
  | Some w => c ← compose w env; Ok (Some c, Backends.b_profile_name (Workspace.c_backend_binding c), None)
  | None =>
      pf ← profiles;
      match profile_name (wa_profile a) env pf with
      | None => Ok (None, None, None)
      | Some n => p ← resolve_profile pf n; Ok (None, Some n, Some p)
      end
  end.
Definition selection_error (a : workflow_args) (e : exn) : string :=
  (if opt_truthy (wa_workspace a) then "Workspace error" else "Profile error") +:+ ": " +:+ exn_msg e.

Definition WORKFLOW_VARIABLES : list string :=
  ["LLM_ROUTER"; "LLM_ARCHITECT"; "LLM_EXECUTOR"; "AGENT_OS_SANDBOX"; "AGENT_OS_MEMORY_CONNECTOR"; "AGENT_OS_VAULT_PATH"; "AGENT_OS_WORKSPACE"].
Definition profile_environment (p : Profiles.ResolvedProfile) : list (string * option string) :=
  [("LLM_ROUTER", Profiles.rp_router p); ("LLM_ARCHITECT", Profiles.rp_architect p); ("LLM_EXECUTOR", Profiles.rp_executor p);
   ("AGENT_OS_SANDBOX", Some (Profiles.rp_sandbox p))].
Definition workflow_environment (a : workflow_args) (c : option composed) (p : option Profiles.ResolvedProfile) (env : environ) : environ :=
  let env := match c with Some c => enter_workspace c env | None => env end in
  let env := match p with Some p => foldl set_var env (profile_environment p) | None => env end in
  let env := match nonempty (wa_sandbox a) with Some s => dset "AGENT_OS_SANDBOX" s env | None => env end in
  if dhas "LITELLM_LOCAL_MODEL_COST_MAP" env then env else dset "LITELLM_LOCAL_MODEL_COST_MAP" "True" env.

(** The graph of the process, built with the skills of the workspace; what its
    tools leave in the environment and among the session grants. *)
Context {G W Rl : Type} (astream : option composed → environ → engine → CliRun.graph_input → G → list pyval * pass_end * G)
  (aget_state : G → res CliRun.snapshot) (aupdate_state : Backends.BackendBinding → G → G)
  (validate_binding : pyval → res Backends.BackendBinding)
  (resolve_binding : option string → environ → res Backends.BackendBinding) (build_default_registry : res (Backends.backends (I:=I)))
  (standalone : LocalPolicy) (tools_environ : G → environ → environ) (tools_grants : G → pstate Rl W → pstate Rl W).
Inductive built := GraphBuilt | BuildInterrupted | BuildFailed (e : exn).

Record invocation := mkInvocation { p_env : environ; p_world : CliRun.world (G:=G); p_grants : pstate Rl W }.
Definition say (h : formatter → formatter) (p : invocation) : invocation := mkInvocation (p_env p) (on_out h (p_world p)) (p_grants p).

(** The loop of the command under an environment. *)
Definition execute (default_adapters : Backends.backends (I:=I)) (a : workflow_args) (c : option composed) (thread_id now creator : string) (env : environ)
    (binding : Backends.BackendBinding) (w : CliRun.world (G:=G)) : option (res Z * CliRun.world (G:=G)) :=
  let adapters := match c with Some c => Workspace.c_backend_registry c | None => default_adapters end in
  let base := Workspace.c_policy <$> c in
  let hot_context := Workspace.c_hot_context <$> c in
  if wa_chat a then
    CliRun.chat_loop (astream c env) aget_state aupdate_state validate_binding adapters (wa_verbose a) thread_id binding
      (wa_force_rebind a) base standalone hot_context (wa_resume a) now creator
      ((λ c, abs_str (Workspace.base_path (Workspace.c_workspace c))) <$> c) w
  else
    run_graph (astream c env) aget_state aupdate_state validate_binding adapters (wa_verbose a) thread_id binding
      (wa_force_rebind a) base standalone hot_context (wa_task a) (wa_resume a) w.

Definition initialize_failed (e : exn) (w : CliRun.world (G:=G)) : Z * CliRun.world (G:=G) :=
  (2, on_out (print_error ("Failed to initialize workflow: " +:+ exn_msg e)) w).
(** The body of the [try]: the exit code and what it leaves. *)
Definition initialized (default_adapters : Backends.backends (I:=I)) (a : workflow_args) (c : option composed) (profile : option string) (build : built)
    (thread_id now creator : string) (env : environ) (w : CliRun.world (G:=G)) : option (Z * CliRun.world (G:=G)) :=
  match match c with Some c => Ok (Workspace.c_backend_binding c) | None => resolve_binding profile env end with
  | Raise e => Some (initialize_failed e w)
  | Ok binding =>
      match build with
      | BuildFailed e => Some (initialize_failed e w)
      | BuildInterrupted => Some (stop_interrupted thread_id w)
      | GraphBuilt =>
          match execute default_adapters a c thread_id now creator env binding w with
          | None => None
          | Some (Ok code, w') => Some (code, w')
          | Some (Raise e, w') => Some (initialize_failed e w')
          end
      end
  end.

(** The default registry is built outside every [try]: its exception leaves the
    command. *)
Definition workflow_command (a : workflow_args) (build : built) (generated now creator : string) (p : invocation)
    : option (res Z * invocation) :=
  match argument_error a with
  | Some message => Some (Ok 2, say (print_error message) p)
  | None =>
      let thread_id := default generated (nonempty (wa_thread_id a)) in
      let p := say (print_thread_id thread_id) p in
      match build_default_registry with
      | Raise e => Some (Raise e, p)
      | Ok default_adapters =>
          match select_runtime a (p_env p) with
          | Raise e => Some (Ok 2, say (print_error (selection_error a e)) p)
          | Ok (c, profile, prof) =>
              let previous_env := saved WORKFLOW_VARIABLES (p_env p) in
              let env := workflow_environment a c prof (p_env p) in
              match initialized default_adapters a c profile build thread_id now creator env (p_world p) with
              | None => None
              | Some (code, w) =>
                  Some (Ok code, mkInvocation (foldl set_var (tools_environ (CliRun.w_graph w) env) previous_env) w
                                   (Policy.clear_session thread_id (tools_grants (CliRun.w_graph w) (p_grants p))))
              end
          end
      end
  end.
End environment.

(** ** Arguments get a command *)
Lemma run_is_command : is_command "run" = true.
Proof. reflexivity. Qed.

Lemma normalize_argv_shape (argv : list string) :
  ∃ options c rest, normalize_argv argv = options ++ c :: rest ∧ is_command c = true ∧
    (options = [] ∨ (∃ w, options = ["--workspace"; w]) ∨ ∃ o, options = [o] ∧ startswith "--workspace=" o = true) ∧
    (argv = options ++ c :: rest ∨ c = "run"%string ∧ argv = options ++ rest).
Proof.
  destruct argv as [|a rest]; cbn [normalize_argv]; [exists [], "run"%string, []; split_and!; eauto using run_is_command|].
  destruct (is_command a) eqn:Ea; [exists [], a, rest; split_and!; eauto using run_is_command|].
  destruct rest as [|w rest'].
  - destruct (startswith "--workspace=" a) eqn:Es; [exists [a], "run"%string, []|exists [], "run"%string, [a]]; split_and!; eauto 10 using run_is_command.
  - destruct (String.eqb_spec a "--workspace") as [->|_].
    + destruct rest' as [|c rest']; [exists ["--workspace"%string; w], "run"%string, []; split_and!; eauto 10 using run_is_command|].
      destruct (is_command c) eqn:Ec; [exists ["--workspace"%string; w], c, rest'|exists ["--workspace"%string; w], "run"%string, (c :: rest')]; split_and!; eauto 10 using run_is_command.
    + destruct (startswith "--workspace=" a) eqn:Es; [|exists [], "run"%string, (a :: w :: rest'); split_and!; eauto 10 using run_is_command].
      destruct (is_command w) eqn:Ew; [exists [a], w, rest'|exists [a], "run"%string, (w :: rest')]; split_and!; eauto 10 using run_is_command.
Qed.

(** Normalisation gives every argument list exactly one command in front
    of the subcommand's arguments, at most a workspace option before it: it
    leaves a list that has one as it is and inserts [run] otherwise, so doing
    it twice changes nothing. *)
Theorem normalize_argv_spec (argv : list string) :
  normalize_argv (normalize_argv argv) = normalize_argv argv ∧
  ∃ options c rest, normalize_argv argv = options ++ c :: rest ∧ is_command c = true ∧
    (options = [] ∨ (∃ w, options = ["--workspace"; w]) ∨ ∃ o, options = [o] ∧ startswith "--workspace=" o = true) ∧
    (argv = options ++ c :: rest ∨ c = "run"%string ∧ argv = options ++ rest).
Proof.
  assert (∀ options c rest, is_command c = true →
    (options = [] ∨ (∃ w, options = ["--workspace"; w]) ∨ ∃ o, options = [o] ∧ startswith "--workspace=" o = true) →
    normalize_argv (options ++ c :: rest) = options ++ c :: rest) as Hid.
  { intros options c rest Hc [-> | [[w ->]|(o & -> & Ho)]]; cbn [app normalize_argv].
    - by rewrite Hc.
    - by rewrite Hc.
    - destruct (is_command o) eqn:Eo; [done|]. destruct (String.eqb_spec o "--workspace") as [->|_]; [done|by rewrite Ho, Hc]. }
  pose proof (normalize_argv_shape argv) as H.
  split; [|exact H]. destruct H as (options & c & rest & -> & Hc & Ho & _). by apply Hid.
Qed.

(** ** The commands and the endpoints agree *)
Definition answered {B} (h : http B) : Prop := match h with Body _ => True | HTTPError _ _ => False end.
(** The exit code of a command and the answer of an endpoint: 0 for a body,
    else an error of either. *)
Definition same_outcome {B} (code : Z) (h : http B) : Prop :=
  match h with Body _ => code = 0 | HTTPError status _ => if status =? 404 then code = 1 else code = 2 end.

Lemma revoke_agrees {St : Type} `{PermissionRuleStore St} (key : string) (opened : res unit) (f : formatter) (s : St) :
  sempty (strip key) = false →
  let '(code, _, s') := permissions_command (PermissionsRevoke key) opened f s in
  let '(h, s'') := revoke_permission (strip key) opened s in
  s' = s'' ∧ same_outcome code h.
Proof.
  intros Hk. unfold permissions_command, revoke_permission. destruct opened as [[]|e]; cbn [mbind res_bind].
  - rewrite Hk. destruct (ps_get _ _) as [[r|]|e].
    + destruct (ps_delete _ _) as [[b s']|e]; [done|]. by destruct e.
    + done.
    + by destruct e.
  - split; [done|]. cbn. by destruct e.
Qed.
Lemma outcome_agrees (oid signal : string) (evidence : option string) (opened : res unit) (ws now : string) (f : formatter) (st : store) :
  let '(code, _, st') := observations_command (ObservationsRecord oid signal evidence) opened ws now f st in
  let '(h, st'') := record_observation_outcome_endpoint opened ws oid signal evidence now st in
  st' = st'' ∧ same_outcome code h.
Proof.
  assert (∀ (B : Type) e, same_outcome 2 (outcome_error (A:=B) e)) as He.
  { intros B e. unfold outcome_error. by destruct e; [destruct (decide _)|..]. }
  unfold observations_command, record_observation_outcome_endpoint, VOpt. destruct opened as [[]|e]; cbn [mbind res_bind]; [|done].
  destruct (Observations.get oid st) as [[o|]|e]; [|done|by split; [|apply He]].
  destruct (negb _); [done|]. destruct (record_outcome _ _ _ _ _) as [[[u|]|e] st']; [done|done|by split; [|apply He]].
Qed.
Lemma approvals_agree (run_id : string) (json_output : bool) (f : formatter) (L : ledger) : run_id ≠ EmptyString →
  same_outcome (runs_command (RunsApprovals run_id json_output) f L).1 (get_run_approvals_endpoint run_id L).
Proof.
  intros Hr. unfold runs_command, get_run_approvals_endpoint. destruct run_id as [|a r]; [done|]. cbn [sempty].
  by destruct (get_run _ _).
Qed.
Lemma schedule_agrees `{Cron} (iso : Z → string) (uuid : string) (t : Z) (a x : ScheduleInput) (headers body : option string)
    (hs b : option pydict) (f : formatter) (rows : list schedule) :
  json_object "--headers" headers = inl hs → json_object "--body" body = inl b → schedule_input a hs b = Ok x →
  match schedule_add iso uuid t a headers body f rows, create_schedule_endpoint uuid t x rows with
  | Ok (code, _, rows'), Ok (h, rows'') =>
      rows' = rows'' ∧ (code = 0 ↔ answered h ∨ h = HTTPError 500 "Failed to retrieve created schedule")
  | Raise e, Raise e' => e = e'
  | _, _ => False
  end.
Proof.
  intros Hh Hb Hx. unfold schedule_add, create_schedule_endpoint. rewrite Hh, Hb, Hx.
  destruct (create_schedule _ _ _ _ _ _ _ _ _ _) as [[sid rows']|e]; cbn [mbind res_bind].
  - destruct (get_schedule sid rows') as [[[r v]|]|e]; cbn [mbind res_bind]; [|naive_solver|done].
    split; [done|]. cbn. naive_solver.
  - destruct e; try done. split; [done|]. split; [lia|]. intros [[]|[=]].
Qed.

(** The command line and the private API do the same to the stores: a
    revocation, an outcome and a new schedule leave the rows the endpoint
    leaves, and a command exits with 0 exactly when the endpoint answers with a
    body, with 1 for its 404 and with 2 for its other errors. *)
Theorem commands_agree {St : Type} `{PermissionRuleStore St} `{Cron} (iso : Z → string) (f : formatter) (opened : res unit) (now : string) :
  (∀ (key : string) (s : St), sempty (strip key) = false →
     let '(code, _, s') := permissions_command (PermissionsRevoke key) opened f s in
     let '(h, s'') := revoke_permission (strip key) opened s in s' = s'' ∧ same_outcome code h) ∧
  (∀ (oid signal ws : string) (evidence : option string) (st : store),
     let '(code, _, st') := observations_command (ObservationsRecord oid signal evidence) opened ws now f st in
     let '(h, st'') := record_observation_outcome_endpoint opened ws oid signal evidence now st in st' = st'' ∧ same_outcome code h) ∧
  (∀ (run_id : string) (json_output : bool) (L : ledger), run_id ≠ EmptyString →
     same_outcome (runs_command (RunsApprovals run_id json_output) f L).1 (get_run_approvals_endpoint run_id L)) ∧
  (∀ (uuid : string) (t : Z) (a x : ScheduleInput) (headers body : option string) (hs b : option pydict) (rows : list schedule),
     json_object "--headers" headers = inl hs → json_object "--body" body = inl b → schedule_input a hs b = Ok x →
     match schedule_add iso uuid t a headers body f rows, create_schedule_endpoint uuid t x rows with
     | Ok (code, _, rows'), Ok (h, rows'') =>
         rows' = rows'' ∧ (code = 0 ↔ answered h ∨ h = HTTPError 500 "Failed to retrieve created schedule")
     | Raise e, Raise e' => e = e'
     | _, _ => False
     end).
Proof.
  split_and!.
  - intros. by apply revoke_agrees.
  - intros. apply outcome_agrees.
  - intros. by apply approvals_agree.
  - intros. by eapply schedule_agrees.
Qed.

(** ** A session is deleted after a yes *)
(** Deleting a session takes a typed y or yes: the rows and the checkpoints
    change only then, together, and by exactly that thread. *)
Theorem deletion_confirmed {W : Type} (delete_thread : string → W → res W) (c : sessions_args) (ls : list typed) (f : formatter)
    (rows : list session) (w : W) :
  let '(r, rows', w') := sessions_command delete_thread c ls f rows w in
  (rows' = rows ∧ w' = w) ∨
  ∃ tid ans rest f', c = SessionsDelete tid ∧ ls = Line ans :: rest ∧ (lower ans = "y" ∨ lower ans = "yes")%string ∧
    get_session tid rows ≠ None ∧ delete_thread tid w = Ok w' ∧ rows' = delete_session tid rows ∧ r = Ok (0, f').
Proof.
  destruct c as [|tid|tid]; cbn [sessions_command]; [by left..|].
  destruct (get_session tid rows) as [s|] eqn:Eg; [|by left].
  destruct ls as [|[ans| |] rest]; try by left.
  destruct (mem_str (lower ans) ["y"; "yes"]%string) eqn:Ea; [|by left].
  destruct (delete_thread tid w) as [w'|e] eqn:Ed; [|by left]. right. exists tid, ans, rest. eexists. split_and!; try done.
  all: match goal with |- lower _ = _ ∨ _ => apply mem_str_iff in Ea; set_solver | |- _ ≠ _ => congruence end.
Qed.

Section environment_lemmas.
Context {I A C P K St : Type}.
Notation composed := (Workspace.ComposedWorkspace I A C P K St).
Notation environ := CliBackends.environ.
Context (compose : string → environ → res composed) (profiles : res Profiles.ProfileFile)
  (resolve_profile : Profiles.ProfileFile → string → res Profiles.ResolvedProfile).

Lemma saved_restores (names : list string) (env env' : environ) (k : string) : NoDup (dkeys env') →
  dget k (foldl Workspace.set_var env' (saved names env)) = if decide (k ∈ names) then dget k env else dget k env'.
Proof.
  intros Hn. destruct (Workspace.set_vars_get (λ k, dget k env) k (saved names env) env' Hn) as [-> _].
  { intros kv (k' & -> & _)%list_elem_of_fmap. done. }
  unfold saved. rewrite <-list_fmap_compose. assert (((fst ∘ (λ k0, (k0, dget k0 env))) <$> names) = names) as ->; [|done].
  induction names as [|n ns IH]; [done|]. cbn. by rewrite IH.
Qed.
Lemma enter_workspace_NoDup (c : composed) (env : environ) : NoDup (dkeys env) → NoDup (dkeys (enter_workspace c env)).
Proof. intros Hn. apply dset_NoDup. by apply Workspace.set_vars_NoDup. Qed.
Lemma workflow_environment_NoDup (a : workflow_args) (c : option composed) (p : option Profiles.ResolvedProfile) (env : environ) :
  NoDup (dkeys env) → NoDup (dkeys (workflow_environment a c p env)).
Proof.
  intros Hn. unfold workflow_environment. destruct c, p, (nonempty (wa_sandbox a)); cbn zeta; destruct (dhas _ _);
    repeat first [exact Hn | apply enter_workspace_NoDup | apply Workspace.set_vars_NoDup | apply dset_NoDup].
Qed.

(** C29. The execution API is served only on a loopback address or under an
    execution token: the server is never called otherwise, and what it leaves
    in the variables of the configuration is undone when it stops. *)
Theorem serve_guarded (import_error : exn → bool) (uvicorn fastapi_app : res unit)
    (serve serve' : string → Z → environ → res unit * environ) (a : serve_args) (f : formatter) (env : environ) :
  (∀ port env1, is_loopback_bind_host (sv_host a) = true ∨ truthy (strip (default EmptyString (dget EXECUTION_TOKEN_ENV env1))) = true →
     serve (sv_host a) port env1 = serve' (sv_host a) port env1) →
  (∀ port env1, NoDup (dkeys env1) → NoDup (dkeys (serve (sv_host a) port env1).2)) → NoDup (dkeys env) →
  serve_command compose import_error uvicorn fastapi_app serve a f env = serve_command compose import_error uvicorn fastapi_app serve' a f env ∧
  (∀ f', (serve_command compose import_error uvicorn fastapi_app serve a f env).1 = Ok (0, f') →
     ∀ k, k ∈ SERVE_VARIABLES → dget k (serve_command compose import_error uvicorn fastapi_app serve a f env).2 = dget k env).
Proof.
  intros Hs Hnd Hn.
  assert (∀ e f', Ok (serve_failed import_error e f) ≠ Ok (0, f')) as Hfail.
  { intros e f'. unfold serve_failed. destruct (import_error e); discriminate. }
  unfold serve_command. destruct uvicorn as [[]|e]; cbn [mbind res_bind]; [|split; [done|intros f' H; by apply Hfail in H]].
  destruct (match nonempty (sv_workspace a) with Some w => _ | None => _ end) as [runtime|e];
    [|split; [done|intros f' H; by apply Hfail in H]].
  destruct fastapi_app as [[]|e]; [|split; [done|intros f' H; by apply Hfail in H]].
  cbn zeta. set (env1 := match nonempty (sv_profile a), nonempty (sv_workspace a) with Some p, None => _ | _, _ => _ end).
  assert (NoDup (dkeys env1)) as Hn1.
  { assert (NoDup (dkeys (match runtime with Some c => enter_workspace c env | None => env end))) as H0
      by (destruct runtime; [by apply enter_workspace_NoDup|done]).
    unfold env1. destruct (nonempty (sv_profile a)), (nonempty (sv_workspace a)); try done. by apply dset_NoDup. }
  clearbody env1. destruct (_ && _) eqn:Eg; [done|].
  rewrite <-(Hs (sv_port a) env1).
  2: { apply andb_false_iff in Eg as [Eg|Eg]; apply negb_false_iff in Eg; auto. }
  split; [done|]. pose proof (Hnd (sv_port a) env1 Hn1) as Hn2.
  destruct (serve (sv_host a) (sv_port a) env1) as [r env2]. cbn [fst snd] in *. intros f' _ k Hk.
  rewrite saved_restores by done. by rewrite decide_True.
Qed.

Context {G W Rl : Type} (astream : option composed → environ → engine → CliRun.graph_input → G → list pyval * pass_end * G)
  (aget_state : G → res CliRun.snapshot) (aupdate_state : Backends.BackendBinding → G → G)
  (validate_binding : pyval → res Backends.BackendBinding)
  (resolve_binding : option string → environ → res Backends.BackendBinding) (build_default_registry : res (Backends.backends (I:=I)))
  (standalone : LocalPolicy) (tools_environ : G → environ → environ) (tools_grants : G → pstate Rl W → pstate Rl W).
Notation command := (workflow_command compose profiles resolve_profile astream aget_state aupdate_state validate_binding
  resolve_binding build_default_registry standalone tools_environ tools_grants).

Lemma initialized_returns (default_adapters : Backends.backends (I:=I)) (a : workflow_args) c profile build thread_id now creator env w :
  ∃ code w', initialized astream aget_state aupdate_state validate_binding resolve_binding standalone
    default_adapters a c profile build thread_id now creator env w = Some (code, w').
Proof.
  unfold initialized. destruct (match c with Some c => _ | None => _ end) as [binding|e]; [|by eexists _, _].
  destruct build; [|by eexists _, _..]. unfold execute. destruct (wa_chat a).
  - edestruct (chat_spec (G:=G) (I:=I)) as (r & w' & -> & _). destruct r; by eexists _, _.
  - edestruct (run_spec (G:=G) (I:=I)) as (r & w' & -> & _). destruct r; by eexists _, _.
Qed.

(** C16. A workflow on the command line comes back and cleans up after itself,
    in an environment with one entry per name.  An exception escapes only when
    the default registry cannot be built; then, and when the command is refused
    with 2, the environment, the grants, the graph and its calls are as before.
    Otherwise there is an exit code and, whatever the graph and its tools did,
    the variables of the configuration are as before and no grant is left under
    the thread id as it was typed, or generated. *)
Theorem workflow_cleans_up (a : workflow_args) (build : built) (generated now creator : string) (p : invocation (G:=G) (W:=W) (Rl:=Rl)) :
  NoDup (dkeys (p_env p)) → (∀ g env, NoDup (dkeys env) → NoDup (dkeys (tools_environ g env))) →
  ∃ r p', command a build generated now creator p = Some (r, p') ∧
    (((∃ e, build_default_registry = Raise e ∧ r = Raise e) ∨ r = Ok 2) ∧ p_env p' = p_env p ∧ p_grants p' = p_grants p ∧
       CliRun.w_graph (p_world p') = CliRun.w_graph (p_world p) ∧ w_calls (p_world p') = w_calls (p_world p) ∨
     (∃ code, r = Ok code) ∧ (∀ k, k ∈ WORKFLOW_VARIABLES → dget k (p_env p') = dget k (p_env p)) ∧
       ∀ k, session_granted (Some (default generated (nonempty (wa_thread_id a)))) k (p_grants p') = false).
Proof.
  intros Hn Ht. unfold workflow_command. destruct (argument_error a) as [m|].
  { eexists _, _. split; [done|]. left. split_and!; [by right|done..]. }
  cbn zeta. destruct build_default_registry as [default_adapters|e].
  2: { eexists _, _. split; [done|]. left. split_and!; [left; by exists e|done..]. }
  destruct (select_runtime _ _ _ a _) as [[[c profile] prof]|e].
  2: { eexists _, _. split; [done|]. left. split_and!; [by right|done..]. }
  edestruct (initialized_returns default_adapters a c profile build) as (code & w' & ->).
  eexists _, _. split; [done|]. right. cbn [p_env p_grants say]. split_and!; [by exists code| |].
  - intros k Hk. rewrite saved_restores; [by rewrite decide_True|]. apply Ht. by apply workflow_environment_NoDup.
  - intros k. unfold session_granted, Policy.clear_session. cbn [session_approved]. rewrite lookup_delete_eq. done.
Qed.
End environment_lemmas.

(** ** Witnesses *)
Definition demo_profiles : Profiles.ProfileFile := Profiles.mkProfileFile None [].
Definition no_profile (pf : Profiles.ProfileFile) (name : string) : res Profiles.ResolvedProfile := Raise (ValueError "not found").
Definition no_compose (w : string) (env : CliBackends.environ) : res (Workspace.ComposedWorkspace Z Z Z Z Z Z) := Raise (ValueError "no workspace").
Definition demo_env : CliBackends.environ := [("AGENT_OS_SANDBOX", "/w")]%string.
Definition demo_hi : workflow_args := mkWorkflowArgs false (Some "say hi"%string) false (Some "t1"%string) false (Some "/tmp/s"%string) None None false.
Definition demo_invocation (ls : list typed) : invocation (G:=nat) (W:=unit) (Rl:=unit) :=
  mkInvocation demo_env (CliRun.demo_world ls 0) (mkP {["t1" := {["memory_write:write:*"]}]} None tt).
Definition demo_command :=
  workflow_command no_compose (Ok demo_profiles) no_profile (λ _ _, CliRun.demo_stream) (λ g, Ok (CliRun.demo_snapshot g)) (λ _ g, g)
    CliRun.demo_validate (λ _ _, Ok (CliRun.demo_binding "mock")) (Ok []) CliRun.demo_standalone (λ _ env, dset "LLM_ROUTER" "left" env) (λ _ st, st)
    demo_hi GraphBuilt "gen" "now" "me" (demo_invocation [Line "y"]).

Example demo_command_runs : fst <$> demo_command = Some (Ok 0) ∧ (p_env ∘ snd) <$> demo_command = Some (demo_env ++ [("LITELLM_LOCAL_MODEL_COST_MAP", "True")]%string).
Proof. vm_compute. done. Qed.

Lemma workflow_cleans_up_witness : ∃ r p', demo_command = Some (r, p') ∧
  (((∃ e, Ok (A:=Backends.backends (I:=Z)) [] = Raise e ∧ r = Raise e) ∨ r = Ok 2) ∧
     p_env p' = demo_env ∧ p_grants p' = p_grants (demo_invocation [Line "y"]) ∧
     CliRun.w_graph (p_world p') = 0%nat ∧ w_calls (p_world p') = [] ∨
   (∃ code, r = Ok code) ∧ (∀ k, k ∈ WORKFLOW_VARIABLES → dget k (p_env p') = dget k demo_env) ∧
     ∀ k, session_granted (Some "t1"%string) k (p_grants p') = false).
Proof.
  refine (workflow_cleans_up no_compose (Ok demo_profiles) no_profile (λ _ _, CliRun.demo_stream) (λ g, Ok (CliRun.demo_snapshot g)) (λ _ g, g)
    CliRun.demo_validate (λ _ _, Ok (CliRun.demo_binding "mock")) (Ok []) CliRun.demo_standalone (λ _ env, dset "LLM_ROUTER" "left" env) (λ _ st, st)
    demo_hi GraphBuilt "gen" "now" "me" (demo_invocation [Line "y"]) _ _).
  - apply (bool_decide_unpack _). vm_compute. exact Logic.I.
  - intros g env. apply dset_NoDup.
Defined.

Definition demo_server (host : string) (port : Z) (env : CliBackends.environ) : res unit * CliBackends.environ := (Ok tt, dset "LLM_ROUTER" "left" env).
Lemma serve_guarded_witness :
  serve_command no_compose (λ _, true) (Ok tt) (Ok tt) demo_server (mkServe "0.0.0.0" 4680 None None) new_formatter demo_env
  = serve_command no_compose (λ _, true) (Ok tt) (Ok tt) (λ _ _ env, (Raise (OtherError "never called"), env)) (mkServe "0.0.0.0" 4680 None None) new_formatter demo_env ∧
  ∀ k, k ∈ SERVE_VARIABLES →
    dget k (serve_command no_compose (λ _, true) (Ok tt) (Ok tt) demo_server (mkServe "::1" 4680 None None) new_formatter demo_env).2 = dget k demo_env.
Proof.
  assert (NoDup (dkeys demo_env)) as Hn by (apply (bool_decide_unpack _); vm_compute; exact Logic.I).
  assert (is_loopback_bind_host "0.0.0.0" = false) as Hl by (vm_compute; reflexivity).
  split.
  - vm_compute. reflexivity.
  - refine (proj2 (serve_guarded no_compose (λ _, true) (Ok tt) (Ok tt) demo_server demo_server (mkServe "::1" 4680 None None) new_formatter demo_env _ _ _) new_formatter _).
    + reflexivity.
    + intros port env. apply dset_NoDup.
    + exact Hn.
    + vm_compute. reflexivity.
Defined.

Lemma commands_agree_witness :
  (let '(code, _, s') := permissions_command (PermissionsRevoke (" " +:+ permission_key demo_rule)) (Ok tt) new_formatter demo_rules in
   code = 0 ∧ s' = []) ∧
  (let '(code, _, s') := permissions_command (PermissionsRevoke (" " +:+ permission_key demo_rule)) (Ok tt) new_formatter demo_rules in
   let '(h, s'') := revoke_permission (strip (" " +:+ permission_key demo_rule)) (Ok tt) demo_rules in s' = s'' ∧ same_outcome code h).
Proof.
  split; [vm_compute; split; reflexivity|].
  refine (proj1 (commands_agree (St:=Sqlite.t) (H0:=minutely) (λ _, EmptyString) new_formatter (Ok tt) EmptyString) (" " +:+ permission_key demo_rule) demo_rules _).
  vm_compute. reflexivity.
Defined.

(** A refused bind leaves the profile in the environment, and so does a server
    that stopped: AGENT_OS_PROFILE is not among the variables put back. *)
Example serve_profile_stays :
  dget "AGENT_OS_PROFILE" (serve_command no_compose (λ _, true) (Ok tt) (Ok tt) demo_server (mkServe "0.0.0.0" 4680 (Some "dev"%string) None) new_formatter demo_env).2
    = Some "dev"%string ∧
  dget "AGENT_OS_PROFILE" (serve_command no_compose (λ _, true) (Ok tt) (Ok tt) demo_server (mkServe "::1" 4680 (Some "dev"%string) None) new_formatter demo_env).2
    = Some "dev"%string.
Proof. vm_compute. done. Qed.
(** The session of the policy is the stripped thread id, the one that is
    cleared is the typed one. *)
Example padded_thread_keeps_grants : 
  session_key (stream_policy "t1" None CliRun.demo_standalone) = Some "t1"%string ∧
  Workflow.build_runtime_config " t1" = Ok (Workflow.DEFAULT_RECURSION_LIMIT, "t1"%string) ∧
  session_granted (Some "t1"%string) "memory_write:write:*"
    (Policy.clear_session (St:=unit) (W:=unit) " t1" (p_grants (demo_invocation []))) = true.
Proof. vm_compute. done. Qed.
