(* ===== verification/Unicode.v ===== *)
(** * Unicode texts

    Texts of the public channel, which speaks Vietnamese: a text is the list of
    its code points.  White space, line ends and the folding of ASCII letters
    are given; the tables of the Unicode database (case, letters, digits) are
    the class [UnicodeData], whose laws fix them on ASCII and on the few other
    letters the patterns need.  [u] reads a literal
    of the source, which is UTF-8.  The matcher is that of PyRe.v on code
    points. *)
From S2P Require Export Table.

Definition text := list Z.

(** ** Literals *)
Definition continuation (c : ascii) : Z := code c - 128.
Fixpoint utf8 (s : string) : text :=
  match s with
  | EmptyString => []
  | String a s1 =>
      if code a <? 128 then code a :: utf8 s1
      else
        match s1 with
        | EmptyString => []
        | String b s2 =>
            if code a <? 224 then ((code a - 192) * 64 + continuation b) :: utf8 s2
            else
              match s2 with
              | EmptyString => []
              | String c s3 =>
                  if code a <? 240 then ((code a - 224) * 4096 + continuation b * 64 + continuation c) :: utf8 s3
                  else
                    match s3 with
                    | EmptyString => []
                    | String d s4 =>
                        ((code a - 240) * 262144 + continuation b * 4096 + continuation c * 64 + continuation d) :: utf8 s4
                    end
              end
        end
  end.
Notation u := utf8 (only parsing).
(** A Latin-1 text of the other files. *)
Fixpoint of_latin1 (s : string) : text :=
  match s with EmptyString => [] | String c s' => code c :: of_latin1 s' end.

(** ** Characters *)
Definition newline_ : Z := 10.
Definition uspace (c : Z) : bool :=
  ((9 <=? c) && (c <=? 13)) || ((28 <=? c) && (c <=? 32)) || (c =? 133) || (c =? 160) || (c =? 5760)
  || ((8192 <=? c) && (c <=? 8202)) || (c =? 8232) || (c =? 8233) || (c =? 8239) || (c =? 8287) || (c =? 12288).
Definition line_end (c : Z) : bool :=
  ((10 <=? c) && (c <=? 13)) || ((28 <=? c) && (c <=? 30)) || (c =? 133) || (c =? 8232) || (c =? 8233).
Definition ascii_lower (c : Z) : Z := if (65 <=? c) && (c <=? 90) then c + 32 else c.
Definition ascii_digit (c : Z) : bool := (48 <=? c) && (c <=? 57).
Definition ascii_letter (c : Z) : bool := ((65 <=? c) && (c <=? 90)) || ((97 <=? c) && (c <=? 122)).

(** The Unicode database: [str.lower], the simple lower case of the matcher,
    [str.isalnum] and the value of a decimal digit. *)
Class UnicodeData := {
  str_lower : text → text;
  tolower : Z → Z;
  isalnum : Z → bool;
  decimal : Z → option Z }.
Definition isdecimal `{UnicodeData} (c : Z) : bool := match decimal c with Some _ => true | None => false end.
(** The dotless i, the long s, u with a horn, o with circumflex and dot below. *)
Definition OTHER_LETTERS : list Z := [305; 383; 432; 7897].
Class UnicodeLaws `{UnicodeData} : Prop := {
  tolower_ascii c : 0 ≤ c < 128 → tolower c = ascii_lower c;
  isalnum_ascii c : 0 ≤ c < 128 → isalnum c = ascii_letter c || ascii_digit c;
  isalnum_lower c : isalnum (tolower c) = isalnum c;
  isalnum_others c : c ∈ OTHER_LETTERS → isalnum c = true;
  decimal_ascii c : 0 ≤ c < 128 → decimal c = if ascii_digit c then Some (c - 48) else None }.
(** Only ASCII and the letters above are letters, and only ASCII has cases. *)
Definition few_letters (c : Z) : bool := ascii_letter c || ascii_digit c || existsb (Z.eqb c) OTHER_LETTERS.
#[export] Instance ascii_data : UnicodeData := {|
  str_lower := map ascii_lower; tolower := ascii_lower; isalnum := few_letters;
  decimal c := if ascii_digit c then Some (c - 48) else None |}.
#[export] Instance ascii_laws : UnicodeLaws (H:=ascii_data).
Proof.
  split; cbn [tolower isalnum decimal ascii_data]; unfold few_letters, OTHER_LETTERS; cbn [existsb].
  - done.
  - intros c Hc. rewrite !(proj2 (Z.eqb_neq c _)) by lia. by rewrite !orb_false_r.
  - intros c. apply eq_true_iff_eq. unfold ascii_lower.
    destruct ((65 <=? c) && (c <=? 90)) eqn:E; [|done]. unfold ascii_letter, ascii_digit. lia.
  - intros c Hc. apply orb_true_iff. right. apply list_elem_of_In in Hc. cbn [In] in Hc. lia.
  - done.
Qed.

(** ** Texts *)
Fixpoint drop_while (p : Z → bool) (t : text) : text :=
  match t with [] => [] | c :: t' => if p c then drop_while p t' else t end.
(** [t.strip()] *)
Definition ustrip (t : text) : text := rev (drop_while uspace (rev (drop_while uspace t))).
Fixpoint is_prefix (p t : text) : bool :=
  match p, t with
  | [], _ => true
  | a :: p', b :: t' => (a =? b) && is_prefix p' t'
  | _ :: _, [] => false
  end.
(** [sub in t] *)
Fixpoint ucontains (sub t : text) : bool :=
  is_prefix sub t || match t with [] => false | _ :: t' => ucontains sub t' end.
(** [sep.join(ts)] *)
Fixpoint ujoin (sep : text) (ts : list text) : text :=
  match ts with [] => [] | [t] => t | t :: ts' => t ++ sep ++ ujoin sep ts' end.
Definition uempty (t : text) : bool := match t with [] => true | _ => false end.
Definition unonempty (t : option text) : option text := match t with Some t => if uempty t then None else Some t | None => None end.
(** [t.splitlines()] *)
Fixpoint ulines (t : text) : text * option (list text) :=
  match t with
  | [] => ([], None)
  | c :: t' =>
      let finish t'' := match ulines t'' with (w, None) => match w with [] => [] | _ => [w] end | (w, Some ls) => w :: ls end in
      if line_end c then
        ([], Some (match t' with
                   | d :: t'' => if (c =? 13) && (d =? 10) then finish t'' else finish t'
                   | [] => []
                   end))
      else let '(w, o) := ulines t' in (c :: w, o)
  end.
Definition usplitlines (t : text) : list text :=
  match ulines t with
  | ([], None) => []
  | (w, None) => [w]
  | (w, Some ls) => w :: ls
  end.

Definition utake_last (n : nat) (t : text) : text := drop (length t - n) t.

(** [int(t)]: blanks around, a sign, digits with single underscores between
    them, at most 4300. *)
Section int.
Context `{UnicodeData}.
Fixpoint uint_digits (after_digit : bool) (acc : Z) (n : nat) (t : text) : option (Z * nat) :=
  match t with
  | [] => if after_digit then Some (acc, n) else None
  | c :: t' =>
      match decimal c with
      | Some d => uint_digits true (acc * 10 + d) (S n) t'
      | None => if (c =? 95) && after_digit then uint_digits false acc n t' else None
      end
  end.
Definition uint (t : text) : option Z :=
  let '(sign, digits) := match ustrip t with
                         | 45 :: t' => (-1, t')
                         | 43 :: t' => (1, t')
                         | t' => (1, t')
                         end in
  match uint_digits false 0 0 digits with
  | Some (z, n) => if (n <=? 4300)%nat then Some (sign * z) else None
  | None => None
  end.
End int.

(** ** JSON of texts *)
Inductive ujson := UNull | UText (t : text) | UArray (l : list ujson) | UObject (d : list (string * ujson)).
Definition ujson_char (c : Z) : text :=
  if c =? 34 then u "\" ++ [34]
  else if c =? 92 then u "\\"
  else if c =? 8 then u "\b" else if c =? 12 then u "\f" else if c =? 10 then u "\n"
  else if c =? 13 then u "\r" else if c =? 9 then u "\t"
  else if c <? 32 then u "\u00" ++ [48 + c / 16; (if c mod 16 <? 10 then 48 else 87) + c mod 16]
  else [c].
Definition ujson_text (t : text) : text := [34] ++ concat (map ujson_char t) ++ [34].
(** [json.dumps(v, ensure_ascii=False)] *)
Fixpoint udumps (v : ujson) : text :=
  match v with
  | UNull => u "null"
  | UText t => ujson_text t
  | UArray l => u "[" ++ ujoin (u ", ") (map udumps l) ++ u "]"
  | UObject d => u "{" ++ ujoin (u ", ") (map (λ '(k, x), ujson_text (u k) ++ u ": " ++ udumps x) d) ++ u "}"
  end.

(** ** Regular expressions *)
Inductive ure :=
  | UEps
  | UCls (f : Z → bool)
  | USeq (a b : ure)
  | UAlt (a b : ure)
  | UStar (r : ure)
  | UGrp (n : nat) (r : ure)
  | UBol                       (* ^ with MULTILINE *)
  | UBos                       (* ^ *)
  | UEos                       (* $ *)
  | UWordb.                    (* \b *)
Definition ULit (c : Z) : ure := UCls (Z.eqb c).
Definition UStr (t : text) : ure := foldr (λ c r, USeq (ULit c) r) UEps t.
Definition UPlus (r : ure) : ure := USeq r (UStar r).
Definition UOpt (r : ure) : ure := UAlt r UEps.
Definition USeqs (l : list ure) : ure := foldr USeq UEps l.
(** [x{n,}] *)
Definition UAtLeast (n : nat) (r : ure) : ure := USeqs (replicate n r ++ [UStar r]).
Fixpoint UAlts (r : ure) (l : list ure) : ure := match l with [] => r | r' :: l' => UAlt r (UAlts r' l') end.

Section matcher.
Context `{UnicodeData} {R : Type}.
Definition isword (c : Z) : bool := isalnum c || (c =? 95).
Definition isword_at (o : option Z) : bool := match o with Some c => isword c | None => false end.
(** Two letters under IGNORECASE: the dotless i and the long s fold to i and s
    though their lower case does not. *)
Definition same_letter (c d : Z) : bool :=
  (tolower c =? tolower d) || ((tolower c =? 105) && (d =? 305)) || ((tolower c =? 115) && (d =? 383)).
Definition ULit_i (c : Z) : ure := UCls (same_letter c).
Definition UStr_i (t : text) : ure := foldr (λ c r, USeq (ULit_i c) r) UEps t.
(** [[A-Z]] under IGNORECASE. *)
Definition ULetter_i (d : Z) : bool :=
  ((97 <=? tolower d) && (tolower d <=? 122)) || (d =? 305) || (d =? 383).

Definition ugroups := list (nat * text).
Definition ucont := option Z → text → ugroups → option R.
Fixpoint ustar_loop (body : option Z → text → ugroups → ucont → option R) (k : ucont)
    (n : nat) (prev : option Z) (rest : text) (g : ugroups) : option R :=
  match n with
  | O => k prev rest g
  | S n' =>
      match body prev rest g
              (λ p t g', if Nat.ltb (length t) (length rest) then ustar_loop body k n' p t g' else None) with
      | Some x => Some x
      | None => k prev rest g
      end
  end.
Fixpoint um (r : ure) (prev : option Z) (rest : text) (g : ugroups) (k : ucont) : option R :=
  match r with
  | UEps => k prev rest g
  | UCls f => match rest with c :: rest' => if f c then k (Some c) rest' g else None | [] => None end
  | USeq a b => um a prev rest g (λ p t g', um b p t g' k)
  | UAlt a b => match um a prev rest g k with Some x => Some x | None => um b prev rest g k end
  | UStar a => ustar_loop (um a) k (length rest) prev rest g
  | UGrp n a => um a prev rest g (λ p t g', k p t ((n, take (length rest - length t) rest) :: g'))
  | UBol => match prev with None => k prev rest g | Some c => if c =? 10 then k prev rest g else None end
  | UBos => match prev with None => k prev rest g | Some _ => None end
  | UEos => match rest with
            | [] => k prev rest g
            | [c] => if c =? 10 then k prev rest g else None
            | _ => None
            end
  | UWordb => if xorb (isword_at prev) (isword_at (head rest)) then k prev rest g else None
  end.
End matcher.

Section search.
Context `{UnicodeData}.
(** [re.search]: the matched text and its groups. *)
Fixpoint usearch_from (r : ure) (prev : option Z) (t : text) : option (text * ugroups) :=
  match um r prev t [] (λ _ rest g, Some (take (length t - length rest) t, g)) with
  | Some x => Some x
  | None => match t with [] => None | c :: t' => usearch_from r (Some c) t' end
  end.
Definition usearch (r : ure) (t : text) : option (text * ugroups) := usearch_from r None t.
Definition ufound (r : ure) (t : text) : bool := match usearch r t with Some _ => true | None => false end.

(** ** What a search cannot miss *)
Lemma um_lit_i {R} (l l' post : text) : Forall2 (λ c d, same_letter c d = true) l l' →
  ∀ prev g (k : ucont (R:=R)), um (UStr_i l) prev (l' ++ post) g k = k (if l' is [] then prev else last l') post g.
Proof.
  induction 1 as [|c d l l' Hc Hl IH]; intros prev g k; [done|].
  change (UStr_i (c :: l)) with (USeq (UCls (same_letter c)) (UStr_i l)). cbn [um app]. rewrite Hc, IH. destruct l' as [|e l']; [done|]. by rewrite last_cons_cons.
Qed.
Lemma um_alts {R} (r : ure) (rs : list ure) (q : ure) (prev : option Z) (t : text) (g : ugroups) (k : ucont (R:=R)) : q ∈ r :: rs →
  is_Some (um q prev t g k) → is_Some (um (UAlts r rs) prev t g k).
Proof.
  revert r. induction rs as [|r' rs IH]; intros r Hq Hs; cbn [UAlts um].
  - apply list_elem_of_singleton in Hq as ->. done.
  - destruct (um r prev t g k) as [x|] eqn:E; [done|]. apply elem_of_cons in Hq as [->|Hq]; [by rewrite E in Hs; destruct Hs|].
    by apply IH.
Qed.
(** A match somewhere is found. *)
Lemma usearch_finds (r : ure) (t : text) : ∀ pre prev,
  (∀ k : ucont (R:=text * ugroups), (∀ p rest g, is_Some (k p rest g)) → is_Some (um r (if pre is [] then prev else last pre) t [] k)) →
  is_Some (usearch_from r prev (pre ++ t)).
Proof.
  induction pre as [|c pre IH]; intros prev Hm; cbn [app].
  - assert (is_Some (um r prev t [] (λ _ rest g, Some (take (length t - length rest) t, g)))) as [x Hx] by (by apply Hm).
    destruct t; cbn [usearch_from]; by rewrite Hx.
  - cbn [usearch_from]. destruct (um _ _ _ _ _); [done|]. apply IH. intros k Hk. specialize (Hm k Hk).
    destruct pre as [|d pre]; [done|]. by rewrite last_cons_cons in Hm.
Qed.
End search.
