(* ===== verification/Concierge.v ===== *)
(** * The public concierge (agent_os/public_concierge.py)

    The website channel: the approved profile, the deterministic answers, the
    ledger of leads and the sessions that hide the ids of the harness.  The two
    tables are lists of rows, each function one transaction; instants are
    microseconds, whose ISO texts are ordered alike; the JSON column of a lead
    is kept as its value.  A profile is decoded by pydantic, an argument. *)
From S2P Require Export Unicode.

Definition PUBLIC_CONCIERGE_JSON_ENV : string := "AGENT_OS_PUBLIC_CONCIERGE_JSON".
Definition PUBLIC_CONCIERGE_PATH_ENV : string := "AGENT_OS_PUBLIC_CONCIERGE_PATH".
Definition PUBLIC_CONCIERGE_DB_ENV : string := "AGENT_OS_PUBLIC_CONCIERGE_DB".
Definition PUBLIC_CONCIERGE_SESSION_TTL_ENV : string := "AGENT_OS_PUBLIC_CONCIERGE_SESSION_TTL_SECONDS".

(** ** Data *)
Record PublicLink := mkLink { pl_label : text; pl_url : text; pl_kind : text }.
Record PublicVisitor := mkVisitor {
  pv_name : option text; pv_email : option text; pv_company : option text; pv_contact : option text; pv_need : option text }.
Record PublicConciergeProfile := mkProfile {
  cp_tenant_id : text; cp_assistant_name : text; cp_welcome : text; cp_summary : text;
  cp_services : list text; cp_projects : list text; cp_proof_points : list text; cp_links : list PublicLink;
  cp_suggestions : list text; cp_boundaries : list text }.
Definition default_boundaries : list text :=
  [u "I can only use approved public information."; u "I cannot access private memory, tasks, files, chats, or tools."].
(** The validator of a decoded profile. *)
Definition validate_profile (p : PublicConciergeProfile) : res PublicConciergeProfile :=
  let cleaned := ustrip (cp_tenant_id p) in
  if uempty cleaned then Raise (ValueError "tenant_id is required")
  else Ok (mkProfile cleaned (cp_assistant_name p) (cp_welcome p) (cp_summary p) (cp_services p) (cp_projects p) (cp_proof_points p)
             (cp_links p) (cp_suggestions p) (cp_boundaries p)).

Record PublicChatRequest := mkRequest {
  rq_message : text; rq_visitor_id : option text; rq_session_id : option text; rq_visitor : option PublicVisitor;
  rq_source_url : option text }.
(** The lengths the model accepts. *)
Definition at_most (n : nat) (t : option text) : bool := match t with Some t => (length t <=? n)%nat | None => true end.
Definition valid_request (r : PublicChatRequest) : bool :=
  (1 <=? length (rq_message r))%nat && (length (rq_message r) <=? 2000)%nat && at_most 120 (rq_visitor_id r)
  && at_most 120 (rq_session_id r) && at_most 500 (rq_source_url r).

Record PublicLead := mkLead { le_lead_id : text; le_summary : text }.   (* its status is review_required *)
Record PublicChatResponse := mkResponse {
  rs_tenant_id : text; rs_assistant_name : text; rs_answer : text; rs_suggestions : list text; rs_links : list PublicLink;
  rs_citations : list text; rs_lead : option PublicLead; rs_session_id : option text;
  rs_harness : string; rs_model : option text; rs_fallback : bool }.
Definition handoff_status (r : PublicChatResponse) : string := if rs_lead r then "review_required" else "none".

(** ** Databases *)
Definition default_db_path : option string → string := sibling_db ".public_concierge".
Definition db_path (db_env checkpoint_env : option string) : string :=
  match db_env with
  | Some p => if sempty p then default_db_path checkpoint_env else p
  | None => default_db_path checkpoint_env
  end.

Section concierge.
Context `{UnicodeData}.

(** ** Sessions *)
Record public_session := mkPublicSession {
  ps_session_id : text; ps_tenant_id : text; ps_visitor_id : option text; ps_hermes_session_id : option text;
  ps_created_at : Z; ps_updated_at : Z }.

Definition session_ttl_seconds (env : option text) : Z :=
  match uint (default (u "86400") env) with
  | None => 86400
  | Some value => Z.min 604800 (Z.max 300 value)
  end.
Definition requested_session (r : PublicChatRequest) : option text := unonempty (Some (ustrip (default [] (rq_session_id r)))).
Definition visitor_of (r : PublicChatRequest) : option text := unonempty (Some (ustrip (default [] (rq_visitor_id r)))).
Definition utext_eqb (a b : text) : bool := bool_decide (a = b).
Definition session_row (sid tenant : text) (row : public_session) : bool :=
  utext_eqb (ps_session_id row) sid && utext_eqb (ps_tenant_id row) tenant.

Definition resumable (tenant : text) (ttl now : Z) (r : PublicChatRequest) (rows : list public_session) : option public_session :=
  match requested_session r, visitor_of r with
  | Some requested, Some visitor =>
      match select_one (session_row requested tenant) rows with
      | Some row =>
          if bool_decide (ps_visitor_id row = Some visitor) && (now - ps_updated_at row <=? ttl * 1000000) then Some row else None
      | None => None
      end
  | _, _ => None
  end.
(** The expired rows go first, and are gone even when the insertion fails. *)
Definition resolve_public_session (tenant : text) (ttl_env : option text) (uuid : text) (now : Z) (r : PublicChatRequest)
    (rows : list public_session) : res (text * option text) * list public_session :=
  let ttl := session_ttl_seconds ttl_env in
  let rows := delete_where (λ row, ps_updated_at row <? now - ttl * 1000000) rows in
  match resumable tenant ttl now r rows with
  | Some row => (Ok (ps_session_id row, ps_hermes_session_id row), rows)
  | None =>
      match select_one (λ row, utext_eqb (ps_session_id row) uuid) rows with
      | Some _ => (Raise (IntegrityError "UNIQUE constraint failed: public_concierge_sessions.session_id"), rows)
      | None => (Ok (uuid, None), rows ++ [mkPublicSession uuid tenant (visitor_of r) None now now])
      end
  end.

Definition bind_row (hermes : text) (now : Z) (row : public_session) : public_session :=
  mkPublicSession (ps_session_id row) (ps_tenant_id row) (ps_visitor_id row) (Some hermes) (ps_created_at row) now.
Definition bind_public_hermes_session (tenant sid hermes : text) (now : Z) (rows : list public_session) : list public_session :=
  if uempty (ustrip hermes) then rows
  else update_where (session_row sid tenant) (bind_row (ustrip hermes) now) rows.

(** ** Leads *)
Record lead_row := mkLeadRow {
  ld_lead_id : text; ld_tenant_id : text; ld_visitor_id : option text; ld_message : text; ld_visitor : option PublicVisitor;
  ld_source_url : option text; ld_summary : text; ld_created_at : Z }.
Definition lead_desc (a b : lead_row) : bool := ld_created_at b <=? ld_created_at a.
Definition list_public_leads (lim : Z) (rows : list lead_row) : list lead_row := limit lim (sort_by lead_desc rows).
Definition record_lead (tenant uuid : text) (now : Z) (r : PublicChatRequest) (summary : text) (rows : list lead_row)
    : res PublicLead * list lead_row :=
  match select_one (λ row, utext_eqb (ld_lead_id row) uuid) rows with
  | Some _ => (Raise (IntegrityError "UNIQUE constraint failed: public_concierge_leads.lead_id"), rows)
  | None => (Ok (mkLead uuid summary),
             rows ++ [mkLeadRow uuid tenant (rq_visitor_id r) (rq_message r) (rq_visitor r) (rq_source_url r) summary now])
  end.

(** ** The profile *)
Definition load_public_concierge_profile (getenv : string → option text) (validate_json : text → res PublicConciergeProfile)
    (read_text : text → res text) : res (option PublicConciergeProfile) :=
  let raw := ustrip (default [] (getenv PUBLIC_CONCIERGE_JSON_ENV)) in
  if negb (uempty raw) then p ← validate_json raw; p ← validate_profile p; Ok (Some p)
  else
    let path := ustrip (default [] (getenv PUBLIC_CONCIERGE_PATH_ENV)) in
    if negb (uempty path) then
      payload ← read_text path; p ← validate_json payload; p ← validate_profile p; Ok (Some p)
    else Ok None.

(** ** Language *)
Definition VI_LETTERS : text :=
  u "ăâđêôơưáàảãạấầẩẫậắằẳẵặéèẻẽẹếềểễệíìỉĩịóòỏõọốồổỗộớờởỡợúùủũụứừửữựýỳỷỹỵ".
Definition vi_letter (c : Z) : bool := bool_decide (c ∈ VI_LETTERS).
Definition vi_letter_i (c : Z) : bool := existsb (λ v, same_letter v c) VI_LETTERS.
Definition VI_HINTS : list text :=
  [u "anh"; u "ban"; u "bạn"; u "biet"; u "biết"; u "cần"; u "cho"; u "chao"; u "chào"; u "dich"; u "dịch"; u "giup"; u "giúp";
   u "lien"; u "liên"; u "minh"; u "mình"; u "tieng"; u "tiếng"; u "toi"; u "tôi"].
(** The runs of letters. *)
Definition word_char (c : Z) : bool := ascii_letter c || vi_letter c.
Fixpoint uword_runs (t : text) : text * list text :=
  match t with
  | [] => ([], [])
  | c :: t' =>
      let '(w, ws) := uword_runs t' in
      if word_char c then (c :: w, ws) else ([], if uempty w then ws else w :: ws)
  end.
Definition words (t : text) : list text := let '(w, ws) := uword_runs t in if uempty w then ws else w :: ws.
Definition is_vietnamese (message : text) : bool :=
  let lowered := str_lower message in
  existsb vi_letter_i lowered || existsb (λ w, bool_decide (w ∈ VI_HINTS)) (words lowered).

Definition contains_any (message : text) (needles : list text) : bool :=
  let lowered := str_lower message in existsb (λ needle, ucontains needle lowered) needles.

(** ** Lead summaries *)
Definition email_char (c : Z) : bool := ULetter_i c || ascii_digit c || bool_decide (c ∈ u "._%+-").
Definition host_char (c : Z) : bool := ULetter_i c || ascii_digit c || bool_decide (c ∈ u ".-").
Definition EMAIL_PATTERN : ure :=
  USeqs [UWordb; UPlus (UCls email_char); ULit 64; UPlus (UCls host_char); ULit 46; UAtLeast 2 (UCls ULetter_i); UWordb].
Definition phone_char (c : Z) : bool := isdecimal c || uspace c || bool_decide (c ∈ u "().-").
Definition PHONE_PATTERN : ure := USeqs [UOpt (ULit 43); UCls isdecimal; UAtLeast 7 (UCls phone_char); UCls isdecimal].

Definition opt_blank (t : option text) : bool := match t with Some t => uempty (ustrip t) | None => true end.
Definition or_text (o : option text) (d : text) : text := default d (unonempty o).
Definition lead_summary (r : PublicChatRequest) : option text :=
  match
    match rq_visitor r with
    | Some v =>
        if forallb opt_blank [pv_name v; pv_email v; pv_company v; pv_contact v; pv_need v] then None
        else
          let label := or_text (pv_company v) (or_text (pv_name v) (or_text (pv_email v) (u "Website visitor"))) in
          Some (ustrip (label ++ u ": " ++ or_text (pv_need v) (rq_message r)))
    | None => None
    end
  with
  | Some s => Some s
  | None =>
      match usearch EMAIL_PATTERN (rq_message r), usearch PHONE_PATTERN (rq_message r) with
      | Some (contact, _), _ | None, Some (contact, _) => Some (u "Website visitor left contact: " ++ contact)
      | None, None => None
      end
  end.

Definition nonblank (items : list text) : list text := List.filter (λ t, negb (uempty t)) (map ustrip items).
Definition format_list (items : list text) : text := ujoin (u "; ") (nonblank items).
Definition format_bullets (limit : nat) (items : list text) : text :=
  ujoin [newline_] (map (λ t, u "- " ++ t) (nonblank (take limit items))).
Definition section_of (label : text) (limit : nat) (items : list text) : list text :=
  match items with [] => [] | _ => [label ++ [newline_] ++ format_bullets limit items] end.

(** ** Answers *)
Definition format_job_fit (p : PublicConciergeProfile) (is_vi : bool) : list text :=
  if is_vi then
    [u "Nếu nhìn từ public profile, Simon phù hợp nhất với các vai trò giao giữa growth, GTM, product marketing và commercial execution.";
     ujoin [newline_]
       [u "- Growth / GTM / Commercial Growth: biến insight thị trường thành positioning, acquisition system, launch plan và sales enablement.";
        u "- Product Marketing: nối customer insight, value proposition, messaging và go-to-market.";
        u "- Launch / Brand / F&B marketing: phù hợp khi cần vừa chiến lược vừa execution thực tế.";
        u "- AI-enabled operations / AgentOS workflows: thiết kế workflow chatbot internal/external, memory, task routing và automation có guardrails."]]
    ++ section_of (u "Một vài tín hiệu public:") 4 (cp_proof_points p)
    ++ [u "Nếu bạn đang tuyển, mình nên biết thêm industry, stage, target market và KPI chính để map fit rõ hơn."]
  else
    [u "From Simon's public profile, the strongest fit is for roles that sit between growth, GTM, product marketing, and commercial execution.";
     ujoin [newline_]
       [u "- Growth / GTM / Commercial Growth: turning market insight into positioning, acquisition systems, launches, and sales enablement.";
        u "- Product Marketing: connecting customer insight, value proposition, messaging, and go-to-market.";
        u "- Launch / Brand / F&B marketing: useful when the role needs strategy plus hands-on execution.";
        u "- AI-enabled operations / AgentOS workflows: designing guarded internal or external assistant workflows."]]
    ++ section_of (u "Public signals:") 4 (cp_proof_points p)
    ++ [u "If you're hiring, share the industry, stage, market, and success metric, and I can map the fit more clearly."].

Definition format_about_simon (p : PublicConciergeProfile) (is_vi : bool) : list text :=
  if is_vi then
    [cp_summary p;
     u "Nói ngắn gọn: Simon làm ở vùng growth / GTM / product marketing / commercial growth, và đang thử nghiệm AgentOS-style workflows để biến AI thành operating system thực dụng."]
    ++ section_of (u "Các mảng public có thể hỏi thêm:") 5 (cp_services p)
  else
    [cp_summary p;
     u "In short: Simon works around growth, GTM, product marketing, and commercial growth, with practical AgentOS-style workflows for AI-enabled operating systems."]
    ++ section_of (u "Public areas you can ask about:") 5 (cp_services p).

Definition PRIVATE_WORDS : list text :=
  [u "private"; u "memory"; u "task"; u "telegram"; u "file"; u "vault"; u "secret"; u "token"; u "password";
   u "riêng tư"; u "nội bộ"; u "mật khẩu"; u "bí mật"].
Definition JOB_WORDS : list text :=
  [u "job"; u "jobs"; u "role"; u "roles"; u "position"; u "positions"; u "fit"; u "hiring"; u "career"; u "phù hợp"; u "phu hop";
   u "vị trí"; u "vi tri"; u "công việc"; u "cong viec"; u "nghề"; u "nghe"].
Definition ABOUT_WORDS : list text :=
  [u "simon"; u "who is"; u "about"; u "bio"; u "background"; u "profile"; u "là ai"; u "la ai"; u "hỏi simon"; u "hoi simon";
   u "về simon"; u "ve simon"].
Definition SERVICE_WORDS : list text :=
  [u "service"; u "services"; u "offer"; u "help"; u "hire"; u "dịch vụ"; u "giúp"; u "cần"; u "tuyển"].
Definition WORK_WORDS : list text :=
  [u "project"; u "work"; u "case"; u "portfolio"; u "dự án"; u "du an"; u "kinh nghiệm"].
Definition CONTACT_WORDS : list text :=
  [u "cv"; u "resume"; u "linkedin"; u "email"; u "contact"; u "whatsapp"; u "zalo"; u "liên hệ"; u "lien he"].

(** The parts of the answer, its citations, and whether the links go with it. *)
Definition routed (p : PublicConciergeProfile) (message : text) (is_vi : bool) : list text * list text * list PublicLink :=
  let say (vi en : text) := if is_vi then vi else en in
  if contains_any message PRIVATE_WORDS then
    ([say (u "Mình không thể truy cập memory, task, file, chat hoặc tool nội bộ của SimonOS. Mình chỉ dùng thông tin public đã duyệt.")
        (u "I cannot access private SimonOS memory, tasks, files, chats, or tools. I only use approved public information.")],
     [u "profile.boundaries"; u "profile.summary"], [])
  else if contains_any message JOB_WORDS then
    (format_job_fit p is_vi, [u "profile.summary"; u "profile.services"; u "profile.proof_points"], [])
  else if contains_any message ABOUT_WORDS then
    (format_about_simon p is_vi, [u "profile.summary"; u "profile.services"], [])
  else if contains_any message SERVICE_WORDS then
    (say (u "Mình là Simos - Simon's associate. Mình có thể giúp bạn xem nhanh Simon có phù hợp cho growth, GTM, launch hoặc workflow AI không.")
         (u "Hey, I'm Simos - Simon's associate. I can help you quickly see whether Simon is relevant for growth, GTM, launches, or AI-enabled workflows.")
       :: section_of (say (u "Một vài mảng Simon có thể hỗ trợ:") (u "Useful areas:")) 5 (cp_services p),
     [u "profile.summary"; u "profile.services"], [])
  else if contains_any message WORK_WORDS then
    (say (u "Một vài ví dụ public bạn có thể xem qua:") (u "A few public examples you can skim:")
       :: match cp_projects p with [] => [] | _ => [format_bullets 4 (cp_projects p)] end
       ++ section_of (say (u "Tín hiệu public:") (u "Public signals:")) 4 (cp_proof_points p),
     [u "profile.summary"; u "profile.projects"; u "profile.proof_points"], [])
  else if contains_any message CONTACT_WORDS then
    ([say (u "Bạn có thể liên hệ Simon qua các kênh public bên dưới.") (u "You can reach Simon through the public links below.")],
     [u "profile.links"], cp_links p)
  else
    (if is_vi then
       [u "Chào bạn, mình là Simos - Simon's associate.";
        u "Mình có thể trả lời nhanh bằng tiếng Việt hoặc tiếng Anh về dịch vụ, work examples, CV và cách liên hệ Simon."]
     else
       [cp_welcome p; u "I can answer in English or Vietnamese about services, public work, CVs, and contact paths."],
     [u "profile.welcome"; u "profile.summary"], []).

(** [PublicConcierge.respond] *)
Definition respond (p : PublicConciergeProfile) (uuid : text) (now : Z) (r : PublicChatRequest) (leads : list lead_row)
    : res PublicChatResponse * list lead_row :=
  let message := ustrip (rq_message r) in
  let is_vi := is_vietnamese message in
  let '(parts, citations, links) := routed p message is_vi in
  let response (parts : list text) (lead : option PublicLead) :=
    mkResponse (cp_tenant_id p) (cp_assistant_name p)
      (ujoin [newline_; newline_] (List.filter (λ t, negb (uempty t)) parts))
      (cp_suggestions p) links citations lead None "deterministic" None true in
  match lead_summary r with
  | None => (Ok (response parts None), leads)
  | Some summary =>
      let '(lead, leads') := record_lead (cp_tenant_id p) uuid now r summary leads in
      (lead ← lead;
       Ok (response (parts ++ [if is_vi then u "Mình đã lưu lại để Simon review trước khi follow-up."
                               else u "Got it. I saved this for Simon to review before any follow-up."]) (Some lead)), leads')
  end.
End concierge.
