(* ===== verification/CliUpdate.v ===== *)
(** * agent-os update (agent_os/cli/update.py)

    The update command: the release check is UpdateCheck's, the migrations are
    Migrations'.  The databases are a map from paths, the copies one from paths
    and versions; what copying a database's files gives, and what it leaves
    when it fails, is an argument (Backup.v has the files).  The commands
    that are run are recorded; their exit codes are an argument.  The console
    takes lines with their markup; the check mark is left out. *)
From S2P Require Import Json UpdateCheck Migrations CliFormat.
From S2P Require Runtime Cli.

Definition RUNS_DB_ENV : string := "AGENT_OS_RUNS_DB".
Definition SCHED_DB_ENV : string := "AGENT_OS_SCHED_DB".
Definition PERMISSION_DB_ENV : string := "AGENT_OS_PERMISSIONS_DB".
Definition DEFAULT_PERMISSION_DB : string := "./permissions.db".
Definition OBSERVATION_DB_ENV : string := "AGENT_OS_OBSERVATIONS_DB".
Definition overridden (override : option string) (d : string) : string :=
  match override with Some p => if sempty p then d else p | None => d end.
Definition runs_db_path (getenv : string → option string) : string :=
  overridden (getenv RUNS_DB_ENV) (sibling_db ".runs" (getenv CHECKPOINT_DB_ENV)).
Definition sched_db_path (getenv : string → option string) : string :=
  overridden (getenv SCHED_DB_ENV) (sibling_db ".sched" (getenv CHECKPOINT_DB_ENV)).

(** [exists p]: a file; [container] is the variable CONTAINER. *)
Definition is_docker_environment (exists_ : string → bool) (container : option string) : bool :=
  exists_ "/.dockerenv" || exists_ "/run/.containerenv" || bool_decide (container = Some "docker"%string).

(** ** Backups *)
Section backups.
Context {S : Type} (execute : string → S → res S) (table_info : string → S → list string).
(** The files, by expanded path, and the copies, by path and version. *)
Record disk := mkDisk { files : gmap string (database S); copies : gmap (string * Z) (database S) }.
(** What copying the files of a database gives: a database, which need not be
    the one copied, or an error and what is left at the place of the copy. *)
Inductive copying := Copied (c : database S) | CopyFailed (e : exn) (remains : option (database S)).
(** [copy attempt p db old]: the first attempt is the update's, the second that
    of [run_migrations]; [old] is the copy already there. *)
Context (copy : nat → string → database S → option (database S) → copying) (expanduser : string → string).

(** [backup_database(p)], of a file that exists. *)
Definition backup_error (p : string) (e : exn) : exn :=
  RuntimeError ("Failed to create pre-migration backup for " +:+ p +:+ ": " +:+ exn_msg e).
Definition backup_database (attempt : nat) (p : string) (d : disk) : res bool * disk :=
  match files d !! p with
  | None => (Ok false, d)
  | Some db =>
      let key := (p, user_version db) in
      match copy attempt p db (copies d !! key) with
      | Copied c => (Ok true, mkDisk (files d) (<[key := c]> (copies d)))
      | CopyFailed e remains => (Raise (backup_error p e), mkDisk (files d) (partial_alter (λ _, remains) key (copies d)))
      end
  end.
(** [run_migrations(p, migrations, baseline_version=1)], which backs up again
    when something is pending. *)
Definition migrate_file (p : string) (ms : list (migration S)) (d : disk) : res (list string) * disk :=
  match files d !! p with
  | None => (Ok [], d)
  | Some db =>
      let '(backup, d1) := match pending ms db with [] => (Ok true, d) | _ => backup_database 1 p d end in
      let '(r, db') := run_migrations execute table_info (Some (_ ← backup; Ok tt)) ms 1 db in
      (r, mkDisk (<[p := db']> (files d1)) (copies d1))
  end.

Definition db_configs (getenv : string → option string) : list (string * list (migration S)) :=
  let checkpoint_db := default DEFAULT_CHECKPOINT_DB (getenv CHECKPOINT_DB_ENV) in
  [(runs_db_path getenv, RUNS_MIGRATIONS execute); (sched_db_path getenv, []);
   (default DEFAULT_PERMISSION_DB (getenv PERMISSION_DB_ENV), PERMISSIONS_MIGRATIONS);
   (default Runtime.DEFAULT_OBSERVATION_DB (getenv OBSERVATION_DB_ENV), [])]
  ++ (if String.eqb checkpoint_db ":memory:" then [] else [(checkpoint_db, [])]).

(** One database: its path when it was backed up.  Neither error stops the
    update. *)
Definition prepare_one (db_path_str : string) (ms : list (migration S)) (d : disk) : list string * disk :=
  if String.eqb db_path_str ":memory:" then ([], d)
  else
    let p := expanduser db_path_str in
    match files d !! p with
    | None => ([], d)
    | Some _ =>
        let '(b, d1) := backup_database 0 p d in
        let '(_, d2) := migrate_file p ms d1 in
        (match b with Ok true => [p] | _ => [] end, d2)
    end.
Fixpoint prepare_all (configs : list (string * list (migration S))) (d : disk) : list string * disk :=
  match configs with
  | [] => ([], d)
  | (p, ms) :: rest =>
      let '(l1, d1) := prepare_one p ms d in
      let '(l2, d2) := prepare_all rest d1 in (l1 ++ l2, d2)
  end.
Definition run_pre_update_db_backups (getenv : string → option string) (d : disk) : list string * disk :=
  prepare_all (db_configs getenv) d.
End backups.

(** ** The command *)
Record update_args := mkUpdateArgs { ua_check : bool; ua_yes : bool; ua_pull : bool; ua_reload : bool; ua_force : bool }.
Definition upgrade_cmd (executable : string) : list string :=
  [executable; "-m"; "pip"; "install"; "--upgrade"; "agent-os-langgraph"]%string.
Definition kickstart_cmd (uid : Z) : list string := ["launchctl"; "kickstart"; "-k"; "gui/" +:+ str_of_Z uid +:+ "/com.simon.agentos"]%string.
Definition pull_cmd : list string := ["docker"; "compose"; "pull"]%string.

(** What the command has printed and the commands it has run. *)
Record updating := mkUpdating { up_out : formatter; up_ran : list (list string) }.
Definition say (s : string) (x : updating) : updating := mkUpdating (Cli.print s (up_out x)) (up_ran x).
Fixpoint say_all (l : list string) (x : updating) : updating :=
  match l with [] => x | s :: l' => say_all l' (say s x) end.

Section command.
Context (run : list string → res Z) (in_docker : bool) (executable : string) (uid : Z).
Definition ran (cmd : list string) (x : updating) : res Z * updating := (run cmd, mkUpdating (up_out x) (up_ran x ++ [cmd])).
(** A command whose failure to start is only reported. *)
Definition attempt (cmd : list string) (failed : string) (x : updating) : updating :=
  let '(r, x') := ran cmd x in match r with Ok _ => x' | Raise e => say (failed +:+ exn_msg e) x' end.

Definition check_report (i : UpdateInfo) (x : updating) : updating :=
  if update_available i then
    let x' := say ("[bold green]Update available![/bold green] (" +:+ current_version i +:+ " -> " +:+ latest_version i +:+ ")") x in
    if py_truthy (release_url i) then say ("Release URL: " +:+ py_str (release_url i)) x' else x'
  else say "[green]agent-os is up to date.[/green]" x.

(** Step 2: [inr] is the exit code of a failed upgrade. *)
Definition execute_update (a : update_args) (x : updating) : res (updating + Z * updating) :=
  let x := say (nl +:+ "[bold cyan]2. Update Execution[/bold cyan]") x in
  if in_docker then
    let x := say_all ["[yellow]Detected Docker container runtime.[/yellow]"; "To update your container, run on host:";
                      "  [bold]docker compose pull && docker compose up -d[/bold]" +:+ nl]%string x in
    Ok (inl (if ua_yes a && ua_pull a
             then attempt pull_cmd "[red]Failed to execute docker compose pull: " (say "Executing `docker compose pull`..." x) else x))
  else
    let x := say "[yellow]Detected pip / local Python runtime.[/yellow]" x in
    if ua_yes a then
      let '(r, x) := ran (upgrade_cmd executable) (say ("Running: " +:+ sjoin " " (upgrade_cmd executable)) x) in
      returncode ← r;
      Ok (if negb (returncode =? 0)
          then inr (returncode, say ("[bold red]Upgrade failed with exit code " +:+ str_of_Z returncode +:+ "[/bold red]") x)
          else inl (say "[bold green]Successfully upgraded agent-os-langgraph![/bold green]" x))
    else Ok (inl (say_all ["To upgrade, execute:"; "  [bold]pip install --upgrade agent-os-langgraph[/bold]"; "Or re-run with `--yes`:";
                           "  [bold]agent-os update --yes[/bold]"]%string x)).
Definition reload_service (a : update_args) (x : updating) : updating :=
  let x := say (nl +:+ "[bold cyan]3. Service Reload[/bold cyan]") x in
  if ua_reload a then attempt (kickstart_cmd uid) "[yellow]Daemon reload note: " (say ("Reloading daemon: " +:+ sjoin " " (kickstart_cmd uid)) x)
  else say_all ["If running as a background service, restart with:";
                "  [bold]launchctl kickstart -k gui/" +:+ str_of_Z uid +:+ "/com.simon.agentos[/bold]"; "Or restart the server manually:";
                "  [dim]pkill -f 'agent-os serve' && agent-os serve[/dim]" +:+ nl]%string x.

Definition force_check (a : update_args) : bool := ua_check a || ua_force a.
(** [info]: what [check_for_update(force=force_check)] found; [backups]: step 1
    and what it leaves of the databases. *)
Definition handle_update_command {D} (a : update_args) (info : bool → res UpdateInfo) (backups : D → list string * D)
    (x : updating) (d : D) : res (Z * updating) * D :=
  match info (force_check a) with
  | Raise e => (Raise e, d)
  | Ok i =>
      let x := say_all ["[bold]Current Version:[/bold] " +:+ current_version i; "[bold]Latest Version:[/bold]  " +:+ latest_version i]%string x in
      if ua_check a then (Ok (0, check_report i x), d)
      else if negb (update_available i) && negb (ua_force a) then (Ok (0, say "[green]agent-os is already up to date.[/green]" x), d)
      else
        let '(backed_up, d) := backups d in
        let x := say (nl +:+ "[bold cyan]1. Preparing database backup...[/bold cyan]") x in
        let x := match backed_up with
                 | [] => say "  No active database files needed backup." x
                 | _ => say_all (map (λ db, "  Verified/backed up database: " +:+ db) backed_up) x
                 end in
        (step ← execute_update a x;
         Ok (match step with
             | inr (code, x) => (code, x)
             | inl x => (0, reload_service a x)
             end), d)
  end.
End command.

(** ** Nothing is migrated without a copy *)
Section copies_lemmas.
Context {S : Type} (execute : string → S → res S) (table_info : string → S → list string)
  (copy : nat → string → database S → option (database S) → copying (S:=S)) (expanduser : string → string).
Notation disk := (disk (S:=S)).
Notation backup_database := (backup_database copy).
Notation prepare_one := (prepare_one execute table_info copy expanduser).
Notation prepare_all := (prepare_all execute table_info copy expanduser).

(** Under the version of [db] lies what copying [db] itself gave. *)
Definition has_copy (d : disk) (p : string) (db : database S) : Prop :=
  ∃ attempt old c, copy attempt p db old = Copied c ∧ copies d !! (p, user_version db) = Some c.
Definition copy_fails (p : string) (db : database S) : Prop := ∃ attempt old e remains, copy attempt p db old = CopyFailed e remains.
(** Between two disks the database [p] is as it was, or only its version was
    set, or what it was has been copied. *)
Definition preserved (d d' : disk) (p : string) : Prop :=
  match files d !! p with
  | None => files d' !! p = None
  | Some db => ∃ db', files d' !! p = Some db' ∧
      (db' = db ∨ user_version db = 0 ∧ db' = mkDb 1 (schema db) ∨ has_copy d' p db)
  end.
(** A copy is kept, or another attempt failed and [p] is as it was. *)
Definition kept (d' : disk) (p : string) (db : database S) : Prop :=
  has_copy d' p db ∨ copy_fails p db ∧ files d' !! p = Some db.
(** Outside [p] nothing changes. *)
Definition only (p : string) (d d' : disk) : Prop :=
  ∀ q, q ≠ p → files d' !! q = files d !! q ∧ ∀ v, copies d' !! (q, v) = copies d !! (q, v).

Lemma backup_spec n p (d : disk) b d1 : backup_database n p d = (b, d1) →
  files d1 = files d ∧ only p d d1 ∧
  ∀ db, files d !! p = Some db → b = Ok true ∧ has_copy d1 p db ∨ (∃ e, b = Raise e) ∧ copy_fails p db.
Proof.
  unfold CliUpdate.backup_database. destruct (files d !! p) as [db|] eqn:E; [|by intros [= <- <-]; split_and!].
  destruct (copy n p db (copies d !! (p, user_version db))) as [c|e remains] eqn:Ec; intros [= <- <-]; cbn [files copies]; (split_and!; [done| |]).
  - intros q Hq. split; [done|]. intros v. cbn. by rewrite lookup_insert_ne by congruence.
  - intros db0 [= <-]. left. split; [done|]. exists n, (copies d !! (p, user_version db)), c. split; [done|]. cbn. by rewrite lookup_insert_eq.
  - intros q Hq. split; [done|]. intros v. cbn. by rewrite lookup_partial_alter_ne by congruence.
  - intros db0 [= <-]. right. split; [by eexists|]. by eexists _, _, _, _.
Qed.

Lemma run_failed (backup : res unit) (ms : list (migration S)) db e : pending ms db ≠ [] → backup = Raise e →
  (run_migrations execute table_info (Some backup) ms 1 db).2 = db.
Proof. unfold run_migrations. intros Hp ->. by destruct (pending ms db). Qed.

Lemma migrate_spec p ms (d : disk) r d' : migrate_file execute table_info copy p ms d = (r, d') →
  only p d d' ∧ preserved d d' p ∧ ∀ db, files d !! p = Some db → has_copy d p db → kept d' p db.
Proof.
  unfold migrate_file, preserved. destruct (files d !! p) as [db|] eqn:Ep; [|intros [= <- <-]; split_and!; [done|done|intros; simplify_eq]].
  assert (∀ (d1 : disk) db', only p d d1 → only p d (mkDisk (<[p := db']> (files d1)) (copies d1))) as Hins.
  { intros d1 db' Ho q Hq. destruct (Ho q Hq) as [Hf Hc]. cbn. split; [by rewrite lookup_insert_ne|done]. }
  destruct (decide (pending ms db = [])) as [En|En].
  - unfold run_migrations. rewrite En. intros [= <- <-]. split_and!; [by apply Hins| |by intros db0 [= <-]; left].
    exists (if user_version db =? 0 then mkDb 1 (schema db) else db). cbn [files]. rewrite lookup_insert_eq, andb_true_r. split; [done|].
    destruct (Z.eqb_spec (user_version db) 0); auto.
  - assert (match pending ms db with [] => (Ok true, d) | _ => backup_database 1 p d end = backup_database 1 p d) as -> by (by destruct (pending ms db)).
    destruct (backup_database 1 p d) as [b d1] eqn:Eb. destruct (backup_spec _ _ _ _ _ Eb) as (Hf1 & Ho1 & Hb).
    destruct (run_migrations _ _ _ ms 1 db) as [r0 db'] eqn:Er. intros [= <- <-].
    destruct (Hb db Ep) as [[-> Hc]|[[e ->] Hf]]; (split_and!; [by apply Hins| |]).
    + exists db'. split; [cbn; by rewrite lookup_insert_eq|]. right. by right.
    + intros db0 [= <-] _. by left.
    + exists db'. split; [cbn; by rewrite lookup_insert_eq|]. left.
      pose proof (run_failed (Raise e) ms db e En eq_refl) as Hr. cbn [mbind res_bind] in Er. by rewrite Er in Hr.
    + intros db0 [= <-] _. right. split; [done|]. cbn. rewrite lookup_insert_eq. f_equal.
      pose proof (run_failed (Raise e) ms db e En eq_refl) as Hr. cbn [mbind res_bind] in Er. by rewrite Er in Hr.
Qed.

Lemma only_trans p (d1 d2 d3 : disk) : only p d1 d2 → only p d2 d3 → only p d1 d3.
Proof. intros H1 H2 q Hq. destruct (H2 q Hq) as [-> Hc2], (H1 q Hq) as [-> Hc1]. split; [done|]. intros v. by rewrite Hc2, Hc1. Qed.

Lemma prepare_one_spec s ms (d : disk) l d' : prepare_one s ms d = (l, d') →
  only (expanduser s) d d' ∧ preserved d d' (expanduser s) ∧
  ∀ p, p ∈ l → p = expanduser s ∧ ∃ db, files d !! p = Some db ∧ kept d' p db.
Proof.
  unfold CliUpdate.prepare_one. set (p := expanduser s).
  assert (only p d d ∧ preserved d d p) as [Hrefl Hpres].
  { split; [done|]. unfold preserved. destruct (files d !! p) eqn:E; [|done]. eauto. }
  destruct (String.eqb s ":memory:"); [intros [= <- <-]; split_and!; [done..|]; by intros q ?%not_elem_of_nil|].
  destruct (files d !! p) as [db|] eqn:Ep; [|intros [= <- <-]; split_and!; [done..|]; by intros q ?%not_elem_of_nil].
  destruct (backup_database 0 p d) as [b d1] eqn:Eb. destruct (backup_spec _ _ _ _ _ Eb) as (Hf1 & Ho1 & Hb).
  destruct (migrate_file _ _ _ p ms d1) as [r d2] eqn:Em. destruct (migrate_spec _ _ _ _ _ Em) as (Ho2 & Hp2 & Hc2).
  intros [= <- <-]. split_and!.
  - by eapply only_trans.
  - unfold preserved in *. rewrite Hf1 in Hp2. by rewrite Ep in *.
  - intros q Hq. destruct (Hb db Ep) as [[-> Hc]|[[e ->] _]]; [|by apply not_elem_of_nil in Hq].
    apply list_elem_of_singleton in Hq as ->. split; [done|]. exists db. split; [done|]. apply Hc2; [by rewrite Hf1|done].
Qed.

Lemma kept_frame (d d' : disk) p db : files d' !! p = files d !! p → (∀ v, copies d' !! (p, v) = copies d !! (p, v)) →
  kept d p db → kept d' p db.
Proof. unfold kept, has_copy. intros -> Hc. by rewrite Hc. Qed.
Lemma prepare_all_spec configs : ∀ (d : disk) l d', prepare_all configs d = (l, d') → NoDup (map (λ c, expanduser c.1) configs) →
  (∀ p, p ∉ map (λ c, expanduser c.1) configs → files d' !! p = files d !! p ∧ ∀ v, copies d' !! (p, v) = copies d !! (p, v)) ∧
  (∀ p, preserved d d' p) ∧
  ∀ p, p ∈ l → p ∈ map (λ c, expanduser c.1) configs ∧ ∃ db, files d !! p = Some db ∧ kept d' p db.
Proof.
  induction configs as [|[s ms] configs IH]; intros d l d'; cbn [CliUpdate.prepare_all map].
  { intros [= <- <-] _. split_and!; [done| |by intros p ?%not_elem_of_nil].
    intros p. unfold preserved. destruct (files d !! p); eauto. }
  destruct (prepare_one s ms d) as [l1 d1] eqn:E1. destruct (prepare_one_spec _ _ _ _ _ E1) as (Ho & Hp & Hl).
  destruct (prepare_all configs d1) as [l2 d2] eqn:E2. intros [= <- <-] [Hnin Hnd]%NoDup_cons.
  destruct (IH _ _ _ E2 Hnd) as (IHo & IHp & IHl). cbn [fst] in *.
  split_and!.
  - intros p [Hne Hp2]%not_elem_of_cons. destruct (IHo p Hp2) as [-> Hc], (Ho p Hne) as [-> Hc1]. split; [done|]. intros v. by rewrite Hc, Hc1.
  - intros p. destruct (decide (p = expanduser s)) as [->|Hne].
    + destruct (IHo _ Hnin) as [Hf Hc]. unfold preserved, has_copy in *. rewrite Hf. destruct (files d !! expanduser s) as [db|]; [|done].
      destruct Hp as (db' & ? & ?). exists db'. by rewrite Hc.
    + destruct (Ho p Hne) as [Hf Hc]. pose proof (IHp p) as H. unfold preserved in *. rewrite Hf in H. exact H.
  - intros p [Hin|Hin]%elem_of_app.
    + destruct (Hl p Hin) as (-> & db & Hf & Hk). split; [by left|]. exists db. split; [done|]. destruct (IHo _ Hnin). by eapply kept_frame.
    + destruct (IHl p Hin) as (Hmem & db & Hf & Hk). split; [by right|]. exists db. split; [|done].
      rewrite <-Hf. symmetry. apply Ho. intros ->. done.
Qed.
End copies_lemmas.

(** C27. When the update prepares the databases, each at a path of its own, a
    database changes only after it was copied as it was, and that copy lies under
    the version it had, unless only a missing version is set to 1; one reported as
    backed up has such a copy too, unless the copying that its migration
    repeats failed, and then it is as it was; a database whose copying fails is
    not migrated; no other database is touched.  What copying a database gives
    is an argument: Backup says when it is the database itself. *)
Theorem update_backs_up {S : Type} (execute : string → S → res S) (table_info : string → S → list string)
    (copy : nat → string → database S → option (database S) → copying)
    (expanduser : string → string) (getenv : string → option string) (d d' : disk (S:=S)) (l : list string) :
  NoDup (map (λ c, expanduser c.1) (db_configs execute getenv)) →
  run_pre_update_db_backups execute table_info copy expanduser getenv d = (l, d') →
  (∀ p, match files d !! p with
        | None => files d' !! p = None
        | Some db => ∃ db', files d' !! p = Some db' ∧
            (db' = db ∨ user_version db = 0 ∧ db' = mkDb 1 (schema db) ∨
             ∃ attempt old c, copy attempt p db old = Copied c ∧ copies d' !! (p, user_version db) = Some c)
        end) ∧
  (∀ p, p ∈ l → ∃ db, files d !! p = Some db ∧
     ((∃ attempt old c, copy attempt p db old = Copied c ∧ copies d' !! (p, user_version db) = Some c) ∨
      (∃ attempt old e remains, copy attempt p db old = CopyFailed e remains) ∧ files d' !! p = Some db)) ∧
  ∀ p, p ∉ map (λ c, expanduser c.1) (db_configs execute getenv) → files d' !! p = files d !! p.
Proof.
  intros Hnd Hr. destruct (prepare_all_spec _ _ _ _ _ _ _ _ Hr Hnd) as (Ho & Hp & Hl). split_and!; [exact Hp| |].
  - intros p Hin. by destruct (Hl p Hin) as [_ H].
  - intros p Hp'. by destruct (Ho p Hp').
Qed.

(** The update command runs what it was asked to and nothing else: a check,
    or a version that is current, runs no command and touches no database;
    otherwise the databases are prepared first, a new version is installed only
    with yes, an image pulled only with yes and pull, and the service restarted
    only with reload, after an installation that did not fail. *)
Theorem update_does_as_asked {D : Type} (run : list string → res Z) (in_docker : bool) (executable : string) (uid : Z) (a : update_args)
    (info : bool → res UpdateInfo) (backups : D → list string * D) (x x' : updating) (d d' : D) (code : Z) :
  handle_update_command run in_docker executable uid a info backups x d = (Ok (code, x'), d') →
  ∃ i, info (force_check a) = Ok i ∧
  if ua_check a || negb (update_available i) && negb (ua_force a) then code = 0 ∧ up_ran x' = up_ran x ∧ d' = d
  else d' = (backups d).2 ∧
    let installed := if in_docker then (if ua_yes a && ua_pull a then [pull_cmd] else []) else if ua_yes a then [upgrade_cmd executable] else [] in
    let failed := negb in_docker && ua_yes a && negb (code =? 0) in
    up_ran x' = up_ran x ++ installed ++ (if ua_reload a && negb failed then [kickstart_cmd uid] else []) ∧
    (negb in_docker && ua_yes a = true → run (upgrade_cmd executable) = Ok code) ∧ (negb in_docker && ua_yes a = false → code = 0).
Proof.
  assert (∀ l y, up_ran (say_all l y) = up_ran y) as Hsay by (induction l as [|s l IH]; intros y; [done|]; cbn; by rewrite IH).
  assert (∀ cmd m y, up_ran (attempt run cmd m y) = up_ran y ++ [cmd]) as Hatt by (intros; unfold attempt, ran; by destruct (run _)).
  assert (∀ y, up_ran (reload_service run uid a y) = up_ran y ++ (if ua_reload a then [kickstart_cmd uid] else [])) as Hrel.
  { intros y. unfold reload_service. destruct (ua_reload a); [by rewrite Hatt|]. by rewrite ?Hsay, app_nil_r. }
  unfold handle_update_command. destruct (info (force_check a)) as [i|e]; [|done]. intros H. exists i. split; [done|]. cbn zeta in H.
  destruct (ua_check a); cbn [orb].
  { injection H as <- <- <-. unfold check_report. destruct (update_available i); [destruct (py_truthy _)|]; cbn [up_ran say]; by rewrite ?Hsay. }
  destruct (negb (update_available i) && negb (ua_force a)); [injection H as <- <- <-; cbn [up_ran say]; by rewrite ?Hsay|].
  destruct (backups d) as [backed_up d1].
  match type of H with context [execute_update _ _ _ _ ?y] => set (z := y) in H end.
  assert (up_ran z = up_ran x) as Hz.
  { unfold z. destruct backed_up; [by cbn [up_ran say]; rewrite ?Hsay|]. rewrite ?Hsay. cbn [up_ran say]. by rewrite ?Hsay. }
  clearbody z. unfold execute_update in H. destruct in_docker; cbn [negb andb] in *.
  - cbn [mbind res_bind] in H. injection H as <- <- <-. rewrite Hrel, andb_true_r.
    split_and!; [done| |done|done]. destruct (ua_yes a && ua_pull a).
    + rewrite Hatt. cbn [up_ran say]. rewrite ?Hsay. cbn [up_ran say]. by rewrite Hz, <-app_assoc.
    + rewrite ?Hsay. cbn [up_ran say]. by rewrite Hz.
  - destruct (ua_yes a); cbn [andb] in *.
    + unfold ran in H. destruct (run (upgrade_cmd executable)) as [rc|e]; cbn [mbind res_bind] in H; [|done].
      destruct (rc =? 0) eqn:Erc; cbn [negb mbind res_bind] in H; injection H as <- <- <-.
      * apply Z.eqb_eq in Erc as ->. rewrite Hrel. cbn. rewrite Hz, andb_true_r, <-app_assoc. by split_and!.
      * cbn. rewrite Hz, Erc. cbn. rewrite ?andb_false_r. by split_and!.
    + cbn [mbind res_bind] in H. injection H as <- <- <-. rewrite Hrel, ?Hsay. cbn [up_ran say]. rewrite Hz, andb_true_r. by split_and!.
Qed.

(** ** Witnesses *)
Definition demo_disk : disk (S:=list string) := mkDisk {[ "./checkpoints.runs.db"%string := mkDb 1 [] ]} ∅.
(** Copying that always succeeds and gives the database. *)
Definition exact_copy (_ : nat) (_ : string) (db : database (list string)) (_ : option (database (list string))) : copying := Copied db.
Definition prepared_demo := run_pre_update_db_backups log_execute log_columns exact_copy id (λ _, None) demo_disk.
(** The runs database is at version 1: it is copied, then migrated. *)
Lemma update_backs_up_witness :
  prepared_demo.1 = ["./checkpoints.runs.db"%string] ∧
  (files prepared_demo.2 !! "./checkpoints.runs.db"%string ≠ Some (mkDb 1 [])) ∧
  copies prepared_demo.2 !! ("./checkpoints.runs.db"%string, 1) = Some (mkDb 1 []).
Proof.
  destruct (update_backs_up log_execute log_columns exact_copy id (λ _, None) demo_disk prepared_demo.2 prepared_demo.1
    ltac:(apply (bool_decide_unpack _); vm_compute; exact Logic.I) ltac:(apply surjective_pairing)) as (_ & Hl & _).
  split; [vm_compute; reflexivity|]. split; [vm_compute; discriminate|].
  destruct (Hl "./checkpoints.runs.db"%string ltac:(by left)) as (db & Hdb & Hk). injection Hdb as <-.
  destruct Hk as [(n & old & c & [= <-] & H)|[(n & old & e & remains & [=]) _]]. exact H.
Defined.
Definition demo_info (available : bool) (_ : bool) : res UpdateInfo := Ok (mkInfo "2.0.0" "2.1.0" available VNone VNone VNone VNone).
Definition demo_update (a : update_args) :=
  handle_update_command (λ _, Ok 0) false "python" 501 a (demo_info true) (λ n : nat, ([], S n)) (mkUpdating new_formatter []) 0%nat.
Lemma update_does_as_asked_witness : ∃ x',
  demo_update (mkUpdateArgs false true true true false) = (Ok (0, x'), 1%nat) ∧ up_ran x' = [upgrade_cmd "python"; kickstart_cmd 501].
Proof.
  eexists. split; [vm_compute; reflexivity|].
  destruct (update_does_as_asked (λ _, Ok 0) false "python" 501 (mkUpdateArgs false true true true false) (demo_info true) (λ n : nat, ([], S n))
    (mkUpdating new_formatter []) (match (demo_update (mkUpdateArgs false true true true false)).1 with Ok (_, x) => x | Raise _ => mkUpdating new_formatter [] end)
    0%nat 1%nat 0 ltac:(vm_compute; reflexivity)) as (i & Hi & H).
  injection Hi as <-. cbn in H. exact (proj1 (proj2 H)).
Defined.

(** A database that could not be copied is reported as none needing a copy. *)
Example failed_backup_not_reported :
  (run_pre_update_db_backups log_execute log_columns (λ _ _ _ old, CopyFailed (OtherError "OSError") old) id (λ _, None) demo_disk).1 = [].
Proof. vm_compute. reflexivity. Qed.
(** What a copy misses is lost: a copying that leaves something out, as Backup's
    does when the checkpoint is blocked, is followed by the migration. *)
Example partial_copy_migrates :
  let d := mkDisk {[ "./checkpoints.runs.db"%string := mkDb 1 ["frames of the log"%string] ]} ∅ in
  let '(l, d') := run_pre_update_db_backups log_execute log_columns (λ _ _ db _, Copied (mkDb (user_version db) [])) id (λ _, None) d in
  l = ["./checkpoints.runs.db"%string] ∧ files d' !! "./checkpoints.runs.db"%string ≠ files d !! "./checkpoints.runs.db"%string ∧
  copies d' !! ("./checkpoints.runs.db"%string, 1) = Some (mkDb 1 []).
Proof. vm_compute. split_and!; [reflexivity|discriminate|reflexivity]. Qed.
