(* ===== verification/Doctor.v ===== *)
(** * agent-os doctor (agent_os/cli/doctor.py)

    The health report: the adapters with what their authentication check says,
    the selected profile, the configuration it gives, the checkpoint database
    and the warnings.  The binding normalises its sandbox
    (Backends.normalize_sandbox_root).  The lookup of binaries, the checks and the file system's
    answers about the database are arguments. *)
From S2P Require Import Float Backends Profiles.

Record adapter_info := mkAdapterInfo {
  ai_name : string; ai_binary_name : string; ai_supported_roles : list string; ai_binary_path : option string;
  ai_auth : AuthStatus; ai_stub : bool }.
(** What the system says of the checkpoint database and of its directory;
    [readable]: opening it. *)
Record checkpoint_file := mkCheckpointFile {
  ck_path : string; ck_parent : string; ck_exists : bool; ck_writable : bool; ck_parent_writable : bool; ck_readable : res unit }.
Record resolved_config := mkResolvedConfig {
  rc_router : option string; rc_architect : option string; rc_executor : option string; rc_sandbox : string }.

Section doctor.
Context {I : Type} (which : string → option string) (authentication_status : BackendAdapter I → AuthStatus).

(** A binary that is missing is not asked; a stub always is. *)
Definition inspect (a : BackendAdapter I) : adapter_info :=
  let info path auth := mkAdapterInfo (ad_name a) (ad_binary_name a) (sort_by str_leb (ad_supported_roles a)) path auth (ad_stub a) in
  if ad_stub a then info None (authentication_status a)
  else match which (ad_binary_name a) with
       | None => info None (mkAuth "unknown" ("Binary '" +:+ ad_binary_name a +:+ "' not found on PATH."))
       | Some p => info (Some p) (authentication_status a)
       end.
(** [registry.items()] *)
Definition adapters_info (adapters : backends (I:=I)) : list adapter_info :=
  omap (λ n, inspect <$> dget n adapters) (names adapters).

(** The name and source of the profile, the profile, and what went wrong.  The
    name is kept when the profile does not resolve. *)
Definition diagnose_profile (profiles : res ProfileFile) (resolve : ProfileFile → string → res ResolvedProfile) (env_profile : option string)
    : option (string * string) * option ResolvedProfile * list string :=
  match profiles with
  | Raise e => (None, None, ["Profile error: " +:+ exn_msg e])
  | Ok pf =>
      match select_profile_name None env_profile (default_profile pf) with
      | None => (None, None, [])
      | Some (n, source) =>
          match resolve pf n with
          | Ok p => (Some (n, source), Some p, [])
          | Raise e => (Some (n, source), None, ["Profile error: " +:+ exn_msg e])
          end
      end
  end.
Definition configuration (p : option ResolvedProfile) (getenv : string → option string) (sandbox : string) : resolved_config :=
  match p with
  | None => mkResolvedConfig (getenv "LLM_ROUTER") (getenv "LLM_ARCHITECT") (getenv "LLM_EXECUTOR") sandbox
  | Some p => mkResolvedConfig (rp_router p) (rp_architect p) (rp_executor p) (rp_sandbox p)
  end.

(** Each check gives its warnings and whether it fails the report. *)
Definition checked := (list string * bool)%type.
Definition checkpoint_writable (c : checkpoint_file) : bool := if ck_exists c then ck_writable c else ck_parent_writable c.
Definition check_checkpoint (c : checkpoint_file) : checked :=
  ((if ck_exists c then match ck_readable c with Ok _ => [] | Raise e => ["Checkpoint DB is not readable: " +:+ exn_msg e] end
    else if ck_parent_writable c then [] else ["Checkpoint DB parent directory is not writable: " +:+ ck_parent c])
   ++ (if checkpoint_writable c then [] else ["Checkpoint DB is not writable."]), negb (checkpoint_writable c)).

Definition find_adapter (n : string) (infos : list adapter_info) : option adapter_info :=
  List.find (λ a, String.eqb (ai_name a) n) infos.
(** The name of a CLI backend. *)
Definition cli_name (backend : option string) : option string :=
  match backend with Some b => if startswith "cli/" b then Some (sdrop 4 b) else None | None => None end.
Definition role_check (infos : list adapter_info) (role : string) (backend : option string) : checked :=
  match cli_name backend with
  | None => ([], false)
  | Some n =>
      let configured what := "Configured " +:+ role +:+ " backend '" +:+ what in
      let backend_str := default EmptyString backend in
      match find_adapter n infos with
      | None => ([configured backend_str +:+ "' is not registered."], true)
      | Some a =>
          if ai_stub a then ([configured n +:+ "' is a not-yet-supported stub; workflows will fail on invocation."], false)
          else
            let supported := mem_str role (ai_supported_roles a) in
            let present := bool_decide (is_Some (ai_binary_path a)) in
            let auth := auth_status (ai_auth a) in
            ((if supported then [] else [configured backend_str +:+ "' does not support role '" +:+ role +:+ "'."])
             ++ (if present then [] else [configured backend_str +:+ "' binary is missing."])
             ++ (if String.eqb auth "unauthenticated" then [configured backend_str +:+ "' is unauthenticated."]
                 else if String.eqb auth "unknown" then [configured backend_str +:+ "' auth status is unknown."] else []),
             negb supported || negb present || String.eqb auth "unauthenticated")
      end
  end.
Definition router_check (infos : list adapter_info) (router : option string) : checked :=
  match cli_name router with
  | Some n =>
      match find_adapter n infos with
      | Some a => (if ai_stub a then ["Configured router backend '" +:+ n +:+ "' is a not-yet-supported stub; workflows will fail on invocation."]
                   else [], false)
      | None => ([], false)
      end
  | None => ([], false)
  end.

Record diagnosis := mkDiagnosis {
  dg_adapters : list adapter_info; dg_config : resolved_config; dg_profile : option (string * string);
  dg_checkpoint : checkpoint_file; dg_binding : BackendBinding; dg_warnings : list string; dg_failed : bool }.
Definition diagnose (adapters : backends (I:=I)) (profiles : res ProfileFile) (resolve : ProfileFile → string → res ResolvedProfile)
    (getenv : string → option string) (normalize : string → res string) (sandbox : string) (c : checkpoint_file) : res diagnosis :=
  let infos := adapters_info adapters in
  let '(profile, resolved, profile_warnings) := diagnose_profile profiles resolve (getenv "AGENT_OS_PROFILE") in
  let config := configuration resolved getenv sandbox in
  let checks := [check_checkpoint c; role_check infos "architect" (rc_architect config); role_check infos "executor" (rc_executor config);
                 router_check infos (rc_router config)] in
  root ← normalize (rc_sandbox config);
  let binding := mkBinding (rc_router config) (rc_architect config) (rc_executor config) (fst <$> profile) root in
  Ok (mkDiagnosis infos config profile c binding (profile_warnings ++ concat (map fst checks))
    (match profile_warnings with [] => false | _ => true end || existsb snd checks)).
Definition exit_code (d : diagnosis) : Z := if dg_failed d then 1 else 0.

(** ** The report *)
Definition opt_val (o : option string) : pyval := from_option VStr VNone o.
Definition adapter_json (a : adapter_info) : pyval :=
  VDict [("name", VStr (ai_name a)); ("binary_name", VStr (ai_binary_name a)); ("supported_roles", VList (map VStr (ai_supported_roles a)));
    ("binary_path", opt_val (ai_binary_path a));
    ("auth_status", VDict [("status", VStr (auth_status (ai_auth a))); ("detail", VStr (auth_detail (ai_auth a)))]); ("stub", VBool (ai_stub a))].
Definition config_items (c : resolved_config) : list (string * option string) :=
  [("router", rc_router c); ("architect", rc_architect c); ("executor", rc_executor c); ("sandbox", Some (rc_sandbox c))].
Definition binding_items (d : diagnosis) : list (string * option string) :=
  let b := dg_binding d in
  [("router", b_router b); ("architect", b_architect b); ("executor", b_executor b); ("profile_name", b_profile_name b);
   ("sandbox_root", Some (b_sandbox_root b))].
Definition options_json (l : list (string * option string)) : pyval := VDict (map (λ '(k, v), (k, opt_val v)) l).
Definition doctor_report (d : diagnosis) : pyval :=
  VDict [("registered_adapters", VList (map adapter_json (dg_adapters d))); ("resolved_config", options_json (config_items (dg_config d)));
    ("profile", opt_val (fst <$> dg_profile d)); ("profile_source", opt_val (snd <$> dg_profile d));
    ("checkpoints_db", VDict [("path", VStr (ck_path (dg_checkpoint d))); ("exists", VBool (ck_exists (dg_checkpoint d)));
                              ("writable", VBool (checkpoint_writable (dg_checkpoint d)))]);
    ("backend_binding", options_json (binding_items d)); ("warnings", VList (map VStr (dg_warnings d)))].

Definition section_head (title rule : string) : list string := [EmptyString; title; rule].
Definition adapter_lines (a : adapter_info) : list string :=
  ["- " +:+ ai_name a +:+ " (" +:+ ai_binary_name a +:+ ")"; "  Roles : " +:+ sjoin ", " (ai_supported_roles a);
   "  Binary: " +:+ match ai_binary_path a with Some p => if truthy p then p else "missing" | None => "missing" end;
   "  Auth  : " +:+ auth_status (ai_auth a) +:+ " (" +:+ auth_detail (ai_auth a) +:+ ")"].
Definition candidate_lines (a : adapter_info) : list string :=
  ["- " +:+ ai_name a; "  Roles : " +:+ sjoin ", " (ai_supported_roles a); "  Status: " +:+ auth_detail (ai_auth a)].
Definition capitalized (k : string) : string :=
  match k with String c s => String (if is_lower_az c then chr (code c - 32) else c) (lower s) | EmptyString => EmptyString end.
Definition or_null (v : option string) : string := default "null"%string v.
Definition yes_no (b : bool) : string := if b then "yes" else "no".
Definition render (d : diagnosis) : list string :=
  ["Registered adapters"; "-------------------"]
  ++ (match dg_adapters d with [] => ["none"] | _ => [] end)
  ++ concat (map adapter_lines (List.filter (λ a, negb (ai_stub a)) (dg_adapters d)))
  ++ (match List.filter ai_stub (dg_adapters d) with
      | [] => []
      | candidates => section_head "Candidate adapters (not-yet-supported)" "--------------------------------------" ++ concat (map candidate_lines candidates)
      end)
  ++ section_head "Resolved config" "---------------"
  ++ map (λ '(k, v), capitalized k +:+ ": " +:+ or_null v) (config_items (dg_config d))
  ++ [EmptyString; match dg_profile d with
                   | Some (n, source) => if truthy n then "Profile: " +:+ n +:+ " (via " +:+ source +:+ ")" else "Profile: none"
                   | None => "Profile: none"
                   end]
  ++ section_head "Checkpoints DB" "--------------"
  ++ ["Path    : " +:+ ck_path (dg_checkpoint d); "Exists  : " +:+ yes_no (ck_exists (dg_checkpoint d));
      "Writable: " +:+ yes_no (checkpoint_writable (dg_checkpoint d))]
  ++ section_head "Backend binding" "---------------"
  ++ map (λ '(k, v), k +:+ ": " +:+ or_null v) (binding_items d)
  ++ section_head "Warnings" "--------"
  ++ (match dg_warnings d with [] => ["none"] | ws => map (λ w, "- " +:+ w) ws end)
  ++ [EmptyString; if dg_failed d then "STATUS: FAIL" else "STATUS: OK"].

Definition run_doctor (json_output : bool) (adapters : backends (I:=I)) (profiles : res ProfileFile)
    (resolve : ProfileFile → string → res ResolvedProfile) (getenv : string → option string) (normalize : string → res string) (sandbox : string)
    (c : checkpoint_file) : res (Z * string) :=
  d ← diagnose adapters profiles resolve getenv normalize sandbox c;
  Ok (exit_code d, if json_output then dumps_indent 0 (doctor_report d) else sjoin nl (render d)).
End doctor.

(** ** Properties *)
Section doctor_properties.
Context {I : Type} (which : string → option string) (authentication_status : BackendAdapter I → AuthStatus).

(** The names the adapters give themselves are those they are registered under. *)
Definition registered_by_name (adapters : backends (I:=I)) : Prop := ∀ n a, dget n adapters = Some a → ad_name a = n.
(** What a role with a CLI backend needs. *)
Definition role_usable (adapters : backends (I:=I)) (role : string) (backend : option string) : Prop :=
  ∀ n, cli_name backend = Some n →
    ∃ a, dget n adapters = Some a ∧
         (ad_stub a = true
          ∨ role ∈ ad_supported_roles a ∧ is_Some (which (ad_binary_name a)) ∧ auth_status (authentication_status a) ≠ "unauthenticated").

Lemma inspect_name a : ai_name (inspect which authentication_status a) = ad_name a.
Proof. unfold inspect. destruct (ad_stub a); [done|]. by destruct (which _). Qed.
Lemma find_inspected adapters n l : registered_by_name adapters → (∀ m, m ∈ l → m ∈ dkeys adapters) →
  find_adapter n (omap (λ m, inspect which authentication_status <$> dget m adapters) l)
  = (if decide (n ∈ l) then inspect which authentication_status <$> dget n adapters else None).
Proof.
  intros Hn. induction l as [|m l IH]; intros Hl; [done|].
  destruct (dget m adapters) as [a|] eqn:E; [|exfalso; by eapply (proj1 (dget_None_iff m adapters)); [|apply Hl; left]].
  cbn [omap list_omap]. rewrite E. unfold find_adapter in *. cbn [List.find fmap option_fmap option_map].
  rewrite inspect_name, (Hn _ _ E). destruct (String.eqb_spec m n) as [->|Hne].
  - rewrite decide_True by left. by rewrite E.
  - rewrite IH by (intros; apply Hl; by right). destruct (decide (n ∈ l)) as [H|H].
    + by rewrite decide_True by by right.
    + by rewrite decide_False by (intros [?|?]%elem_of_cons; congruence).
Qed.
Lemma find_adapter_spec adapters n : registered_by_name adapters →
  find_adapter n (adapters_info which authentication_status adapters) = inspect which authentication_status <$> dget n adapters.
Proof.
  intros Hn. unfold adapters_info. rewrite find_inspected; [|done|intros m; apply elem_of_sort_by].
  destruct (decide _) as [H|H]; [done|]. destruct (dget n adapters) eqn:E; [|done]. exfalso. apply H, elem_of_sort_by.
  apply dget_Some_elem in E. unfold dkeys. apply list_elem_of_fmap. by eexists (_, _).
Qed.

Lemma role_check_usable adapters role backend : registered_by_name adapters →
  snd (role_check (adapters_info which authentication_status adapters) role backend) = false ↔ role_usable adapters role backend.
Proof.
  intros Hn. unfold role_check, role_usable. destruct (cli_name backend) as [n|]; [|by split].
  rewrite (find_adapter_spec _ _ Hn). destruct (dget n adapters) as [a|] eqn:E; cbn [fmap option_fmap option_map].
  2: { split; [done|]. intros H. destruct (H n eq_refl) as (a & ? & _); congruence. }
  assert ((∀ m, Some n = Some m → ∃ b, dget m adapters = Some b ∧ (ad_stub b = true
    ∨ role ∈ ad_supported_roles b ∧ is_Some (which (ad_binary_name b)) ∧ auth_status (authentication_status b) ≠ "unauthenticated"))
    ↔ (ad_stub a = true ∨ role ∈ ad_supported_roles a ∧ is_Some (which (ad_binary_name a))
                          ∧ auth_status (authentication_status a) ≠ "unauthenticated")) as ->.
  { split; [|intros H m [= <-]; by exists a]. intros H. destruct (H n eq_refl) as (b & Hb & ?). by assert (b = a) as <- by congruence. }
  unfold inspect. destruct (ad_stub a); cbn [snd ai_stub]; [split; [by left|done]|].
  destruct (which (ad_binary_name a)) as [p|]; cbn [ai_stub ai_supported_roles ai_binary_path ai_auth snd].
  - rewrite bool_decide_eq_true_2 by done. rewrite !orb_false_iff, !negb_false_iff, mem_str_iff, String.eqb_neq, elem_of_sort_by.
    split; [intros [[? _] ?]; right; by split_and!|]. intros [?|(? & _ & ?)]; [done|by split_and!].
  - rewrite bool_decide_eq_false_2 by by intros []. rewrite orb_true_r. split; [done|]. by intros [?|(_ & [] & _)].
Qed.
Lemma failed_check_warns infos role backend :
  snd (role_check infos role backend) = true → fst (role_check infos role backend) ≠ [].
Proof.
  unfold role_check. destruct (cli_name backend) as [n|]; [|done].
  destruct (find_adapter n infos) as [a|]; [|done]. destruct (ai_stub a); [done|]. cbn [fst snd].
  destruct (mem_str role _); [|done]. destruct (bool_decide _); [|done]. cbn [negb orb app].
  destruct (String.eqb _ "unauthenticated"); done.
Qed.
Lemma router_check_passes infos router : snd (router_check infos router) = false.
Proof. unfold router_check. destruct (cli_name router) as [n|]; [|done]. by destruct (find_adapter n infos). Qed.
Lemma last_line d : last (render d) = Some (if dg_failed d then "STATUS: FAIL" else "STATUS: OK").
Proof. unfold render. rewrite !app_assoc. by rewrite last_app. Qed.

Context (adapters : backends (I:=I)) (profiles : res ProfileFile) (resolve : ProfileFile → string → res ResolvedProfile)
  (getenv : string → option string) (normalize : string → res string) (sandbox : string) (c : checkpoint_file).
Notation diagnosed := (diagnose which authentication_status adapters profiles resolve getenv normalize sandbox c).

(** The doctor's exit code is 0 exactly when the selected profile (if any)
    loads and resolves, the checkpoint database (or the directory it is to be
    made in) is writable, and the architect's and executor's CLI backends of
    the effective configuration are registered and are stubs, or support their
    role, have their binary on the path and are not unauthenticated; otherwise
    it is 1, there is a warning, and the text ends in STATUS: FAIL.  The code
    does not depend on the output format. *)
Theorem doctor_status d :
  registered_by_name adapters → diagnosed = Ok d →
  (dg_failed d = false ↔
     snd (diagnose_profile profiles resolve (getenv "AGENT_OS_PROFILE")) = [] ∧ checkpoint_writable c = true
     ∧ role_usable adapters "architect" (rc_architect (dg_config d)) ∧ role_usable adapters "executor" (rc_executor (dg_config d)))
  ∧ (dg_failed d = true → dg_warnings d ≠ [])
  ∧ last (render d) = Some (if dg_failed d then "STATUS: FAIL" else "STATUS: OK")
  ∧ (∀ j, ∃ text, run_doctor which authentication_status j adapters profiles resolve getenv normalize sandbox c
                  = Ok (if dg_failed d then 1 else 0, text)).
Proof.
  intros Hn Hd. pose proof Hd as Hd'. unfold diagnose in Hd.
  destruct (diagnose_profile _ _ _) as [[profile resolved] ws] eqn:P. cbn [snd].
  apply res_bind_ok in Hd as (root & _ & [= <-]). cbn [dg_failed dg_config dg_warnings].
  set (infos := adapters_info _ _ _). set (config := configuration _ _ _).
  split_and!.
  - rewrite <- !(role_check_usable _ _ _ Hn). fold infos. cbn [existsb]. change (snd (check_checkpoint c)) with (negb (checkpoint_writable c)). rewrite router_check_passes, !orb_false_iff, negb_false_iff.
    destruct ws; naive_solver.
  - cbn [existsb]. change (snd (check_checkpoint c)) with (negb (checkpoint_writable c)). rewrite router_check_passes, !orb_false_r. destruct ws as [|w ws]; [|done]. cbn [orb app map concat].
    destruct (checkpoint_writable c) eqn:W.
    + cbn [negb orb]. intros [H|H]%orb_true_iff; apply failed_check_warns in H; intros (_ & (? & ?%app_nil)%app_nil)%app_nil; naive_solver.
    + intros _. rewrite !app_nil. by intros [[_ ?] _].
  - apply last_line.
  - intros j. unfold run_doctor. rewrite Hd'. cbn [mbind res_bind]. eexists. reflexivity.
Qed.
End doctor_properties.

(** ** A run *)
Definition demo_adapter (name binary : string) (stub : bool) : BackendAdapter unit :=
  mkAdapter name binary ["executor"; "architect"] stub (λ _, Ok ()).
Definition demo_adapters : backends (I:=unit) := [("codex", demo_adapter "codex" "codex" false); ("antigravity", demo_adapter "antigravity" "agy" true)].
Definition demo_which (b : string) : option string := if String.eqb b "codex" then Some "/usr/bin/codex" else None.
Definition demo_auth (a : BackendAdapter unit) : AuthStatus :=
  if ad_stub a then mkAuth "unknown" "not supported" else mkAuth "unknown" "no check".
Definition demo_env (k : string) : option string :=
  if String.eqb k "LLM_ARCHITECT" then Some "cli/codex" else if String.eqb k "LLM_EXECUTOR" then Some "cli/antigravity" else None.
Definition demo_checkpoint : checkpoint_file := mkCheckpointFile "/w/checkpoints.db" "/w" false false true (Ok ()).
Definition demo_unresolved (_ : ProfileFile) (n : string) : res ResolvedProfile := Raise (ValueError n).
Definition demo_diagnosis : diagnosis :=
  match diagnose demo_which demo_auth demo_adapters (Ok (mkProfileFile None [])) demo_unresolved demo_env Ok "/w" demo_checkpoint with
  | Ok d => d
  | Raise _ => mkDiagnosis [] (mkResolvedConfig None None None EmptyString) None demo_checkpoint (mkBinding None None None None EmptyString) [] true
  end.
Example doctor_status_witness :
  dg_failed demo_diagnosis = false ∧ last (render demo_diagnosis) = Some "STATUS: OK"
  ∧ ∃ text, run_doctor demo_which demo_auth true demo_adapters (Ok (mkProfileFile None [])) demo_unresolved demo_env Ok "/w" demo_checkpoint
            = Ok (0, text).
Proof.
  assert (dg_failed demo_diagnosis = false) as F by (vm_compute; reflexivity).
  refine (_ (doctor_status demo_which demo_auth demo_adapters (Ok (mkProfileFile None [])) demo_unresolved demo_env Ok "/w" demo_checkpoint
               demo_diagnosis _ _)).
  - rewrite F. intros (_ & _ & L & R). split; [reflexivity|]. split; [exact L|exact (R true)].
  - intros n a H. apply dget_Some_elem in H. unfold demo_adapters in H. rewrite !elem_of_cons in H.
    destruct H as [[= -> ->]|[[= -> ->]|[]%not_elem_of_nil]]; reflexivity.
  - vm_compute. reflexivity.
Defined.

(** An adapter is registered under its name without the white space around it,
    and resolves under it, but the doctor looks for the name as it is. *)
Example padded_adapter_unknown :
  let a := demo_adapter " codex " "codex" false in
  (adapters ← register a []; resolve "executor" "codex" adapters) = Ok a
  ∧ (adapters ← register a [];
     Ok (role_check (adapters_info demo_which demo_auth adapters) "executor" (Some "cli/codex")))
    = Ok (["Configured executor backend 'cli/codex' is not registered."], true).
Proof. split; vm_compute; reflexivity. Qed.
