(* ===== verification/Nodes.v ===== *)
(** * The agents' nodes (agent_os/nodes/architect.py, executor.py, planner.py, llm.py, messages.py, agents/)

    What Workflow.v takes as the answers of the architect and of the executor:
    the prompts and messages the nodes build, the retries, the fallback of the
    executor, and the context the planner adds.  Models, agents and CLI
    invokers answer through arguments, as do [trim_messages] and the memory
    connectors; the n-th call of an agent may answer differently from the
    first.  Messages are those of HotContext.v. *)
From S2P Require Import Profiles HotContext Validation.
From S2P Require Context Workspace.

(** ** Retries (llm.py) *)
(** U+00B5 is kept, as no marker holds it. *)
Definition casefold (s : string) : string :=
  sflat_map (λ c, if code c =? 223 then "ss" else String (lower_char c) EmptyString) s.

(** [CliBackendError] and its subclasses: the text of the exception and the
    name of its class. *)
Definition cli_error_classes : list string := ["CliBackendError"; "CliBackendAuthenticationError"; "CliBackendTimeout"].
Definition cli_error (e : exn) : option (string * string) :=
  match e with
  | OtherError m =>
      match split_once ": " m with
      | Some (cls, text) => if mem_str cls cli_error_classes then Some (cls, text) else None
      | None => None
      end
  | _ => None
  end.
Definition error_text (e : exn) : string := match cli_error e with Some (_, text) => text | None => exn_msg e end.
Definition error_class (e : exn) : string := match cli_error e with Some (cls, _) => cls | None => exn_class e end.

Definition RETRYABLE_MARKERS : list string :=
  ["429"; "rate limit"; "ratelimit"; "resource_exhausted"; "503"; "service unavailable"; "timeout"; "timed out"].
Definition is_retryable_llm_error (error : exn) : bool :=
  let message := casefold (error_text error) in existsb (λ marker, contains marker message) RETRYABLE_MARKERS.
Definition LLM_RETRY_BACKOFF_SECONDS : list Z := [2; 4; 8].

(** [operation n]: the n-th call.  The sleeps are returned: one less than the
    calls made. *)
Fixpoint retry_from {T} (operation : nat → res T) (n : nat) (delays : list Z) (last_error : option exn) : res T * list Z :=
  match delays with
  | [] => (Raise (default (RuntimeError "LLM retry exhausted without an error") last_error), [])
  | delay :: rest =>
      let slept := if delay =? 0 then [] else [delay] in
      match operation n with
      | Ok x => (Ok x, slept)
      | Raise error =>
          if is_retryable_llm_error error then
            let '(r, sleeps) := retry_from operation (S n) rest (Some error) in (r, slept ++ sleeps)
          else (Raise error, slept)
      end
  end.
Definition invoke_with_llm_retry {T} (operation : nat → res T) : res T * list Z :=
  retry_from operation 0 (0 :: LLM_RETRY_BACKOFF_SECONDS) None.

(** ** Models and agents *)
Record llm := mkLlm { custom_llm_provider : option string; llm_model : option string; llm_model_name : option string }.
Inductive system_prompt := Plain (prompt : string) | Cached (prompt : string).   (* with cache_control ephemeral *)
Definition is_anthropic (l : llm) : bool :=
  from_option (λ p, String.eqb (casefold p) "anthropic") false (custom_llm_provider l)
  || existsb (from_option (λ m, startswith "anthropic/" (casefold m)) false) [llm_model l; llm_model_name l].
Definition prepare_system_prompt (prompt : string) (l : llm) : system_prompt :=
  if is_anthropic l then Cached prompt else Plain prompt.

(** [model_name or os.getenv(variable)] *)
Definition given_text (o : option string) : option string := match o with Some s => if truthy s then Some s else None | None => None end.
Definition get_llm (role variable : string) (chat : string → llm) (getenv : string → option string) (model_name : option string) : res llm :=
  match (match given_text model_name with Some m => Some m | None => given_text (getenv variable) end) with
  | Some resolved_model => Ok (chat resolved_model)
  | None => Raise (ValueError ("No " +:+ role +:+ " model configured. Pass model_name or set " +:+ variable +:+ "."))
  end.
Definition get_architect_llm := get_llm "architect" "LLM_ARCHITECT".
Definition get_executor_llm := get_llm "executor" "LLM_EXECUTOR".
Definition get_router_llm := get_llm "router" "LLM_ROUTER".

Record agent := mkAgent { ag_model : llm; ag_tools : list string; ag_prompt : system_prompt; ag_format : string; ag_name : string }.
Definition ARCHITECT_PROMPT : string :=
  nl +:+ "You are the system Architect." +:+ nl
  +:+ "- Inspect the codebase using grep and read_file before recommending changes." +:+ nl
  +:+ "- Remain read-only; never execute or edit code directly." +:+ nl
  +:+ "- Return a detailed plan using the plan_writer format, including files to modify, changes to make, and a verify_cmd." +:+ nl.
Definition build_architect_agent (chat : string → llm) (getenv : string → option string) (l : option llm) : res agent :=
  resolved_llm ← match l with Some l => Ok l | None => get_architect_llm chat getenv None end;
  Ok (mkAgent resolved_llm ["read_file"; "grep"; "plan_writer"] (prepare_system_prompt ARCHITECT_PROMPT resolved_llm)
        "ArchitectBrief" "architect_react_agent").
Definition EXECUTOR_PROMPT : string :=
  nl +:+ "You are the system Executor." +:+ nl
  +:+ "- Follow the supplied PlanArtifact exactly." +:+ nl
  +:+ "- Operate only through sandboxed tools (edit_file, bash, run_tests)." +:+ nl
  +:+ "- Never access paths outside AGENT_OS_SANDBOX." +:+ nl
  +:+ "- Run the supplied verification command using bash or run_tests (if provided)." +:+ nl
  +:+ "- Report diff, verify_output, and status in your final response." +:+ nl.
Definition build_executor_agent (chat : string → llm) (getenv : string → option string) (l : option llm) : res agent :=
  resolved_llm ← match l with Some l => Ok l | None => get_executor_llm chat getenv None end;
  Ok (mkAgent resolved_llm ["edit_file"; "bash"; "run_tests"] (prepare_system_prompt EXECUTOR_PROMPT resolved_llm)
        "CodingResult" "executor_react_agent").

(** ** Messages (messages.py) *)
Definition HumanMessage (content : string) : message := mkMessage "human" (VStr content) None.
Definition shows_prompt (prompt : string) (m : message) : bool :=
  String.eqb (msg_type m) "human" && match msg_content m with VStr s => String.eqb s prompt | _ => false end.
Definition with_prompt (state_messages : list message) (new_prompt : string) : list message :=
  if from_option (shows_prompt new_prompt) false (last state_messages) then state_messages
  else state_messages ++ [HumanMessage new_prompt].
Definition trim_agent_messages (trim_messages : list message → list message) (state_messages : list message) (new_prompt : string) : list message :=
  trim_messages (with_prompt state_messages new_prompt).

(** ** The state the nodes read, beside Workflow.v's *)
Record AgentState := mkAgentState {
  wf : SimonState; messages : list message; st_hot_context : option string; conversation_summary : option string;
  strategy_hint : pyval; backend_binding : option BackendBinding }.
Definition with_messages (l : list message) (s : AgentState) : AgentState :=
  mkAgentState (wf s) l (st_hot_context s) (conversation_summary s) (strategy_hint s) (backend_binding s).
Definition with_task (t : string) (s : AgentState) : AgentState :=
  mkAgentState (mkState t (run_id (wf s)) (plan (wf s)) (executor_output (wf s)) (human_feedback (wf s)) (tool_result (wf s)) (router_escalated (wf s)))
    (messages s) (st_hot_context s) (conversation_summary s) (strategy_hint s) (backend_binding s).

(** A memory connector, as far as hot context goes. *)
Record vault := mkVault { v_list : res (list string); v_read : string → res note; v_mtimes : option (string → option SpecFloat.spec_float) }.

(** ** The architect's node *)
(** What the node returns; [u_removed]: the ids of the [RemoveMessage]s. *)
Record architect_update := mkArchitectUpdate {
  u_plan : BackendArtifact; u_hot_context : string; u_summary : option string; u_removed : list string }.

Section architect.
Context {I : Type} (fuel : nat) (expanduser : string → string) (cwd : path) (f : fs)
  (getenv : string → option string) (chat : string → llm) (trim_messages : list message → list message)
  (call : I → AgentState → nat → res BackendArtifact)                     (* an invoker *)
  (agent_invoke : agent → list message → nat → res (option BackendArtifact)) (* the structured response *)
  (llm_invoke : llm → list message → res string)                           (* [str(result.content)] *)
  (registry : res (backends (I:=I))) (profile_file : res ProfileFile)
  (runtime_memory : res (option vault)) (gbrain : res vault) (markdown : string → res vault)
  (now : SpecFloat.spec_float) (timestamp : string → option SpecFloat.spec_float).

(** [build_cli_architect_invoker(backend)], and the executor's: the first error
    is the registry's. *)
Definition build_cli_invoker (role backend : string) : res I :=
  match (adapters ← registry; resolve role backend adapters) with
  | Ok adapter => ad_build_invoker adapter role
  | Raise (ValueError msg) => Raise (ValueError ("Unsupported CLI " +:+ role +:+ " backend: " +:+ backend +:+ ". " +:+ msg))
  | Raise e => Raise e
  end.

Definition architect_task (state : AgentState) : string :=
  task (wf state) +:+ (if rejected (wf state) then nl +:+ nl +:+ "Previous plan was rejected with feedback:" +:+ nl
                                                   +:+ default EmptyString (human_feedback (wf state)) else EmptyString).
(** The profile of the binding, resolved against an empty registry. *)
Definition bound_profile (state : AgentState) : option ResolvedProfile :=
  match backend_binding state with
  | None => None
  | Some binding =>
      match profile_file, b_profile_name binding with
      | Ok pf, Some name =>
          match resolve_profile fuel expanduser cwd pf name ([] : backends (I:=I)) (join_path cwd (parse_path (b_sandbox_root binding))) f with
          | Ok p => Some p
          | Raise _ => None
          end
      | _, _ => None
      end
  end.

Definition node_connector (sandbox_root : string) : res vault :=
  runtime ← runtime_memory;
  match runtime with
  | Some v => Ok v
  | None =>
      if String.eqb (default "markdown"%string (getenv "AGENT_OS_MEMORY_CONNECTOR")) "gbrain" then gbrain
      else markdown (default sandbox_root (getenv "AGENT_OS_VAULT_PATH"))
  end.
Definition node_hot_context (state : AgentState) (resolved_prof : option ResolvedProfile) : string :=
  match st_hot_context state, resolved_prof, backend_binding state with
  | Some hot_context, _, _ => hot_context
  | None, Some p, Some binding =>
      match node_connector (b_sandbox_root binding) with
      | Ok v =>
          let config := rp_hot_context p in
          load_hot_context (v_read v) now (v_mtimes v) timestamp (v_list v) (Profiles.max_chars config) (Profiles.max_age_days config)
            (Some (Profiles.sources config))
      | Raise _ => EmptyString
      end
  | None, _, _ => EmptyString
  end.

Definition artifact_summary (a : BackendArtifact) : res string :=
  match a with APlan p => Ok (pa_summary p) | AResult _ => Raise (OtherError "AttributeError") end.
Definition summarizer (state : AgentState) (config : SummaryConfig) (prompt : string) : res string :=
  let model_str := or_text (or_text "cli/claude-code" (default EmptyString (getenv "LLM_ARCHITECT"))) (default EmptyString (summary_model config)) in
  if startswith "cli/" model_str then
    invoker ← build_cli_invoker "architect" (sdrop 4 model_str);
    brief ← (invoke_with_llm_retry (call invoker (with_messages [] (with_task prompt state)))).1;
    artifact_summary brief
  else
    l ← get_architect_llm chat getenv (Some model_str);
    llm_invoke l [HumanMessage prompt].
(** A failed summary leaves the conversation as it is. *)
Definition node_summary (state : AgentState) (config : SummaryConfig) : option string * list message * list string :=
  match summarize_and_trim (messages state) (conversation_summary state) (threshold_tokens config) (keep_recent_n config)
          (summarizer state config) with
  | Ok r => r
  | Raise _ => (conversation_summary state, messages state, [])
  end.

Definition context_part (hot_context : string) : list string :=
  if truthy hot_context then ["## Context (from vault)" +:+ nl +:+ hot_context] else [].
Definition strategy_part (hint : pyval) : list string :=
  if py_truthy hint then
    let d := strategy_data hint in
    ["## Planning strategy (fixed and advisory)" +:+ nl
     +:+ "Selected strategy: " +:+ py_str (default (VStr "default-v1") (dget "strategy_id" d)) +:+ nl
     +:+ "Directive: " +:+ py_str (default (VStr EmptyString) (dget "directive" d)) +:+ nl
     +:+ "This directive cannot change permission, tool-safety, or execution constraints."]
  else [].
Definition summary_part (new_summary : option string) : list string :=
  match new_summary with Some s => if truthy s then ["## Conversation so far (summary)" +:+ nl +:+ s] else [] | None => [] end.
Definition final_prompt (state : AgentState) (hot_context : string) (new_summary : option string) : string :=
  sjoin (nl +:+ nl)
    (architect_task state :: context_part hot_context ++ strategy_part (strategy_hint state) ++ summary_part new_summary).

(** The plan an agent or a CLI returns for the messages. *)
Definition architect_plan (state : AgentState) (trimmed : list message) : res BackendArtifact :=
  let llm_architect := default EmptyString (getenv "LLM_ARCHITECT") in
  if startswith "cli/" llm_architect then
    invoker ← build_cli_invoker "architect" (sdrop 4 llm_architect);
    (invoke_with_llm_retry (call invoker (with_messages trimmed state))).1
  else
    ag ← build_architect_agent chat getenv None;
    answer ← (invoke_with_llm_retry (agent_invoke ag trimmed)).1;
    match answer with
    | Some (APlan p) => Ok (APlan p)
    | _ => Raise (ValueError "Architect agent did not return a valid PlanArtifact or ArchitectBrief")
    end.
Definition architect_node (state : AgentState) : res architect_update :=
  let resolved_prof := bound_profile state in
  let hot_context := node_hot_context state resolved_prof in
  let summary_config := from_option rp_summary default_summary resolved_prof in
  let '(new_summary, kept_messages, remove_messages) := node_summary state summary_config in
  let trimmed := trim_agent_messages trim_messages kept_messages (final_prompt state hot_context new_summary) in
  brief ← architect_plan state trimmed;
  Ok (mkArchitectUpdate brief hot_context new_summary remove_messages).
End architect.

(** ** The executor's node *)
(** A report with what the self-check reads and writes. *)
Record report := mkReportOf { rep_result : ExecutionResult; rep_verify_output : option string; rep_diff : option string; rep_self_check : pydict }.
Definition self_checked (compile : string → res PyRe.re) (judge_llm : option (string → llm_outcome)) (r : report) (p : PlanArtifact) : report :=
  let view := mkReport (rep_verify_output r) (rep_diff r) (er_artifacts (rep_result r)) (rep_self_check r) in
  mkReportOf (rep_result r) (rep_verify_output r) (rep_diff r)
    (self_check (attach_self_check compile judge_llm view (mkPlanView (pa_criteria p) (pa_verify_cmd p)))).

Definition QUOTA_INDICATORS : list string :=
  ["hit your usage limit"; "usage limit"; "rate limit"; "purchase more credits"; "too many requests"; "insufficient_quota";
   "quota exceeded"; "429"].
Definition is_quota_or_rate_limit_error (exc : exn) : bool :=
  let text := lower (error_text exc) in existsb (λ ind, contains ind text) QUOTA_INDICATORS.
(** [except (CliBackendError, ValueError)] *)
Definition cli_failure (exc : exn) : bool :=
  match exc with ValueError _ => true | _ => match cli_error exc with Some _ => true | None => false end end.

Section executor.
Context {I : Type} (getenv : string → option string) (chat : string → llm) (trim_messages : list message → list message)
  (call : I → AgentState → res report) (agent_invoke : agent → list message → nat → res (option report))
  (registry : res (backends (I:=I))) (compile : string → res PyRe.re) (judge_llm : option (string → llm_outcome))
  (plan_json : PlanArtifact → string).

(** [os.getenv("LLM_EXECUTOR_FALLBACK", ...)], without the prefix. *)
Definition fallback_backend (backend : string) : string :=
  default (if String.eqb backend "codex" then "claude-code" else EmptyString)%string (getenv "LLM_EXECUTOR_FALLBACK").
Definition fallback_name (backend : string) : string :=
  if startswith "cli/" backend then sdrop 4 backend else backend.
Definition fallback_failed (backend name : string) (exc : exn) : exn :=
  RuntimeError ("CLI executor '" +:+ backend +:+ "' hit quota limit and fallback '" +:+ name +:+ "' also failed: " +:+ error_text exc).
Definition executor_failed (exc : exn) : exn :=
  RuntimeError ("CLI executor failed (" +:+ error_class exc +:+ "). Partial sandbox changes may exist and should be inspected before resume. Details: "
                +:+ error_text exc).

(** The report of a CLI executor, and the invokers that were run. *)
Definition cli_report (backend : string) (state : AgentState) : res report * list I :=
  match build_cli_invoker registry "executor" backend with
  | Raise e => (Raise e, [])
  | Ok invoker =>
      match call invoker state with
      | Ok r => (Ok r, [invoker])
      | Raise exc =>
          if negb (cli_failure exc) then (Raise exc, [invoker])
          else
            let fb := fallback_backend backend in
            if truthy fb && is_quota_or_rate_limit_error exc then
              match build_cli_invoker registry "executor" (fallback_name fb) with
              | Raise e => (Raise (fallback_failed backend (fallback_name fb) e), [invoker])
              | Ok fallback_invoker =>
                  (match call fallback_invoker state with
                   | Ok r => Ok r
                   | Raise e => Raise (fallback_failed backend (fallback_name fb) e)
                   end, [invoker; fallback_invoker])
              end
            else (Raise (executor_failed exc), [invoker])
      end
  end.
Definition executor_message (p : PlanArtifact) : string := "Please execute this ArchitectBrief:" +:+ nl +:+ plan_json p.
Definition executor_node (state : AgentState) : res report * list I :=
  match plan (wf state) with
  | PPlan p =>
      let trimmed := trim_agent_messages trim_messages (messages state) (executor_message p) in
      let llm_executor := default EmptyString (getenv "LLM_EXECUTOR") in
      if startswith "cli/" llm_executor then
        let '(r, calls) := cli_report (sdrop 4 llm_executor) (with_messages trimmed state) in
        ((λ r, self_checked compile judge_llm r p) <$> r, calls)
      else
        (ag ← build_executor_agent chat getenv None;
         answer ← (invoke_with_llm_retry (agent_invoke ag trimmed)).1;
         match answer with
         | Some r => Ok (self_checked compile judge_llm r p)
         | None => Raise (ValueError "Executor agent failed to return a valid ExecutionResult or ExecutorReport.")
         end, [])
  | _ => (Raise (ValueError "Executor requires a PlanArtifact or ArchitectBrief plan."), [])
  end.
End executor.

(** ** The planner's node *)
(** The workspace's providers with their budget and the outcome of the policy
    on each, see Context.v; [None]: no workspace or no providers. *)
Record injection := mkInjection { in_max_chars : res Z; in_policy : option (string → res string); in_providers : list Context.ContextProvider }.
Record planner_update := mkPlannerUpdate { pu_plan : option string; pu_hot_context : option string; pu_events : list pydict }.
Definition inject (runtime : res (option injection)) (can_run : bool) (state : AgentState) : option string * list pydict :=
  match runtime with
  | Ok (Some i) =>
      match in_max_chars i with
      | Ok max_chars =>
          if negb can_run then (None, [])
          else
            let '(injected, events) := Context.load_injected_context max_chars (in_policy i) (in_providers i) (run_id (wf state)) in
            (if truthy injected then
               let existing_hot := default EmptyString (st_hot_context state) in
               let combined := if truthy existing_hot then existing_hot +:+ nl +:+ nl +:+ injected else injected in
               Some (stake (Z.to_nat max_chars) combined)
             else None, events)
      | Raise _ => (None, [])
      end
  | _ => (None, [])
  end.
(** [can_run]: the asynchronous node, or the synchronous one outside an event
    loop. *)
Definition planner_logic (runtime : res (option injection)) (can_run : bool) (state : AgentState) : planner_update :=
  let '(hot_context, events) := inject runtime can_run state in
  mkPlannerUpdate (match plan (wf state) with PPlan _ => None | _ => Some (task (wf state)) end) hot_context events.

(** ** Properties *)
(** C38. A model is called at most four times, with 2, 4 and 8 seconds in
    between; what comes back is the answer of the first call that did not fail
    with a transient error, or of the fourth. *)
Theorem retry_spec {T} (operation : nat → res T) :
  ∃ k, (k ≤ 3)%nat ∧ invoke_with_llm_retry operation = (operation k, take k [2; 4; 8]) ∧
    (∀ i, (i < k)%nat → ∃ e, operation i = Raise e ∧ is_retryable_llm_error e = true) ∧
    ((k < 3)%nat → ∀ e, operation k = Raise e → is_retryable_llm_error e = false).
Proof.
  unfold invoke_with_llm_retry, LLM_RETRY_BACKOFF_SECONDS. cbn [retry_from Z.eqb app].
  assert (∀ k, (k < 3)%nat → ∀ e, operation k = Raise e → is_retryable_llm_error e = false →
    (k < 3)%nat → ∀ e', operation k = Raise e' → is_retryable_llm_error e' = false) as Hk by congruence.
  destruct (operation 0%nat) as [x|e0] eqn:E0.
  { exists 0%nat. split_and!; [lia|by rewrite ?E0, ?E1, ?E2|lia|congruence]. }
  destruct (is_retryable_llm_error e0) eqn:R0.
  2: { exists 0%nat. split_and!; [lia|by rewrite ?E0, ?E1, ?E2|lia|by eapply Hk; [lia| |]]. }
  destruct (operation 1%nat) as [x|e1] eqn:E1.
  { exists 1%nat. split_and!; [lia|by rewrite ?E0, ?E1, ?E2| |congruence]. intros i Hi. assert (i = 0%nat) as -> by lia. eauto. }
  destruct (is_retryable_llm_error e1) eqn:R1.
  2: { exists 1%nat. split_and!; [lia|by rewrite ?E0, ?E1, ?E2| |by eapply Hk; [lia| |]].
       intros i Hi. assert (i = 0%nat) as -> by lia. eauto. }
  destruct (operation 2%nat) as [x|e2] eqn:E2.
  { exists 2%nat. split_and!; [lia|by rewrite ?E0, ?E1, ?E2| |congruence].
    intros i Hi. assert (i = 0%nat ∨ i = 1%nat) as [-> | ->] by lia; eauto. }
  destruct (is_retryable_llm_error e2) eqn:R2.
  2: { exists 2%nat. split_and!; [lia|by rewrite ?E0, ?E1, ?E2| |by eapply Hk; [lia| |]].
       intros i Hi. assert (i = 0%nat ∨ i = 1%nat) as [-> | ->] by lia; eauto. }
  exists 3%nat. split_and!; [lia| | |lia].
  { destruct (operation 3%nat) as [x|e3]; [done|]. by destruct (is_retryable_llm_error e3). }
  intros i Hi. assert (i = 0%nat ∨ i = 1%nat ∨ i = 2%nat) as [-> |[-> | ->]] by lia; eauto.
Qed.

(** ** What the architect is sent *)
Section architect_properties.
Context {I : Type} (fuel : nat) (expanduser : string → string) (cwd : path) (f : fs)
  (getenv : string → option string) (chat : string → llm) (trim_messages : list message → list message)
  (call : I → AgentState → nat → res BackendArtifact) (agent_invoke : agent → list message → nat → res (option BackendArtifact))
  (llm_invoke : llm → list message → res string) (registry : res (backends (I:=I))) (profile_file : res ProfileFile)
  (runtime_memory : res (option vault)) (gbrain : res vault) (markdown : string → res vault)
  (now : SpecFloat.spec_float) (timestamp : string → option SpecFloat.spec_float).
Notation node := (architect_node fuel expanduser cwd f getenv chat trim_messages call agent_invoke llm_invoke registry profile_file
  runtime_memory gbrain markdown now timestamp).
Notation planned := (architect_plan getenv chat call agent_invoke registry).

Lemma shows_prompt_spec p m : shows_prompt p m = true ↔ msg_type m = "human"%string ∧ msg_content m = VStr p.
Proof.
  unfold shows_prompt. rewrite andb_true_iff, String.eqb_eq. destruct (msg_content m); rewrite ?String.eqb_eq; naive_solver.
Qed.
Lemma with_prompt_last l p : ∃ m, last (with_prompt l p) = Some m ∧ msg_type m = "human"%string ∧ msg_content m = VStr p.
Proof.
  unfold with_prompt. destruct (last l) as [m|] eqn:E; cbn [from_option].
  - destruct (shows_prompt p m) eqn:S; [rewrite E; exists m; split; [done|by apply shows_prompt_spec]|].
    rewrite last_snoc. by eexists.
  - rewrite last_snoc. by eexists.
Qed.
Lemma node_summary_split state config s kept removed :
  node_summary getenv chat call llm_invoke registry state config = (s, kept, removed) →
  ∃ old, messages state = old ++ kept ∧ removed = omap removable old.
Proof.
  unfold node_summary. destruct (summarize_and_trim _ _ _ _ _) as [[[s' k'] r']|e] eqn:E; intros [= <- <- <-]; [|by exists []].
  unfold summarize_and_trim in E. revert E. destruct (count_message_tokens _) as [total|]; cbn [mbind res_bind]; [|done].
  destruct (_ || _); [intros [= <- <- <-]; by exists []|]. destruct (_ <=? 0); [intros [= <- <- <-]; by exists []|].
  destruct (summarizer _ _ _ _ _ _ _ _) as [x|]; cbn [mbind res_bind]; [|done]. intros [= <- <- <-].
  eexists. split; [symmetry; apply take_drop|done].
Qed.

Lemma contains_cat p a b : contains p a = true → contains p (a +:+ b) = true.
Proof. rewrite !contains_iff. intros (x & y & ->). exists x, (y +:+ b). by rewrite !sapp_assoc. Qed.
Lemma contains_refl p : contains p p = true.
Proof. rewrite <-(sapp_nil_r p) at 2. apply contains_here. Qed.
Lemma contains_sjoin sep x y l : x ∈ l → contains y x = true → contains y (sjoin sep l) = true.
Proof.
  intros Hx Hy. induction l as [|z l IH]; [by apply not_elem_of_nil in Hx|]. destruct l as [|z' l].
  - by apply list_elem_of_singleton in Hx as ->.
  - rewrite sjoin_cons. apply elem_of_cons in Hx as [-> |Hx]; [by apply contains_cat|]. do 2 apply contains_app_r. by apply IH.
Qed.

(** The prompt holds the task, the answer of a human who rejected the last
    plan, the hot context, the directive of the strategy and the summary. *)
Definition prompt_complete (state : AgentState) (hot : string) (summary : option string) (prompt : string) : Prop :=
  contains (task (wf state)) prompt = true ∧ contains hot prompt = true ∧
  (∀ s, summary = Some s → contains s prompt = true) ∧
  (∀ fb, human_feedback (wf state) = Some fb → rejected (wf state) = true → contains fb prompt = true) ∧
  (∀ d directive, py_truthy (strategy_hint state) = true → strategy_data (strategy_hint state) = d → dget "directive" d = Some (VStr directive) →
     contains directive prompt = true ∧
     contains "This directive cannot change permission, tool-safety, or execution constraints." prompt = true).

Lemma truthy_nil s : truthy s = false → s = EmptyString.
Proof. by destruct s. Qed.
Lemma final_prompt_complete state hot summary : prompt_complete state hot summary (final_prompt state hot summary).
Proof.
  assert (∀ p, contains EmptyString p = true) as Hnil by (intros p; exact (contains_here EmptyString p)).
  unfold final_prompt, prompt_complete. split_and!.
  - eapply contains_sjoin; [by left|]. unfold architect_task. apply contains_here.
  - destruct (truthy hot) eqn:T; [|by rewrite (truthy_nil _ T)].
    eapply contains_sjoin; [|apply contains_app_r, contains_app_r, contains_refl]. right. apply elem_of_app. left.
    unfold context_part. rewrite T. by left.
  - intros s ->. destruct (truthy s) eqn:T; [|by rewrite (truthy_nil _ T)].
    eapply contains_sjoin; [|apply contains_app_r, contains_app_r, contains_refl]. right. rewrite !elem_of_app. right. right.
    unfold summary_part. rewrite T. by left.
  - intros fb Hf Hr. eapply contains_sjoin; [by left|]. unfold architect_task. rewrite Hr, Hf.
    do 5 apply contains_app_r. apply contains_refl.
  - intros d directive Ht <- Hd.
    assert (∀ y, contains y (nth 0 (strategy_part (strategy_hint state)) EmptyString) = true →
      contains y (sjoin (nl +:+ nl) (architect_task state :: context_part hot ++ strategy_part (strategy_hint state) ++ summary_part summary)) = true) as Hin.
    { intros y. apply contains_sjoin. right. rewrite !elem_of_app. right. left. unfold strategy_part. rewrite Ht. by left. }
    split; apply Hin; unfold strategy_part; rewrite Ht; cbn zeta; cbn [nth]; rewrite Hd; cbn [default py_str].
    + do 6 apply contains_app_r. apply contains_here.
    + do 8 apply contains_app_r. apply contains_refl.
Qed.

(** C36. Only planning itself can fail the architect's node: whatever becomes of
    the profile, the memory and the summary, the node ends as the planner does
    on what LangChain's [trim_messages] makes of a conversation.  That
    conversation is the state's messages but for a prefix, whose messages are
    the ones removed from the state, and ends in a human message with the whole
    prompt: task, rejection, hot context, strategy and summary.  A hot context of
    the state is kept.  What trimming to 8000 tokens leaves of the conversation
    is LangChain's, and may be a part of the prompt; a CLI architect is handed
    the trimmed messages too, but the adapters do not read them
    ([cli_architect_blind]). *)
Theorem architect_node_spec state :
  ∃ hot summary old kept conversation m,
    messages state = old ++ kept ∧
    last conversation = Some m ∧ msg_type m = "human"%string ∧ msg_content m = VStr (final_prompt state hot summary) ∧
    (conversation = kept ∨ conversation = kept ++ [m]) ∧
    prompt_complete state hot summary (final_prompt state hot summary) ∧
    (∀ h, st_hot_context state = Some h → hot = h) ∧
    node state = (brief ← planned state (trim_messages conversation); Ok (mkArchitectUpdate brief hot summary (omap removable old))).
Proof.
  unfold architect_node. set (profile := bound_profile _ _ _ _ _ _).
  set (hot := node_hot_context _ _ _ _ _ _ _ _). destruct (node_summary _ _ _ _ _ _ _) as [[summary kept] removed] eqn:E.
  destruct (node_summary_split _ _ _ _ _ E) as (old & Hm & ->).
  destruct (with_prompt_last kept (final_prompt state hot summary)) as (m & Hl & Ht & Hc).
  exists hot, summary, old, kept, (with_prompt kept (final_prompt state hot summary)), m.
  refine (conj Hm (conj Hl (conj Ht (conj Hc (conj _ (conj (final_prompt_complete _ _ _) (conj _ eq_refl))))))).
  - unfold with_prompt in *. destruct (from_option (shows_prompt _) _ _); [by left|right]. rewrite last_snoc in Hl. by injection Hl as ->.
  - intros h Hh. unfold hot, node_hot_context. by rewrite Hh.
Qed.
End architect_properties.

(** ** The executor and its fallback *)
Section executor_properties.
Context {I : Type} (getenv : string → option string) (chat : string → llm) (trim_messages : list message → list message)
  (call : I → AgentState → res report) (agent_invoke : agent → list message → nat → res (option report))
  (registry : res (backends (I:=I))) (compile : string → res PyRe.re) (judge_llm : option (string → llm_outcome))
  (plan_json : PlanArtifact → string).
Notation node := (executor_node getenv chat trim_messages call agent_invoke registry compile judge_llm plan_json).

(** The two kinds of failure the node catches. *)
Definition known_failure (e : exn) : Prop := (∃ m, e = ValueError m) ∨ is_Some (cli_error e).
(** The invoker may be given what a second one is then given. *)
Definition quota_exhausted (backend : string) (e : exn) : Prop :=
  known_failure e ∧ fallback_backend getenv backend ≠ EmptyString ∧
  ∃ words, words ∈ ["hit your usage limit"; "usage limit"; "rate limit"; "purchase more credits"; "too many requests";
                    "insufficient_quota"; "quota exceeded"; "429"]%string ∧ contains words (lower (error_text e)) = true.
Lemma cli_failure_iff e : cli_failure e = true ↔ known_failure e.
Proof.
  unfold cli_failure, known_failure. destruct e; destruct (cli_error _) eqn:E; naive_solver.
Qed.
Lemma is_quota_iff e : is_quota_or_rate_limit_error e = true ↔
  ∃ words, words ∈ QUOTA_INDICATORS ∧ contains words (lower (error_text e)) = true.
Proof.
  unfold is_quota_or_rate_limit_error. cbn zeta. rewrite existsb_exists.
  split; intros (w & Hin & H); exists w; (split; [by apply list_elem_of_In|done]).
Qed.

(** C21. A CLI executor is run once and never retried.  Only when it fails in a
    known way (CliBackendError, ValueError), its message speaks of a quota and
    a fallback is configured, a second one is run, on the same state; never a
    third.  The report is that of the last one run, with the self-check, and no
    failure is turned into one: a known failure without a fallback is raised
    with the warning that the sandbox may have been changed; a fallback that
    cannot be built or fails is raised naming both executors, without that
    warning; any other exception, and that of building the first executor, is
    raised as it is. *)
Theorem executor_node_spec state p backend r calls :
  let name := fallback_name (fallback_backend getenv backend) in
  let fallback_failure e := RuntimeError ("CLI executor '" +:+ backend +:+ "' hit quota limit and fallback '" +:+ name
                                          +:+ "' also failed: " +:+ error_text e) in
  plan (wf state) = PPlan p → getenv "LLM_EXECUTOR" = Some ("cli/" +:+ backend) → node state = (r, calls) →
  ∃ sent, wf sent = wf state ∧
  match calls with
  | [] => ∃ e, build_cli_invoker registry "executor" backend = Raise e ∧ r = Raise e
  | [i] => build_cli_invoker registry "executor" backend = Ok i ∧
      ((∃ rep, call i sent = Ok rep ∧ r = Ok (self_checked compile judge_llm rep p)) ∨
       ∃ e, call i sent = Raise e ∧
         (¬ known_failure e ∧ r = Raise e ∨
          known_failure e ∧ ¬ quota_exhausted backend e ∧
            r = Raise (RuntimeError ("CLI executor failed (" +:+ error_class e +:+ "). Partial sandbox changes may exist and should be inspected before resume. Details: " +:+ error_text e)) ∨
          quota_exhausted backend e ∧ ∃ e', build_cli_invoker registry "executor" name = Raise e' ∧ r = Raise (fallback_failure e')))
  | [i; j] => build_cli_invoker registry "executor" backend = Ok i ∧ build_cli_invoker registry "executor" name = Ok j ∧
      (∃ e, call i sent = Raise e ∧ quota_exhausted backend e) ∧
      ((∃ rep, call j sent = Ok rep ∧ r = Ok (self_checked compile judge_llm rep p)) ∨
       ∃ e', call j sent = Raise e' ∧ r = Raise (fallback_failure e'))
  | _ => False
  end.
Proof.
  intros name fallback_failure Hp Hb. unfold executor_node. rewrite Hp, Hb. cbn [default from_option id].
  assert (startswith "cli/" ("cli/" +:+ backend) = true) as -> by apply startswith_app.
  assert (sdrop 4 ("cli/" +:+ backend) = backend) as -> by done.
  set (sent := with_messages _ state). intros H. exists sent. split; [done|]. revert H. unfold cli_report.
  destruct (build_cli_invoker registry "executor" backend) as [i|e]; [|intros [= <- <-]; by exists e].
  destruct (call i sent) as [rep|e] eqn:Ec; [intros [= <- <-]; split; [done|]; left; by exists rep|].
  destruct (cli_failure e) eqn:Ef; cbn [negb].
  2: { intros [= <- <-]. split; [done|]. right. exists e. split; [done|]. left. rewrite <-cli_failure_iff, Ef. by split. }
  apply cli_failure_iff in Ef.
  destruct (truthy (fallback_backend getenv backend) && is_quota_or_rate_limit_error e) eqn:Et.
  2: { intros [= <- <-]. split; [done|]. right. exists e. split; [done|]. right. left. split_and!; [done| |done].
       intros (_ & Hne & Hq%is_quota_iff). rewrite Hq, andb_true_r in Et. by apply Hne, truthy_nil. }
  apply andb_true_iff in Et as [Et Hq%is_quota_iff].
  assert (quota_exhausted backend e) as Hqe.
  { split_and!; [done| |exact Hq]. intros E. rewrite E in Et. discriminate Et. }
  destruct (build_cli_invoker registry "executor" (fallback_name _)) as [j|e'] eqn:Ej.
  - destruct (call j sent) as [rep|e'] eqn:Ec2; intros [= <- <-]; (split_and!; [done|done|by exists e|]).
    + left. by exists rep.
    + right. by exists e'.
  - intros [= <- <-]. split; [done|]. right. exists e. split; [done|]. right. right. split; [done|]. by exists e'.
Qed.
End executor_properties.

(** ** What the planner adds *)
(** The planner never fails and never replaces a plan; it changes the hot
    context only to the hot context there was followed by the injected
    context, cut at the workspace's bound. *)
Theorem planner_update_bounded runtime can_run state :
  let u := planner_logic runtime can_run state in
  (pu_plan u = match plan (wf state) with PPlan _ => None | _ => Some (task (wf state)) end) ∧
  ∀ h, pu_hot_context u = Some h →
    ∃ i max_chars injected, runtime = Ok (Some i) ∧ in_max_chars i = Ok max_chars ∧ 0 < max_chars ∧ zlength h ≤ max_chars ∧
      injected = (Context.load_injected_context max_chars (in_policy i) (in_providers i) (run_id (wf state))).1 ∧
      h = stake (Z.to_nat max_chars)
            ((match st_hot_context state with Some old => if truthy old then old +:+ nl +:+ nl else EmptyString | None => EmptyString end)
             +:+ injected).
Proof.
  unfold planner_logic. destruct (inject runtime can_run state) as [hot events] eqn:E. cbn zeta. cbn [pu_plan pu_hot_context].
  split; [done|]. intros h ->. unfold inject in E. destruct runtime as [[i|]|]; [|done|done].
  destruct (in_max_chars i) as [m|] eqn:Em; [|done]. destruct can_run; cbn [negb] in E; [|done].
  destruct (Context.load_injected_context m _ _ _) as [injected evs] eqn:El. destruct (truthy injected) eqn:T; [|done].
  assert (0 < m) as Hm.
  { destruct (Z.ltb_spec 0 m) as [|Hle]; [done|]. unfold Context.load_injected_context in El. destruct (in_providers i); [by injection El as <- <-|].
    destruct (Z.leb_spec m 0); [by injection El as <- <-|lia]. }
  exists i, m, injected. rewrite El. cbn [fst]. injection E as <- <-.
  destruct (st_hot_context state) as [old|]; cbn [default from_option id]; [destruct (truthy old)|];
    rewrite ?sapp_assoc, zlength_stake; (split_and!; [done|done|done|lia|done|done]).
Qed.

(** ** Runs *)
Definition demo_backends : backends (I:=string) :=
  [("codex", builtin_adapter "codex" "codex" false (λ _, "codex")); ("claude-code", builtin_adapter "claude-code" "claude" false (λ _, "claude-code"))]%string.
Definition demo_plan : PlanArtifact := mkPlan "rename" ["edit"] [] (Some "pytest").
Definition demo_state : AgentState :=
  mkAgentState (mkState "rename f" None (PPlan demo_plan) RNone (Some "approved") None None) [] None None VNone None.
Definition demo_report : report := mkReportOf (mkExec completed [] [] []) (Some "exit code: 0") (Some EmptyString) [].
Definition demo_call (i : string) (_ : AgentState) : res report :=
  if String.eqb i "codex" then Raise (CliBackends.CliBackendError "You have hit your usage limit.") else Ok demo_report.
Definition demo_getenv (k : string) : option string := if String.eqb k "LLM_EXECUTOR" then Some "cli/codex" else None.
Definition demo_chat (m : string) : llm := mkLlm None (Some m) (Some m).
Lemma executor_node_spec_witness :
  let out := executor_node demo_getenv demo_chat id demo_call (λ _ _ _, Ok None) (Ok demo_backends) (λ _, Raise (ValueError "re")) None (λ _, "{}")
               demo_state in
  out = (Ok demo_report, ["codex"; "claude-code"]) ∧ quota_exhausted demo_getenv "codex" (CliBackends.CliBackendError "You have hit your usage limit.").
Proof.
  intros out. split; [vm_compute; reflexivity|].
  destruct (executor_node_spec demo_getenv demo_chat id demo_call (λ _ _ _, Ok None) (Ok demo_backends) (λ _, Raise (ValueError "re")) None (λ _, "{}"%string)
    demo_state demo_plan "codex" (Ok demo_report) ["codex"; "claude-code"]) as (sent & _ & _ & _ & (e & He & Hq) & _); [vm_compute; reflexivity..|].
  injection He as <-. exact Hq.
Defined.

(** The hot context and the summary reach a CLI architect through messages
    only, and the adapters of backends.py do not read them: the plan is the
    same whatever they are. *)
Lemma cli_architect_blind {I} getenv chat (call : I → AgentState → nat → res BackendArtifact) agent_invoke registry state l1 l2 backend :
  getenv "LLM_ARCHITECT" = Some ("cli/" +:+ backend) →
  (∀ i s l n, call i (with_messages l s) n = call i s n) →
  architect_plan getenv chat call agent_invoke registry state l1 = architect_plan getenv chat call agent_invoke registry state l2.
Proof.
  intros Hg Hc. unfold architect_plan. rewrite Hg. cbn [default from_option id].
  assert (startswith "cli/" ("cli/" +:+ backend) = true) as -> by apply startswith_app.
  destruct (build_cli_invoker _ _ _) as [i|]; cbn [mbind res_bind]; [|done].
  unfold invoke_with_llm_retry, LLM_RETRY_BACKOFF_SECONDS. cbn [retry_from]. by rewrite !Hc.
Qed.
Lemma builtin_architects_blind fuel scandir which decode run env ms plan_json e f s l :
  let call (s : AgentState) := (claude_invoker fuel scandir which decode run env ms plan_json "architect" (strategy_hint s) (wf s) e f).1.1 in
  call (with_messages l s) = call s.
Proof. done. Qed.

(** A profile with a CLI backend does not resolve against the empty registry
    of the architect's node: its summary settings are not used, and no hot
    context is loaded. *)
Definition cli_profile : Profile := mkProfile "w" None (Some "cli/codex") None None EmptyString None None (Some (mkSummaryConfig 10 1 None)) ["architect"; "summary"; "name"].
Example cli_profile_ignored :
  let pf := mkProfileFile None [("w"%string, cli_profile)] in
  (∃ p, resolve_profile 10 id ["r"] pf "w" demo_backends ["r"] ∅ = Ok p ∧ threshold_tokens (rp_summary p) = 10) ∧
  bound_profile (I:=string) 10 id ["r"] ∅ (Ok pf) (mkAgentState (wf demo_state) [] None None VNone (Some (mkBinding None None None (Some "w"%string) "/r"))) = None.
Proof. split; [eexists; split; vm_compute; reflexivity|vm_compute; reflexivity]. Qed.

(** A provider's block is framed within the bound of the workspace, and then
    cut off behind the hot context, although the run's events say it was
    given. *)
Example injected_block_cut :
  let i := mkInjection (Ok 60) None [Context.mkProvider "notes" (λ _, Context.Provided (Context.RStr "hello"))] in
  let state := mkAgentState (mkState "t" (Some "r1") PNone RNone None None None) [] (Some (String.concat EmptyString (repeat "h"%string 60))) None VNone None in
  let u := planner_logic (Ok (Some i)) true state in
  pu_hot_context u = Some (String.concat EmptyString (repeat "h"%string 60)) ∧ length (pu_events u) = 1%nat.
Proof. split; vm_compute; reflexivity. Qed.
