(* ===== verification/Brief.v ===== *)
(** * Session logs and the morning brief (agent_os/session_log.py, brief.py, brief_runtime.py)

    Both write to the vault through [gated_write].  A connector is seen through
    its notes (Nodes.v's [vault], and the dicts of [list_notes]) and, when it
    can write, through MemoryGate.v's [connector].  Dates are days of the
    proleptic calendar as the standard library reads and prints them; the
    model, the session table and the registry of backends answer through
    arguments.  The prompt of the brief is a text of code points, for it is
    partly Vietnamese. *)
From S2P Require Import MemoryGate Profiles HotContext Sessions Nodes Unicode.

(** [s[:100]] *)
Definition preview (s : string) : string := stake 100 s.

Section logs.
Context {St W : Type} `{PermissionRuleStore St}.
(** [iso now] is [now.isoformat()], [day now] its date. *)
Context (iso day : Z → string).

(** ** session_log.py *)
Definition session_ref (now : Z) : string := "AI/Logs/" +:+ day now +:+ ".md".
Definition session_frontmatter (now : Z) (thread_id : string) : pydict :=
  [("agent", VStr "agent-os"); ("created", VStr (iso now)); ("via", VStr "session-log"); ("source", VStr thread_id)].
Definition session_content (now : Z) (thread_id summary : string) (session_meta : pydict) : string :=
  let turn_count := default (VInt 0) (dget "turn_count" session_meta) in
  let title := default (VStr "Untitled Session") (dget "title" session_meta) in
  sjoin nl [nl +:+ "## Session: " +:+ py_str title +:+ " (" +:+ thread_id +:+ ")"; "- **Time**: " +:+ iso now;
            "- **Turns**: " +:+ py_str turn_count; "- **Agent**: agent-os"; "- **Via**: session-log"; EmptyString; summary; EmptyString].
Definition session_proposal (c : connector W) (now : Z) (summary : string) : MemoryWriteProposal :=
  mkMemProposal (default "memory"%string (mc_name c)) (session_ref now) "append"
    (preview summary +:+ (if Nat.ltb 100 (String.length summary) then "..." else EmptyString))
    ("Append session summary to " +:+ session_ref now).
(** [e]: the engine that is given, or the one [gated_write] resolves. *)
Definition write_session_summary (c : connector W) (thread_id summary : string) (session_meta : pydict) (e : engine) (now : Z)
    (os_user : string) (resume : option pyval) (st : pstate St (W * option MemoryWriteResult))
    : res MemoryWriteResult * pstate St (W * option MemoryWriteResult) :=
  gated_write c (session_proposal c now summary) (session_content now thread_id summary session_meta)
    (session_frontmatter now thread_id) e now os_user resume st.

(** ** brief.py *)
Definition brief_ref (date : string) : string := "AI/Briefs/" +:+ date +:+ ".md".
Definition brief_frontmatter (now : Z) : pydict :=
  [("agent", VStr "agent-os"); ("created", VStr (iso now)); ("via", VStr "morning-brief")].
Definition brief_proposal (c : connector W) (brief_md date : string) : MemoryWriteProposal :=
  mkMemProposal (default "memory"%string (mc_name c)) (brief_ref date) "create" (preview brief_md +:+ "...")
    ("Create morning brief for " +:+ date).
Definition write_brief (c : connector W) (brief_md date : string) (e : engine) (now : Z) (os_user : string) (resume : option pyval)
    (st : pstate St (W * option MemoryWriteResult)) : res MemoryWriteResult * pstate St (W * option MemoryWriteResult) :=
  gated_write c (brief_proposal c brief_md date) brief_md (brief_frontmatter now) e now os_user resume st.
End logs.

(** What a brief is made from. *)
Record source (W : Type) := mkSource { so_vault : vault; so_notes : res (list pydict); so_write : option (connector W) }.
Arguments mkSource {_} _ _ _. Arguments so_vault {_} _. Arguments so_notes {_} _. Arguments so_write {_} _.

Section generate.
(** [datetime.fromisoformat], [strptime] with "%Y-%m-%d", the day before, and
    [strftime] with that format; [now] is the clock as a double. *)
Context (fromisoformat strptime : string → res Z) (minus_one_day : Z → res Z) (strftime : Z → string)
  (now : SpecFloat.spec_float) (timestamp : string → option SpecFloat.spec_float).

Definition yesterday_of (date : string) : res string :=
  dt ← match fromisoformat date with
       | Ok dt => Ok dt
       | Raise (ValueError _) => strptime date
       | Raise e => Raise e
       end;
  before ← minus_one_day dt; Ok (strftime before).

(** [note.get(k, "")], a string in every note. *)
Definition str_of (k : string) (note : pydict) : string := match dget k note with Some (VStr s) => s | _ => EmptyString end.
Definition log_of (yesterday : string) (note : pydict) : string :=
  let ref := str_of "ref" note in
  if startswith "AI/Logs/" ref && contains yesterday ref then str_of "content" note +:+ nl else EmptyString.
Definition logs_content {W} (s : source W) (yesterday : string) : string :=
  match v_read (so_vault s) ("AI/Logs/" +:+ yesterday +:+ ".md") with
  | Ok n => note_content n
  | Raise _ => match so_notes s with Ok notes => String.concat EmptyString (map (log_of yesterday) notes) | Raise _ => EmptyString end
  end.
(** The connector's notes, with the defaults of [load_hot_context]. *)
Definition spine_content {W} (s : source W) (spine_sources : option (list string)) : string :=
  load_hot_context (v_read (so_vault s)) now (v_mtimes (so_vault s)) timestamp (v_list (so_vault s)) 8000 14 spine_sources.
(** A row of the sessions table as [list_sessions] returns it. *)
Definition session_dict (s : session) : pydict :=
  [("thread_id", VStr (se_thread_id s)); ("created_at", VStr (se_created_at s)); ("last_turn_at", VStr (se_last_turn_at s));
   ("turn_count", VInt (se_turn_count s)); ("title", VStr (se_title s)); ("workspace_id", from_option VStr VNone (se_workspace_id s));
   ("created_by", from_option VStr VNone (se_created_by s))].
Definition first_text (keys : list string) (d : pydict) (dflt : string) : string :=
  match first_truthy keys d with Some v => py_str v | None => dflt end.
Definition session_item (row : pydict) : string :=
  "- " +:+ first_text ["title"; "thread_id"] row "Untitled" +:+ " (Last updated: "
  +:+ py_str (default (VStr EmptyString) (dget "updated_at" row)) +:+ ")".
Definition sessions_content (sessions : list pydict) : string := sjoin nl (map session_item sessions).

Definition tagged (tag content : string) : text :=
  u ("<" +:+ tag +:+ ">" +:+ nl) ++ of_latin1 content ++ u (nl +:+ "</" +:+ tag +:+ ">" +:+ nl +:+ nl).
Definition brief_prompt (date logs spine sessions : string) : text :=
  u "You are a helpful AI assistant preparing a Morning Brief for the user for the date " ++ of_latin1 date
  ++ u ("." +:+ nl
        +:+ "Using the provided context, generate a concise Markdown briefing containing exactly these 3 sections:" +:+ nl
        +:+ "1. **Hôm qua**: What was accomplished yesterday (based on Yesterday's Logs)." +:+ nl
        +:+ "2. **Focus hôm nay**: What to focus on today (based on the Context Spine / Goals / Invariants)." +:+ nl
        +:+ "3. **Threads đang chờ**: Active or pending tasks (based on Active Sessions)." +:+ nl +:+ nl
        +:+ "If a section has no data, just say " +:+ q "Không có dữ liệu" +:+ "." +:+ nl +:+ nl)
  ++ tagged "yesterdays_logs" logs ++ tagged "context_spine" spine ++ tagged "active_sessions" sessions
  ++ u ("Respond ONLY with the Markdown content for the brief." +:+ nl).
Definition generate_brief {W} (s : source W) (sessions : list pydict) (date : string) (summarizer : text → res string)
    (spine_sources : option (list string)) : res string :=
  yesterday ← yesterday_of date;
  summarizer (brief_prompt date (logs_content s yesterday) (spine_content s spine_sources) (sessions_content sessions)).
End generate.

(** ** brief_runtime.py *)
Record BriefExecutionResult := mkBriefResult {
  bx_date : string; bx_content : string; bx_ref : option string; bx_write_result : option MemoryWriteResult; bx_error : option string }.
Definition bx_saved (r : BriefExecutionResult) : bool := match bx_write_result r with Some w => wr_committed w | None => false end.

Section runtime.
Context {I St W : Type} `{PermissionRuleStore St} (getenv : string → option string).

(** [runtime_memory]: the connector of the composed workspace, if any. *)
Definition resolve_brief_connector (runtime_memory : res (option (source W))) (gbrain : res (source W)) (markdown : string → res (source W))
    (sandbox_root : res string) (name : option string) : res (source W) :=
  let configured :=
    if String.eqb (default (default EmptyString (getenv "AGENT_OS_MEMORY_CONNECTOR")) (given_text name)) "gbrain" then gbrain
    else
      vault_path ← match given_text (getenv "AGENT_OS_VAULT_PATH") with Some p => Ok p | None => sandbox_root end;
      markdown vault_path in
  match given_text name with
  | Some _ => configured
  | None => runtime ← runtime_memory; match runtime with Some s => Ok s | None => configured end
  end.

(** An invoker is given the prompt as the task of a state without anything
    else. *)
Definition build_brief_summarizer (call : I → text → res BackendArtifact) (llm_invoke : llm → text → res string) (chat : string → llm)
    (registry : res (backends (I:=I))) (model : option string) : res (text → res string) :=
  let model_name := default (default "cli/claude-code"%string (given_text (getenv "LLM_ARCHITECT"))) (given_text model) in
  if startswith "cli/" model_name then
    invoker ← build_cli_invoker registry "architect" (sdrop 4 model_name);
    Ok (λ prompt, result ← call invoker prompt; artifact_summary result)
  else l ← get_architect_llm chat getenv (Some model_name); Ok (llm_invoke l).

Context (iso day : Z → string) (fromisoformat strptime : string → res Z) (minus_one_day : Z → res Z) (strftime : Z → string)
  (clock : SpecFloat.spec_float) (timestamp : string → option SpecFloat.spec_float).
Definition unwritable : string := "Configured memory connector does not support writing briefs.".
(** [connector]: the given one or the one resolved; [sessions] and
    [summarizer] may fail. *)
Definition execute_brief (date : option string) (connector : res (source W)) (sessions : res (list session))
    (summarizer : res (text → res string)) (write : bool) (e : engine) (now : Z) (os_user : string) (resume : option pyval)
    (st : pstate St (W * option MemoryWriteResult)) : res BriefExecutionResult * pstate St (W * option MemoryWriteResult) :=
  let date := default (day now) date in
  match (s ← connector; rows ← sessions; f ← summarizer;
         brief_md ← generate_brief fromisoformat strptime minus_one_day strftime clock timestamp s (map session_dict rows) date f None;
         Ok (s, brief_md)) with
  | Raise exc => (Raise exc, st)
  | Ok (s, brief_md) =>
      if negb write then (Ok (mkBriefResult date brief_md None None None), st)
      else match so_write s with
           | None => (Ok (mkBriefResult date brief_md None None (Some unwritable)), st)
           | Some c =>
               let '(r, st') := write_brief iso c brief_md date e now os_user resume st in
               (w ← r;
                Ok (if wr_committed w then mkBriefResult date brief_md (Some (wr_ref w)) (Some w) None
                    else mkBriefResult date brief_md None (Some w)
                           (Some (match given_text (wr_error w) with
                                  | Some m => m
                                  | None => "Brief write " +:+ wr_status w +:+ " before it was committed."
                                  end))), st')
           end
  end.
End runtime.

(** ** Properties *)
Section written.
Context {St W : Type} `{PermissionRuleStore St}.

(** A write that the built-in rules allow is authorised by a local policy, unless
    the user has denied it for good. *)
Lemma builtin_authorised lp now os_user (p : ActionProposal) resume (st : pstate St (W * option MemoryWriteResult)) d :
  ap_side_effect p = se_write → builtin_decision p = Some d → pd_decision d = allow →
  effect <$> fetch_rule (derive_permission_key p) st ≠ Some "always_deny"%string →
  Policy.authorised (ELocal lp) now os_user None VNone p resume st.
Proof.
  intros Hs Hb Hd Hr. unfold Policy.authorised. cbn [evaluate]. unfold local_evaluate. destruct (String.eqb (lp_mode lp) "off"); [by left|].
  assert (derive_tier p = "low"%string) as -> by (unfold derive_tier; by rewrite Hs).
  cbn [String.eqb Ascii.eqb Bool.eqb]. rewrite Hb. cbn [default from_option id].
  destruct (derive_permission_key p) as [k|]; [|by left].
  rewrite bool_decide_eq_false_2 by done. destruct (session_granted _ _ _); [by left|].
  destruct (bool_decide _); by left.
Qed.
Lemma gated_write_done c mp content fm e now os_user resume (st : pstate St (W * option MemoryWriteResult)) :
  supported c mp = true →
  Policy.authorised e now os_user None VNone (write_action (default (mp_connector mp) (mc_name c)) (mp_ref mp) (mp_mode mp)) resume
    (set_world ((world st).1, None) st) →
  let out := gated_write c mp content fm e now os_user resume st in
  (out.1, (world out.2).1) = mc_write_note c (mp_ref mp) content fm (mp_mode mp) (world st).1.
Proof.
  intros Hs Ha. pose proof (gated_write_cases c mp content fm e now os_user resume st) as Hg. cbn zeta in *.
  destruct (gated_write _ _ _ _ _ _ _ _ _) as [r st']. rewrite Hs in Hg. simpl in Hg. by destruct Hg as [[_ ?]|[? _]].
Qed.
End written.

Section reach.
Context {St W : Type} `{PermissionRuleStore St} (iso day : Z → string).
Notation pst := (pstate St (W * option MemoryWriteResult)).

(** The user has not denied this kind of write for good. *)
Definition not_denied (action : ActionProposal) (st : pst) : Prop :=
  effect <$> fetch_rule (derive_permission_key action) (set_world ((world st).1, None) st) ≠ Some "always_deny"%string.
Definition local_state (st : pst) : pst := set_world ((world st).1, None) st.


(** A session's summary reaches the vault without a question: under a local
    policy whose user has not denied such writes for good, it is one append of
    the whole summary to the log of the day, and its outcome is the vault's. *)
Theorem session_summary_written c thread_id summary session_meta lp now os_user resume (st : pst) :
  let action := write_action (default (default "memory" (mc_name c)) (mc_name c)) (session_ref day now) "append" in
  mem_str "append" (default MEMORY_WRITE_MODES (mc_supported_write_modes c)) = true →
  not_denied action st →
  let out := write_session_summary iso day c thread_id summary session_meta (ELocal lp) now os_user resume st in
  let content := session_content iso now thread_id summary session_meta in
  (out.1, (world out.2).1)
  = mc_write_note c (session_ref day now) content (session_frontmatter iso now thread_id) "append" (world st).1
  ∧ contains summary content = true ∧ contains thread_id content = true.
Proof.
  intros action Hm Hd. cbn zeta. split.
  - apply gated_write_done; cbn [session_proposal mp_mode mp_ref mp_connector].
    + unfold supported. cbn [session_proposal mp_mode]. by rewrite Hm.
    + eapply builtin_authorised; [done|reflexivity|done|exact Hd].
  - unfold session_content. cbn zeta. split.
    + eapply (contains_sjoin _ summary); [|apply contains_refl]. do 6 right. by left.
    + eapply contains_sjoin; [by left|]. do 4 apply contains_app_r. apply contains_here.
Qed.
End reach.

Section brief_written.
Context {St W : Type} `{PermissionRuleStore St} (iso day : Z → string) (fromisoformat strptime : string → res Z)
  (minus_one_day : Z → res Z) (strftime : Z → string) (clock : SpecFloat.spec_float) (timestamp : string → option SpecFloat.spec_float).
Notation pst := (pstate St (W * option MemoryWriteResult)).
Notation execute := (execute_brief iso day fromisoformat strptime minus_one_day strftime clock timestamp).

(** A brief is the model's answer to the prompt built from yesterday's
    log, the context spine and the sessions.  Asked to save it, a connector that can
    write is given it once, as the brief of the date, and the result says it is
    saved exactly when the connector says it is committed, with its reference,
    and gives an error otherwise; not asked, nothing is written. *)
Theorem brief_written s rows f write date lp now os_user resume (st : pst) r st' :
  let d := default (day now) date in
  (∀ c, so_write s = Some c →
     mem_str "create" (default MEMORY_WRITE_MODES (mc_supported_write_modes c)) = true ∧
     not_denied (write_action (default (default "memory" (mc_name c)) (mc_name c)) (brief_ref d) "create") st) →
  execute date (Ok s) (Ok rows) (Ok f) write (ELocal lp) now os_user resume st = (Ok r, st') →
  (∃ yesterday, yesterday_of fromisoformat strptime minus_one_day strftime d = Ok yesterday ∧
     f (brief_prompt d (logs_content s yesterday) (spine_content clock timestamp s None) (sessions_content (map session_dict rows)))
     = Ok (bx_content r)) ∧
  bx_date r = d ∧
  match (if write then so_write s else None) with
  | Some c => ∃ w, mc_write_note c (brief_ref d) (bx_content r) (brief_frontmatter iso now) "create" (world st).1 = (Ok w, (world st').1) ∧
      bx_write_result r = Some w ∧
      (if wr_committed w then bx_saved r = true ∧ bx_ref r = Some (wr_ref w) ∧ bx_error r = None
       else bx_saved r = false ∧ bx_ref r = None ∧ ∃ m, bx_error r = Some m ∧ m ≠ EmptyString)
  | None => st' = st ∧ bx_saved r = false ∧ bx_ref r = None ∧ (bx_error r = if write then Some unwritable else None)
  end.
Proof.
  intros d Hc. unfold execute_brief. fold d. cbn [mbind res_bind]. unfold generate_brief.
  destruct (yesterday_of _ _ _ _ d) as [yesterday|] eqn:Ey; cbn [mbind res_bind]; [|done].
  destruct (f _) as [brief_md|] eqn:Ef; cbn [mbind res_bind]; [|done].
  destruct write; cbn [negb].
  2: { intros [= <- <-]. split; [by exists yesterday|]. by split_and!. }
  destruct (so_write s) as [c|] eqn:Es.
  2: { intros [= <- <-]. split; [by exists yesterday|]. by split_and!. }
  destruct (Hc c eq_refl) as [Hm Hd].
  destruct (write_brief iso c brief_md d (ELocal lp) now os_user resume st) as [rw st1] eqn:Ew.
  assert ((rw, (world st1).1) = mc_write_note c (brief_ref d) brief_md (brief_frontmatter iso now) "create" (world st).1) as Hw.
  { unfold write_brief in Ew. pose proof (gated_write_done c (brief_proposal c brief_md d) brief_md (brief_frontmatter iso now) (ELocal lp) now os_user resume st) as Hg.
    cbn zeta in Hg. rewrite Ew in Hg. apply Hg; cbn [brief_proposal mp_mode mp_ref mp_connector].
    - unfold supported. cbn [brief_proposal mp_mode]. by rewrite Hm.
    - eapply builtin_authorised; [done|reflexivity|done|exact Hd]. }
  destruct rw as [w|e]; cbn [mbind res_bind]; [|done]. intros [= <- <-].
  destruct (wr_committed w) eqn:Ecm; cbn [bx_content bx_date bx_saved bx_ref bx_write_result bx_error];
    (split; [by exists yesterday|]; split; [done|]; exists w; split; [done|]; split; [done|]; unfold bx_saved; cbn [bx_write_result]).
  - by rewrite Ecm.
  - rewrite Ecm. split_and!; [done|done|]. destruct (given_text (wr_error w)) as [m|] eqn:Eg; eexists; (split; [done|]); [|done].
    unfold given_text in Eg. destruct (wr_error w) as [m'|]; [|done]. destruct (truthy m') eqn:T; [|done]. injection Eg as <-. by destruct m'.
Qed.

(** The dicts of [list_notes] have no content, so the fallback finds logs but
    only appends line ends. *)
Lemma fallback_loses_logs (s : source W) yesterday e notes :
  v_read (so_vault s) ("AI/Logs/" +:+ yesterday +:+ ".md") = Raise e → so_notes s = Ok notes →
  (∀ n, n ∈ notes → dget "content" n = None) →
  sforall is_space (logs_content s yesterday) = true.
Proof.
  intros Hr Hn Hc. unfold logs_content. rewrite Hr, Hn.
  clear Hr Hn. induction notes as [|n notes IH]; [done|].
  assert (str_of "content" n = EmptyString) as Hn by (unfold str_of; by rewrite (Hc n) by (by left)).
  assert (sforall is_space (log_of yesterday n) = true) as Hl by (unfold log_of; rewrite Hn; by destruct (_ && _)).
  specialize (IH (λ m Hm, Hc m (list_elem_of_further _ _ _ Hm))). cbn [map String.concat].
  destruct (map (log_of yesterday) notes); [done|]. by rewrite !sforall_app, Hl, IH.
Qed.
End brief_written.

(** A session's line shows no date: the column is last_turn_at, and the brief
    asks for updated_at. *)
Lemma session_date_missing s : ∃ title, session_item (session_dict s) = "- " +:+ title +:+ " (Last updated: )".
Proof. by eexists. Qed.

(** ** Runs *)
Definition demo_st : pstate Sqlite.t (list string * option MemoryWriteResult) := mkP ∅ None ([], None).
Lemma session_summary_written_witness :
  let out := write_session_summary (λ _, "2026-08-07T00:00:00+00:00") (λ _, "2026-08-07") demo_connector "t1" "done" []
               (ELocal demo_engine) 9 "op" None demo_st in
  length (world out.2).1 = 1%nat ∧ out.1 = Ok (mkWriteResult "AI/Logs/2026-08-07.md" "append" (Some 2) true "completed" None).
Proof.
  destruct (session_summary_written (λ _, "2026-08-07T00:00:00+00:00"%string) (λ _, "2026-08-07"%string) demo_connector "t1" "done" []
    demo_engine 9 "op" None demo_st) as [H _]; [reflexivity|vm_compute; discriminate|].
  split; [exact (f_equal (λ x, length x.2) H)|exact (f_equal fst H)].
Defined.
Definition demo_vault : vault := mkVault (Ok []) (λ ref, if String.eqb ref "AI/Logs/2026-08-06.md" then Ok (mkNote "shipped" []) else Raise (ValueError "Note not found")) None.
Definition demo_source : source (list string) := mkSource demo_vault (Ok []) (Some demo_connector).
Definition demo_run (st : pstate Sqlite.t (list string * option MemoryWriteResult)) :=
  execute_brief (λ _, "2026-08-07T00:00:00+00:00") (λ _, "2026-08-07") (λ _, Ok 20260807) (λ _, Ok 20260807) (λ d, Ok (d - 1))
    (λ _, "2026-08-06") (SpecFloat.S754_zero false) (λ _, None) None (Ok demo_source) (Ok []) (Ok (λ p, Ok "brief"%string)) true
    (ELocal demo_engine) 9 "op" None st.
Lemma brief_written_witness : ∃ r st', demo_run demo_st = (Ok r, st') ∧
  ∃ w, mc_write_note demo_connector (brief_ref "2026-08-07") (bx_content r) (brief_frontmatter (λ _, "2026-08-07T00:00:00+00:00") 9) "create" []
       = (Ok w, (world st').1) ∧ bx_write_result r = Some w.
Proof.
  eexists _, _. split; [vm_compute; reflexivity|].
  refine (_ (brief_written (λ _, "2026-08-07T00:00:00+00:00"%string) (λ _, "2026-08-07"%string) (λ _, Ok 20260807) (λ _, Ok 20260807)
    (λ d, Ok (d - 1)) (λ _, "2026-08-06"%string) (SpecFloat.S754_zero false) (λ _, None) demo_source [] (λ p, Ok "brief"%string) true None
    demo_engine 9 "op" None demo_st _ _ _ (eq_refl : demo_run demo_st = _))).
  - intros (_ & _ & w & H1 & H2 & _). exists w. split; [exact H1|exact H2].
  - intros c [= <-]. split; [reflexivity|vm_compute; discriminate].
Defined.
