(* ===== verification/Conformance.v ===== *)
(** * Conformance checks of extensions (agent_os/testing/conformance.py)

    The checks run on an object seen through the attributes they read: [None]
    is a missing attribute or one that cannot be called, and a call answers or
    raises.  The built-in components pass, and what passing guarantees is
    stated against the code that uses the extension. *)
From S2P Require Import Backends MemoryIndex Context.

Definition ConformanceError (msg : string) : exn := OtherError ("ConformanceError: " +:+ msg).
Definition reject {A} (msg : string) : res A := Raise (ConformanceError msg).
(** [raise ConformanceError(...) from exc] around a call. *)
Definition called {A} (what : string) (r : res A) : res A :=
  match r with Ok x => Ok x | Raise exc => reject (what +:+ " raised an exception: " +:+ exn_msg exc) end.
Definition nonblank_name (v : option pyval) : option string :=
  match v with Some (VStr s) => if truthy (strip s) then Some s else None | _ => None end.
Definition named {A} (kind : string) (v : option pyval) (f : string → res A) : res A :=
  match nonblank_name v with Some n => f n | None => reject (kind +:+ " must have a non-empty string 'name' attribute.") end.
Definition missing_method {A} (kind name method : string) : res A :=
  reject (kind +:+ " '" +:+ name +:+ "' missing callable method '" +:+ method +:+ "'.").

(** ** Memory connectors *)
Record memory_extension := mkMemoryObject {
  mo_name : option pyval; mo_search : option (string → Z → res pyval); mo_read_note : bool; mo_list_notes : option (res pyval) }.
Definition has_ref (v : pyval) : bool := match v with VDict d => dhas "ref" d | _ => false end.
Definition with_refs {A} (msg : string) (l : list pyval) (k : res A) : res A :=
  match List.find (λ v, negb (has_ref v)) l with Some v => reject (msg +:+ py_str v) | None => k end.
Definition check_memory_connector (o : memory_extension) : res unit :=
  named "MemoryConnector" (mo_name o) (λ name,
    match mo_search o with
    | None => missing_method "MemoryConnector" name "search"
    | Some search =>
        if negb (mo_read_note o) then missing_method "MemoryConnector" name "read_note"
        else
          match mo_list_notes o with
          | None => missing_method "MemoryConnector" name "list_notes"
          | Some list_notes =>
              notes ← called "MemoryConnector.list_notes()" list_notes;
              match notes with
              | VList notes =>
                  with_refs "Notes returned by list_notes() must be dicts with a 'ref' key, got: " notes
                    (hits ← called "MemoryConnector.search()" (search "test_conformance_query"%string 5);
                     match hits with
                     | VList hits =>
                         with_refs "Hits returned by search() must be dicts with a 'ref' key, got: " hits
                           (called "MemoryConnector.search(..., limit=0)"
                              (empty_hits ← search "test"%string 0;
                               match empty_hits with
                               | VList _ => Ok tt
                               | _ => reject "MemoryConnector.search() with limit=0 must return a list."
                               end))
                     | v => reject ("MemoryConnector.search() must return a list, got " +:+ type_name v +:+ ".")
                     end)
              | v => reject ("MemoryConnector.list_notes() must return a list or tuple, got " +:+ type_name v +:+ ".")
              end
          end
    end).

(** ** Action connectors *)
Record connector_object := mkConnectorObject {
  co_name : option pyval; co_capabilities : option (res pyval); co_describe : option (pyval → res pyval); co_invoke : bool }.
Definition SUPPORTED_SIDE_EFFECTS : list string := ["none"; "read"; "write"; "network"; "payment"; "communication"; "privileged"].
Fixpoint check_actions (describe : pyval → res pyval) (actions : list pyval) : res unit :=
  match actions with
  | [] => Ok tt
  | action :: rest =>
      side_effect ← called ("describe_side_effect('" +:+ py_str action +:+ "')") (describe action);
      match side_effect with
      | VStr s => if mem_str s SUPPORTED_SIDE_EFFECTS then check_actions describe rest
                  else reject ("Connector action '" +:+ py_str action +:+ "' declared invalid side effect '" +:+ s +:+ "'.")
      | v => reject ("Connector action '" +:+ py_str action +:+ "' declared invalid side effect '" +:+ py_str v +:+ "'.")
      end
  end.
Definition check_connector (o : connector_object) : res unit :=
  named "Connector" (co_name o) (λ name,
    match co_capabilities o, co_describe o with
    | None, _ => missing_method "Connector" name "capabilities"
    | _, None => missing_method "Connector" name "describe_side_effect"
    | Some capabilities, Some describe =>
        if negb (co_invoke o) then missing_method "Connector" name "invoke"
        else
          caps ← called "Connector.capabilities()" capabilities;
          match caps with
          | VDict d =>
              match dget "actions" d with
              | Some (VList actions) => check_actions describe actions
              | _ => reject "Connector.capabilities()['actions'] must be a sequence or set."
              end
          | v => reject ("Connector.capabilities() must return a mapping with an 'actions' sequence, got " +:+ type_name v +:+ ".")
          end
    end).

(** ** Context providers *)
Record provider_object := mkProviderObject { po_name : option pyval; po_provide : option (Z → res raw_result) }.
Definition first_of (keys : list string) (d : pydict) : pyval :=
  match List.find (λ k, from_option py_truthy false (dget k d)) keys with Some k => default VNone (dget k d) | None => VNone end.
Definition item_ok (i : item) : bool :=
  match i with
  | IBlock _ | IStr _ => true
  | IDict d => match first_of ["content"; "text"] d with VStr s => truthy (strip s) | _ => false end
  | IOther => false
  end.
Definition item_message (idx : nat) (i : item) : string :=
  "ContextProvider.provide() list element at index " +:+ str_of_Z (Z.of_nat idx)
  +:+ match i with
      | IDict _ => " dict must have a non-empty string 'content' or 'text' key."
      | _ => " has invalid type. Allowed element types are ContextBlock, str, or dict."
      end.
Fixpoint check_items (idx : nat) (l : list item) : res unit :=
  match l with
  | [] => Ok tt
  | i :: rest => if item_ok i then check_items (S idx) rest else reject (item_message idx i)
  end.
Definition check_context_provider (o : provider_object) : res unit :=
  named "ContextProvider" (po_name o) (λ name,
    match po_provide o with
    | None => missing_method "ContextProvider" name "provide"
    | Some provide =>
        r ← called "ContextProvider.provide()" (provide 1000);
        match r with
        | RStr _ | RBlock _ => Ok tt
        | RSeq l => check_items 0 l
        | ROther => reject "ContextProvider.provide() returned invalid type. Must be ContextBlock, list/tuple of supported blocks, or str (raw dict is not allowed)."
        end
    end).

(** ** Indexable memories *)
Record indexable_object := mkIndexableObject {
  io_index : option (res (option IndexResult)); io_reindex : option (res (option IndexResult)); io_index_status : option (res pyval) }.
Definition an_index_result (what : string) (r : res (option IndexResult)) : res unit :=
  o ← called what r;
  match o with Some _ => Ok tt | None => reject (what +:+ " must return an IndexResult instance.") end.
Definition check_indexable_memory (o : indexable_object) : res unit :=
  match io_index o, io_reindex o, io_index_status o with
  | None, _, _ => reject "IndexableMemory missing callable method 'index'."
  | _, None, _ => reject "IndexableMemory missing callable method 'reindex'."
  | _, _, None => reject "IndexableMemory missing callable method 'index_status'."
  | Some index, Some reindex, Some index_status =>
      status ← called "IndexableMemory.index_status()" index_status;
      match status with
      | VDict d =>
          if dhas "status" d && dhas "document_count" d then
            _ ← an_index_result "IndexableMemory.index()" index; an_index_result "IndexableMemory.reindex()" reindex
          else reject "IndexableMemory.index_status() must return a dict with 'status' (str) and 'document_count' (int) keys."
      | _ => reject "IndexableMemory.index_status() must return a dict with 'status' (str) and 'document_count' (int) keys."
      end
  end.

(** ** Backend adapters *)
(** [bo_roles]: [None] is not a set; an invoker is shown by whether it can be
    called. *)
Record adapter_object := mkAdapterObject {
  bo_name : option pyval; bo_binary_name : option pyval; bo_roles : option (list string);
  bo_authentication_status : option (res (option AuthStatus)); bo_build_invoker : option (string → res bool) }.
Definition BACKEND_ROLE_NAMES : list string := ["architect"; "executor"].
Fixpoint check_invokers (build : string → res bool) (roles : list string) : res unit :=
  match roles with
  | [] => Ok tt
  | role :: rest =>
      callable ← called ("BackendAdapter.build_invoker('" +:+ role +:+ "')") (build role);
      if callable : bool then check_invokers build rest
      else reject ("BackendAdapter.build_invoker('" +:+ role +:+ "') must return a callable.")
  end.
Definition check_backend_adapter (o : adapter_object) : res unit :=
  named "BackendAdapter" (bo_name o) (λ name,
    match bo_binary_name o, bo_roles o with
    | Some (VStr _), Some roles =>
        match List.find (λ r, negb (mem_str r BACKEND_ROLE_NAMES)) roles with
        | Some role => reject ("BackendAdapter '" +:+ name +:+ "' role '" +:+ role +:+ "' is not a valid BackendRole ('architect' or 'executor').")
        | None =>
            match bo_authentication_status o, bo_build_invoker o with
            | None, _ => missing_method "BackendAdapter" name "authentication_status"
            | _, None => missing_method "BackendAdapter" name "build_invoker"
            | Some status, Some build =>
                auth ← called "BackendAdapter.authentication_status()" status;
                match auth with
                | Some _ => check_invokers build roles
                | None => reject "BackendAdapter.authentication_status() must return an AuthStatus instance."
                end
            end
        end
    | Some (VStr _), None => reject ("BackendAdapter '" +:+ name +:+ "' missing 'supported_roles' set/frozenset.")
    | _, _ => reject ("BackendAdapter '" +:+ name +:+ "' missing 'binary_name' string attribute.")
    end).

(** ** Event sinks *)
(** What [emit] does with the sample event is ignored. *)
Record sink_object := mkSinkObject { so_name : option pyval; so_emit : bool }.
Definition check_event_sink (o : sink_object) : res unit :=
  named "EventSink" (so_name o) (λ name, if so_emit o then Ok tt else missing_method "EventSink" name "emit").

(** ** What passing guarantees *)
Lemma dict_item_lost d name : item_ok (IDict d) = true → block_of_item name (IDict d) = None →
  ∃ t, from_option py_truthy false (dget "content" d) = false ∧ dget "text" d = Some (VStr t) ∧ strip t ≠ EmptyString.
Proof.
  cbn [item_ok block_of_item]. unfold first_of. cbn [List.find]. destruct (from_option py_truthy false (dget "content" d)) eqn:Ec.
  - unfold or_str. destruct (dget "content" d) as [v|]; cbn [from_option default id] in *; [|done]. rewrite Ec.
    intros Ht. destruct v as [| | | |t0| | |]; try (exfalso; simpl in Ht; discriminate Ht). cbn [py_str]. unfold truthy in Ht.
    destruct (sempty (strip t0)); [discriminate Ht|]. intros Hb. discriminate Hb.
  - destruct (dget "text" d) as [w|] eqn:Ew; cbn [from_option default id]; [|done]. destruct (py_truthy w); [|done].
    rewrite Ew. cbn [default from_option id]. intros Ht _. destruct w as [| | | |t| | |]; try (exfalso; simpl in Ht; discriminate Ht). exists t. split_and!; [done|done|].
    intros E. rewrite E in Ht. discriminate Ht.
Qed.

(** Of a context provider that passes, [load_injected_context] turns every
    element of the answer into a block, except for blank texts and for dicts
    whose content is under "text". *)
Theorem provider_blocks_used o provide l name :
  check_context_provider o = Ok tt → po_provide o = Some provide → provide 1000 = Ok (RSeq l) →
  ∀ i, i ∈ l → block_of_item name i = None →
    (∃ s, i = IStr s ∧ strip s = EmptyString) ∨
    (∃ d t, i = IDict d ∧ from_option py_truthy false (dget "content" d) = false ∧ dget "text" d = Some (VStr t) ∧ strip t ≠ EmptyString).
Proof.
  unfold check_context_provider, named. destruct (nonblank_name _); [|done]. intros Hc Hp Hl. rewrite Hp in Hc. rewrite Hl in Hc.
  cbn [called mbind res_bind] in Hc. clear Hp Hl. revert Hc. generalize 0%nat as idx.
  induction l as [|j l IH]; intros idx; cbn [check_items]; [intros _ i H; by apply not_elem_of_nil in H|].
  destruct (item_ok j) eqn:Ej; [|done]. intros Hc i [-> |Hi]%elem_of_cons; [clear IH Hc|by eapply IH].
  destruct j as [b|d|s0|]; [discriminate| | |discriminate].
  - intros Hn. right. destruct (dict_item_lost d name Ej Hn) as (t & ?). by exists d, t.
  - cbn [block_of_item]. destruct (sempty (strip s0)) eqn:E; [|discriminate]. intros _. left. exists s0. split; [reflexivity|].
    destruct (strip s0); [reflexivity|discriminate E].
Qed.
Definition demo_provider (_ : Z) : res raw_result := Ok (RSeq [IStr "a"; IDict [("text"%string, VStr "lost")]; IDict [("content"%string, VStr "b")]]).
Definition demo_object : provider_object := mkProviderObject (Some (VStr "notes")) (Some demo_provider).
Lemma provider_blocks_used_witness :
  check_context_provider demo_object = Ok tt ∧
  ∃ d t, IDict [("text"%string, VStr "lost")] = IDict d ∧ dget "text" d = Some (VStr t) ∧ strip t ≠ EmptyString.
Proof.
  split; [vm_compute; reflexivity|].
  destruct (provider_blocks_used demo_object demo_provider
    [IStr "a"; IDict [("text"%string, VStr "lost")]; IDict [("content"%string, VStr "b")]] "notes" ltac:(vm_compute; reflexivity) eq_refl eq_refl
    (IDict [("text"%string, VStr "lost")]) ltac:(right; left) ltac:(vm_compute; reflexivity)) as [(s & H & _)|(d & t & Hd & _ & Ht)].
  - discriminate H.
  - exists d, t. split; [exact Hd|exact Ht].
Defined.

(** A provider that passes may have all of its content dropped. *)
Example text_blocks_dropped :
  let provide (_ : Z) : res raw_result := Ok (RSeq [IDict [("text"%string, VStr "lost")]]) in
  check_context_provider (mkProviderObject (Some (VStr "notes")) (Some provide)) = Ok tt
  ∧ load_injected_context 1000 None [mkProvider "notes" (λ n, match provide n with Ok r => Provided r | Raise e => ProviderRaised e end)] None
    = (EmptyString, []).
Proof. split; vm_compute; reflexivity. Qed.

(** ** The built-in extensions *)
(** [FilesystemConnector] *)
Definition filesystem_object : connector_object :=
  mkConnectorObject (Some (VStr "filesystem")) (Some (Ok (VDict [("actions", VList [VStr "read"; VStr "list"; VStr "stat"])])))
    (Some (λ _, Ok (VStr "read"))) true.
Definition adapter_object_of {I} (a : BackendAdapter I) (status : AuthStatus) : adapter_object :=
  mkAdapterObject (Some (VStr (ad_name a))) (Some (VStr (ad_binary_name a))) (Some (ad_supported_roles a)) (Some (Ok (Some status)))
    (Some (λ role, _ ← ad_build_invoker a role; Ok true)).

(** The dicts a vault answers with. *)
Definition hit_dict (h : search_hit) : pyval :=
  VDict [("ref", VStr (hit_ref h)); ("title", hit_title h); ("snippet", VStr (hit_snippet h)); ("score", VFloat (hit_score h));
         ("source", VDict ([("path", VStr (hit_ref h)); ("source_type", VStr "markdown_vault")]
                           ++ match hit_heading h with Some s => [("heading", VStr s)] | None => [] end))].
Definition listed_dict (n : string * pyval) : pyval := VDict [("ref", VStr n.1); ("title", n.2)].
Definition status_dict (index_path : path) (s : status_report) : pyval :=
  VDict [("status", VStr (status s)); ("document_count", VInt (document_count s)); ("index_path", VStr (abs_str index_path));
         ("last_indexed_at", last_indexed_at s)].

Section vault.
Context (fuel : nat) (root : path) (rglob : fs → path → list path) (dir_size : fs → path → Z)
  (st_mtime : Z → SpecFloat.spec_float) (math_log : SpecFloat.spec_float → SpecFloat.spec_float) (now : Z) (now_iso : string).
Notation vault_search := (search fuel root rglob dir_size st_mtime math_log now now_iso).
(** The vault on the file systems of the listing, of the search and of the
    search without results. *)
Definition vault_object (f0 f1 f2 : fs) : memory_extension :=
  mkMemoryObject (Some (VStr "markdown_vault"))
    (Some (λ query n, hits ← (vault_search query n (if n =? 0 then f2 else f1)).1; Ok (VList (map hit_dict hits))))
    true (Some (Ok (VList (map listed_dict (list_notes fuel root rglob f0))))).
Definition vault_indexable (f0 f1 f2 : fs) : indexable_object :=
  mkIndexableObject (Some (r ← (index fuel root rglob st_mtime now now_iso None f1).1; Ok (Some r)))
    (Some (r ← (reindex fuel root rglob st_mtime now now_iso f2).1; Ok (Some r)))
    (Some (Ok (status_dict (index_path root) (index_status fuel root rglob st_mtime f0)))).

Lemma find_none {A} (p : A → bool) l : (∀ x, x ∈ l → p x = false) → List.find p l = None.
Proof.
  induction l as [|x l IH]; intros H; [done|]. cbn [List.find]. rewrite (H x) by (by left). apply IH. intros y Hy. apply H. by right.
Qed.
Lemma with_refs_all {A} msg (l : list pyval) (k : res A) : (∀ v, v ∈ l → has_ref v = true) → with_refs msg l k = k.
Proof. intros H. unfold with_refs. rewrite find_none; [done|]. intros v Hv. by rewrite H. Qed.

(** The built-in extensions pass: the filesystem connector, every adapter
    with a name and the roles architect and executor, the webhook sinks, and the
    markdown vault as long as its index can be read: then its notes and hits
    are dicts with a reference, and its status and index have the required
    form. *)
Theorem built_ins_conform {I} (name binary_name : string) (stub : bool) (invoker : string → I) (auth : AuthStatus) (f0 f1 f2 : fs) :
  check_connector filesystem_object = Ok tt ∧
  (truthy (strip name) = true →
   check_backend_adapter (adapter_object_of (builtin_adapter name binary_name stub invoker) auth) = Ok tt) ∧
  (truthy (strip name) = true → check_event_sink (mkSinkObject (Some (VStr name)) true) = Ok tt) ∧
  ((∃ hits, (vault_search "test_conformance_query" 5 f1).1 = Ok hits) → (∃ hits, (vault_search "test" 0 f2).1 = Ok hits) →
   check_memory_connector (vault_object f0 f1 f2) = Ok tt) ∧
  ((∃ r, (index fuel root rglob st_mtime now now_iso None f1).1 = Ok r) → (∃ r, (reindex fuel root rglob st_mtime now now_iso f2).1 = Ok r) →
   check_indexable_memory (vault_indexable f0 f1 f2) = Ok tt).
Proof.
  split_and!.
  - reflexivity.
  - intros Hn. unfold check_backend_adapter, named, adapter_object_of, builtin_adapter. cbn [bo_name nonblank_name ad_name]. rewrite Hn. reflexivity.
  - intros Hn. unfold check_event_sink, named. cbn [so_name nonblank_name]. rewrite Hn. reflexivity.
  - intros [hits H1] [none H2]. unfold check_memory_connector, named. cbn [mo_name vault_object nonblank_name].
    change (truthy (strip "markdown_vault")) with true. cbn [vault_object mo_search mo_read_note mo_list_notes negb called mbind res_bind].
    rewrite with_refs_all. 2: { intros v (n & -> & _)%list_elem_of_fmap. done. }
    change (5 =? 0) with false. cbn iota. rewrite H1. cbn [called mbind res_bind].
    rewrite with_refs_all. 2: { intros v (h & -> & _)%list_elem_of_fmap. done. }
    change (0 =? 0) with true. cbn iota. rewrite H2. done.
  - intros [r1 H1] [r2 H2]. unfold check_indexable_memory, an_index_result. cbn [vault_indexable io_index io_reindex io_index_status].
    rewrite H1, H2. done.
Qed.
End vault.
Definition demo_files : fs := {[ ["v"%string] := NDir ]}.
Definition demo_time (z : Z) : SpecFloat.spec_float := SpecFloat.S754_zero false.
Lemma built_ins_conform_witness :
  check_backend_adapter (adapter_object_of (builtin_adapter "codex" "codex" false (λ _, 0)) (mkAuth "ok" "Authenticated")) = Ok tt ∧
  check_memory_connector (vault_object 9 ["v"] (λ _ _, []) (λ _ _, 0) demo_time id 0 "now" demo_files demo_files demo_files) = Ok tt ∧
  check_indexable_memory (vault_indexable 9 ["v"] (λ _ _, []) demo_time 0 "now" demo_files demo_files demo_files) = Ok tt.
Proof.
  destruct (built_ins_conform 9 ["v"] (λ _ _, []) (λ _ _, 0) demo_time id 0 "now" "codex" "codex" false (λ _, 0) (mkAuth "ok" "Authenticated")
    demo_files demo_files demo_files) as (_ & Ha & _ & Hm & Hi).
  split; [apply Ha; reflexivity|]. split.
  - apply Hm; eexists; vm_compute; reflexivity.
  - apply Hi; eexists; vm_compute; reflexivity.
Defined.
