(* ===== verification/Stores.v ===== *)
(** * Storage protocols (agent_os/stores/)

    The protocols of stores/protocols.py as classes, and the SQLite stores as
    their instances: each method calls the function of runs.py, schedules.py or
    observations.py.  What a run store promises is one step relation on the
    statuses of the runs; clients are proved against it, and the SQLite
    ledger implements it.  The permission stores are PermissionStore.v's. *)
From S2P Require Import Plugins Observations Schedules Runs.

(** ** The protocols (protocols.py) *)
(** [uuid] and [now] are what a call takes from the clock and the random
    source. *)
Class RunStore (S : Type) := {
  rs_create_run (uuid now thread_id : string) (workspace task workspace_id created_by created_by_kind : option string)
    (principal : option Principal) : S → res (string * S);
  rs_append_event (now r kind : string) (payload : pydict) : S → res (Z * S);
  rs_set_status (now r st : string) (error : option string) (ended : bool) : S → S;
  rs_transition_status (now r expected st : string) (error : option string) (ended : bool) : S → bool * S;
  rs_get_run (r : string) : S → option run_row;
  rs_list_runs (st workspace workspace_id : option string) (lim : Z) : S → list run_row;
  rs_list_events (r : string) (after : Z) : S → res (list event);
  rs_record_approval (now r decision actor_id actor_kind : string) (on_behalf_of reason : option string) : S → res (Z * S);
  rs_record_approval_and_transition (now r decision actor_id actor_kind : string) (on_behalf_of reason : option string)
    (expected st : string) (error : option string) (ended : bool) : S → bool * S;
  rs_record_cancellation_and_transition (now r actor_id actor_kind : string) (on_behalf_of reason : option string) : S → bool * S;
  rs_list_approvals (r : string) : S → list approval_row }.
Class ScheduleStore (S : Type) := {
  ss_create_schedule (uuid : string) (now : Z) (name kind trigger_kind trigger_value timezone : string) (payload : pydict)
    (enabled : bool) : S → res (string * S);
  ss_get_schedule (sid : string) : S → res (option (schedule * pyval));
  ss_list_schedules (kind : option string) (on : option bool) : S → res (list (schedule * pyval));
  ss_remove_schedule (sid : string) : S → bool * S;
  ss_set_schedule_enabled (now : Z) (sid : string) (on : bool) : S → bool * S;
  ss_claim_due_schedules (now lim : Z) : S → res (list (schedule * pyval) * S);
  ss_record_schedule_result (now : Z) (sid st : string) (error : option string) : S → S }.
(** [os_record_outcome] takes [observation_id], [outcome_signal] and
    [outcome_evidence] as keywords. *)
Class ObservationStore (S : Type) := {
  os_create (uuid now : string) (a : create_args) : S → res (observation * S);
  os_list (workspace_id : string) (task_kind : option string) (lim : Z) : S → res (list observation);
  os_get (oid : string) : S → res (option observation);
  os_record_outcome (oid : string) (signal evidence : pyval) (now : string) : S → res (option observation) * S;
  os_assign_strategy (now workspace_id task_kind run_id strategy_id : string) (strategy_version : Z)
    (selection_reason selector_version : string) (evidence_summary : option pydict) : S → res (string * S);
  os_get_strategy_assignment (run_id : string) : S → res (option StrategyAssignment) }.

(** ** The SQLite stores *)
#[export] Instance SqliteRunStore : RunStore ledger := {|
  rs_create_run := create_run; rs_append_event := append_event; rs_set_status := set_status;
  rs_transition_status := transition_status; rs_get_run := get_run; rs_list_runs := list_runs; rs_list_events := list_events;
  rs_record_approval := record_approval; rs_record_approval_and_transition := record_approval_and_transition;
  rs_record_cancellation_and_transition := record_cancellation_and_transition; rs_list_approvals := list_approvals |}.
(** [schedules.claim_due_schedules] has no parameter [now_utc]. *)
Definition unexpected_keyword (f keyword : string) : exn :=
  TypeError (f +:+ "() got an unexpected keyword argument '" +:+ keyword +:+ "'").
#[export] Instance SqliteScheduleStore `{Cron} : ScheduleStore (list schedule) := {|
  ss_create_schedule := create_schedule; ss_get_schedule := get_schedule; ss_list_schedules := list_schedules;
  ss_remove_schedule := remove_schedule; ss_set_schedule_enabled := set_schedule_enabled;
  ss_claim_due_schedules now lim rows := Raise (unexpected_keyword "claim_due_schedules" "now_utc");
  ss_record_schedule_result := record_schedule_result |}.
(** The implementation calls its keywords [signal] and [evidence]. *)
#[export] Instance SqliteObservationStore : ObservationStore store := {|
  os_create := create; os_list w k n := list_observations (Some w) k n; os_get := get;
  os_record_outcome oid signal evidence now st :=
    (Raise (unexpected_keyword "SqliteObservationStore.record_outcome" "outcome_signal"), st);
  os_assign_strategy := assign_strategy; os_get_strategy_assignment := get_strategy_assignment |}.

(** ** Connections (base.py) and backends (__init__.py) *)
Definition configure_sqlite_connection (wal : bool) (busy_timeout_ms : Z) : list string :=
  (if wal then ["PRAGMA journal_mode=WAL"%string] else [])
  ++ (if 0 <? busy_timeout_ms then ["PRAGMA busy_timeout="%string +:+ str_of_Z busy_timeout_ms] else []).
Definition STORES_GROUP : string := "agent_os.stores".
Section backends.
Context {A : Type} (entry_points : string → list (entry_point A)).
Definition resolve_store_backend (name : string) : res A := resolve_plugin entry_points STORES_GROUP name.
Definition list_store_backends : res (list string) := list_available entry_points STORES_GROUP.
End backends.

(** ** What a run store promises *)
Inductive call :=
  | Create (uuid now thread_id : string) (workspace task workspace_id created_by created_by_kind : option string) (principal : option Principal)
  | Event (now r kind : string) (payload : pydict)
  | SetStatus (now r st : string) (error : option string) (ended : bool)
  | Transition (now r expected st : string) (error : option string) (ended : bool)
  | Audit (now r decision actor_id actor_kind : string) (on_behalf_of reason : option string)
  | Approve (now r decision actor_id actor_kind : string) (on_behalf_of reason : option string) (expected st : string)
      (error : option string) (ended : bool)
  | Cancel (now r actor_id actor_kind : string) (on_behalf_of reason : option string).
Inductive reply := RId (r : string) | RSeq (n : Z) | RBool (b : bool) | RNone | RRaised.

Section run_store.
Context {S : Type} `{RunStore S}.
Definition run_call (c : call) (s : S) : reply * S :=
  match c with
  | Create u n t w k wi cb cbk p => match rs_create_run u n t w k wi cb cbk p s with Ok (r, s') => (RId r, s') | Raise _ => (RRaised, s) end
  | Event n r k p => match rs_append_event n r k p s with Ok (q, s') => (RSeq q, s') | Raise _ => (RRaised, s) end
  | SetStatus n r st e d => (RNone, rs_set_status n r st e d s)
  | Transition n r x st e d => let '(b, s') := rs_transition_status n r x st e d s in (RBool b, s')
  | Audit n r de a ak ob re => match rs_record_approval n r de a ak ob re s with Ok (q, s') => (RSeq q, s') | Raise _ => (RRaised, s) end
  | Approve n r de a ak ob re x st e d =>
      let '(b, s') := rs_record_approval_and_transition n r de a ak ob re x st e d s in (RBool b, s')
  | Cancel n r a ak ob re => let '(b, s') := rs_record_cancellation_and_transition n r a ak ob re s in (RBool b, s')
  end.
Fixpoint run_calls (cs : list call) (s : S) : list reply * S :=
  match cs with
  | [] => ([], s)
  | c :: cs' => let '(r, s1) := run_call c s in let '(rs, s2) := run_calls cs' s1 in (r :: rs, s2)
  end.
End run_store.

(** The statuses of the runs before and after a call, with its reply. *)
Notation statuses := (gmap string string).
Inductive spec_call : call → statuses → reply → statuses → Prop :=
  | sp_create u n t w k wi cb cbk p σ : σ !! u = None → spec_call (Create u n t w k wi cb cbk p) σ (RId u) (<[u := "queued"%string]> σ)
  | sp_create_twice u n t w k wi cb cbk p σ : is_Some (σ !! u) → spec_call (Create u n t w k wi cb cbk p) σ RRaised σ
  | sp_event n r k p σ q : spec_call (Event n r k p) σ (RSeq q) σ
  | sp_event_bad n r k p σ : spec_call (Event n r k p) σ RRaised σ
  | sp_set n r st e d σ : spec_call (SetStatus n r st e d) σ RNone (alter (λ _, st) r σ)
  | sp_move n r x st e d σ : σ !! r = Some x → spec_call (Transition n r x st e d) σ (RBool true) (<[r := st]> σ)
  | sp_stay n r x st e d σ : σ !! r ≠ Some x → spec_call (Transition n r x st e d) σ (RBool false) σ
  | sp_audit n r de a ak ob re σ q : is_Some (σ !! r) → spec_call (Audit n r de a ak ob re) σ (RSeq q) σ
  | sp_audit_none n r de a ak ob re σ : σ !! r = None → spec_call (Audit n r de a ak ob re) σ RRaised σ
  | sp_approve n r de a ak ob re x st e d σ : σ !! r = Some x →
      spec_call (Approve n r de a ak ob re x st e d) σ (RBool true) (<[r := st]> σ)
  | sp_refuse n r de a ak ob re x st e d σ : σ !! r ≠ Some x → spec_call (Approve n r de a ak ob re x st e d) σ (RBool false) σ
  | sp_cancel n r a ak ob re σ x : σ !! r = Some x → terminal x = false →
      spec_call (Cancel n r a ak ob re) σ (RBool true) (<[r := "cancelled"%string]> σ)
  | sp_over n r a ak ob re σ : (∀ x, σ !! r = Some x → terminal x = true) → spec_call (Cancel n r a ak ob re) σ (RBool false) σ.

Class RunStoreLaws (S : Type) `{RunStore S} := {
  rs_ok : S → Prop;
  rs_statuses : S → statuses;
  rs_get_status s r : rs_ok s → status <$> rs_get_run r s = rs_statuses s !! r;
  rs_refines s c : rs_ok s → let '(rep, s') := run_call c s in rs_ok s' ∧ spec_call c (rs_statuses s) rep (rs_statuses s') }.

(** ** The ledger keeps the promise *)
Definition ledger_statuses (L : ledger) : statuses := status <$> to_map run_id (runs L).
Lemma ledger_statuses_lookup L r : ledger_statuses L !! r = run_status r L.
Proof. unfold ledger_statuses, run_status, get_run. by rewrite lookup_fmap, to_map_select. Qed.
Lemma fmap_alter_status f r x rows : (∀ row, status (f row) = x) →
  status <$> alter f r (to_map run_id rows) = alter (λ _, x) r (status <$> to_map run_id rows).
Proof.
  intros Hf. apply map_eq. intros k. rewrite lookup_fmap. destruct (decide (k = r)) as [->|Hne].
  - rewrite !lookup_alter_eq, lookup_fmap. destruct (to_map run_id rows !! r); [|done]. cbn. by rewrite Hf.
  - by rewrite !lookup_alter_ne, lookup_fmap.
Qed.
Lemma update_id p f (rows : list run_row) : (∀ row, row ∈ rows → p row = false) → update_where p f rows = rows.
Proof.
  induction rows as [|x rows IH]; intros H; [done|]. cbn [update_where map]. rewrite (H x) by (by left). f_equal. apply IH.
  intros row Hr. apply H. by right.
Qed.
Lemma no_match p (rows : list run_row) : rowcount p rows ≠ 1%nat → (rowcount p rows ≤ 1)%nat → ∀ row, row ∈ rows → p row = false.
Proof.
  intros H1 H2 row Hr. unfold rowcount in *. destruct (p row) eqn:E; [|done]. exfalso.
  assert (row ∈ List.filter p rows) as Hin by by apply list_elem_of_In, filter_In; rewrite <-list_elem_of_In.
  destruct (List.filter p rows); [by apply not_elem_of_nil in Hin|]. simpl in *. lia.
Qed.
(** An update of the rows in a given status, as the ledger's guards make it. *)
Lemma statuses_cas r x y f L L' : ledger_ok L → (∀ row, run_id (f row) = run_id row) → (∀ row, status (f row) = y) →
  runs L' = update_where (in_status r x) f (runs L) →
  ledger_statuses L' = if decide (ledger_statuses L !! r = Some x) then <[r := y]> (ledger_statuses L) else ledger_statuses L.
Proof.
  intros [Hk _ _] Hi Hs HL. destruct (keyed_rowcount r x (runs L) Hk) as [Hle Hone]. destruct (decide _) as [Hx|Hx].
  - apply map_eq. intros k. rewrite ledger_statuses_lookup in *. unfold run_status, get_run in *. rewrite HL.
    destruct (select_one (has_key run_id r) (runs L)) as [row|] eqn:E; [|done]. injection Hx as Hx.
    destruct (decide (k = r)) as [->|Hne].
    + rewrite lookup_insert_eq, (update_this r x f (runs L) row) by done. cbn. by rewrite Hs.
    + rewrite lookup_insert_ne, ledger_statuses_lookup by done. unfold run_status, get_run. rewrite update_other; [done|done|].
      intros row' H. unfold in_status, has_key in H. apply andb_true_iff in H as [H _]. apply String.eqb_eq in H. congruence.
  - unfold ledger_statuses at 1. rewrite HL, update_id; [done|]. apply no_match; [|done].
    rewrite Hone. intros (row & Hr & Hst). apply Hx. rewrite ledger_statuses_lookup. unfold run_status, get_run. rewrite Hr. cbn. by rewrite Hst.
Qed.
(** The call of the SQLite store, as a function of runs.py. *)
Ltac ledger_calls :=
  cbn [run_call SqliteRunStore rs_create_run rs_append_event rs_set_status rs_transition_status rs_get_run rs_record_approval rs_record_approval_and_transition rs_record_cancellation_and_transition].
Lemma run_call_ok c L : ledger_ok L → ledger_ok (run_call c L).2.
Proof.
  intros Hok. destruct c; ledger_calls.
  - destruct (create_run _ _ _ _ _ _ _ _ _ _) as [[r L']|] eqn:E; [|done]. eapply lstep_ok; [by eapply step_create|done].
  - destruct (append_event _ _ _ _ _) as [[r' L']|] eqn:E; [|done]. eapply lstep_ok; [by eapply step_event|done].
  - eapply lstep_ok; [by apply step_status|done].
  - destruct (transition_status _ _ _ _ _ _ _) as [b L'] eqn:E. eapply lstep_ok; [by eapply step_transition|done].
  - destruct (record_approval _ _ _ _ _ _ _ _) as [[r' L']|] eqn:E; [|done]. eapply lstep_ok; [by eapply step_approval|done].
  - destruct (record_approval_and_transition _ _ _ _ _ _ _ _ _ _ _ _) as [b L'] eqn:E. eapply lstep_ok; [by eapply step_approve|done].
  - destruct (record_cancellation_and_transition _ _ _ _ _ _ _) as [b L'] eqn:E. eapply lstep_ok; [by eapply step_cancel|done].
Qed.

Lemma ledger_refines L c : ledger_ok L →
  spec_call c (ledger_statuses L) (run_call c L).1 (ledger_statuses (run_call c L).2).
Proof.
  intros Hok. destruct c as [u n t w k wi cb cbk p|n r k p|n r st e d|n r x st e d|n r de a ak ob re|n r de a ak ob re x st e d|n r a ak ob re]; ledger_calls.
  - unfold create_run. destruct (select_one (has_key run_id u) (runs L)) as [row|] eqn:E; cbn [fst snd].
    + constructor. rewrite ledger_statuses_lookup. unfold run_status, get_run. cbn [runs]. by rewrite E.
    + assert (to_map run_id (runs L) !! u = None) as Hn by by rewrite to_map_select.
      unfold ledger_statuses. cbn [runs].
      rewrite (to_map_snoc run_id (runs L) (mkRun u t _ _ "queued" k _ _ n n None None)) by done.
      rewrite fmap_insert. constructor. rewrite lookup_fmap. cbn [run_id]. by rewrite Hn.
  - destruct (append_event n r k p L) as [[q L']|] eqn:E; cbn [fst snd]; [|constructor].
    apply res_bind_ok in E as (s & _ & [= <- <-]). constructor.
  - unfold set_status. cbn [fst snd]. unfold ledger_statuses at 2. cbn [runs set_runs]. rewrite to_map_update by done.
    rewrite (fmap_alter_status _ _ st) by done. constructor.
  - unfold transition_status. cbn [fst snd]. match goal with |- spec_call _ _ _ (ledger_statuses ?L') => rewrite (statuses_cas r x st (update_run n st e d) L L' Hok) by done end.
    destruct (keyed_rowcount r x (runs L) (ok_runs _ Hok)) as [Hle Hone].
    destruct (decide _) as [Hx|Hx]; rewrite ledger_statuses_lookup in Hx; unfold run_status, get_run in Hx.
    + assert (rowcount (in_status r x) (runs L) = 1%nat) as ->.
      { apply Hone. destruct (select_one _ _) as [row|]; [|done]. injection Hx as Hx. by exists row. }
      constructor. rewrite ledger_statuses_lookup. done.
    + assert ((rowcount (in_status r x) (runs L) =? 1)%nat = false) as ->.
      { apply Nat.eqb_neq. intros H%Hone. destruct H as (row & Hr & Hs). rewrite Hr in Hx. cbn in Hx. congruence. }
      constructor. rewrite ledger_statuses_lookup. done.
  - unfold record_approval. destruct (select_one (has_key run_id r) (runs L)) as [row|] eqn:E; cbn [fst snd].
    + unfold add_approval. cbn [fst snd]. constructor. rewrite ledger_statuses_lookup. unfold run_status, get_run. cbn [runs]. by rewrite E.
    + constructor. rewrite ledger_statuses_lookup. unfold run_status, get_run. cbn [runs]. by rewrite E.
  - unfold record_approval_and_transition. destruct (select_one (has_key run_id r) (runs L)) as [row|] eqn:E; cbn [fst snd].
    2: { constructor. rewrite ledger_statuses_lookup. unfold run_status, get_run. cbn [runs]. by rewrite E. }
    assert (ledger_statuses L !! r = Some (status row)) as Hs by (rewrite ledger_statuses_lookup; unfold run_status, get_run; cbn [runs]; by rewrite E).
    destruct (String.eqb_spec (status row) x) as [Hx|Hx]; cbn [negb fst snd].
    + unfold add_approval. cbn [fst snd runs].
      match goal with |- spec_call _ _ _ (ledger_statuses ?L') => rewrite (statuses_cas r x st (update_run n st e d) L L' Hok) by done end. rewrite decide_True by by rewrite Hs, Hx. constructor. by rewrite Hs, Hx.
    + constructor. rewrite Hs. congruence.
  - unfold record_cancellation_and_transition. destruct (select_one (has_key run_id r) (runs L)) as [row|] eqn:E; cbn [fst snd].
    2: { constructor. intros x. rewrite ledger_statuses_lookup. unfold run_status, get_run. cbn [runs]. by rewrite E. }
    assert (ledger_statuses L !! r = Some (status row)) as Hs by (rewrite ledger_statuses_lookup; unfold run_status, get_run; cbn [runs]; by rewrite E).
    destruct (terminal (status row)) eqn:T; cbn [fst snd]; [constructor; intros x; rewrite Hs; by intros [= <-]|].
    unfold add_approval. cbn [fst snd runs].
    assert (rowcount (in_status r (status row)) (runs L) = 1%nat) as ->.
    { apply (keyed_rowcount r (status row) (runs L) (ok_runs _ Hok)). by exists row. }
    cbn [Nat.eqb fst snd].
    match goal with |- spec_call _ _ _ (ledger_statuses ?L') => rewrite (statuses_cas r (status row) "cancelled" (cancel_run n) L L' Hok) by done end. rewrite decide_True by done. by econstructor.
Qed.
#[export] Instance ledger_laws : RunStoreLaws ledger.
Proof.
  apply (Build_RunStoreLaws ledger _ ledger_ok ledger_statuses).
  - intros L r _. by rewrite ledger_statuses_lookup.
  - intros L c Hok. pose proof (ledger_refines L c Hok) as H. pose proof (run_call_ok c L Hok) as H'.
    destruct (run_call c L) as [rep L']. by split.
Defined.

(** ** Clients, over any run store *)
(** A call that can put the run [r] into the status [x]. *)
Definition puts (r x : string) (c : call) : bool :=
  match c with
  | Create u _ _ _ _ _ _ _ _ => String.eqb u r && String.eqb x "queued"
  | SetStatus _ r' st _ _ | Transition _ r' _ st _ _ | Approve _ r' _ _ _ _ _ _ st _ _ => String.eqb r' r && String.eqb st x
  | Cancel _ r' _ _ _ _ => String.eqb r' r && String.eqb x "cancelled"
  | Event _ _ _ _ | Audit _ _ _ _ _ _ _ => false
  end.
Lemma spec_puts c σ rep σ' r x : spec_call c σ rep σ' → puts r x c = false → σ !! r ≠ Some x → σ' !! r ≠ Some x.
Proof.
  assert (∀ (s : statuses) k v, (String.eqb k r && String.eqb v x)%bool = false → s !! r ≠ Some x → <[k := v]> s !! r ≠ Some x) as Hins.
  { intros s k v H Hs. destruct (decide (k = r)) as [->|Hne].
    - rewrite lookup_insert_eq. rewrite String.eqb_refl in H. apply String.eqb_neq in H. congruence.
    - by rewrite lookup_insert_ne. }
  destruct 1; cbn [puts]; intros Hp Hx; try done; try (by apply Hins).
  - apply Hins; [|done]. by rewrite (String.eqb_sym "queued").
  - destruct (decide (r0 = r)) as [->|Hne].
    + rewrite lookup_alter_eq. destruct (σ !! r); [|done]. cbn. rewrite String.eqb_refl in Hp. apply String.eqb_neq in Hp. congruence.
    + by rewrite lookup_alter_ne.
  - apply Hins; [|done]. by rewrite (String.eqb_sym "cancelled").
Qed.

Section clients.
Context {S : Type} `{RunStoreLaws S}.
Lemma run_calls_puts cs r x : ∀ s : S, rs_ok s → forallb (λ c, negb (puts r x c)) cs = true → rs_statuses s !! r ≠ Some x →
  rs_ok (run_calls cs s).2 ∧ rs_statuses (run_calls cs s).2 !! r ≠ Some x.
Proof.
  induction cs as [|c cs IH]; intros s Hok Hp Hx; cbn [run_calls]; [done|].
  cbn [forallb] in Hp. apply andb_true_iff in Hp as [Hc Hp]. apply negb_true_iff in Hc.
  pose proof (rs_refines s c Hok) as Hr. destruct (run_call c s) as [rep s1]. destruct Hr as [Hok1 Hs].
  specialize (IH s1 Hok1 Hp (spec_puts _ _ _ _ _ _ Hs Hc Hx)). by destruct (run_calls cs s1).
Qed.

(** Over any run store that keeps the promise, whatever other calls come in
    between: two approvals of a run waiting in the status [x] both succeed only
    if one of those calls put the run back into that status. *)
Theorem decided_once now r de a ak ob re x st e d now' de' a' ak' ob' re' st' e' d' cs (s : S) :
  rs_ok s → st ≠ x →
  let '(rep, s1) := run_call (Approve now r de a ak ob re x st e d) s in
  let '(_, s2) := run_calls cs s1 in
  let '(rep', _) := run_call (Approve now' r de' a' ak' ob' re' x st' e' d') s2 in
  rep = RBool true → rep' = RBool true → existsb (puts r x) cs = true.
Proof.
  intros Hok Hne. pose proof (rs_refines s (Approve now r de a ak ob re x st e d) Hok) as H1.
  destruct (run_call _ s) as [rep s1]. destruct H1 as [Hok1 Hs1].
  destruct (run_calls cs s1) as [reps s2] eqn:E2.
  destruct (run_call (Approve now' r de' a' ak' ob' re' x st' e' d') s2) as [rep' s3] eqn:E3. intros -> ->.
  destruct (existsb (puts r x) cs) eqn:Ep; [done|]. exfalso.
  assert (forallb (λ c, negb (puts r x c)) cs = true) as Hall.
  { clear -Ep. induction cs as [|c cs IH]; [done|]. cbn [existsb forallb] in *. apply orb_false_iff in Ep as [-> Ep]. by apply IH. }
  assert (rs_statuses s1 !! r ≠ Some x) as Hx.
  { inversion Hs1 as [| | | | | | | | |? ? ? ? ? ? ? ? ? ? ? ? Hrx| | |]; subst. rewrite lookup_insert_eq. congruence. }
  destruct (run_calls_puts cs r x s1 Hok1 Hall Hx) as [Hok2 Hx2]. rewrite E2 in Hok2, Hx2. cbn [snd] in *.
  pose proof (rs_refines s2 (Approve now' r de' a' ak' ob' re' x st' e' d') Hok2) as H3. rewrite E3 in H3. destruct H3 as [_ Hs3].
  inversion Hs3; subst. contradiction.
Qed.
End clients.

Inductive spec_run : list call → statuses → list reply → statuses → Prop :=
  | sr_done σ : spec_run [] σ [] σ
  | sr_call c cs σ rep σ1 reps σ2 : spec_call c σ rep σ1 → spec_run cs σ1 reps σ2 → spec_run (c :: cs) σ (rep :: reps) σ2.
Lemma run_calls_spec {S} `{RunStoreLaws S} cs : ∀ s : S, rs_ok s →
  rs_ok (run_calls cs s).2 ∧ spec_run cs (rs_statuses s) (run_calls cs s).1 (rs_statuses (run_calls cs s).2).
Proof.
  induction cs as [|c cs IH]; intros s Hok; cbn [run_calls]; [split; [done|constructor]|].
  pose proof (rs_refines s c Hok) as Hr. destruct (run_call c s) as [rep s1]. destruct Hr as [Hok1 Hs].
  destruct (IH s1 Hok1) as [Hok2 Hs2]. destruct (run_calls cs s1) as [reps s2]. split; [done|by econstructor].
Qed.
(** C10. The SQLite run store keeps the promise of a run store: whatever calls it
    is given from the empty database on, its replies are those of the machine
    of statuses, and the runs it returns have that machine's statuses. *)
Theorem sqlite_run_store_refines cs :
  let '(reps, L) := run_calls cs empty_ledger in
  ∃ σ, spec_run cs ∅ reps σ ∧ ∀ r, status <$> get_run r L = σ !! r.
Proof.
  assert (ledger_ok empty_ledger) as H0 by (split; [constructor|done|done]).
  pose proof (run_calls_spec (S:=ledger) cs empty_ledger H0) as [Hok Hs]. destruct (run_calls cs empty_ledger) as [reps L].
  exists (ledger_statuses L). split; [exact Hs|]. intros r. by rewrite ledger_statuses_lookup.
Qed.

(** ** Runs *)
Definition demo_approve (actor : string) : call :=
  Approve "t1" "r1" "approved" actor "human" None None "interrupted" "running" None false.
Lemma decided_once_witness :
  existsb (puts "r1" "interrupted") [SetStatus "t2" "r1" "interrupted" None false] = true ∧
  (run_calls [demo_approve "a"; demo_approve "b"; SetStatus "t2" "r1" "interrupted" None false; demo_approve "b"] sample).1
  = [RBool true; RBool false; RNone; RBool true].
Proof.
  split; [|vm_compute; reflexivity].
  refine (_ (decided_once "t1" "r1" "approved" "a" "human" None None "interrupted" "running" None false "t1" "approved" "b" "human" None None
    "running" None false [SetStatus "t2" "r1" "interrupted" None false] sample sample_ok ltac:(discriminate))).
  intros H. vm_compute in H. exact (H eq_refl eq_refl).
Defined.
(** The schedule store of the library cannot claim, and its observation store
    cannot record an outcome the way its protocol calls it. *)
Example sqlite_schedules_never_claimed `{Cron} now lim rows :
  ss_claim_due_schedules now lim rows = Raise (TypeError "claim_due_schedules() got an unexpected keyword argument 'now_utc'").
Proof. reflexivity. Qed.
