(* ===== verification/Mcp.v ===== *)
(** * MCP servers (agent_os/mcp.py)

    The server configurations the environment asks for, and the tools of the
    servers under prefixed names.  The client library answers through an
    argument: a list of tools and other objects, something else, an exception,
    or an interrupt of the process. *)
From S2P Require Import Net Schemas Paths.

Definition strip_lower (s : string) : string := lower (strip s).
Definition parse_env_bool (getenv : string → option string) (name : string) (dflt : bool) : res bool :=
  match getenv name with
  | None => Ok dflt
  | Some value =>
      let normalized := strip_lower value in
      if mem_str normalized ["1"; "true"; "yes"; "on"] then Ok true
      else if mem_str normalized ["0"; "false"; "no"; "off"] then Ok false
      else Raise (ValueError ("Invalid boolean value for " +:+ name +:+ ": " +:+ repr_str value))
  end.

Definition validate_http_url (name value : string) : res string :=
  match urlsplit value with
  | None => Raise (ValueError "Invalid URL")
  | Some parsed =>
      if negb (mem_str (scheme parsed) ["http"; "https"]) || negb (from_option truthy false (hostname parsed)) then
        Raise (ValueError (name +:+ " must be an absolute HTTP(S) URL"))
      else
        match userinfo parsed with
        | (None, None) => Ok value
        | _ => Raise (ValueError (name +:+ " must not contain embedded credentials"))
        end
  end.

Section configs.
Context (fuel : nat) (f : fs) (cwd home : path).
Definition validate_sandbox_root (sandbox_path : string) : res path :=
  if negb (truthy sandbox_path) then
    Raise (ValueError "AGENT_OS_SANDBOX must be configured when MCP_FILESYSTEM_ENABLED is true")
  else
    resolved ← realpath fuel f (join_path cwd (parse_path sandbox_path));
    home ← realpath fuel f home;
    if bool_decide (resolved = home) then Raise (ValueError "Filesystem MCP root cannot be the user home directory itself.")
    else if negb (is_relative_to home resolved) then Raise (ValueError "Filesystem MCP root must be inside the user home directory.")
    else Ok resolved.

(** A server: a command with its arguments, or an address. *)
Inductive server_config := Stdio (command : string) (args : list string) | Http (url : string).
Definition filesystem_config (root : path) : server_config :=
  Stdio "npx" ["-y"; "@modelcontextprotocol/server-filesystem"; abs_str root].
Definition build_mcp_server_configs (getenv : string → option string) : res (list (string * server_config)) :=
  filesystem ← parse_env_bool getenv "MCP_FILESYSTEM_ENABLED" false;
  c1 ← (if filesystem : bool then root ← validate_sandbox_root (default EmptyString (getenv "AGENT_OS_SANDBOX"));
                                  Ok [("filesystem"%string, filesystem_config root)]
        else Ok []);
  codegraph ← parse_env_bool getenv "MCP_CODEGRAPH_ENABLED" false;
  c2 ← (if codegraph : bool then
          let cg_command := strip (default "codegraph"%string (getenv "MCP_CODEGRAPH_COMMAND")) in
          if negb (truthy cg_command) then Raise (ValueError "MCP_CODEGRAPH_COMMAND cannot be blank when enabled.")
          else Ok [("codegraph"%string, Stdio cg_command ["serve"; "--mcp"])]
        else Ok []);
  let gbrain_url := strip (default EmptyString (getenv "MCP_GBRAIN_URL")) in
  c3 ← (if truthy gbrain_url then url ← validate_http_url "MCP_GBRAIN_URL" gbrain_url; Ok [("gbrain"%string, Http url)] else Ok []);
  Ok (c1 ++ c2 ++ c3).
End configs.

(** ** Loading *)
Section tools.
Context {T : Type} (name : T → string) (with_name : string → T → T).
(** [None]: an object of the list that is no tool. *)
Inductive server_tools := Tools (l : list (option T)) | NoList | Failure (e : exn) | Interrupted (e : exn).
Definition prefixed (server_name : string) (tool : T) : T := with_name ("mcp_" +:+ server_name +:+ "_" +:+ name tool) tool.
Definition tools_of (server_name : string) (t : server_tools) : list T :=
  match t with Tools l => map (prefixed server_name) (omap id l) | _ => [] end.
Fixpoint load_all (get_tools : string → server_config → server_tools) (configs : list (string * server_config)) : res (list T) :=
  match configs with
  | [] => Ok []
  | (server_name, config) :: rest =>
      match get_tools server_name config with
      | Interrupted e => Raise e
      | t => more ← load_all get_tools rest; Ok (tools_of server_name t ++ more)
      end
  end.
(** [server_configs]: given, or built from the environment. *)
Definition load_mcp_tools (server_configs : option (list (string * server_config))) (built : res (list (string * server_config)))
    (get_tools : string → server_config → server_tools) : res (list T) :=
  resolved_configs ← match server_configs with Some c => Ok c | None => built end;
  load_all get_tools resolved_configs.
End tools.
Arguments server_tools : clear implicits.

(** ** Properties *)
(** C17. The filesystem server is configured only when it is enabled, and its
    root is the resolved sandbox, strictly below the user's resolved home; the
    codegraph server has a command; the address of gbrain is the one of the
    environment without white space around it, has a host and no credentials. *)
Theorem servers_confined fuel f cwd home getenv configs :
  build_mcp_server_configs fuel f cwd home getenv = Ok configs →
  ∀ server c, (server, c) ∈ configs →
    (server = "filesystem"%string ∧ parse_env_bool getenv "MCP_FILESYSTEM_ENABLED" false = Ok true ∧
     ∃ root h below, c = filesystem_config root ∧ realpath fuel f home = Ok h ∧ root = h ++ below ∧ below ≠ [] ∧
       realpath fuel f (join_path cwd (parse_path (default EmptyString (getenv "AGENT_OS_SANDBOX")))) = Ok root) ∨
    (server = "codegraph"%string ∧ parse_env_bool getenv "MCP_CODEGRAPH_ENABLED" false = Ok true ∧
     ∃ command, c = Stdio command ["serve"; "--mcp"]%string ∧ command ≠ EmptyString) ∨
    (server = "gbrain"%string ∧ ∃ url parsed, c = Http url ∧ Some url = strip <$> getenv "MCP_GBRAIN_URL" ∧
       urlsplit url = Some parsed ∧ userinfo parsed = (None, None) ∧ ∃ h, hostname parsed = Some h ∧ h ≠ EmptyString).
Proof.
  unfold build_mcp_server_configs. intros H.
  apply res_bind_ok in H as (b1 & Hb1 & H). apply res_bind_ok in H as (c1 & Hc1 & H).
  apply res_bind_ok in H as (b2 & Hb2 & H). apply res_bind_ok in H as (c2 & Hc2 & H).
  apply res_bind_ok in H as (c3 & Hc3 & [= <-]). intros server c. rewrite !elem_of_app. intros [Hin|[Hin|Hin]].
  - left. destruct b1; [|injection Hc1 as <-; by apply not_elem_of_nil in Hin].
    apply res_bind_ok in Hc1 as (root & Hr & [= <-]). apply list_elem_of_singleton in Hin as [= -> ->].
    split; [done|]. split; [done|]. unfold validate_sandbox_root in Hr. destruct (negb _); [done|].
    apply res_bind_ok in Hr as (resolved & H1 & Hr). apply res_bind_ok in Hr as (h & H2 & Hr).
    destruct (bool_decide (resolved = h)) eqn:Eh; [done|]. apply bool_decide_eq_false in Eh.
    destruct (is_relative_to h resolved) eqn:Er; [|done]. injection Hr as <-.
    unfold is_relative_to in Er. apply bool_decide_eq_true in Er as [below Hbelow]. apply relative_parts_Some in Hbelow.
    exists resolved, h, below. split_and!; [done|done|done| |done]. intros ->. by rewrite app_nil_r in Hbelow.
  - right. left. destruct b2; [|injection Hc2 as <-; by apply not_elem_of_nil in Hin].
    cbn zeta in Hc2. destruct (truthy (strip _)) eqn:T; cbn [negb] in Hc2; [|done]. injection Hc2 as <-.
    apply list_elem_of_singleton in Hin as [= -> ->]. split; [done|]. split; [done|]. eexists. split; [done|].
    intros E. by rewrite E in T.
  - right. right. destruct (truthy (strip (default EmptyString (getenv "MCP_GBRAIN_URL")))) eqn:T; [|injection Hc3 as <-; by apply not_elem_of_nil in Hin].
    apply res_bind_ok in Hc3 as (url & Hu & [= <-]). apply list_elem_of_singleton in Hin as [= -> ->]. split; [done|].
    unfold validate_http_url in Hu. destruct (urlsplit _) as [parsed|] eqn:Eu; [|done].
    destruct (mem_str _ _); [|done]. cbn [negb orb] in Hu. destruct (hostname parsed) as [h|] eqn:Eh; [|done]. cbn [from_option] in Hu.
    destruct (truthy h) eqn:Th; [|done]. cbn [negb] in Hu.
    destruct (userinfo parsed) as [[?|] [?|]] eqn:Ei; try done. injection Hu as <-.
    eexists _, parsed. split_and!; [done| |done|done|].
    + destruct (getenv "MCP_GBRAIN_URL"); [done|]. discriminate T.
    + exists h. split; [done|]. intros ->. discriminate Th.
Qed.

Section loaded.
Context {T : Type} (name : T → string) (with_name : string → T → T) (get_tools : string → server_config → server_tools T).

(** A server that fails, or answers something else than a list, costs only
    its own tools: unless the process is interrupted, what is loaded is every
    tool of every other server, in the order of the configuration, each under
    its name with the prefix of its server. *)
Theorem mcp_failures_isolated configs built :
  (∀ n t, name (with_name n t) = n) →
  (∀ server c e, (server, c) ∈ configs → get_tools server c ≠ Interrupted e) →
  ∃ tools, load_mcp_tools name with_name (Some configs) built get_tools = Ok tools ∧
    tools = concat (map (λ sc, tools_of name with_name sc.1 (get_tools sc.1 sc.2)) configs) ∧
    ∀ n, n ∈ map name tools ↔
      ∃ server c l t, (server, c) ∈ configs ∧ get_tools server c = Tools l ∧ Some t ∈ l ∧ n = "mcp_" +:+ server +:+ "_" +:+ name t.
Proof.
  intros Hname Hint. exists (concat (map (λ sc, tools_of name with_name sc.1 (get_tools sc.1 sc.2)) configs)).
  split; [|split; [done|]].
  - unfold load_mcp_tools. cbn [mbind res_bind]. induction configs as [|[server c] configs IH]; [done|]. cbn [load_all map concat fst snd].
    specialize (IH (λ s c e Hin, Hint s c e (list_elem_of_further _ _ _ Hin))).
    destruct (get_tools server c) as [l| |e|e] eqn:E; [by rewrite IH..|]. exfalso. apply (Hint server c e); [by left|done].
  - intros n. rewrite list_elem_of_fmap. split.
    + intros (t & -> & Ht). apply list_elem_of_In, in_concat in Ht as (l & Hl & Ht). apply in_map_iff in Hl as ([server c] & <- & Hsc).
      apply list_elem_of_In in Hsc, Ht. cbn [fst snd] in Ht. unfold tools_of in Ht.
      destruct (get_tools server c) as [l| |e|e] eqn:E; try (by apply not_elem_of_nil in Ht).
      apply list_elem_of_fmap in Ht as (t0 & -> & Ht0). apply list_elem_of_omap in Ht0 as (o & Ho & Hid). cbn in Hid. subst o.
      exists server, c, l, t0. unfold prefixed. by rewrite Hname.
    + intros (server & c & l & t & Hsc & Hg & Ht & ->). exists (prefixed name with_name server t).
      split; [unfold prefixed; by rewrite Hname|]. apply list_elem_of_In, in_concat. exists (tools_of name with_name server (get_tools server c)).
      split; [apply in_map_iff; exists (server, c); split; [done|by apply list_elem_of_In]|]. apply list_elem_of_In. rewrite Hg.
      unfold tools_of. apply list_elem_of_fmap. exists t. split; [done|]. apply list_elem_of_omap. by exists (Some t).
Qed.
End loaded.

(** ** Runs *)
Definition demo_home : fs := {[ ["h"%string] := NDir; ["h"; "box"]%string := NDir ]}.
Definition demo_env (k : string) : option string :=
  if String.eqb k "MCP_FILESYSTEM_ENABLED" then Some " Yes " else if String.eqb k "AGENT_OS_SANDBOX" then Some "/h/box"
  else if String.eqb k "MCP_GBRAIN_URL" then Some "https://brain.example/mcp" else None.
Lemma servers_confined_witness : ∃ configs, build_mcp_server_configs 9 demo_home [] ["h"] demo_env = Ok configs ∧
  ("filesystem"%string, filesystem_config ["h"; "box"]) ∈ configs.
Proof.
  eexists. split; [vm_compute; reflexivity|].
  destruct (servers_confined 9 demo_home [] ["h"] demo_env _ ltac:(vm_compute; reflexivity) "filesystem" (filesystem_config ["h"; "box"]))
    as [_|[(H & _)|(H & _)]]; [left|left|discriminate H|discriminate H].
Defined.
Lemma mcp_failures_isolated_witness :
  ∃ tools, load_mcp_tools fst (λ n t, (n, t.2)) (Some [("a"%string, Http "x"); ("b"%string, Http "y")]) (Ok [])
             (λ s _, if String.eqb s "a" then Failure (ValueError "down") else Tools [Some ("find"%string, 1); None]) = Ok tools
           ∧ "mcp_b_find"%string ∈ map fst tools.
Proof.
  destruct (mcp_failures_isolated fst (λ n (t : string * Z), (n, t.2))
    (λ s _, if String.eqb s "a" then Failure (ValueError "down") else Tools [Some ("find"%string, 1); None])
    [("a"%string, Http "x"); ("b"%string, Http "y")] (Ok [])) as (tools & H1 & _ & H2).
  - reflexivity.
  - intros server c e _. destruct (String.eqb server "a"); discriminate.
  - exists tools. split; [exact H1|]. apply H2. exists "b"%string, (Http "y"), [Some ("find"%string, 1); None], ("find"%string, 1).
    split; [right; left|]. split; [reflexivity|]. split; [left|reflexivity].
Defined.
