(* ===== verification/AuthoringApi.v ===== *)
(** * The authoring endpoints (agent_os/server/api.py)

    Requests for skill authoring over HTTP: the handler takes the service of
    the active workspace and turns its answer into a body, status 400 with the
    message of a SkillAuthoringError, or status 500 with a fixed text.  A body
    is the data before its JSON encoding. *)
From S2P Require Import Endpoints SkillAuthoring.
From S2P Require Runtime Workspace.

(** A handler's [except] clauses. *)
Definition authoring_failure {A} (detail : string) (e : exn) : http A :=
  match e with SkillAuthoringError m => HTTPError 400 m | _ => HTTPError 500 detail end.
Definition authoring_answer {A} (detail : string) (r : res A) : http A :=
  match r with Ok a => Body a | Raise e => authoring_failure detail e end.

Section endpoints.
Context (fuel : nat) (sha256 : string → string) (toml_loads : string → option pydict).
Context (exec_module : path → fs → option module) (compile : string → res PyRe.re) (home : string → option path).
Context (load_config : path → fs → res unit) (reload : fs → res unit) (cwd : path).

(** [service]: the base path and the skills of the active workspace, or what
    composing it or opening its store raised. *)
Definition service_of {I A C P K St : Type} (opened : res unit)
    (r : res (option (Workspace.ComposedWorkspace I A C P K St))) : res (path * list string) :=
  r ← r; w ← Runtime.runtime_skill_authoring_workspace r; _ ← opened;
  Ok (Workspace.base_path w, Workspace.ws_skills w).

Notation service := (res (path * list string)).
Implicit Types (st : state) (srv : service).

Definition list_skill_authoring_requests_endpoint srv st : http (list AuthoringRequest) :=
  match srv with
  | Ok (base_path, _) => Body (list_requests (workspace_id base_path) st.1)
  | Raise _ => HTTPError 500 "Failed to read skill authoring requests"
  end.

(** A handler that runs one operation of the service. *)
Definition with_service (detail : string) srv
    (op : path → list string → state → res AuthoringRequest * state) st : http AuthoringRequest * state :=
  match srv with
  | Ok (base_path, skills) => let '(r, st') := op base_path skills st in (authoring_answer detail r, st')
  | Raise e => (authoring_failure detail e, st)
  end.

Definition prepare_skill_authoring_request_endpoint srv (rid : string) (c : CandidateAuthoringInput) (now : Z) :=
  with_service "Failed to prepare skill authoring brief" srv
    (λ base_path _, prepare_brief fuel base_path rid c now).
Definition submit_skill_draft_endpoint srv (rid draft_path : string) :=
  with_service "Failed to validate skill draft" srv
    (λ base_path skills, submit_draft fuel sha256 toml_loads exec_module compile home base_path skills cwd rid draft_path).
Definition cancel_skill_authoring_request_endpoint srv (rid : string) :=
  with_service "Failed to cancel skill authoring request" srv (λ base_path _, cancel base_path rid).
(** The last component: the handler dropped the cached workspace. *)
Definition confirm_skill_registration_endpoint srv (rid : string) (confirm : bool) (now : Z) (uuid config_temp_name : string)
    st : http AuthoringRequest * state * bool :=
  let '(answer, st') :=
    with_service "Failed to register skill package" srv
      (λ base_path skills, confirm_registration fuel sha256 toml_loads exec_module compile home load_config reload
                             base_path skills cwd rid confirm now uuid config_temp_name) st in
  (answer, st', match answer with Body _ => true | HTTPError _ _ => false end).

Inductive authoring_call :=
  | CallList
  | CallPrepare (rid : string) (c : CandidateAuthoringInput) (now : Z)
  | CallSubmit (rid draft_path : string)
  | CallCancel (rid : string)
  | CallRegister (rid : string) (confirm : bool) (now : Z) (uuid config_temp_name : string).
Definition one (a : http AuthoringRequest) : http (list AuthoringRequest) :=
  match a with Body r => Body [r] | HTTPError code detail => HTTPError code detail end.
Definition handle srv (call : authoring_call) st : http (list AuthoringRequest) * state :=
  match call with
  | CallList => (list_skill_authoring_requests_endpoint srv st, st)
  | CallPrepare rid c now =>
      let '(a, st') := prepare_skill_authoring_request_endpoint srv rid c now st in (one a, st')
  | CallSubmit rid p => let '(a, st') := submit_skill_draft_endpoint srv rid p st in (one a, st')
  | CallCancel rid => let '(a, st') := cancel_skill_authoring_request_endpoint srv rid st in (one a, st')
  | CallRegister rid confirm now uuid tmp =>
      let '(a, st', _) := confirm_skill_registration_endpoint srv rid confirm now uuid tmp st in (one a, st')
  end.
End endpoints.

(** ** Workspaces do not see each other *)
Section isolation.
Context (fuel : nat) (sha256 : string → string) (toml_loads : string → option pydict).
Context (exec_module : path → fs → option module) (compile : string → res PyRe.re) (home : string → option path).
Context (load_config : path → fs → res unit) (reload : fs → res unit) (cwd base_path : path) (skills : list string).
Implicit Types (rows : requests) (f : fs).
Notation wid := (workspace_id base_path).
Notation handle := (handle fuel sha256 toml_loads exec_module compile home load_config reload cwd (Ok (base_path, skills))).

Definition is_own (r : AuthoringRequest) : bool := String.eqb (ar_workspace_id r) wid.
Definition own rows : requests := select is_own rows.
Definition foreign rows : requests := select (λ r, negb (is_own r)) rows.

(** The outcome on all the rows against the outcome on the workspace's own. *)
Definition confined rows (x y : res AuthoringRequest * state) : Prop :=
  x.1 = y.1 ∧ x.2.2 = y.2.2 ∧ own x.2.1 = y.2.1 ∧ foreign x.2.1 = foreign rows ∧ ∀ r, x.1 = Ok r → is_own r = true.

Lemma confined_raise rows f e : confined rows (Raise e, (rows, f)) (Raise e, (own rows, f)).
Proof. done. Qed.

Lemma get_own rid rows r : keyed request_id rows → get_request rid rows = Some r → is_own r = true →
  get_request rid (own rows) = Some r.
Proof.
  intros Hk Hg Ho. unfold get_request in *. apply select_one_Some in Hg as [Hin Hr].
  destruct (select_one (has_key request_id rid) (own rows)) as [r'|] eqn:E.
  - apply select_one_Some in E as [Hin' Hr']. unfold own in Hin'. apply elem_of_select in Hin' as [Hin' _]. f_equal.
    unfold has_key in Hr, Hr'. bool_prop. apply (keyed_inj request_id rows); [done..|congruence].
  - rewrite select_one_None in E. specialize (E r). rewrite E in Hr; [done|]. by apply elem_of_select.
Qed.

Lemma require_own rid allowed rows : keyed request_id rows →
  require_request base_path rid allowed rows = require_request base_path rid allowed (own rows).
Proof.
  intros Hk. unfold require_request. destruct (get_request rid rows) as [r|] eqn:E.
  - destruct (is_own r) eqn:Eo.
    + by rewrite (get_own _ _ _ Hk E Eo).
    + unfold is_own in Eo. rewrite Eo. destruct (get_request rid (own rows)) as [r'|] eqn:E'; [|done].
      unfold get_request in *. apply select_one_Some in E as [Hin Hr], E' as [Hin' Hr'].
      unfold own in Hin'. apply elem_of_select in Hin' as [Hin' Ho']. apply String.eqb_eq in Hr, Hr'.
      assert (r = r') as <- by (apply (keyed_inj request_id rows); [done..|congruence]). unfold is_own in Ho'. congruence.
  - destruct (get_request rid (own rows)) as [r'|] eqn:E'; [|done]. unfold get_request in *.
    apply select_one_Some in E' as [Hin' Hr']. unfold own in Hin'. apply elem_of_select in Hin' as [Hin' _].
    rewrite select_one_None in E. by rewrite E in Hr'.
Qed.

Lemma select_update p q (g : AuthoringRequest → AuthoringRequest) rows : (∀ r, p (g r) = p r) →
  select p (update_where q g rows) = update_where q g (select p rows).
Proof.
  intros Hp. unfold select, update_where. induction rows as [|r rows IH]; [done|]. cbn [map List.filter].
  destruct (q r) eqn:Eq; [rewrite Hp|]; destruct (p r); cbn [map]; rewrite ?Eq, IH; done.
Qed.
Lemma update_none q (g : AuthoringRequest → AuthoringRequest) rows : (∀ r, r ∈ rows → q r = false) → update_where q g rows = rows.
Proof.
  intros Hq. unfold update_where. induction rows as [|r rows IH]; [done|]. cbn [map]. rewrite Hq by left. f_equal.
  apply IH. intros r' Hr'. apply Hq. by right.
Qed.

(** An update of a request of the workspace. *)
Lemma update_own rid rows r0 g f : keyed request_id rows → r0 ∈ rows → request_id r0 = rid → is_own r0 = true →
  (∀ r, request_id (g r) = request_id r ∧ ar_workspace_id (g r) = ar_workspace_id r) →
  confined rows ((update_request rid g rows).1, ((update_request rid g rows).2, f))
                ((update_request rid g (own rows)).1, ((update_request rid g (own rows)).2, f)).
Proof.
  intros Hk Hin Hid Ho Hg. assert (∀ r, is_own (g r) = is_own r) as Hown by (intros r; unfold is_own; by rewrite (proj2 (Hg r))).
  set (q := has_key request_id rid). unfold update_request. fold q. cbn [fst snd].
  assert (own (update_where q g rows) = update_where q g (own rows)) as Eown by (by apply select_update).
  assert (q r0 = true) as Hq by (unfold q, has_key; by apply String.eqb_eq).
  assert (keyed request_id (update_where q g rows)) as Hk' by (apply keyed_update; [intros r; apply Hg|done]).
  assert (g r0 ∈ update_where q g rows) as Hin'.
  { unfold update_where. apply list_elem_of_fmap. exists r0. by rewrite Hq. }
  assert (get_request rid (update_where q g rows) = Some (g r0)) as Eget.
  { unfold get_request. destruct (select_one _ _) as [r|] eqn:E.
    - apply select_one_Some in E as [Hr Hrk]. unfold has_key in Hrk. bool_prop. f_equal.
      apply (keyed_inj request_id _ r (g r0) Hk' Hr Hin'). rewrite (proj1 (Hg r0)). congruence.
    - rewrite select_one_None in E. specialize (E _ Hin'). unfold has_key in E. rewrite (proj1 (Hg r0)), Hid, String.eqb_refl in E. done. }
  assert (is_own (g r0) = true) as Hog by (by rewrite Hown). pose proof (get_own _ _ _ Hk' Eget Hog) as Eget'. rewrite Eown in Eget'.
  split; [|split; [|split; [|split]]]; cbn [fst snd].
  - by rewrite Eget, Eget'.
  - done.
  - done.
  - unfold foreign. rewrite select_update by (intros r; by rewrite Hown). apply update_none. intros r Hr.
    apply elem_of_select in Hr as [Hr Hn]. destruct (q r) eqn:Eq; [|done]. unfold q, has_key in Eq. bool_prop.
    assert (r = r0) as -> by (apply (keyed_inj request_id rows); [done..|congruence]). by rewrite Ho in Hn.
  - rewrite Eget. by intros r [= <-].
Qed.

Lemma create_own rid c now b rows f : keyed request_id rows → rid ∉ map request_id (foreign rows) →
  let r := mkRequest rid wid c b BriefReady now None None None None None None None in
  confined rows (match create_request r rows with Ok rows' => (Ok r, (rows', f)) | Raise e => (Raise e, (rows, f)) end)
    (match create_request r (own rows) with Ok rows' => (Ok r, (rows', f)) | Raise e => (Raise e, (own rows, f)) end).
Proof.
  intros Hk Hfresh r. unfold create_request. cbn [request_id ar_workspace_id candidate r].
  set (clash := λ x, _). assert (existsb clash rows = existsb clash (own rows)) as ->.
  { apply eq_true_iff_eq. rewrite !existsb_exists. split; intros (x & Hx & Hc); exists x; (split; [|done]).
    - apply list_elem_of_In, elem_of_select. apply list_elem_of_In in Hx. split; [done|]. destruct (is_own x) eqn:Eo; [done|].
      unfold clash in Hc. unfold is_own in Eo. rewrite Eo, orb_false_r in Hc. apply String.eqb_eq in Hc. destruct Hfresh.
      apply list_elem_of_fmap. exists x. split; [done|]. apply elem_of_select. split; [done|]. unfold is_own. by rewrite Eo.
    - apply list_elem_of_In in Hx. apply list_elem_of_In. by apply elem_of_select in Hx as [? _]. }
  destruct (existsb clash (own rows)); [apply confined_raise|].
  assert (is_own r = true) as Ho by apply String.eqb_refl.
  split; [done|split; [done|split; [|split]]]; cbn [fst snd].
  - unfold own, select. rewrite List.filter_app. cbn [List.filter]. by rewrite Ho.
  - unfold foreign, select. rewrite List.filter_app. cbn [List.filter]. rewrite Ho. by rewrite app_nil_r.
  - by intros r' [= <-].
Qed.

Notation submit := (submit_draft fuel sha256 toml_loads exec_module compile home base_path skills cwd).
Notation confirm_reg :=
  (confirm_registration fuel sha256 toml_loads exec_module compile home load_config reload base_path skills cwd).

Lemma require_row rid allowed rows r : require_request base_path rid allowed rows = Ok r →
  r ∈ rows ∧ request_id r = rid ∧ is_own r = true.
Proof.
  intros (Hin & Hid & _ & Hw)%require_request_Ok. split; [done|]. split; [done|]. by apply String.eqb_eq.
Qed.

Lemma submit_own rid p rows f : keyed request_id rows → confined rows (submit rid p (rows, f)) (submit rid p (own rows, f)).
Proof.
  intros Hk. unfold submit_draft. cbn [fst snd]. rewrite <-(require_own rid open_statuses rows Hk).
  destruct (require_request base_path rid open_statuses rows) as [r|e] eqn:E; cbn [mbind res_bind]; [|apply confined_raise].
  destruct (_ ≫= _) as [[dir audit]|e]; [|apply confined_raise]. apply require_row in E as (Hin & Hid & Ho).
  pose proof (update_own rid rows r (set_validation (if au_passed audit then Validated else ValidationFailed) (abs_str dir) audit
    (if au_passed audit then None else Some "Validation did not meet every deterministic rule"%string)) f Hk Hin Hid Ho
    (λ _, conj eq_refl eq_refl)) as H.
  destruct (update_request rid _ rows), (update_request rid _ (own rows)). exact H.
Qed.

Lemma cancel_own rid rows f : keyed request_id rows →
  confined rows (cancel base_path rid (rows, f)) (cancel base_path rid (own rows, f)).
Proof.
  intros Hk. unfold cancel. cbn [fst snd]. rewrite <-(require_own rid open_statuses rows Hk).
  destruct (require_request base_path rid open_statuses rows) as [r|e] eqn:E; [|apply confined_raise].
  apply require_row in E as (Hin & Hid & Ho). rewrite Hid.
  pose proof (update_own rid rows r set_cancelled f Hk Hin Hid Ho (λ _, conj eq_refl eq_refl)) as H.
  destruct (update_request rid _ rows), (update_request rid _ (own rows)). exact H.
Qed.

Lemma confirm_own rid confirm now uuid tmp rows f : keyed request_id rows →
  confined rows (confirm_reg rid confirm now uuid tmp (rows, f)) (confirm_reg rid confirm now uuid tmp (own rows, f)).
Proof.
  intros Hk. unfold confirm_registration. cbn [fst snd]. destruct (negb confirm); [apply confined_raise|].
  rewrite <-(require_own rid [Validated] rows Hk).
  destruct (require_request base_path rid [Validated] rows) as [r|e] eqn:E; cbn [mbind res_bind]; [|apply confined_raise].
  apply require_row in E as (Hin & Hid & Ho).
  destruct (draft_path r) as [p|]; [|apply confined_raise]. destruct (draft_digest r) as [d|]; [|apply confined_raise].
  destruct (sempty p || sempty d); [apply confined_raise|].
  destruct (resolve_staging_package _ _ _ _ _ _ _) as [dir|e]; cbn [mbind res_bind]; [|apply confined_raise].
  destruct (package_digest _ _ _) as [digest|e]; cbn [mbind res_bind]; [|apply confined_raise].
  destruct (negb (String.eqb digest d)); [apply confined_raise|].
  destruct (validate_staged_package _ _ _ _ _ _ _ _ _) as [audit|e]; cbn [mbind res_bind]; [|apply confined_raise].
  destruct (negb (au_passed audit) || _).
  - pose proof (update_own rid rows r (set_validation ValidationFailed (abs_str dir) audit
      (Some "Revalidation failed before registration"%string)) f Hk Hin Hid Ho (λ _, conj eq_refl eq_refl)) as (H1 & H2 & H3 & H4 & _).
    destruct (update_request rid _ rows) as [o1 r1], (update_request rid _ (own rows)) as [o2 r2]. cbn [fst snd] in *. subst o2.
    split; [done|split; [done|split; [done|split; [done|]]]]. cbn [fst]. by destruct o1.
  - destruct (promote_and_register _ _ _ _ _ _ _ _ _ _ _ _) as [[result|e] f']; [|done].
    pose proof (update_own rid rows r (set_registered now now result) f' Hk Hin Hid Ho (λ _, conj eq_refl eq_refl)) as H.
    destruct (update_request rid _ rows), (update_request rid _ (own rows)). exact H.
Qed.

Notation isolated rows f x y :=
  (let '(a, (rows', f')) := x in
   y = (a, (own rows', f')) ∧ foreign rows' = foreign rows ∧
   ∀ shown, a = Body shown → Forall (λ r, ar_workspace_id r = wid) shown).

Lemma answered_own detail rows op f : confined rows (op base_path skills (rows, f)) (op base_path skills (own rows, f)) →
  isolated rows f
    (let '(a, st') := with_service detail (Ok (base_path, skills)) op (rows, f) in (one a, st'))
    (let '(b, st') := with_service detail (Ok (base_path, skills)) op (own rows, f) in (one b, st')).
Proof.
  intros (H1 & H2 & H3 & H4 & H5). unfold with_service.
  destruct (op base_path skills (rows, f)) as [a [rows1 f1]], (op base_path skills (own rows, f)) as [b [rows2 f2]].
  cbn [fst snd] in *. subst b f2 rows2. split; [done|]. split; [done|]. intros shown Hs. destruct a as [r|e].
  - injection Hs as <-. repeat constructor. apply String.eqb_eq. by apply H5.
  - by destruct e.
Qed.

(** C22. Whatever an authoring endpoint is called with, it answers and changes
    the files as if the requests of the workspace were the only ones; it leaves
    those of other workspaces alone and shows none of them.  A new request's
    UUID is taken to be new. *)
Theorem authoring_isolated (call : authoring_call) rows f :
  keyed request_id rows →
  (∀ rid c now, call = CallPrepare rid c now → rid ∉ map request_id (foreign rows)) →
  let '(a, (rows', f')) := handle call (rows, f) in
  handle call (own rows, f) = (a, (own rows', f')) ∧
  foreign rows' = foreign rows ∧
  ∀ shown, a = Body shown → Forall (λ r, ar_workspace_id r = wid) shown.
Proof.
  intros Hk Hfresh. destruct call as [|rid c now|rid p|rid|rid confirm now uuid tmp]; cbn [AuthoringApi.handle].
  - cbn [list_skill_authoring_requests_endpoint fst].
    assert (list_requests wid (own rows) = list_requests wid rows) as ->.
    { unfold list_requests. f_equal. unfold own, select, is_own. induction rows as [|r rows IH]; [done|].
      apply NoDup_cons in Hk as [_ Hk]. cbn [List.filter]. destruct (String.eqb (ar_workspace_id r) wid) eqn:E; [|by apply IH].
      cbn [List.filter]. rewrite E. f_equal. by apply IH. }
    split; [done|]. split; [done|]. intros shown [= <-]. apply Forall_forall. intros r Hr.
    apply (elem_of_sort_by newest_first), elem_of_select in Hr as [_ Hr]. by apply String.eqb_eq.
  - apply (answered_own "Failed to prepare skill authoring brief" rows (λ base_path _, prepare_brief fuel base_path rid c now)).
    unfold prepare_brief. cbn [fst snd]. destruct (build_brief _ _ _ _ _) as [b|e]; cbn [mbind res_bind]; [|apply confined_raise].
    pose proof (create_own rid c now b rows f Hk (Hfresh rid c now eq_refl)) as Hc.
    cbn zeta in Hc. destruct (create_request _ rows), (create_request _ (own rows)); exact Hc.
  - apply (answered_own "Failed to validate skill draft" rows (λ base_path skills, submit_draft fuel sha256 toml_loads exec_module
      compile home base_path skills cwd rid p)). by apply submit_own.
  - apply (answered_own "Failed to cancel skill authoring request" rows (λ base_path _, cancel base_path rid)). by apply cancel_own.
  - pose proof (answered_own "Failed to register skill package" rows (λ base_path skills, confirm_registration fuel sha256 toml_loads
      exec_module compile home load_config reload base_path skills cwd rid confirm now uuid tmp) f (confirm_own rid confirm now uuid tmp rows f Hk)) as H.
    unfold confirm_skill_registration_endpoint.
    destruct (with_service _ _ _ (rows, f)) as [a st1], (with_service _ _ _ (own rows, f)) as [b st2]. exact H.
Qed.
End isolation.

(** ** Runs *)
Definition foreign_candidate : CandidateAuthoringInput :=
  mkCandidate "c1" "sig" "kind" 3 2 (Float.of_int 1) ["r1"%string] "greet" "often asked".
Definition request_of (rid ws : string) : AuthoringRequest :=
  mkRequest rid ws foreign_candidate [] Validated 1 None None None None None None None.
Definition two_workspaces : requests := [request_of "q1" "/w"; request_of "q2" "/v"].
Notation demo_handle :=
  (handle 20 (λ s, s) (λ _, None) (λ _ _, None) (λ _, Raise (ValueError "re")) (λ _, None) (λ _ _, Ok ()) (λ _, Ok ()) ["w"%string]
     (Ok (["w"%string], []))).
Example foreign_request_not_found :
  (demo_handle (CallCancel "q2") (two_workspaces, ∅)).1 = HTTPError 400 "Authoring request not found".
Proof. vm_compute. reflexivity. Qed.
Lemma authoring_isolated_witness :
  let '(a, (rows', f')) := demo_handle (CallCancel "q1") (two_workspaces, ∅) in
  demo_handle (CallCancel "q1") (own ["w"%string] two_workspaces, ∅) = (a, (own ["w"%string] rows', f')) ∧
  foreign ["w"%string] rows' = [request_of "q2" "/v"].
Proof.
  pose proof (authoring_isolated 20 (λ s, s) (λ _, None) (λ _ _, None) (λ _, Raise (ValueError "re")) (λ _, None)
    (λ _ _, Ok ()) (λ _, Ok ()) ["w"%string] ["w"%string] [] (CallCancel "q1") two_workspaces ∅) as H.
  destruct (demo_handle (CallCancel "q1") (two_workspaces, ∅)) as [a [rows' f']].
  destruct H as (H1 & H2 & _).
  - apply (bool_decide_unpack _). vm_compute. exact Logic.I.
  - discriminate.
  - split; [exact H1|rewrite H2; vm_compute; reflexivity].
Defined.
