(* ===== verification/Checkpoints.v ===== *)
(** * Checkpoints (agent_os/checkpoints.py, schemas.py, state.py)

    Which database a checkpoint goes to, and which classes the serializer lets
    through: the models of these modules that a well-typed state can hold.
    Values are kept as far as their types go; a field of type object holds
    anything, and the messages are the message library's own classes. *)
From S2P Require Import Schemas Paths.
From S2P Require SkillAuthoring.

(** ** The database *)
Section database.
Context (fuel : nat) (home : string → option path) (cwd : path).

(** What [sqlite3.connect] opens: the file of the text as it is. *)
Definition connected (p : purepath) : path := join_path cwd p.
Definition connect_text (s : string) : path := connected (parse_path s).

(** [database_path]: an argument, as text.  The file that is opened, and the
    directories made for it. *)
Definition get_default_checkpointer (database_path env : option string) (f : fs) : res path * fs :=
  let configured_path := match database_path with Some p => p | None => default DEFAULT_CHECKPOINT_DB env end in
  if negb (truthy (strip configured_path)) then (Raise (ValueError (CHECKPOINT_DB_ENV +:+ " must not be empty")), f)
  else
    match SkillAuthoring.expanduser home configured_path with
    | Raise e => (Raise e, f)
    | Ok p =>
        match mkdirs fuel (path_parent (connected p)) f with
        | Raise e => (Raise e, f)
        | Ok f' => (Ok (connected p), f')
        end
    end.
(** The table of sessions (sessions.py) and the savers of the command line and
    the server open the configured text itself. *)
Definition sessions_database (env : option string) : path := connect_text (default DEFAULT_CHECKPOINT_DB env).

Definition no_tilde (s : string) : Prop :=
  ∀ u rest, components (parse_path s) = u :: rest → startswith "~" u = false.
Lemma expanduser_plain s : no_tilde s → SkillAuthoring.expanduser home s = Ok (parse_path s).
Proof.
  intros H. unfold SkillAuthoring.expanduser. destruct (components (parse_path s)) as [|u rest] eqn:E; [done|].
  by rewrite (H u rest E), andb_false_r.
Qed.

(** Unless the configured path starts with a tilde, the checkpoints of a
    graph and the table of sessions are in one file. *)
Theorem one_database (env : option string) (f f' : fs) (p : path) :
  get_default_checkpointer None env f = (Ok p, f') →
  no_tilde (default DEFAULT_CHECKPOINT_DB env) →
  p = sessions_database env.
Proof.
  unfold get_default_checkpointer, sessions_database, connect_text. intros H Hno. destruct (negb _); [done|].
  rewrite (expanduser_plain _ Hno) in H. by destruct (mkdirs _ _ _); injection H.
Qed.
End database.

Example tilde_two_databases :
  (get_default_checkpointer 9 (λ _, Some ["home"; "me"]%string) ["w"%string] None (Some "~/cp.db") {[ ["home"%string] := NDir; ["home"; "me"]%string := NDir ]}).1
    = Ok ["home"; "me"; "cp.db"]%string
  ∧ sessions_database ["w"%string] (Some "~/cp.db") = ["w"; "~"; "cp.db"]%string.
Proof. vm_compute. done. Qed.

(** ** The classes of a checkpoint *)

(** An alternative of a field's type: data without models, a dictionary of
    objects, messages, an instance of a model, a list of instances. *)
Inductive alternative := Plain | Objects | Messages | Model (cls : string) | ListOf (cls : string).
Notation field_type := (list alternative).
Record model_class := mkClass { mc_base : option string; mc_fields : list (string * field_type) }.

(** schemas.py, state.py, strategies.py *)
Definition plain (names : list string) : list (string * field_type) := map (λ n, (n, [Plain])) names.
Definition objects (names : list string) : list (string * field_type) := map (λ n, (n, [Objects])) names.
Definition checkpoint_models : list (string * model_class) := [
  ("ReadFileResult"%string, mkClass None (plain ["path"; "content"]));
  ("GrepMatch"%string, mkClass None (plain ["path"; "line"; "text"]));
  ("GrepResult"%string, mkClass None [("matches"%string, [ListOf "GrepMatch"])]);
  ("EditFileResult"%string, mkClass None (plain ["path"; "bytes_written"]));
  ("BashResult"%string, mkClass None (plain ["args"; "returncode"; "stdout"; "stderr"; "timed_out"; "truncated"]));
  ("RouterDecision"%string, mkClass None (plain ["tool"; "confidence"] ++ objects ["arguments"]));
  ("ToolExecutionResult"%string, mkClass None (plain ["tool"; "output"; "success"]));
  ("ActionProposal"%string, mkClass None (plain ["tool"; "reason"; "side_effect"; "connector"] ++ objects ["arguments"]));
  ("MemoryWriteProposal"%string, mkClass None (plain ["connector"; "ref"; "mode"; "content_preview"; "side_effect"]));
  ("PlanArtifact"%string, mkClass None
     (plain ["summary"; "steps"; "acceptance_criteria"] ++ objects ["metadata"] ++ [("proposed_actions"%string, [ListOf "ActionProposal"])]));
  ("ExecutionResult"%string, mkClass None (plain ["status"; "artifacts"; "errors"; "usage"] ++ objects ["outputs"; "self_check"]));
  ("CodingPlan"%string, mkClass (Some "PlanArtifact"%string) (plain ["files"; "changes"; "verify_cmd"]));
  ("CodingResult"%string, mkClass (Some "ExecutionResult"%string) (plain ["diff"; "verify_output"]));
  ("ExecutorReport"%string, mkClass (Some "CodingResult"%string) []);
  ("PolicyDecision"%string, mkClass None (plain ["decision"; "policy_id"; "reason"; "approver_roles"] ++ [("transformed_arguments"%string, [Plain; Objects])]));
  ("BackendBinding"%string, mkClass None (plain ["router"; "architect"; "executor"; "profile_name"; "sandbox_root"]));
  ("StrategyHint"%string, mkClass None (plain ["strategy_id"; "version"; "task_kind"; "selection_reason"; "directive"]))].
(** [ArchitectBrief = CodingPlan] *)
Definition ArchitectBrief : string := "CodingPlan".
Definition CHECKPOINT_MODEL_TYPES : list string :=
  [ArchitectBrief; "BashResult"; "EditFileResult"; "ExecutorReport"; "GrepMatch"; "GrepResult"; "ReadFileResult";
   "RouterDecision"; "ToolExecutionResult"; "BackendBinding"; "PlanArtifact"; "ExecutionResult"; "CodingPlan";
   "CodingResult"; "ActionProposal"; "MemoryWriteProposal"; "PolicyDecision"; "StrategyHint"].

Definition plan_types : field_type := [Plain; Model "PlanArtifact"; Model ArchitectBrief].
Definition result_types : field_type := [Plain; Model "ExecutionResult"; Model "ExecutorReport"].
Definition state_types : list (string * field_type) :=
  plain ["task"; "run_id"; "human_feedback"; "hot_context"; "observation_context"; "conversation_summary"; "router_escalated"]
  ++ [("messages"%string, [Messages]); ("plan"%string, plan_types); ("executor_output"%string, result_types); ("strategy_hint"%string, [Plain; Model "StrategyHint"]);
      ("tool_result"%string, [Plain; Model "ToolExecutionResult"]); ("backend_binding"%string, [Plain; Model "BackendBinding"])].

Definition table_get {A} (k : string) (l : list (string * A)) : option A := snd <$> List.find (λ p, String.eqb p.1 k) l.
(** The class and its ancestors, nearest first; the longest chain has three. *)
Fixpoint mro (n : nat) (k : string) : list string :=
  match n with
  | O => []
  | S n => match table_get k checkpoint_models with
           | Some c => k :: from_option (mro n) [] (mc_base c)
           | None => []
           end
  end.
Definition ancestors : string → list string := mro 3.
Definition subclass (k c : string) : bool := mem_str c (ancestors k).
Definition all_fields (k : string) : list (string * field_type) :=
  concat (map (λ c, from_option mc_fields [] (table_get c checkpoint_models)) (ancestors k)).

(** Values, as far as the types of the fields tell them apart. *)
Inductive value := VData | VMessages | VInstance (cls : string) (fields : list (string * value)) | VItems (l : list value).
Fixpoint typed_as (v : value) (a : alternative) {struct v} : bool :=
  match v, a with
  | _, Objects => true
  | VData, Plain => true
  | VMessages, Messages => true
  | VInstance k fields, Model c =>
      subclass k c &&
      forallb (λ p, match table_get p.1 (all_fields k) with
                    | Some t => existsb (typed_as p.2) t
                    | None => false
                    end) fields
  | VItems l, ListOf c => forallb (λ v, typed_as v (Model c)) l
  | _, _ => false
  end.
Definition well_typed (v : value) (t : field_type) : bool := existsb (typed_as v) t.
Definition opaque (t : field_type) : bool := existsb (λ a, match a with Objects => true | _ => false end) t.
(** The classes of a value outside the fields of type object. *)
Fixpoint classes (v : value) : list string :=
  match v with
  | VData | VMessages => []
  | VInstance k fields => k :: concat (map (λ p, if opaque (default [] (table_get p.1 (all_fields k))) then [] else classes p.2) fields)
  | VItems l => concat (map classes l)
  end.

Section value_ind.
Context (P : value → Prop) (HD : P VData) (HM : P VMessages) (HI : ∀ k fields, Forall (λ p, P p.2) fields → P (VInstance k fields))
  (HL : ∀ l, Forall P l → P (VItems l)).
Fixpoint value_ind' (v : value) : P v :=
  match v with
  | VData => HD
  | VMessages => HM
  | VInstance k fields => HI k fields ((fix go (l : list (string * value)) : Forall (λ p, P p.2) l :=
      match l with [] => Forall_nil_2 _ | p :: l' => Forall_cons_2 _ _ _ (value_ind' p.2) (go l') end) fields)
  | VItems l => HL l ((fix go (l : list value) : Forall P l :=
      match l with [] => Forall_nil_2 _ | v :: l' => Forall_cons_2 _ _ _ (value_ind' v) (go l') end) l)
  end.
End value_ind.

(** The models an alternative names are registered. *)
Definition registered (a : alternative) : bool :=
  match a with Plain | Messages => true | Objects => false | Model c | ListOf c => mem_str c CHECKPOINT_MODEL_TYPES end.
Definition closed_class (k : string) : bool :=
  implb (existsb (λ c, mem_str c CHECKPOINT_MODEL_TYPES) (ancestors k))
    (mem_str k CHECKPOINT_MODEL_TYPES && forallb (λ p, opaque p.2 || forallb registered p.2) (all_fields k)).
Lemma classes_closed k c : subclass k c = true → mem_str c CHECKPOINT_MODEL_TYPES = true →
  mem_str k CHECKPOINT_MODEL_TYPES = true ∧ ∀ n t a, table_get n (all_fields k) = Some t → opaque t = false → a ∈ t → registered a = true.
Proof.
  intros Hs Hc. assert (forallb (λ p, closed_class p.1) checkpoint_models = true) as Hall by (vm_compute; reflexivity).
  assert (closed_class k = true) as Hk.
  { unfold subclass, ancestors in Hs. cbn [mro] in Hs. unfold table_get in Hs at 1.
    destruct (List.find _ checkpoint_models) as [[k' m]|] eqn:E; [|discriminate Hs].
    apply List.find_some in E as [Hin He]. cbn in He. apply String.eqb_eq in He as ->.
    rewrite forallb_forall in Hall. exact (Hall _ Hin). }
  unfold closed_class in Hk. replace (existsb _ (ancestors k)) with true in Hk.
  - cbn [implb] in Hk. apply andb_true_iff in Hk as [Hk1 Hk2]. split; [done|]. intros n t a Ht Ho Ha.
    rewrite forallb_forall in Hk2. unfold table_get in Ht. destruct (List.find _ (all_fields k)) as [p|] eqn:E; [|done].
    injection Ht as <-. apply List.find_some in E as [Hin _]. specialize (Hk2 _ Hin). rewrite Ho in Hk2. cbn [orb] in Hk2. rewrite forallb_forall in Hk2.
    apply Hk2. by apply list_elem_of_In.
  - symmetry. apply existsb_exists. exists c. split; [|done]. unfold subclass in Hs. apply mem_str_iff in Hs. by apply list_elem_of_In.
Qed.

Lemma typed_registered v : ∀ a, registered a = true → typed_as v a = true → ∀ c, c ∈ classes v → c ∈ CHECKPOINT_MODEL_TYPES.
Proof.
  induction v as [| |k fields IH|l IH] using value_ind'; intros a Ha Hv c Hc.
  - by apply not_elem_of_nil in Hc.
  - by apply not_elem_of_nil in Hc.
  - destruct a as [| | |c0|c0]; [by simpl in Hv|by simpl in Ha|by simpl in Hv| |by simpl in Hv].
    cbn [typed_as] in Hv. apply andb_true_iff in Hv as [Hs Hf].
    destruct (classes_closed k c0 Hs Ha) as [Hk Hcl]. cbn [classes] in Hc. apply elem_of_cons in Hc as [->|Hc]; [by apply mem_str_iff|].
    apply list_elem_of_In, in_concat in Hc as (cs & Hcs & Hc). apply in_map_iff in Hcs as (p & <- & Hp).
    rewrite forallb_forall in Hf. specialize (Hf p Hp). cbv beta in Hf. destruct (table_get p.1 (all_fields k)) as [t|] eqn:Et; [|discriminate Hf].
    cbn [default from_option id] in Hc. destruct (opaque t) eqn:Eo; [by apply in_nil in Hc|].
    apply existsb_exists in Hf as (a & Hat & Hta). rewrite Forall_forall in IH. apply list_elem_of_In in Hp, Hat, Hc.
    exact (IH p Hp a (Hcl _ _ _ Et Eo Hat) Hta c Hc).
  - destruct a as [| | |c0|c0]; [by simpl in Hv|by simpl in Ha|by simpl in Hv|by simpl in Hv|]. cbn [typed_as] in Hv. cbn [classes] in Hc.
    apply list_elem_of_In, in_concat in Hc as (cs & Hcs & Hc). apply in_map_iff in Hcs as (v & <- & Hvl).
    rewrite forallb_forall in Hv. specialize (Hv v Hvl). rewrite Forall_forall in IH. apply list_elem_of_In in Hvl, Hc.
    exact (IH v Hvl (Model c0) Ha Hv c Hc).
Qed.

(** The models of schemas.py, state.py and strategies.py that a well-typed state
    holds outside messages and fields of type object, in lists and in the
    instances of subclasses too, are ones that the serializer of checkpoints
    lets through. *)
Theorem state_models_registered (field : string) (t : field_type) (v : value) :
  (field, t) ∈ state_types → well_typed v t = true → ∀ c, c ∈ classes v → c ∈ CHECKPOINT_MODEL_TYPES.
Proof.
  intros Hin Ht c Hc. apply existsb_exists in Ht as (a & Ha & Hv). apply (typed_registered v a); [|done|done].
  assert (forallb (λ p, forallb registered p.2) state_types = true) as Hall by (vm_compute; reflexivity).
  rewrite forallb_forall in Hall. apply list_elem_of_In in Hin. specialize (Hall _ Hin). rewrite forallb_forall in Hall. by apply Hall.
Qed.
(** A field of type object may hold an instance of any class: a result with a
    hit of the memory search in its outputs is well typed. *)
Example object_field_any_class :
  let v := VInstance "ExecutionResult" [("outputs"%string, VInstance "MemoryHit" [])] in
  well_typed v result_types = true ∧ "MemoryHit"%string ∉ CHECKPOINT_MODEL_TYPES.
Proof. split; [vm_compute; reflexivity|]. intros H%mem_str_iff. vm_compute in H. discriminate H. Qed.

(** ** Runs *)
Definition demo_plan : value :=
  VInstance "CodingPlan" [("summary"%string, VData); ("proposed_actions"%string, VItems [VInstance "ActionProposal" [("tool"%string, VData)]])].
Lemma state_models_registered_witness : well_typed demo_plan plan_types = true ∧ ∀ c, c ∈ classes demo_plan → c ∈ CHECKPOINT_MODEL_TYPES.
Proof.
  split; [vm_compute; reflexivity|].
  apply (state_models_registered "plan" plan_types demo_plan); [|vm_compute; reflexivity].
  apply list_elem_of_In. vm_compute. tauto.
Defined.
Lemma one_database_witness :
  let f : fs := {[ ["w"%string] := NDir; ["w"; "db"]%string := NDir ]} in
  ["w"; "db"; "cp.db"]%string = sessions_database ["w"%string] (Some "db/cp.db").
Proof.
  intros f.
  assert (∃ f', get_default_checkpointer 9 (λ _, None) ["w"%string] None (Some "db/cp.db") f = (Ok ["w"; "db"; "cp.db"]%string, f')) as [f' E].
  { destruct (get_default_checkpointer 9 (λ _, None) ["w"%string] None (Some "db/cp.db") f) as [r f'] eqn:E. exists f'. f_equal.
    change r with (r, f').1. rewrite <-E. vm_compute. reflexivity. }
  apply (one_database 9 (λ _, None) ["w"%string] (Some "db/cp.db") f f' _ E).
  intros u rest H. vm_compute in H. injection H as <- _. reflexivity.
Defined.
