(* ===== verification/Argparse.v ===== *)
(** * Argument parsers (the standard library's argparse)

    As much of argparse as the command line uses, as of Python 3.11: options
    that store a text, an integer or True, with abbreviations, choices,
    defaults and short flags written together; at most one positional argument;
    subparsers, which take all that follows their name.  Messages are left
    out: an error is exit code 2, a request for help exit code 0. *)
From S2P Require Export PyVal.
From S2P Require Import Schemas.
From S2P Require Workspace.

Inductive action_kind :=
  | Store (choices : list string)      (* no choices: any text *)
  | StoreInt
  | StoreTrue
  | Help.
(** [a_default]: [None] is argparse.SUPPRESS. *)
Record action := mkAction {
  a_flags : list string; a_dest : string; a_kind : action_kind; a_required : bool; a_default : option pyval }.
Inductive nargs := One | Maybe | Many.
Inductive parser := Parser (options : list action) (positional : option (string * nargs)) (dest : string) (subs : list (string * parser)).
Definition options_of (p : parser) : list action := let 'Parser o _ _ _ := p in o.

Definition help_action : action := mkAction ["-h"; "--help"]%string EmptyString Help false None.
Definition takes_value (k : action_kind) : bool := match k with Store _ | StoreInt => true | StoreTrue | Help => false end.

(** An option as it was written: the action, the flag, the text after it in
    the same argument. *)
Notation optional := (action * string * option string)%type.
Inductive arg_class := Positional | Dashes | Option (o : option optional).

Inductive outcome :=
  | Exit (code : Z)
  | Parsed (ns : pydict) (extras : list string).

Section options.
Context (options : list action).
Definition actions : list action := help_action :: options.
(** [_option_string_actions], in order. *)
Definition flags : list (string * action) := concat (map (λ a, map (λ f, (f, a)) (a_flags a)) actions).
Definition find_flag (s : string) : option action := snd <$> List.find (λ p, String.eqb p.1 s) flags.

(** [s.split("=", 1)] *)
Fixpoint split_eq (s : string) : option (string * string) :=
  match s with
  | EmptyString => None
  | String c s' =>
      if Ascii.eqb c "=" then Some (EmptyString, s')
      else '(a, b) ← split_eq s'; Some (String c a, b)
  end.
Definition get_option_tuples (s : string) : list optional :=
  if startswith "--" s then
    let '(prefix, explicit) := match split_eq s with Some (a, b) => (a, Some b) | None => (s, None) end in
    omap (λ p : string * action, if startswith prefix p.1 then Some (p.2, p.1, explicit) else None) flags
  else
    omap (λ p : string * action,
      if String.eqb p.1 (stake 2 s) then Some (p.2, p.1, Some (sdrop 2 s))
      else if startswith s p.1 then Some (p.2, p.1, None) else None) flags.
(** [^-\d+$|^-\d*\.\d+$] *)
Fixpoint skip_digits (s : string) : string :=
  match s with String c s' => if is_digit c then skip_digits s' else s | EmptyString => EmptyString end.
Definition digits (s : string) : bool := negb (sempty s) && sempty (skip_digits s).
Definition negative_number (s : string) : bool :=
  match s with
  | String "-" rest => digits rest || match skip_digits rest with String "." d => digits d | _ => false end
  | _ => false
  end.
(** [None]: several options are meant. *)
Definition parse_optional (s : string) : option arg_class :=
  if negb (startswith "-" s) then Some Positional
  else match find_flag s with
       | Some a => Some (Option (Some (a, s, None)))
       | None =>
           if (String.length s =? 1)%nat then Some Positional
           else
             match '(flag, explicit) ← split_eq s; a ← find_flag flag; Some (a, flag, Some explicit) with
             | Some o => Some (Option (Some o))
             | None =>
                 match get_option_tuples s with
                 | _ :: _ :: _ => None
                 | [o] => Some (Option (Some o))
                 | [] => if negative_number s || contains " " s then Some Positional else Some (Option None)
                 end
             end
       end.
(** After the first "--" everything is positional. *)
Fixpoint classify (args : list string) : option (list (string * arg_class)) :=
  match args with
  | [] => Some []
  | s :: rest =>
      if String.eqb s "--" then Some ((s, Dashes) :: map (λ x, (x, Positional)) rest)
      else c ← parse_optional s; l ← classify rest; Some ((s, c) :: l)
  end.

(** ** Actions *)
Definition int_of_arg (s : string) : option Z := Workspace.int_of_str s.
(** [_get_values]: a "--" is taken out of the arguments, here of the one; then
    the conversion and the choices. *)
Definition stored (k : action_kind) (s : string) : option pyval :=
  if String.eqb s "--" then Some (VList [])
  else match k with
       | Store [] => Some (VStr s)
       | Store choices => if mem_str s choices then Some (VStr s) else None
       | StoreInt => VInt <$> int_of_arg s
       | StoreTrue | Help => None
       end.
Inductive stopped := Stop (code : Z).
(** The namespace, and the options that were seen. *)
Definition parsing := (pydict * list string)%type.
Definition take_flag (a : action) (st : parsing) : stopped + parsing :=
  match a_kind a with
  | Help => inl (Stop 0)
  | _ => inr (dset (a_dest a) (VBool true) st.1, a_dest a :: st.2)
  end.
Definition take_value (a : action) (s : string) (st : parsing) : stopped + parsing :=
  match stored (a_kind a) s with
  | Some v => inr (dset (a_dest a) v st.1, a_dest a :: st.2)
  | None => inl (Stop 2)
  end.
(** Flags written together, [-vy], and at the end an option with its value: the
    rest of the text, or the next argument. *)
Fixpoint chain (a : action) (flag explicit : string) : option (list action * option (action * option string)) :=
  if takes_value (a_kind a) then Some ([], Some (a, Some explicit))
  else
    match explicit with
    | EmptyString => None
    | String c explicit' =>
        if startswith "--" flag then None
        else
          let flag' := String "-" (String c EmptyString) in
          match find_flag flag' with
          | None => None
          | Some a' =>
              match explicit' with
              | EmptyString => if takes_value (a_kind a') then Some ([a], Some (a', None)) else Some ([a; a'], None)
              | _ => '(l, v) ← chain a' flag' explicit'; Some (a :: l, v)
              end
          end
    end.
Definition plan (o : optional) : option (list action * option (action * option string)) :=
  let '(a, flag, explicit) := o in
  match explicit with
  | Some e => chain a flag e
  | None => Some (if takes_value (a_kind a) then ([], Some (a, None)) else ([a], None))
  end.
Fixpoint take_flags (l : list action) (st : parsing) : stopped + parsing :=
  match l with
  | [] => inr st
  | a :: l' => match take_flag a st with inl e => inl e | inr st' => take_flags l' st' end
  end.
Definition take_all (l : list action) (v : option (action * string)) (st : parsing) : stopped + parsing :=
  match take_flags l st with
  | inl e => inl e
  | inr st' => match v with Some (a, s) => take_value a s st' | None => inr st' end
  end.
End options.

(** ** The loop over the arguments *)
Inductive role := NoArgument | Argument (dest : string) (n : nargs) | Subcommand (dest : string).
(** The positional argument: not met, its last text just before, taking more of
    the same run, done. *)
Inductive run_progress := Waiting | Just | Taking | Done.
#[export] Instance progress_eq_dec : EqDecision run_progress.
Proof. solve_decision. Defined.
Definition end_run (pr : run_progress) : run_progress := match pr with Waiting => Waiting | _ => Done end.
Definition texts (v : option pyval) : list pyval := match v with Some (VList l) => l | _ => [] end.
Definition merge (sub ns : pydict) : pydict := foldr (λ p ns, dset p.1 p.2 ns) ns sub.

Definition set_default (ns : pydict) (a : action) : pydict := match a_default a with Some v => dset (a_dest a) v ns | None => ns end.

Section loop.
Context (options : list action) (positional : role) (sub : string → list string → outcome).
Fixpoint loop (l : list (string * arg_class)) (pr : run_progress) (st : parsing) (extras : list string)
    : stopped + (run_progress * parsing * list string) :=
  match l with
  | [] => inr (pr, st, extras)
  | (s, Option None) :: rest => loop rest (end_run pr) st (extras ++ [s])
  | (s, Option (Some o)) :: rest =>
      match plan options o with
      | None => inl (Stop 2)
      | Some (acts, None) =>
          match take_all acts None st with inl e => inl e | inr st' => loop rest (end_run pr) st' extras end
      | Some (acts, Some (a, Some e)) =>
          match take_all acts (Some (a, e)) st with inl e => inl e | inr st' => loop rest (end_run pr) st' extras end
      | Some (acts, Some (a, None)) =>
          match rest with
          | (x, Positional) :: rest' =>
              match take_all acts (Some (a, x)) st with inl e => inl e | inr st' => loop rest' (end_run pr) st' extras end
          | _ => inl (Stop 2)
          end
      end
  | (s, Dashes) :: rest =>
      match pr, positional with
      | Waiting, Subcommand _ => inl (Stop 2)
      | Done, _ => loop rest pr st (extras ++ [s])
      | _, _ => loop rest pr st extras
      end
  | (s, Positional) :: rest =>
      match pr, positional with
      | Waiting, Argument d Many => loop rest Taking (dset d (VList [VStr s]) st.1, st.2) extras
      | Waiting, Argument d _ => loop rest Just (dset d (VStr s) st.1, st.2) extras
      | Taking, Argument d Many => loop rest Taking (dset d (VList (texts (dget d st.1) ++ [VStr s])) st.1, st.2) extras
      | Waiting, Subcommand d =>
          match sub s (map fst rest) with
          | Exit code => inl (Stop code)
          | Parsed ns ex => inr (Done, (merge ns (dset d (VStr s) st.1), st.2), extras ++ ex)
          end
      | _, _ => loop rest Done st (extras ++ [s])
      end
  end.
Definition defaults : pydict :=
  foldl set_default
    (match positional with Argument d _ | Subcommand d => [(d, VNone)] | NoArgument => [] end) options.
Definition finish (r : stopped + (run_progress * parsing * list string)) : outcome :=
  match r with
  | inl (Stop code) => Exit code
  | inr (pr, (ns, seen), extras) =>
      if negb (forallb (λ a, negb (a_required a) || mem_str (a_dest a) seen) options) then Exit 2
      else match pr, positional with
           | Waiting, Argument _ One => Exit 2
           | Waiting, Argument d Many => Parsed (dset d (VList []) ns) extras
           | _, _ => Parsed ns extras
           end
  end.
Definition start : run_progress := match positional with NoArgument => Done | _ => Waiting end.
Definition run_loop (args : list string) : outcome :=
  match classify options args with
  | None => Exit 2
  | Some l => finish (loop l start (defaults, []) [])
  end.
End loop.

Definition role_of (positional : option (string * nargs)) (dest : string) (subs : list (string * parser)) : role :=
  match positional, subs with
  | Some (d, n), _ => Argument d n
  | None, [] => NoArgument
  | None, _ => Subcommand dest
  end.
Fixpoint parse_known_args (p : parser) (args : list string) {struct p} : outcome :=
  let 'Parser options positional dest subs := p in
  run_loop options (role_of positional dest subs)
    (λ name rest, (fix choose (l : list (string * parser)) : outcome :=
       match l with
       | [] => Exit 2
       | (n, q) :: l' => if String.eqb n name then parse_known_args q rest else choose l'
       end) subs) args.
Definition parse_args (p : parser) (args : list string) : outcome :=
  match parse_known_args p args with
  | Parsed ns [] => Parsed ns []
  | Parsed _ _ => Exit 2
  | Exit code => Exit code
  end.

(** ** What a namespace holds *)
Inductive spec := SpecOption (a : action) | SpecArgument (n : nargs) | SpecSub (names : list string).
Definition entries (p : parser) : list (string * spec) :=
  let 'Parser options positional dest subs := p in
  map (λ a, (a_dest a, SpecOption a)) options ++
  match role_of positional dest subs with
  | NoArgument => []
  | Argument d n => [(d, SpecArgument n)]
  | Subcommand d => [(d, SpecSub (map fst subs))]
  end.
Definition conforms (a : action) (v : pyval) : Prop :=
  match a_kind a with
  | Store choices => ∃ s, v = VStr s ∧ (choices = [] ∨ s ∈ choices)
  | StoreInt => ∃ z, v = VInt z
  | StoreTrue => v = VBool true
  | Help => False
  end.
Definition accepts (v : pyval) (sp : spec) : Prop :=
  match sp with
  | SpecOption a => conforms a v ∨ a_required a = false ∧ a_default a = Some v
  | SpecArgument One => ∃ s, v = VStr s
  | SpecArgument Maybe => v = VNone ∨ ∃ s, v = VStr s
  | SpecArgument Many => ∃ l, v = VList (map VStr l)
  | SpecSub names => v = VNone ∨ ∃ n, n ∈ names ∧ v = VStr n
  end.

(** No value is written as two dashes, which 3.11 takes out of the values. *)
Definition no_dashes (s : string) : Prop := ∀ p, s ≠ p +:+ "--".
Definition plain_arg (s : string) : Prop := s = "--"%string ∨ no_dashes s.
Lemma no_dashes_app p s : no_dashes (p +:+ s) → no_dashes s.
Proof. intros H q ->. apply (H (p +:+ q)). by rewrite sapp_assoc. Qed.
Lemma no_dashes_eqb s : no_dashes s → String.eqb s "--" = false.
Proof. intros H. apply String.eqb_neq. intros ->. by apply (H EmptyString). Qed.

Lemma split_eq_app s a b : split_eq s = Some (a, b) → s = (a +:+ "=") +:+ b.
Proof.
  revert a. induction s as [|c s IH]; intros a H; [done|]. cbn [split_eq] in H. destruct (Ascii.eqb_spec c "=") as [->|_].
  - by injection H as <- <-.
  - destruct (split_eq s) as [[a' b']|]; [|done]. injection H as <- <-. by rewrite (IH a' eq_refl).
Qed.
Lemma take_drop_str n s : stake n s +:+ sdrop n s = s.
Proof. revert s. induction n as [|n IH]; intros [|c s]; [done..|]. cbn. by rewrite <-(IH s) at 3. Qed.

Section plans.
Context (options : list action).
Notation actions := (actions options).
Lemma flags_actions f a : (f, a) ∈ flags options → a ∈ actions.
Proof.
  intros H. apply list_elem_of_In, in_concat in H as (l & Hl & H). apply in_map_iff in Hl as (a' & <- & Ha).
  apply in_map_iff in H as (f' & [= _ ->] & _). by apply list_elem_of_In.
Qed.
Lemma find_flag_action s a : find_flag options s = Some a → a ∈ actions.
Proof.
  unfold find_flag. destruct (List.find _ (flags options)) as [[f a']|] eqn:E; [|done]. intros [= ->].
  apply List.find_some in E as [E _]. apply (flags_actions f). by apply list_elem_of_In.
Qed.
Definition plain_optional (o : optional) : Prop :=
  let '(a, _, explicit) := o in a ∈ actions ∧ ∀ e, explicit = Some e → no_dashes e.
Lemma parse_optional_plain s o : no_dashes s → parse_optional options s = Some (Option (Some o)) → plain_optional o.
Proof.
  intros Hs. unfold parse_optional. destruct (negb _); [done|]. destruct (find_flag options s) as [a|] eqn:E.
  { intros [= <-]. split; [by eapply find_flag_action|]. by intros e [=]. }
  destruct (_ =? _)%nat; [done|].
  assert (∀ o, (split_eq s ≫= λ '(flag, explicit), find_flag options flag ≫= λ a, Some (a, flag, Some explicit)) = Some o → plain_optional o) as H1.
  { intros o1. destruct (split_eq s) as [[flag explicit]|] eqn:Es; cbn [mbind option_bind]; [|done].
    destruct (find_flag options flag) as [a|] eqn:Ef; cbn [mbind option_bind]; [|done]. intros [= <-].
    split; [by eapply find_flag_action|]. intros e [= <-]. apply split_eq_app in Es. rewrite Es in Hs. by eapply no_dashes_app. }
  destruct (split_eq s ≫= _) as [o1|]; [intros [= <-]; by apply H1|]. clear H1.
  destruct (get_option_tuples options s) as [|o1 [|]] eqn:Et; [by destruct (_ || _)| |done]. intros [= <-].
  assert (o1 ∈ get_option_tuples options s) as Hin by (rewrite Et; left). clear Et. unfold get_option_tuples in Hin.
  destruct (startswith "--" s).
  - destruct (match split_eq s with Some (a, b) => (a, Some b) | None => (s, None) end) as [prefix explicit] eqn:Es.
    apply list_elem_of_omap in Hin as ([f a] & Hf & Hin). cbn [fst snd] in Hin. destruct (startswith prefix f); [|done]. injection Hin as <-.
    split; [by eapply flags_actions|]. intros e ->. destruct (split_eq s) as [[a1 b1]|] eqn:E1; [|done]. injection Es as -> ->.
    apply split_eq_app in E1. rewrite E1 in Hs. by eapply no_dashes_app.
  - apply list_elem_of_omap in Hin as ([f a] & Hf & Hin). cbn [fst snd] in Hin. destruct (String.eqb f (stake 2 s)).
    + injection Hin as <-. split; [by eapply flags_actions|]. intros e [= <-]. rewrite <-(take_drop_str 2 s) in Hs. by eapply no_dashes_app.
    + destruct (startswith s f); [|done]. injection Hin as <-. split; [by eapply flags_actions|]. by intros e [=].
Qed.

(** The actions of a plan are those of the parser, and the flags take no value. *)
Definition plain_plan (l : list action) (v : option (action * option string)) : Prop :=
  Forall (λ a, a ∈ actions ∧ takes_value (a_kind a) = false) l ∧
  ∀ a e, v = Some (a, e) → a ∈ actions ∧ takes_value (a_kind a) = true ∧ ∀ s, e = Some s → no_dashes s.
Lemma chain_plain explicit : ∀ a flag l v, a ∈ actions → no_dashes explicit →
  chain options a flag explicit = Some (l, v) → plain_plan l v.
Proof.
  induction explicit as [|c explicit IH]; intros a flag l v Ha He H; cbn [chain] in H.
  - destruct (takes_value (a_kind a)) eqn:Et; [|done]. injection H as <- <-. split; [constructor|].
    intros a' e [= <- <-]. split; [done|]. split; [done|]. by intros s [= <-].
  - destruct (takes_value (a_kind a)) eqn:Et.
    { injection H as <- <-. split; [constructor|]. intros a' e [= <- <-]. split; [done|]. split; [done|]. by intros s [= <-]. }
    destruct (startswith "--" flag); [done|]. destruct (find_flag options _) as [a'|] eqn:Ef; [|done]. apply find_flag_action in Ef.
    destruct explicit as [|c' explicit].
    + destruct (takes_value (a_kind a')) eqn:Et'; injection H as <- <-.
      * split; [by apply Forall_singleton|]. intros a1 e [= <- <-]. split; [done|]. split; [done|]. done.
      * split; [apply Forall_cons; split; [done|by apply Forall_singleton]|done].
    + destruct (chain options a' _ _) as [[l' v']|] eqn:Ec; [|done]. injection H as <- <-.
      apply IH in Ec as [H1 H2]; [|done|by apply (no_dashes_app (String c EmptyString))].
      split; [by constructor|done].
Qed.
Lemma plan_plain o l v : plain_optional o → plan options o = Some (l, v) → plain_plan l v.
Proof.
  destruct o as [[a flag] [e|]]; intros [Ha He]; cbn [plan].
  - apply chain_plain; [done|by apply He].
  - destruct (takes_value (a_kind a)) eqn:Et; intros [= <- <-].
    + split; [constructor|]. intros a' e [= <- <-]. split; [done|]. split; [done|]. done.
    + split; [by apply Forall_singleton|done].
Qed.
End plans.

(** ** The loop keeps the namespace well-typed *)
Inductive classified (options : list action) : list (string * arg_class) → Prop :=
  | classified_nil : classified options []
  | classified_cons s c l : s ≠ "--"%string → c ≠ Dashes → (∀ o, c = Option (Some o) → plain_optional options o) →
      classified options l → classified options ((s, c) :: l)
  | classified_dashes s l : Forall (λ p, p.2 = Positional) l → classified options ((s, Dashes) :: l).
Lemma classify_classified options args : ∀ l, Forall plain_arg args → classify options args = Some l → classified options l.
Proof.
  induction args as [|s args IH]; intros l Hp H; cbn [classify] in H; [injection H as <-; constructor|].
  apply Forall_cons in Hp as [Hs Hp]. destruct (String.eqb_spec s "--") as [->|Hne].
  - injection H as <-. apply classified_dashes. apply Forall_forall. intros p Hin. by apply list_elem_of_fmap in Hin as (x & -> & _).
  - destruct Hs as [->|Hs]; [done|]. destruct (parse_optional options s) as [c|] eqn:Ec; [|done].
    destruct (classify options args) as [l'|] eqn:El; [|done]. injection H as <-. apply classified_cons; [done| | |by apply IH].
    + intros ->. unfold parse_optional in Ec. destruct (negb _); [done|]. destruct (find_flag options s); [done|]. destruct (_ =? _)%nat; [done|].
      destruct (_ ≫= _); [done|]. destruct (get_option_tuples options s) as [|? [|]]; [by destruct (_ || _)|done|done].
    + intros o ->. by eapply parse_optional_plain.
Qed.

Lemma classify_texts options args : ∀ l, classify options args = Some l → map fst l = args.
Proof.
  induction args as [|s args IH]; intros l El; cbn [classify] in El; [by injection El as <-|].
  destruct (String.eqb s "--").
  - injection El as <-. cbn [map fst]. f_equal. rewrite map_map. by apply map_id.
  - destruct (parse_optional options s); [|done]. destruct (classify options args) as [l'|]; [|done]. injection El as <-.
    cbn [map fst]. f_equal. by apply IH.
Qed.
Lemma choose_found (subs : list (string * parser)) name rest ns ex :
  (fix choose (l : list (string * parser)) : outcome :=
     match l with
     | [] => Exit 2
     | (n, q) :: l' => if String.eqb n name then parse_known_args q rest else choose l'
     end) subs = Parsed ns ex →
  ∃ q, (name, q) ∈ subs ∧ parse_known_args q rest = Parsed ns ex.
Proof.
  induction subs as [|[n q] subs IH]; [done|]. destruct (String.eqb_spec n name) as [->|_].
  - intros H. exists q. split; [left|done].
  - intros (q' & Hq' & H')%IH. exists q'. split; [by right|done].
Qed.

Section typed.
Context (options : list action) (positional : role) (sub : string → list string → outcome).
Context (S : string → pydict → Prop).
Definition role_dests : list string := match positional with Argument d _ | Subcommand d => [d] | NoArgument => [] end.
Definition own_dests : list string := map a_dest options ++ role_dests.
Context (Hown : NoDup own_dests).
Context (Hsub : ∀ n rest ns ex, sub n rest = Parsed ns ex → Forall plain_arg rest → S n ns).

Definition options_ok (ns : pydict) (seen : list string) : Prop :=
  ∀ a, a ∈ options → (∃ v, dget (a_dest a) ns = Some v ∧ conforms a v) ∨ (dget (a_dest a) ns = a_default a ∧ a_dest a ∉ seen).
Definition keys_ok (ns : pydict) : Prop := ∀ d v, dget d ns = Some v → d ∈ own_dests.
Definition positional_ok (pr : run_progress) (ns : pydict) : Prop :=
  match positional with
  | NoArgument => True
  | Argument d Many => (pr = Waiting ∧ dget d ns = Some VNone) ∨ (pr ≠ Waiting ∧ ∃ l, dget d ns = Some (VList (map VStr l)))
  | Argument d _ => (pr = Waiting ∧ dget d ns = Some VNone) ∨ (pr ≠ Waiting ∧ ∃ s, dget d ns = Some (VStr s))
  | Subcommand d => pr = Waiting ∧ dget d ns = Some VNone
  end.
Definition inv (pr : run_progress) (st : parsing) : Prop := options_ok st.1 st.2 ∧ keys_ok st.1 ∧ positional_ok pr st.1.

Lemma own_option a : a ∈ options → a_dest a ∈ own_dests.
Proof. intros H. apply elem_of_app. left. by apply list_elem_of_fmap_2. Qed.
Lemma dest_inj a b : a ∈ options → b ∈ options → a_dest a = a_dest b → a = b.
Proof.
  unfold own_dests in Hown. apply NoDup_app in Hown as (Hn & _ & _). clear Hsub. induction options as [|x l IH]; intros Ha Hb E.
  - by apply not_elem_of_nil in Ha.
  - apply NoDup_cons in Hn as [Hx Hn]. apply elem_of_cons in Ha as [->|Ha], Hb as [->|Hb]; [done| | |by apply IH].
    + destruct Hx. rewrite E. by apply list_elem_of_fmap_2.
    + destruct Hx. rewrite <-E. by apply list_elem_of_fmap_2.
Qed.
Lemma dest_role a : a ∈ options → a_dest a ∉ role_dests.
Proof. intros H. unfold own_dests in Hown. apply NoDup_app in Hown as (_ & Hd & _). apply Hd. by apply list_elem_of_fmap_2. Qed.

(** A value for one of the options. *)
Lemma set_option a v pr ns seen : a ∈ options → conforms a v → inv pr (ns, seen) → inv pr (dset (a_dest a) v ns, a_dest a :: seen).
Proof.
  intros Ha Hv (Ho & Hk & Hp). split; [|split]; cbn [fst snd] in *.
  - intros b Hb. destruct (decide (a_dest b = a_dest a)) as [E|Hne].
    + pose proof (dest_inj b a Hb Ha E) as ->. left. exists v. by rewrite dget_dset.
    + rewrite (dget_dset_ne (a_dest a)) by done. destruct (Ho b Hb) as [?|[? ?]]; [by left|right]. split; [done|].
      intros [?|?]%elem_of_cons; done.
  - intros d w. destruct (decide (d = a_dest a)) as [->|Hne]; [by intros _; apply own_option|].
    rewrite (dget_dset_ne (a_dest a)) by done. apply Hk.
  - pose proof (dest_role a Ha) as Hr. unfold positional_ok, role_dests in *.
    destruct positional as [|d n|d]; [done| |].
    + assert (d ≠ a_dest a) as Hne by (intros ->; apply Hr; left). destruct n; rewrite (dget_dset_ne (a_dest a)); done.
    + assert (d ≠ a_dest a) as Hne by (intros ->; apply Hr; left). by rewrite (dget_dset_ne (a_dest a)).
Qed.
(** A value for the positional argument. *)
Lemma set_role d v pr pr' ns seen : role_dests = [d] → inv pr (ns, seen) → positional_ok pr' (dset d v ns) → inv pr' (dset d v ns, seen).
Proof.
  intros Hd (Ho & Hk & Hp) Hp'. split; [|split]; cbn [fst snd] in *; [|  |done].
  - intros a Ha. pose proof (dest_role a Ha) as Hr. rewrite Hd in Hr.
    assert (a_dest a ≠ d) as Hne by (intros E; apply Hr; rewrite E; left). rewrite (dget_dset_ne d) by done. by apply Ho.
  - intros k w. destruct (decide (k = d)) as [->|Hne].
    + intros _. unfold own_dests. rewrite Hd. apply elem_of_app. right. left.
    + rewrite (dget_dset_ne d) by done. apply Hk.
Qed.

Lemma help_stops st : take_flag help_action st = inl (Stop 0).
Proof. done. Qed.
Lemma take_flag_inv a pr st st' : a ∈ actions options → takes_value (a_kind a) = false → inv pr st → take_flag a st = inr st' → inv pr st'.
Proof.
  intros Ha Ht Hi H. destruct st as [ns seen]. apply elem_of_cons in Ha as [->|Ha]; [by rewrite help_stops in H|].
  unfold take_flag in H. destruct (a_kind a) eqn:Ek; try done. injection H as <-. apply set_option; [done| |done].
  unfold conforms. by rewrite Ek.
Qed.
Lemma stored_conforms a s v : no_dashes s ∨ s ≠ "--"%string → stored (a_kind a) s = Some v → conforms a v.
Proof.
  intros Hs H. unfold stored in H. rewrite (proj2 (String.eqb_neq s "--")) in H.
  - unfold conforms. destruct (a_kind a) as [[|c l]| | |]; try done.
    + injection H as <-. eauto.
    + destruct (mem_str s (c :: l)) eqn:E; [|done]. injection H as <-. exists s. split; [done|right]. by apply mem_str_iff.
    + destruct (int_of_arg s); [|done]. injection H as <-. eauto.
  - destruct Hs as [Hs|Hs]; [|done]. intros ->. by apply (Hs EmptyString).
Qed.
Lemma take_value_inv a s pr st st' : a ∈ actions options → takes_value (a_kind a) = true → no_dashes s ∨ s ≠ "--"%string → inv pr st →
  take_value a s st = inr st' → inv pr st'.
Proof.
  intros Ha Ht Hs Hi H. destruct st as [ns seen]. unfold take_value in H. destruct (stored (a_kind a) s) as [v|] eqn:E; [|done].
  injection H as <-. apply elem_of_cons in Ha as [->|Ha]; [done|]. apply set_option; [done|by eapply stored_conforms|done].
Qed.
Lemma take_all_inv l v pr st st' : plain_plan options l v → ∀ value,
  match v, value with
  | None, None => True
  | Some (a, Some s), Some (b, t) => a = b ∧ s = t
  | Some (a, None), Some (b, t) => a = b ∧ t ≠ "--"%string
  | _, _ => False
  end → inv pr st → take_all l value st = inr st' → inv pr st'.
Proof.
  intros [Hl Hv] value Hm Hi. unfold take_all.
  assert (∀ st1, take_flags l st = inr st1 → inv pr st1) as Hflags.
  { clear Hm Hv. revert st Hi. induction Hl as [|a l [Ha Ht] Hl IH]; intros st Hi st1; cbn [take_flags]; [by intros [= <-]|].
    destruct (take_flag a st) as [|st2] eqn:E; [done|]. apply IH. by eapply take_flag_inv. }
  destruct (take_flags l st) as [|st1]; [done|]. specialize (Hflags st1 eq_refl).
  destruct v as [[a [s|]]|], value as [[b t]|]; try done.
  - destruct Hm as [<- <-]. destruct (Hv a (Some s) eq_refl) as (Ha & Ht & He). apply take_value_inv; [done|done| |done]. left. by apply He.
  - destruct Hm as [<- Hne]. destruct (Hv a None eq_refl) as (Ha & Ht & _). apply take_value_inv; [done|done| |done]. by right.
  - by intros [= <-].
Qed.

Lemma inv_progress pr pr' st : (pr = Waiting ↔ pr' = Waiting) ∨ positional = NoArgument → inv pr st → inv pr' st.
Proof.
  intros H (Ho & Hk & Hp). split; [done|]. split; [done|]. unfold positional_ok in *. destruct positional as [|d n|d]; [done| |].
  - destruct H as [H|H]; [|done]. destruct n; (destruct Hp as [[Hw Hp]|[Hw Hp]]; [left|right]); naive_solver.
  - destruct H as [H|H]; [|done]. naive_solver.
Qed.
Lemma end_run_inv pr st : inv pr st → inv (end_run pr) st.
Proof. apply inv_progress. left. by destruct pr. Qed.

Definition subcommand_taken (st : parsing) : Prop :=
  ∃ d n ns0 sns, positional = Subcommand d ∧ inv Waiting (ns0, st.2) ∧ st.1 = merge sns (dset d (VStr n) ns0) ∧ S n sns.
Lemma waiting_argument s rest st extras result : Forall plain_arg (map fst rest) → inv Waiting st →
  loop options positional sub ((s, Positional) :: rest) Waiting st extras = inr result →
  (∃ pr1 st1 ex1, inv pr1 st1 ∧ loop options positional sub rest pr1 st1 ex1 = inr result) ∨ subcommand_taken result.1.2.
Proof.
  intros Hp Hi H. destruct st as [ns seen]. cbn [loop] in H. destruct positional as [|d n|d] eqn:Er.
  - left. exists Done, (ns, seen), (extras ++ [s]). split; [|done]. eapply inv_progress; [by right|exact Hi].
  - left. assert (role_dests = [d]) as Hd by (unfold role_dests; by rewrite Er). destruct n.
    + exists Just, (dset d (VStr s) ns, seen), extras. split; [|done]. eapply set_role; [done|exact Hi|].
      unfold positional_ok. rewrite Er. right. split; [done|]. exists s. by rewrite dget_dset.
    + exists Just, (dset d (VStr s) ns, seen), extras. split; [|done]. eapply set_role; [done|exact Hi|].
      unfold positional_ok. rewrite Er. right. split; [done|]. exists s. by rewrite dget_dset.
    + exists Taking, (dset d (VList [VStr s]) ns, seen), extras. split; [|done]. eapply set_role; [done|exact Hi|].
      unfold positional_ok. rewrite Er. right. split; [done|]. exists [s]. by rewrite dget_dset.
  - right. cbn [fst snd] in H. destruct (sub s (map fst rest)) as [|sns ex] eqn:Es; [done|]. injection H as <-.
    exists d, s, ns, sns. split; [done|]. split; [done|]. split; [done|]. by eapply Hsub.
Qed.
Lemma taking_inv d s st : positional = Argument d Many → inv Taking st →
  inv Taking (dset d (VList (texts (dget d st.1) ++ [VStr s])) st.1, st.2).
Proof.
  intros Er Hi. destruct st as [ns seen]. pose proof Hi as (_ & _ & Hp). cbn [fst snd] in *.
  unfold positional_ok in Hp. rewrite Er in Hp. destruct Hp as [[? _]|[_ [l Hl]]]; [done|].
  eapply set_role; [unfold role_dests; by rewrite Er|exact Hi|]. unfold positional_ok. rewrite Er. right. split; [done|].
  exists (l ++ [s]). by rewrite dget_dset, Hl, map_app.
Qed.
Lemma loop_inv l : ∀ pr st extras pr' st' extras',
  classified options l ∨ Forall (λ p, p.2 = Positional) l → Forall plain_arg (map fst l) → inv pr st →
  loop options positional sub l pr st extras = inr (pr', st', extras') → inv pr' st' ∨ subcommand_taken st'.
Proof.
  induction l as [[|[s c] rest] IH] using (induction_ltof1 _ length); intros pr st extras pr' st' extras' Hl Hp Hi H.
  { injection H as <- <- _. by left. }
  assert (classified options rest ∨ Forall (λ p, p.2 = Positional) rest) as Hrest.
  { destruct Hl as [Hl|Hl]; [inversion Hl; subst; auto|]. apply Forall_cons in Hl as [_ Hl]. by right. }
  cbn [map fst] in Hp. apply Forall_cons in Hp as [_ Hp].
  assert (∀ pr1 st1 ex1, inv pr1 st1 → loop options positional sub rest pr1 st1 ex1 = inr (pr', st', extras') → inv pr' st' ∨ subcommand_taken st') as Hgo.
  { intros pr1 st1 ex1. apply IH; [unfold ltof; cbn; lia|done|done]. }
  destruct c as [| |[o|]]; cbn [loop] in H.
  - destruct pr.
    + apply waiting_argument in H as [(pr1 & st1 & ex1 & Hi1 & H1)|Hs]; [by eapply Hgo|by right|done|done].
    + assert (inv Done st) as Hd by (eapply inv_progress; [|exact Hi]; by left). destruct positional; by eapply Hgo.
    + assert (inv Done st) as Hd by (eapply inv_progress; [|exact Hi]; by left).
      destruct positional as [|d [| |]|d] eqn:Er; try (by eapply Hgo). eapply Hgo; [|exact H]. by apply taking_inv.
    + destruct positional; by eapply Hgo.
  - destruct pr, positional as [|d n|d] eqn:Er; try done; by (eapply Hgo; [|exact H]).
  - destruct Hl as [Hl|Hl]; [|by apply Forall_cons in Hl as [? _]]. inversion Hl as [|? ? ? _ _ Ho Hrest' |]; subst. specialize (Ho o eq_refl).
    destruct (plan options o) as [[acts v]|] eqn:Epl; [|done]. pose proof (plan_plain options o acts v Ho Epl) as Hpp.
    destruct v as [[a [e|]]|].
    + destruct (take_all acts (Some (a, e)) st) as [|st1] eqn:Et; [done|]. eapply Hgo; [|exact H]. apply end_run_inv.
      by eapply (take_all_inv acts (Some (a, Some e)) pr st st1 Hpp (Some (a, e))).
    + destruct rest as [|[x [| |]] rest]; try done. destruct (take_all acts (Some (a, x)) st) as [|st1] eqn:Et; [done|].
      inversion Hrest' as [|? ? ? Hne _ _ Hrest'' |]; subst. cbn [map] in Hp. apply Forall_cons in Hp as [_ Hp].
      eapply IH; [| |exact Hp| |exact H]; [unfold ltof; cbn; lia|by left|]. apply end_run_inv.
      by eapply (take_all_inv acts (Some (a, None)) pr st st1 Hpp (Some (a, x))).
    + destruct (take_all acts None st) as [|st1] eqn:Et; [done|]. eapply Hgo; [|exact H]. apply end_run_inv.
      by eapply (take_all_inv acts None pr st st1 Hpp None).
  - eapply Hgo; [|exact H]. by apply end_run_inv.
Qed.
End typed.

(** ** The result of one parser *)
Section result.
Context (options : list action) (positional : role) (sub : string → list string → outcome).
Context (S : string → pydict → Prop).
Context (Hown : NoDup (own_dests options positional)).
Context (Hsub : ∀ n rest ns ex, sub n rest = Parsed ns ex → Forall plain_arg rest → S n ns).
Notation inv := (inv options positional).

Lemma set_defaults_other d opts : ∀ ns, d ∉ map a_dest opts → dget d (foldl set_default ns opts) = dget d ns.
Proof.
  induction opts as [|a opts IH]; intros ns Hd; [done|]. apply not_elem_of_cons in Hd as [Hne Hd]. cbn [foldl]. rewrite IH by done.
  unfold set_default. destruct (a_default a); [|done]. by rewrite (dget_dset_ne (a_dest a)).
Qed.
Lemma set_defaults_in a opts : ∀ ns, NoDup (map a_dest opts) → a ∈ opts → dget (a_dest a) ns = None →
  dget (a_dest a) (foldl set_default ns opts) = a_default a.
Proof.
  induction opts as [|b opts IH]; intros ns Hn Ha Hns; [by apply not_elem_of_nil in Ha|].
  cbn [map] in Hn. apply NoDup_cons in Hn as [Hb Hn]. cbn [foldl]. apply elem_of_cons in Ha as [->|Ha].
  - rewrite set_defaults_other by done. unfold set_default. destruct (a_default b); [by rewrite dget_dset|done].
  - apply IH; [done..|]. assert (a_dest a ≠ a_dest b) as Hne by (intros E; apply Hb; rewrite <-E; by apply list_elem_of_fmap_2).
    unfold set_default. destruct (a_default b); [by rewrite (dget_dset_ne (a_dest b))|done].
Qed.

Lemma defaults_inv : inv (start positional) (defaults options positional, []).
Proof.
  unfold own_dests in Hown. apply NoDup_app in Hown as (Hn & Hd & _).
  set (base := match positional with Argument d _ | Subcommand d => [(d, VNone)] | NoArgument => [] end : pydict).
  assert (∀ d, d ∉ role_dests positional → dget d base = None) as Hbase.
  { intros d. unfold role_dests, base. destruct positional as [|d' n|d']; [done| |];
      intros H; cbn; destruct (String.eqb_spec d' d) as [->|]; try done; destruct H; left. }
  assert (∀ d, d ∈ role_dests positional → dget d (defaults options positional) = Some VNone) as Hrole.
  { intros d Hd'. unfold defaults. fold base. rewrite (set_defaults_other d options base).
    - unfold role_dests, base in *. destruct positional as [|d1 n|d1]; [by apply not_elem_of_nil in Hd'| |];
        apply list_elem_of_singleton in Hd' as ->; cbn; by rewrite String.eqb_refl.
    - intros H. by apply (Hd d). }
  split; [|split]; cbn [fst snd].
  - intros a Ha. right. split; [|apply not_elem_of_nil]. unfold defaults. apply set_defaults_in; [done..|].
    apply Hbase, Hd. by apply list_elem_of_fmap_2.
  - intros d v Hv. unfold own_dests. apply elem_of_app. destruct (decide (d ∈ map a_dest options)) as [|Hno]; [by left|right].
    destruct (decide (d ∈ role_dests positional)) as [|Hnr]; [done|]. unfold defaults in Hv. fold base in Hv.
    rewrite (set_defaults_other d options base Hno), (Hbase d Hnr) in Hv. done.
  - unfold positional_ok, start, role_dests in *. destruct positional as [|d n|d]; [done| |].
    + destruct n; left; (split; [done|apply Hrole; left]).
    + split; [done|apply Hrole; left].
Qed.

(** What holds of the namespace when all arguments are consumed. *)
Definition final_ok (ns : pydict) : Prop :=
  (∀ a, a ∈ options → (∃ v, dget (a_dest a) ns = Some v ∧ conforms a v) ∨ (a_required a = false ∧ dget (a_dest a) ns = a_default a)) ∧
  keys_ok options positional ns ∧
  match positional with
  | NoArgument => True
  | Argument d n => ∃ v, dget d ns = Some v ∧ accepts v (SpecArgument n)
  | Subcommand d => dget d ns = Some VNone
  end.
Definition subcommand_ok (ns : pydict) : Prop :=
  ∃ d n ns0 sns, positional = Subcommand d ∧ final_ok ns0 ∧ ns = merge sns (dset d (VStr n) ns0) ∧ S n sns.

Lemma inv_final pr ns seen : inv pr (ns, seen) → (∀ a, a ∈ options → a_required a = true → a_dest a ∈ seen) →
  (∀ d, positional = Argument d One → pr ≠ Waiting) → (∀ d, positional = Argument d Many → pr ≠ Waiting) → final_ok ns.
Proof.
  intros (Ho & Hk & Hp) Hreq H1 H2. cbn [fst snd] in *. split; [|split; [done|]].
  - intros a Ha. destruct (Ho a Ha) as [?|[Hd Hs]]; [by left|right]. split; [|done]. destruct (a_required a) eqn:E; [|done].
    destruct Hs. by apply Hreq.
  - unfold positional_ok in Hp. destruct positional as [|d n|d]; [done| |by destruct Hp]. destruct n.
    + destruct Hp as [[-> _]|(_ & s & Hs)]; [by destruct (H1 d eq_refl)|]. exists (VStr s). split; [done|]. by exists s.
    + destruct Hp as [[_ Hv]|(_ & s & Hs)]; [exists VNone; split; [done|by left]|]. exists (VStr s). split; [done|right]. by exists s.
    + destruct Hp as [[-> _]|(_ & l & Hs)]; [by destruct (H2 d eq_refl)|]. eexists. split; [done|]. by exists l.
Qed.

Lemma final_of pr ns1 seen ns ex ex1 : inv pr (ns1, seen) → (∀ a, a ∈ options → a_required a = true → a_dest a ∈ seen) →
  match pr, positional with
  | Waiting, Argument _ One => Exit 2
  | Waiting, Argument d Many => Parsed (dset d (VList []) ns1) ex1
  | _, _ => Parsed ns1 ex1
  end = Parsed ns ex → final_ok ns.
Proof.
  intros Hi Hreq H. destruct (decide (pr = Waiting)) as [->|Hne].
  - revert H. case_eq positional; [intros Er H|intros d [| |] Er H|intros d Er H]; try done.
    + injection H as <- _. eapply inv_final; [exact Hi|done|by rewrite Er|by rewrite Er].
    + injection H as <- _. eapply inv_final; [exact Hi|done|by rewrite Er|by rewrite Er].
    + injection H as <- _. apply (inv_final Taking _ seen); [|done|done|done].
      eapply set_role; [exact Hown|unfold role_dests; by rewrite Er|exact Hi|]. unfold positional_ok. rewrite Er. right. split; [done|].
      exists []. by rewrite dget_dset.
    + injection H as <- _. eapply inv_final; [exact Hi|done|by rewrite Er|by rewrite Er].
  - assert (ns1 = ns) as -> by (clear Hown; by destruct pr, positional as [|? [| |]|]; try done; injection H).
    eapply inv_final; [exact Hi|done|done|done].
Qed.

Lemma run_loop_ok args ns ex : Forall plain_arg args → run_loop options positional sub args = Parsed ns ex → final_ok ns ∨ subcommand_ok ns.
Proof.
  intros Hargs. unfold run_loop. destruct (classify options args) as [l|] eqn:El; [|done].
  pose proof (classify_classified options args l Hargs El) as Hl.
  pose proof (classify_texts options args l El) as Hfst.
  rewrite <-Hfst in Hargs.
  destruct (loop options positional sub l (start positional) (defaults options positional, []) []) as [[code]|[[pr [ns1 seen]] ex1]] eqn:E; [done|].
  apply (loop_inv options positional sub S Hown Hsub) in E; [|by left|done|apply defaults_inv].
  unfold finish. destruct (negb (forallb _ options)) eqn:Ereq; [done|]. apply negb_false_iff in Ereq.
  assert (∀ a, a ∈ options → a_required a = true → a_dest a ∈ seen) as Hreq.
  { intros a Ha Hr. rewrite forallb_forall in Ereq. apply list_elem_of_In in Ha. specialize (Ereq a Ha). rewrite Hr in Ereq. by apply mem_str_iff. }
  intros H. destruct E as [Hi|(d & n & ns0 & sns & Hpos & Hi & Hns & HS)]; cycle 1.
  - right. assert (ns1 = ns) as -> by (rewrite Hpos in H; by destruct pr; injection H).
    exists d, n, ns0, sns. split; [done|]. split; [|done]. cbn [fst snd] in *.
    eapply inv_final; [exact Hi|done|by rewrite Hpos|by rewrite Hpos].
  - left. apply (final_of pr ns1 seen ns ex ex1); [done|done|]. exact H.
Qed.
End result.

(** ** The result of a tree of parsers *)
Section parser_ind.
Context (P : parser → Prop) (H : ∀ options positional dest subs, Forall (λ nq, P nq.2) subs → P (Parser options positional dest subs)).
Fixpoint parser_ind' (p : parser) : P p :=
  let 'Parser options positional dest subs := p in
  H options positional dest subs ((fix go (l : list (string * parser)) : Forall (λ nq, P nq.2) l :=
    match l with [] => Forall_nil_2 _ | nq :: l' => Forall_cons_2 _ _ _ (parser_ind' nq.2) (go l') end) subs).
End parser_ind.

(** The parsers from [p] to the subcommand that the namespace names. *)
Inductive chosen (ns : pydict) : parser → list parser → Prop :=
  | chosen_leaf options positional dest subs : (∀ d, role_of positional dest subs ≠ Subcommand d) →
      chosen ns (Parser options positional dest subs) [Parser options positional dest subs]
  | chosen_none options positional dest subs d : role_of positional dest subs = Subcommand d → dget d ns = Some VNone →
      chosen ns (Parser options positional dest subs) [Parser options positional dest subs]
  | chosen_sub options positional dest subs d n q l : role_of positional dest subs = Subcommand d → dget d ns = Some (VStr n) →
      (n, q) ∈ subs → chosen ns q l → chosen ns (Parser options positional dest subs) (Parser options positional dest subs :: l).

Definition always (sp : spec) : Prop := match sp with SpecOption a => a_required a = true ∨ a_default a ≠ None | _ => True end.
(** Every value is one that an entry of the chosen parsers accepts, and the
    entries that are not suppressed have one. *)
Definition well_typed (l : list parser) (ns : pydict) : Prop :=
  (∀ d v, dget d ns = Some v → ∃ q sp, q ∈ l ∧ (d, sp) ∈ entries q ∧ accepts v sp) ∧
  ∀ q d sp, q ∈ l → (d, sp) ∈ entries q → always sp → is_Some (dget d ns).

Fixpoint all_dests (p : parser) : list string :=
  let 'Parser options positional dest subs := p in
  own_dests options (role_of positional dest subs) ++ concat (map (λ nq, all_dests nq.2) subs).
(** The names of a parser are distinct, and no descendant uses the one of its
    subcommand. *)
Fixpoint names_ok (p : parser) : bool :=
  let 'Parser options positional dest subs := p in
  bool_decide (NoDup (own_dests options (role_of positional dest subs)))
  && forallb (λ nq, negb (mem_str dest (all_dests nq.2)) && names_ok nq.2) subs.

Lemma dget_merge d sub ns : dget d (merge sub ns) = match dget d sub with Some v => Some v | None => dget d ns end.
Proof.
  unfold merge. induction sub as [|[k v] sub IH]; [done|]. cbn [foldr fst snd]. change (dget d ((k, v) :: sub)) with (if String.eqb k d then Some v else dget d sub).
  destruct (String.eqb_spec k d) as [->|Hne]; [by rewrite dget_dset|]. by rewrite (dget_dset_ne k).
Qed.
Lemma entries_own p d sp : (d, sp) ∈ entries p → d ∈ all_dests p.
Proof.
  destruct p as [options positional dest subs]. unfold all_dests, own_dests. cbn [entries]. intros H. apply elem_of_app. left.
  apply elem_of_app in H as [H|H]; apply elem_of_app.
  - left. apply list_elem_of_fmap in H as (a & [= -> _] & Ha). by apply list_elem_of_fmap_2.
  - right. destruct (role_of positional dest subs); [by apply not_elem_of_nil in H| |]; apply list_elem_of_singleton in H as [= -> _]; left.
Qed.
Lemma all_dests_sub n q options positional dest subs : (n, q) ∈ subs → ∀ d, d ∈ all_dests q → d ∈ all_dests (Parser options positional dest subs).
Proof.
  intros Hq d Hd. cbn [all_dests]. apply elem_of_app. right. apply list_elem_of_In, in_concat. exists (all_dests q).
  split; [|by apply list_elem_of_In]. apply in_map_iff. exists (n, q). split; [done|by apply list_elem_of_In].
Qed.
Lemma chosen_dests ns p l : chosen ns p l → ∀ q d sp, q ∈ l → (d, sp) ∈ entries q → d ∈ all_dests p.
Proof.
  induction 1 as [options positional dest subs ?|options positional dest subs d0 ? ?|options positional dest subs d0 n q0 l Hr Hd Hin Hc IH];
    intros q d sp Hq Hsp.
  - apply list_elem_of_singleton in Hq as ->. by eapply entries_own.
  - apply list_elem_of_singleton in Hq as ->. by eapply entries_own.
  - apply elem_of_cons in Hq as [->|Hq]; [by eapply entries_own|]. eapply all_dests_sub; [done|by eapply IH].
Qed.
Lemma chosen_lift ns ns' p l : (∀ d v, dget d ns = Some v → dget d ns' = Some v) → chosen ns p l → chosen ns' p l.
Proof. intros H. induction 1; [by apply chosen_leaf|eapply chosen_none; eauto|eapply chosen_sub; eauto]. Qed.

(** What one parser sets conforms to its entries. *)
Lemma final_entries options positional dest subs ns : NoDup (own_dests options (role_of positional dest subs)) →
  final_ok options (role_of positional dest subs) ns → well_typed [Parser options positional dest subs] ns.
Proof.
  intros Hown (Ho & Hk & Hp). split.
  - intros d v Hv. specialize (Hk d v Hv). exists (Parser options positional dest subs). unfold own_dests in Hk. cbn [entries].
    apply elem_of_app in Hk as [Hk|Hk].
    + apply list_elem_of_fmap in Hk as (a & -> & Ha). exists (SpecOption a). split; [left|]. split.
      * apply elem_of_app. left. apply list_elem_of_fmap. by exists a.
      * cbn. destruct (Ho a Ha) as [(w & Hw & Hc)|[Hr Hd]]; rewrite Hv in *; [left; by injection Hw as <-|by right].
    + unfold role_dests in Hk. destruct (role_of positional dest subs) as [|d' n|d'] eqn:Er; [by apply not_elem_of_nil in Hk| |];
        apply list_elem_of_singleton in Hk as ->.
      * exists (SpecArgument n). split; [left|]. split; [apply elem_of_app; right; left|]. destruct Hp as (w & Hw & Hc). rewrite Hv in Hw. by injection Hw as <-.
      * exists (SpecSub (map fst subs)). split; [left|]. split; [apply elem_of_app; right; left|]. left. congruence.
  - intros q d sp ->%list_elem_of_singleton Hsp Halways. cbn [entries] in Hsp. apply elem_of_app in Hsp as [Hsp|Hsp].
    + apply list_elem_of_fmap in Hsp as (a & [= -> ->] & Ha). destruct (Ho a Ha) as [(w & -> & _)|[Hr Hd]]; [done|].
      cbn in Halways. rewrite Hd. destruct Halways as [?|Hn]; [congruence|]. destruct (a_default a); done.
    + destruct (role_of positional dest subs); [by apply not_elem_of_nil in Hsp| |]; apply list_elem_of_singleton in Hsp as [= -> ->].
      * destruct Hp as (w & -> & _). done.
      * by rewrite Hp.
Qed.

Definition result_ok (p : parser) (ns : pydict) : Prop := ∃ l, chosen ns p l ∧ well_typed l ns.
Lemma merged_ok options positional dest subs d n q ns0 sns :
  names_ok (Parser options positional dest subs) = true → role_of positional dest subs = Subcommand d → (n, q) ∈ subs →
  final_ok options (role_of positional dest subs) ns0 → result_ok q sns →
  result_ok (Parser options positional dest subs) (merge sns (dset d (VStr n) ns0)).
Proof.
  intros Hn Hr Hq Hf (l & Hc & Ht1 & Ht2). cbn [names_ok] in Hn. apply andb_true_iff in Hn as [Hown Hsubs].
  apply bool_decide_eq_true in Hown. destruct (final_entries options positional dest subs ns0 Hown Hf) as [He1 He2].
  rewrite forallb_forall in Hsubs. specialize (Hsubs (n, q) (proj1 (list_elem_of_In _ _) Hq)). apply andb_true_iff in Hsubs as [Hfresh _].
  assert (dest = d) as -> by (unfold role_of in Hr; destruct positional as [[? ?]|]; [done|]; destruct subs; [done|]; by injection Hr).
  set (ns := merge sns (dset d (VStr n) ns0)).
  assert (dget d ns = Some (VStr n)) as Hd.
  { unfold ns. rewrite dget_merge. destruct (dget d sns) as [v|] eqn:E; [|by rewrite dget_dset].
    destruct (Ht1 d v E) as (q' & sp & Hq' & Hsp & _). apply negb_true_iff in Hfresh. rewrite <-not_true_iff_false in Hfresh.
    destruct Hfresh. apply mem_str_iff. by eapply chosen_dests. }
  exists (Parser options positional d subs :: l). split.
  - eapply chosen_sub; [done|done|done|]. eapply chosen_lift; [|done]. intros d' v E. unfold ns. by rewrite dget_merge, E.
  - split.
    + intros d' v Hv. unfold ns in Hv. rewrite dget_merge in Hv. destruct (dget d' sns) as [w|] eqn:E.
      * injection Hv as ->. destruct (Ht1 d' v E) as (q' & sp & Hq' & Hsp & Ha). exists q', sp. split; [by right|done].
      * destruct (decide (d' = d)) as [->|Hne].
        -- rewrite dget_dset in Hv. injection Hv as <-. exists (Parser options positional d subs), (SpecSub (map fst subs)).
           split; [left|]. split; [cbn [entries]; rewrite Hr; apply elem_of_app; right; left|]. right. exists n. split; [|done].
           apply list_elem_of_fmap. by exists (n, q).
        -- rewrite (dget_dset_ne d) in Hv by done. destruct (He1 d' v Hv) as (q' & sp & Hq' & Hsp & Ha).
           exists q', sp. apply list_elem_of_singleton in Hq' as ->. split; [left|done].
    + intros q' d' sp Hq' Hsp Halways. unfold ns. rewrite dget_merge. destruct (dget d' sns) eqn:E; [done|].
      apply elem_of_cons in Hq' as [->|Hq'].
      * destruct (decide (d' = d)) as [->|Hne]; [by rewrite dget_dset|]. rewrite (dget_dset_ne d) by done.
        eapply He2; [left|done|done].
      * destruct (Ht2 q' d' sp Hq' Hsp Halways) as [w Hw]. congruence.
Qed.

Lemma parse_known_args_typed p : ∀ args ns ex, names_ok p = true → Forall plain_arg args →
  parse_known_args p args = Parsed ns ex → result_ok p ns.
Proof.
  induction p as [options positional dest subs IH] using parser_ind'. intros args ns ex Hn Hargs H.
  pose proof Hn as Hn'. cbn [names_ok] in Hn'. apply andb_true_iff in Hn' as [Hown Hsubs]. apply bool_decide_eq_true in Hown.
  cbn [parse_known_args] in H.
  apply (run_loop_ok options (role_of positional dest subs) _ (λ n sns, ∃ q, (n, q) ∈ subs ∧ result_ok q sns) Hown) in H; [| |done].
  - destruct H as [Hf|(d & n & ns0 & sns & Hr & Hf & -> & q & Hq & Hok)].
    + exists [Parser options positional dest subs]. split; [|by apply final_entries].
      destruct (role_of positional dest subs) as [|d1 n1|d1] eqn:Er; [by apply chosen_leaf; rewrite Er|by apply chosen_leaf; rewrite Er|].
      eapply chosen_none; [done|]. by destruct Hf as (_ & _ & Hf).
    + by eapply merged_ok.
  - intros n rest sns ex' (q & Hq & Hs)%choose_found Hrest. exists q. split; [done|].
    rewrite Forall_forall in IH. rewrite forallb_forall in Hsubs. specialize (Hsubs (n, q) (proj1 (list_elem_of_In _ _) Hq)).
    apply andb_true_iff in Hsubs as [_ Hq']. by eapply (IH (n, q)).
Qed.
