(* ===== verification/CliParser.v ===== *)
(** * The command line's arguments (agent_os/cli/app.py)

    [build_parser] as a table, what [async_main] and the handlers read of the
    namespace, and the command they run with it.  Help texts are left out. *)
From S2P Require Import Schemas Argparse.
From S2P Require Cli CliUpdate.

Definition text (flag dest : string) : action := mkAction [flag] dest (Store []) false (Some VNone).
Definition text_default (flag dest dflt : string) : action := mkAction [flag] dest (Store []) false (Some (VStr dflt)).
Definition required (flag dest : string) (choices : list string) : action := mkAction [flag] dest (Store choices) true (Some VNone).
Definition choice (flag dest : string) (choices : list string) : action := mkAction [flag] dest (Store choices) false (Some VNone).
Definition store_true (flags : list string) (dest : string) : action := mkAction flags dest StoreTrue false (Some (VBool false)).
(** [--workspace] of a subcommand: without it the one of the program stays. *)
Definition workspace_option : action := mkAction ["--workspace"%string] "workspace" (Store []) false None.
Definition json_flag : action := store_true ["--json"%string] "json_output".
Definition leaf (options : list action) (positional : option (string * nargs)) : parser := Parser options positional EmptyString [].

Definition RUN_KINDS : list string := ["run"; "brief"; "app_callback"].
Definition METHODS : list string := ["GET"; "POST"; "PUT"; "PATCH"; "DELETE"; "get"; "post"; "put"; "patch"; "delete"].
Definition workflow_options : list action :=
  [text "--thread-id" "thread_id"; store_true ["--resume"] "resume"; store_true ["-v"; "--verbose"] "verbose";
   text "--sandbox" "sandbox"; text "--profile" "profile"; workspace_option; store_true ["--force-rebind"] "force_rebind"]%string.

Definition serve_options : list action :=
  [text_default "--host" "host" "127.0.0.1"; mkAction ["--port"] "port" StoreInt false (Some (VInt 4680));
   text "--profile" "profile"; workspace_option]%string.
Definition update_options : list action :=
  [store_true ["--check"] "check"; store_true ["-y"; "--yes"] "yes"; store_true ["--pull"] "pull";
   store_true ["--reload"] "reload"; store_true ["--force"] "force"]%string.
Definition brief_options : list action :=
  [text "--date" "date"; text "--profile" "profile"; text "--connector" "connector"; workspace_option]%string.
Definition schedule_add_options : list action :=
  [required "--name" "name" []; required "--kind" "kind" RUN_KINDS; text "--cron" "cron"; text "--every" "every";
   text "--task" "task"; text_default "--timezone" "timezone" "UTC"; text "--workspace" "workspace"; text "--url" "url";
   choice "--method" "method" METHODS; text "--headers" "headers"; text "--body" "body"]%string.
Definition schedule_list_options : list action :=
  [choice "--kind" "kind" RUN_KINDS; choice "--enabled" "enabled" ["true"; "false"]; json_flag]%string.
Definition memory_index_options : list action := [store_true ["--reindex"%string] "reindex"; json_flag; workspace_option].
Definition observations_list_options : list action := [json_flag; workspace_option; text "--task-kind" "task_kind"].
Definition record_outcome_options : list action :=
  [required "--signal" "signal" ["accepted"; "rejected"; "edited"]; text "--evidence" "evidence"; workspace_option]%string.
Definition audit_options : list action := [json_flag; workspace_option].

Definition session_commands : list (string * parser) :=
  [("list", leaf [] None); ("inspect", leaf [] (Some ("thread_id", One)));
   ("delete", leaf [] (Some ("thread_id", One))); ("resume", leaf [] (Some ("thread_id", One)))]%string.
Definition schedule_commands : list (string * parser) :=
  [("add", leaf schedule_add_options None); ("list", leaf schedule_list_options None);
   ("remove", leaf [] (Some ("schedule_id", One))); ("run-once", leaf [] (Some ("schedule_id", One)))]%string.
Definition permissions_commands : list (string * parser) :=
  [("list", leaf [json_flag; workspace_option] None); ("revoke", leaf [workspace_option] (Some ("permission_key", One)))]%string.
Definition memory_commands : list (string * parser) :=
  [("index", leaf memory_index_options (Some ("refs", Many))); ("status", leaf [json_flag; workspace_option] None)]%string.
Definition observations_commands : list (string * parser) :=
  [("list", leaf observations_list_options None);
   ("record-outcome", leaf record_outcome_options (Some ("observation_id", One)));
   ("assignment", leaf audit_options (Some ("run_id", One)))]%string.
Definition runs_commands : list (string * parser) := [("approvals", leaf [json_flag] (Some ("run_id", One)))]%string.

Definition build_parser : parser :=
  Parser [text "--workspace" "workspace"] None "command" [
    ("run", leaf workflow_options (Some ("task", Maybe)));
    ("chat", leaf workflow_options None);
    ("sessions", Parser [] None "session_command" session_commands);
    ("serve", leaf serve_options None);
    ("doctor", leaf [json_flag] None);
    ("update", leaf update_options None);
    ("brief", leaf brief_options None);
    ("schedule", Parser [] None "schedule_command" schedule_commands);
    ("permissions", Parser [] None "permissions_command" permissions_commands);
    ("memory", Parser [] None "memory_command" memory_commands);
    ("observations", Parser [] None "observations_command" observations_commands);
    ("runs", Parser [] None "runs_command" runs_commands)]%string.

(** ** Reading the namespace: [None] is an AttributeError *)
Definition read_str (k : string) (ns : pydict) : option string := match dget k ns with Some (VStr s) => Some s | _ => None end.
Definition read_opt (k : string) (ns : pydict) : option (option string) :=
  match dget k ns with Some VNone => Some None | Some (VStr s) => Some (Some s) | _ => None end.
Definition read_bool (k : string) (ns : pydict) : option bool := match dget k ns with Some (VBool b) => Some b | _ => None end.
Definition read_int (k : string) (ns : pydict) : option Z := match dget k ns with Some (VInt z) => Some z | _ => None end.
Definition read_strs (k : string) (ns : pydict) : option (list string) :=
  match dget k ns with Some (VList l) => mapM (λ v, match v with VStr s => Some s | _ => None end) l | _ => None end.

(** ** The command of a namespace *)
Inductive cli_command :=
  | Workflow (a : Cli.workflow_args)
  | Sessions (a : Cli.sessions_args)
  | Serve (a : Cli.serve_args)
  | Doctor (json_output : bool)
  | Update (a : CliUpdate.update_args)
  | Brief (date profile connector workspace : option string)
  | Schedule (a : Cli.schedule_args)
  | Permissions (workspace : option string) (a : Cli.permissions_args)
  | Observations (workspace : option string) (a : Cli.observations_args)
  | Memory (workspace : option string) (a : Cli.memory_args)
  | Runs (a : Cli.runs_args).

Definition workflow_of (chat : bool) (ns : pydict) : option cli_command :=
  task ← (if chat then Some None else read_opt "task" ns);
  resume ← read_bool "resume" ns; thread_id ← read_opt "thread_id" ns; verbose ← read_bool "verbose" ns;
  sandbox ← read_opt "sandbox" ns; profile ← read_opt "profile" ns; workspace ← read_opt "workspace" ns;
  force_rebind ← read_bool "force_rebind" ns;
  Some (Workflow (Cli.mkWorkflowArgs chat task resume thread_id verbose sandbox profile workspace force_rebind)).
(** Without a subcommand the branch of [sessions] falls through to the
    arguments of a workflow, which the namespace does not have. *)
Definition sessions_of (ns : pydict) : option cli_command :=
  sub ← read_opt "session_command" ns;
  match sub with
  | Some "list" => Some (Sessions Cli.SessionsList)
  | Some "inspect" => t ← read_str "thread_id" ns; Some (Sessions (Cli.SessionsInspect t))
  | Some "delete" => t ← read_str "thread_id" ns; Some (Sessions (Cli.SessionsDelete t))
  | Some "resume" => t ← read_str "thread_id" ns; workspace ← read_opt "workspace" ns; Some (Workflow (Cli.resume_session t workspace))
  | _ => workflow_of true ns
  end%string.
Definition schedule_args_of (ns : pydict) : option Cli.schedule_args :=
  sub ← read_opt "schedule_command" ns;
  match sub with
  | Some "add" =>
      name ← read_str "name" ns; kind ← read_str "kind" ns; cron ← read_opt "cron" ns; every ← read_opt "every" ns;
      timezone ← read_str "timezone" ns; task ← read_opt "task" ns; workspace ← read_opt "workspace" ns;
      url ← read_opt "url" ns; method ← read_opt "method" ns; headers ← read_opt "headers" ns; body ← read_opt "body" ns;
      Some (Cli.ScheduleAdd (ScheduleModels.mkInput name kind cron every timezone task workspace url method None None) headers body)
  | Some "list" => kind ← read_opt "kind" ns; enabled ← read_opt "enabled" ns; json ← read_bool "json_output" ns;
                   Some (Cli.ScheduleList kind enabled json)
  | Some "remove" => i ← read_str "schedule_id" ns; Some (Cli.ScheduleRemove i)
  | Some "run-once" => i ← read_str "schedule_id" ns; Some (Cli.ScheduleRunOnce i)
  | _ => Some Cli.ScheduleNone
  end%string.
Definition permissions_of (ns : pydict) : option Cli.permissions_args :=
  sub ← read_opt "permissions_command" ns;
  match sub with
  | Some "list" => json ← read_bool "json_output" ns; Some (Cli.PermissionsList json)
  | Some "revoke" => k ← read_str "permission_key" ns; Some (Cli.PermissionsRevoke k)
  | _ => Some Cli.PermissionsNone
  end%string.
Definition observations_of (ns : pydict) : option Cli.observations_args :=
  sub ← read_opt "observations_command" ns;
  match sub with
  | Some "list" => kind ← read_opt "task_kind" ns; json ← read_bool "json_output" ns; Some (Cli.ObservationsList kind json)
  | Some "record-outcome" =>
      i ← read_str "observation_id" ns; signal ← read_str "signal" ns; evidence ← read_opt "evidence" ns;
      Some (Cli.ObservationsRecord i signal evidence)
  | Some "assignment" => r ← read_str "run_id" ns; json ← read_bool "json_output" ns; Some (Cli.ObservationsAssignment r json)
  | _ => Some Cli.ObservationsNone
  end%string.
Definition memory_of (ns : pydict) : option Cli.memory_args :=
  sub ← read_opt "memory_command" ns;
  match sub with
  | Some "index" =>
      refs ← read_strs "refs" ns; reindex ← read_bool "reindex" ns; json ← read_bool "json_output" ns;
      Some (Cli.MemoryIndex refs reindex json)
  | Some "status" => json ← read_bool "json_output" ns; Some (Cli.MemoryStatus json)
  | _ => Some Cli.MemoryNone
  end%string.
Definition runs_of (ns : pydict) : option Cli.runs_args :=
  sub ← read_opt "runs_command" ns;
  match sub with
  | Some "approvals" => r ← read_str "run_id" ns; json ← read_bool "json_output" ns; Some (Cli.RunsApprovals r json)
  | _ => Some Cli.RunsNone
  end%string.
Definition command_of (ns : pydict) : option cli_command :=
  c ← read_str "command" ns; workspace ← read_opt "workspace" ns;
  match c with
  | "run" => workflow_of false ns
  | "chat" => workflow_of true ns
  | "sessions" => sessions_of ns
  | "serve" =>
      host ← read_str "host" ns; port ← read_int "port" ns; profile ← read_opt "profile" ns;
      Some (Serve (Cli.mkServe host port profile workspace))
  | "doctor" => Doctor <$> read_bool "json_output" ns
  | "update" =>
      check ← read_bool "check" ns; yes ← read_bool "yes" ns; pull ← read_bool "pull" ns; reload ← read_bool "reload" ns;
      force ← read_bool "force" ns; Some (Update (CliUpdate.mkUpdateArgs check yes pull reload force))
  | "brief" =>
      date ← read_opt "date" ns; profile ← read_opt "profile" ns; connector ← read_opt "connector" ns;
      Some (Brief date profile connector workspace)
  | "schedule" => Schedule <$> schedule_args_of ns
  | "permissions" => Permissions workspace <$> permissions_of ns
  | "observations" => Observations workspace <$> observations_of ns
  | "memory" => Memory workspace <$> memory_of ns
  | "runs" => Runs <$> runs_of ns
  | _ => None
  end%string.

(** What [async_main] runs for the arguments of the program: an exit of the
    parser, or a command; [inr None] is an AttributeError. *)
Definition async_main (argv : list string) : Z + option cli_command :=
  match parse_args build_parser (Cli.normalize_argv argv) with
  | Exit code => inl code
  | Parsed ns _ => inr (command_of ns)
  end.

Example runs_bare_task : async_main ["say hi"; "-v"]%string
  = inr (Some (Workflow (Cli.mkWorkflowArgs false (Some "say hi"%string) false None true None None None false))).
Proof. vm_compute. reflexivity. Qed.
Example abbreviated : async_main ["memory"; "index"; "a.md"; "b.md"; "--re"]%string
  = inr (Some (Memory None (Cli.MemoryIndex ["a.md"; "b.md"]%string true false))).
Proof. vm_compute. reflexivity. Qed.
Example ambiguous_option : async_main ["serve"; "--p"; "x"]%string = inl 2.
Proof. vm_compute. reflexivity. Qed.
Example help_before_required : async_main ["schedule"; "add"; "--nonsense"; "-h"]%string = inl 0.
Proof. vm_compute. reflexivity. Qed.
(** The workspace of the program is lost to the option of [schedule add]. *)
Example schedule_add_forgets_workspace :
  async_main ["--workspace"; "w"; "schedule"; "add"; "--name"; "n"; "--kind"; "brief"; "--every"; "1h"]%string
  = inr (Some (Schedule (Cli.ScheduleAdd
      (ScheduleModels.mkInput "n" "brief" None (Some "1h"%string) "UTC" None None None None None None) None None))).
Proof. vm_compute. reflexivity. Qed.
Example sessions_needs_subcommand : async_main ["sessions"]%string = inr None.
Proof. vm_compute. reflexivity. Qed.

(** ** Every command gets the arguments it reads *)
Definition specs_of (l : list parser) (d : string) : list spec :=
  omap (λ e : string * spec, if String.eqb e.1 d then Some e.2 else None) (concat (map entries l)).
Definition alwaysb (sp : spec) : bool :=
  match sp with SpecOption a => a_required a || match a_default a with Some _ => true | None => false end | _ => true end.
(** What the reads take of the specs of a name. *)
Definition text_spec (none : bool) (sp : spec) : bool :=
  match sp with
  | SpecOption a =>
      match a_kind a with Store _ => true | _ => false end &&
      (a_required a || match a_default a with Some VNone => none | Some (VStr _) | None => true | _ => false end)
  | SpecArgument One => true
  | SpecArgument Maybe | SpecSub _ => none
  | SpecArgument Many => false
  end.
Definition bool_spec (sp : spec) : bool :=
  match sp with
  | SpecOption a => match a_kind a, a_default a with StoreTrue, Some (VBool _) => true | _, _ => false end
  | _ => false
  end.
Definition int_spec (sp : spec) : bool :=
  match sp with
  | SpecOption a => match a_kind a, a_default a with StoreInt, Some (VInt _) => true | _, _ => false end
  | _ => false
  end.
Definition texts_spec (sp : spec) : bool := match sp with SpecArgument Many => true | _ => false end.
Definition choice_spec (choices : list string) (sp : spec) : bool :=
  match sp with
  | SpecOption a => match a_kind a, a_default a with
                    | Store ch, Some VNone => bool_decide (ch = choices) && negb (bool_decide (ch = []))
                    | _, _ => false
                    end
  | _ => false
  end.
Definition readable (l : list parser) (d : string) (ok : spec → bool) : bool :=
  existsb alwaysb (specs_of l d) && forallb ok (specs_of l d).

Section reads.
Context (l : list parser) (ns : pydict) (Ht : well_typed l ns).
Lemma readable_value d ok : readable l d ok = true → ∃ v sp, dget d ns = Some v ∧ accepts v sp ∧ ok sp = true.
Proof.
  intros [Ha Hok]%andb_true_iff. destruct Ht as [H1 H2].
  assert (∀ q sp, q ∈ l → (d, sp) ∈ entries q → sp ∈ specs_of l d) as Hin.
  { intros q sp Hq Hsp. unfold specs_of. apply list_elem_of_omap. exists (d, sp). split; [|cbn; by rewrite String.eqb_refl].
    apply list_elem_of_In, in_concat. exists (entries q). split; [|by apply list_elem_of_In]. apply in_map, list_elem_of_In, Hq. }
  assert (is_Some (dget d ns)) as [v Hv].
  { apply existsb_exists in Ha as (sp & Hsp & Hal). apply list_elem_of_In in Hsp. unfold specs_of in Hsp.
    apply list_elem_of_omap in Hsp as ([d' sp'] & He & Hsome). cbn [fst snd] in Hsome.
    destruct (String.eqb_spec d' d) as [->|]; [|done]. injection Hsome as ->.
    apply list_elem_of_In, in_concat in He as (es & Hes & He). apply in_map_iff in Hes as (q & <- & Hq).
    apply (H2 q d sp); [by apply list_elem_of_In|by apply list_elem_of_In|].
    destruct sp as [a| |]; cbn in *; [|done..]. destruct (a_required a); [by left|right]. by destruct (a_default a). }
  destruct (H1 d v Hv) as (q & sp & Hq & Hsp & Hacc). exists v, sp. split; [done|]. split; [done|].
  rewrite forallb_forall in Hok. apply Hok, list_elem_of_In. by eapply Hin.
Qed.

Lemma unset d : specs_of l d = [] → dget d ns = None.
Proof.
  intros He. destruct (dget d ns) as [v|] eqn:E; [|done]. destruct Ht as [H1 _]. destruct (H1 d v E) as (q & sp & Hq & Hsp & _).
  assert (sp ∈ specs_of l d) as Hin; [|rewrite He in Hin; by apply not_elem_of_nil in Hin].
  unfold specs_of. apply list_elem_of_omap. exists (d, sp). split; [|cbn; by rewrite String.eqb_refl].
  apply list_elem_of_In, in_concat. exists (entries q). split; [|by apply list_elem_of_In]. apply in_map, list_elem_of_In, Hq.
Qed.
Lemma read_opt_ok d : readable l d (text_spec true) = true → ∃ o, read_opt d ns = Some o.
Proof.
  intros (v & sp & Hv & Hacc & Hok)%readable_value. unfold read_opt. rewrite Hv. destruct sp as [a|[]|names]; cbn in *; try done.
  - unfold conforms in Hacc. destruct (a_kind a); try done. destruct Hacc as [(s & -> & _)|[Hr Hd]]; [eauto|].
    rewrite Hr, Hd in Hok. destruct v; eauto; discriminate Hok.
  - destruct Hacc as [s ->]. eauto.
  - destruct Hacc as [->|[s ->]]; eauto.
  - destruct Hacc as [->|(n & _ & ->)]; eauto.
Qed.
Lemma read_str_ok d : readable l d (text_spec false) = true → ∃ s, read_str d ns = Some s.
Proof.
  intros (v & sp & Hv & Hacc & Hok)%readable_value. unfold read_str. rewrite Hv. destruct sp as [a|[]|names]; cbn in *; try done.
  - unfold conforms in Hacc. destruct (a_kind a); try done. destruct Hacc as [(s & -> & _)|[Hr Hd]]; [eauto|].
    rewrite Hr, Hd in Hok. destruct v; eauto; discriminate Hok.
  - destruct Hacc as [s ->]. eauto.
Qed.
Lemma read_bool_ok d : readable l d bool_spec = true → ∃ b, read_bool d ns = Some b.
Proof.
  intros (v & sp & Hv & Hacc & Hok)%readable_value. unfold read_bool. rewrite Hv. destruct sp as [a|[]|names]; cbn in *; try done.
  unfold conforms in Hacc. destruct (a_kind a); try done. destruct Hacc as [->|[Hr Hd]]; [eauto|]. rewrite Hd in Hok. destruct v; eauto; discriminate Hok.
Qed.
Lemma read_int_ok d : readable l d int_spec = true → ∃ z, read_int d ns = Some z.
Proof.
  intros (v & sp & Hv & Hacc & Hok)%readable_value. unfold read_int. rewrite Hv. destruct sp as [a|[]|names]; cbn in *; try done.
  unfold conforms in Hacc. destruct (a_kind a); try done. destruct Hacc as [[z ->]|[Hr Hd]]; [eauto|]. rewrite Hd in Hok. destruct v; eauto; discriminate Hok.
Qed.
Lemma read_strs_ok d : readable l d texts_spec = true → ∃ ss, read_strs d ns = Some ss.
Proof.
  intros (v & sp & Hv & Hacc & Hok)%readable_value. unfold read_strs. rewrite Hv. destruct sp as [a|[]|names]; cbn in *; try done.
  destruct Hacc as [ss ->]. exists ss. clear Hv. induction ss as [|s ss IH]; [done|]. cbn. by rewrite IH.
Qed.
Lemma read_choice_ok d choices : readable l d (choice_spec choices) = true → ∃ o, read_opt d ns = Some o ∧ ∀ s, o = Some s → s ∈ choices.
Proof.
  intros (v & sp & Hv & Hacc & Hok)%readable_value. unfold read_opt. rewrite Hv. destruct sp as [a|[]|names]; cbn in *; try done.
  unfold conforms in Hacc. destruct (a_kind a) as [ch| | |]; try done. destruct (a_default a) as [[]|]; try done.
  apply andb_true_iff in Hok as [Hch Hne]. apply bool_decide_eq_true in Hch as ->. apply negb_true_iff, bool_decide_eq_false in Hne.
  destruct Hacc as [(s & -> & [?|Hs])|[_ [= <-]]]; [done| |].
  - exists (Some s). split; [done|]. by intros s' [= <-].
  - exists None. split; [done|]. by intros s [=].
Qed.
Lemma read_required_ok d choices : readable l d (λ sp, choice_spec choices sp && text_spec false sp) = true →
  ∃ s, read_str d ns = Some s ∧ s ∈ choices.
Proof.
  intros H. destruct (read_choice_ok d choices) as (o & Ho & Hin).
  { unfold readable in *. apply andb_true_iff in H as [-> H]. cbn. rewrite forallb_forall in *. intros sp Hsp. by apply H, andb_true_iff in Hsp as [? _]. }
  destruct (read_str_ok d) as [s Hs].
  { unfold readable in *. apply andb_true_iff in H as [-> H]. cbn. rewrite forallb_forall in *. intros sp Hsp. by apply H, andb_true_iff in Hsp as [_ ?]. }
  exists s. split; [done|]. apply Hin. unfold read_str, read_opt in *. destruct (dget d ns) as [[]|]; congruence.
Qed.
End reads.

Lemma build_parser_names : names_ok build_parser = true.
Proof. vm_compute. reflexivity. Qed.
Definition subs_of (p : parser) : list (string * parser) := let 'Parser _ _ _ subs := p in subs.

Lemma normalize_plain argv : Forall plain_arg argv → Forall plain_arg (Cli.normalize_argv argv).
Proof.
  intros H. destruct (Cli.normalize_argv_shape argv) as (options & c & rest & -> & _ & _ & [->|[-> ->]]); [done|].
  apply Forall_app in H as [H1 H2]. apply Forall_app. split; [done|]. constructor; [|done].
  right. intros p E. destruct p as [|a [|b [|d [|e p]]]]; discriminate E.
Qed.

(** *** A command is always chosen *)
Notation top_options := [text "--workspace" "workspace"].
Lemma command_no_option c : Cli.is_command c = true → startswith "-" c = false ∧ c ≠ "--"%string.
Proof.
  intros H. assert (forallb (λ c, negb (startswith "-" c) && negb (String.eqb c "--")) Cli.COMMANDS = true) as Hall by (vm_compute; reflexivity).
  rewrite forallb_forall in Hall. unfold Cli.is_command in H. apply mem_str_iff, list_elem_of_In in H. specialize (Hall c H).
  apply andb_true_iff in Hall as [H1 H2]. apply negb_true_iff in H1, H2. split; [done|]. by apply String.eqb_neq.
Qed.
Lemma classify_command c rest l : Cli.is_command c = true → classify top_options (c :: rest) = Some l →
  ∃ l', l = (c, Positional) :: l' ∧ map fst l' = rest.
Proof.
  intros Hc. destruct (command_no_option c Hc) as [Hd Hne]. cbn [classify]. rewrite (proj2 (String.eqb_neq _ _) Hne).
  unfold parse_optional. rewrite Hd. cbn [negb mbind option_bind]. destruct (classify top_options rest) as [l'|] eqn:El; [|done].
  intros [= <-]. exists l'. split; [done|]. by eapply classify_texts.
Qed.
Lemma classify_some options s rest l : classify options (s :: rest) = Some l →
  (s = "--"%string ∧ l = (s, Dashes) :: map (λ x, (x, Positional)) rest) ∨
  ∃ c l', parse_optional options s = Some c ∧ classify options rest = Some l' ∧ l = (s, c) :: l'.
Proof.
  cbn [classify]. destruct (String.eqb_spec s "--") as [->|_]; [intros [= <-]; by left|].
  destruct (parse_optional options s) as [c|]; [|done]. destruct (classify options rest) as [l'|]; [|done].
  intros [= <-]. right. by exists c, l'.
Qed.
Lemma plan_explicit e : plan top_options (text "--workspace" "workspace", "--workspace"%string, Some e)
  = Some ([], Some (text "--workspace" "workspace", Some e)).
Proof. by destruct e. Qed.
Lemma command_taken (sub : string → list string → outcome) c rest l st extras ns ex :
  Cli.is_command c = true → classify top_options (c :: rest) = Some l →
  (∀ sns ex', sub c rest = Parsed sns ex' → dget "command" sns = None) →
  finish top_options (Subcommand "command") (loop top_options (Subcommand "command") sub l Waiting st extras) = Parsed ns ex →
  dget "command" ns = Some (VStr c).
Proof.
  intros Hc Hl Hsub. destruct (classify_command c rest l Hc Hl) as (l' & -> & Hr). cbn [loop]. rewrite Hr.
  destruct (sub c rest) as [|sns ex'] eqn:Es; [done|]. cbn [finish]. destruct (negb _); [done|]. intros [= <- _].
  rewrite dget_merge, (Hsub sns ex' eq_refl). apply dget_dset.
Qed.

Lemma parsed_command argv ns ex : Forall plain_arg argv → parse_known_args build_parser (Cli.normalize_argv argv) = Parsed ns ex →
  dget "command" ns ≠ Some VNone.
Proof.
  intros Hplain%normalize_plain. destruct (Cli.normalize_argv_shape argv) as (options & c & rest & Heq & Hc & Ho & _).
  rewrite Heq in *. clear Heq argv. unfold build_parser at 1. cbn [parse_known_args]. change (role_of None "command" _) with (Subcommand "command").
  match goal with |- context [run_loop _ _ ?s _] => set (sub := s) end.
  assert (∀ c rest, Forall plain_arg rest → ∀ sns ex', sub c rest = Parsed sns ex' → dget "command" sns = None) as Hsub.
  { intros n r Hr sns ex' Hs. destruct (dget "command" sns) as [v|] eqn:Ev; [|done]. exfalso.
    assert (∃ q, (n, q) ∈ subs_of build_parser ∧ parse_known_args q r = Parsed sns ex') as (q & Hq & Hs').
    { apply (choose_found (subs_of build_parser)). exact Hs. }
    assert (forallb (λ nq, names_ok nq.2 && negb (mem_str "command" (all_dests nq.2))) (subs_of build_parser) = true) as Hall by (vm_compute; reflexivity).
    rewrite forallb_forall in Hall. specialize (Hall _ (proj1 (list_elem_of_In _ _) Hq)). apply andb_true_iff in Hall as [Hn Hfree].
    cbn [snd] in *. destruct (parse_known_args_typed q r sns ex' Hn Hr Hs') as (l & Hch & [H1 _]).
    destruct (H1 _ _ Ev) as (q' & sp & Hq' & Hsp & _). apply negb_true_iff, not_true_iff_false in Hfree. apply Hfree, mem_str_iff.
    by eapply chosen_dests. }
  clearbody sub. unfold run_loop. destruct (classify _ _) as [l|] eqn:El; [|done]. intros H.
  assert (Forall plain_arg rest) as Hrest by (apply Forall_app in Hplain as [_ Hp]; by apply Forall_cons in Hp as [_ Hp]).
  enough (dget "command" ns = Some (VStr c)) by congruence.
  destruct Ho as [-> |[[w ->]|(o & -> & Hws)]].
  - eapply command_taken; [done|exact El|by apply Hsub|exact H].
  - cbn [app] in El. destruct (classify_some _ _ _ _ El) as [[Hd _]|(c1 & l1 & Hc1 & El1 & ->)]; [by simpl in Hd|].
    change (Some (Option (Some (text "--workspace" "workspace", "--workspace"%string, None))) = Some c1) in Hc1. injection Hc1 as <-.
    destruct (classify_some _ _ _ _ El1) as [[_ ->]|(cw & l2 & Hcw & El2 & ->)]; [by cbn in H|].
    cbn [loop plan text a_kind takes_value] in H. destruct cw; [|done|done].
    destruct (take_all [] _ _) as [[code]|st1]; [done|]. cbn [end_run] in H.
    eapply command_taken; [done|exact El2|by apply Hsub|exact H].
  - cbn [app] in El. apply startswith_iff in Hws as [e ->].
    destruct (classify_some _ _ _ _ El) as [[Hd _]|(c1 & l1 & Hc1 & El1 & ->)]; [discriminate Hd|].
    change (Some (Option (Some (text "--workspace" "workspace", "--workspace"%string, Some e))) = Some c1) in Hc1. injection Hc1 as <-.
    cbn [loop] in H. rewrite plan_explicit in H.
    destruct (take_all [] _ _) as [[code]|st1]; [done|]. cbn [end_run] in H.
    eapply command_taken; [done|exact El1|by apply Hsub|exact H].
Qed.

(** *** Exit codes *)
Definition usage_code (code : Z) : Prop := code = 0 ∨ code = 2.
Lemma take_all_code l v st code : take_all l v st = inl (Stop code) → usage_code code.
Proof.
  unfold take_all. destruct (take_flags l st) as [[c]|st'] eqn:E.
  - intros [= ->]. revert st E. induction l as [|a l IH]; intros st; [done|]. cbn [take_flags]. unfold take_flag.
    destruct (a_kind a); [apply IH..|]. intros [= <-]. by left.
  - destruct v as [[a s]|]; [|done]. unfold take_value. destruct (stored _ _); [done|]. intros [= <-]. by right.
Qed.
Lemma loop_code options positional sub l : (∀ n rest code, sub n rest = Exit code → usage_code code) →
  ∀ pr st extras code, loop options positional sub l pr st extras = inl (Stop code) → usage_code code.
Proof.
  intros Hsub. assert (usage_code 2) as H2 by (by right).
  induction l as [[|[s c] rest] IH] using (induction_ltof1 _ length); intros pr st extras code H; [done|].
  assert (∀ rest', (length rest' ≤ length rest)%nat → ∀ pr st extras, loop options positional sub rest' pr st extras = inl (Stop code) → usage_code code) as Hgo.
  { intros rest' Hle pr' st' extras'. apply IH. unfold ltof. cbn. lia. }
  cbn [loop] in H. destruct c as [| |[o|]].
  - destruct pr, positional as [|d [| |]|d]; try (by eapply Hgo; [|exact H]).
    destruct (sub s (map fst rest)) as [c|] eqn:Es; [|done]. injection H as ->. by eapply Hsub.
  - destruct pr, positional as [|d n|d]; try (by eapply Hgo; [|exact H]). by injection H as <-.
  - destruct (plan options o) as [[acts [[a [e|]]|]]|]; [| | |by injection H as <-].
    + destruct (take_all _ _ _) as [[c]|] eqn:Et; [injection H as ->; by eapply take_all_code|by eapply Hgo; [|exact H]].
    + destruct rest as [|[x [| |]] rest]; try (by injection H as <-).
      destruct (take_all _ _ _) as [[c]|] eqn:Et; [injection H as ->; by eapply take_all_code|]. eapply Hgo; [|exact H]. cbn. lia.
    + destruct (take_all _ _ _) as [[c]|] eqn:Et; [injection H as ->; by eapply take_all_code|by eapply Hgo; [|exact H]].
  - by eapply Hgo; [|exact H].
Qed.
Lemma parse_known_code p : ∀ args code, parse_known_args p args = Exit code → usage_code code.
Proof.
  induction p as [options positional dest subs IH] using parser_ind'. intros args code. cbn [parse_known_args]. unfold run_loop.
  assert (usage_code 2) as H2 by (by right). destruct (classify options args) as [l|]; [|by intros [= <-]].
  match goal with |- context [loop _ _ ?s _ _ _ _] => set (sub := s) end.
  assert (∀ n rest code, sub n rest = Exit code → usage_code code) as Hsub.
  { intros n rest c. unfold sub. clear sub. induction subs as [|[n0 q] subs IHs]; [by intros [= <-]|].
    apply Forall_cons in IH as [IHq IH]. destruct (String.eqb n0 n); [apply IHq|by apply IHs]. }
  destruct (loop _ _ sub l _ _ _) as [[c]|[[pr [ns seen]] ex]] eqn:E; cbn [finish].
  - intros [= ->]. by eapply loop_code.
  - destruct (negb _); [by intros [= <-]|]. by destruct pr, (role_of positional dest subs) as [|d [| |]|d]; try done; intros [= <-].
Qed.

(** *** The parsers chosen *)
Lemma chosen_group ns o dest n0 q0 subs l : chosen ns (Parser o None dest ((n0, q0) :: subs)) l →
  (dget dest ns = Some VNone ∧ l = [Parser o None dest ((n0, q0) :: subs)]) ∨
  ∃ n q l', (n, q) ∈ (n0, q0) :: subs ∧ dget dest ns = Some (VStr n) ∧ chosen ns q l' ∧ l = Parser o None dest ((n0, q0) :: subs) :: l'.
Proof.
  inversion 1 as [? ? ? ? Hno|? ? ? ? d Hr Hd|? ? ? ? d n q l' Hr Hd Hin Hc]; subst; cbn in *.
  - by destruct (Hno dest).
  - injection Hr as ->. by left.
  - injection Hr as ->. right. by exists n, q, l'.
Qed.
Lemma chosen_at_leaf ns o pos l : chosen ns (leaf o pos) l → l = [leaf o pos].
Proof. inversion 1 as [|? ? ? ? d Hr|? ? ? ? d n q l' Hr]; subst; [done|by destruct pos as [[??]|]..]. Qed.

Lemma read_str_eq k ns s : dget k ns = Some (VStr s) → read_str k ns = Some s.
Proof. unfold read_str. by intros ->. Qed.
Lemma read_opt_eq k ns s : dget k ns = Some (VStr s) → read_opt k ns = Some (Some s).
Proof. unfold read_opt. by intros ->. Qed.
Lemma read_opt_none k ns : dget k ns = Some VNone → read_opt k ns = Some None.
Proof. unfold read_opt. by intros ->. Qed.

(** What a handler can rely on beyond the types. *)
Definition among (choices : list string) (o : option string) : Prop := ∀ s, o = Some s → s ∈ choices.
Definition command_ok (c : cli_command) : Prop :=
  match c with
  | Schedule (Cli.ScheduleAdd a _ _) => ScheduleModels.in_kind a ∈ RUN_KINDS ∧ among METHODS (ScheduleModels.in_method a)
  | Schedule (Cli.ScheduleList kind enabled _) => among RUN_KINDS kind ∧ among ["true"; "false"]%string enabled
  | Observations _ (Cli.ObservationsRecord _ signal _) => signal ∈ ["accepted"; "rejected"; "edited"]%string
  | _ => True
  end.

Ltac read_one :=
  match goal with
  | Ht : well_typed ?l ?ns |- context [read_opt ?k ?ns] =>
      let E := fresh in destruct (read_opt_ok l ns Ht k ltac:(vm_compute; reflexivity)) as [? E]; rewrite E; clear E
  | Ht : well_typed ?l ?ns |- context [read_str ?k ?ns] =>
      let E := fresh in destruct (read_str_ok l ns Ht k ltac:(vm_compute; reflexivity)) as [? E]; rewrite E; clear E
  | Ht : well_typed ?l ?ns |- context [read_bool ?k ?ns] =>
      let E := fresh in destruct (read_bool_ok l ns Ht k ltac:(vm_compute; reflexivity)) as [? E]; rewrite E; clear E
  | Ht : well_typed ?l ?ns |- context [read_int ?k ?ns] =>
      let E := fresh in destruct (read_int_ok l ns Ht k ltac:(vm_compute; reflexivity)) as [? E]; rewrite E; clear E
  | Ht : well_typed ?l ?ns |- context [read_strs ?k ?ns] =>
      let E := fresh in destruct (read_strs_ok l ns Ht k ltac:(vm_compute; reflexivity)) as [? E]; rewrite E; clear E
  end; cbn [mbind option_bind fmap option_map option_fmap].
Ltac reads := repeat read_one; eexists; (split; [reflexivity|try exact Logic.I]).

Definition dispatched (ns : pydict) : Prop :=
  (∃ c, command_of ns = Some c ∧ command_ok c) ∨ (dget "command" ns = Some (VStr "sessions") ∧ dget "session_command" ns = Some VNone ∧ command_of ns = None).
Lemma dispatched_leaf c o pos ns : dget "command" ns = Some (VStr c) → well_typed [build_parser; leaf o pos] ns →
  (c, leaf o pos) ∈ subs_of build_parser → dispatched ns.
Proof.
  intros Hc Ht Hin. left. unfold command_of. rewrite (read_str_eq _ _ _ Hc). cbn [mbind option_bind].
  unfold build_parser in Hin. cbn [subs_of] in Hin.
  repeat (apply elem_of_cons in Hin as [Hin|Hin]; [try discriminate Hin; injection Hin as -> -> ->; cbn [String.eqb]; unfold workflow_of; reads|]).
  by apply not_elem_of_nil in Hin.
Qed.
Notation group dest subs := (Parser [] None dest subs).
Lemma sessions_alone ns l : well_typed l ns → dget "command" ns = Some (VStr "sessions") → dget "session_command" ns = Some VNone →
  specs_of l "resume" = [] → dispatched ns.
Proof.
  intros Ht Hc Hs Hl. right. split; [done|]. split; [done|]. unfold command_of, sessions_of, workflow_of.
  rewrite (read_str_eq _ _ _ Hc), (read_opt_none _ _ Hs). cbn [mbind option_bind String.eqb]. unfold read_bool.
  rewrite (unset l ns Ht _ Hl). by destruct (read_opt "workspace" ns).
Qed.
Ltac read_chosen Ht Hd :=
  match type of Ht with
  | well_typed ?l ?ns =>
      let E := fresh in
      destruct (read_opt_ok l ns Ht "workspace" ltac:(vm_compute; reflexivity)) as [? E]; rewrite E; clear E;
      cbn [mbind option_bind String.eqb]; rewrite (read_opt_eq _ _ _ Hd); cbn [mbind option_bind fmap option_map option_fmap String.eqb]
  end.
Lemma dispatched_group c dest n0 q0 subs ns l : dget "command" ns = Some (VStr c) →
  (c, group dest ((n0, q0) :: subs)) ∈ subs_of build_parser → chosen ns (group dest ((n0, q0) :: subs)) l → well_typed (build_parser :: l) ns →
  dispatched ns.
Proof.
  intros Hc Hin Hch Ht. unfold build_parser, session_commands, schedule_commands, permissions_commands, memory_commands, observations_commands, runs_commands in Hin. cbn [subs_of] in Hin.
  apply chosen_group in Hch as [[Hd ->]|(n & q & l' & Hq & Hd & Hch & ->)].
  - repeat (apply elem_of_cons in Hin as [Hin|Hin];
      [first [discriminate Hin|injection Hin as -> -> -> -> ->;
       first [by eapply (sessions_alone ns _ Ht)|left; unfold command_of, schedule_args_of, permissions_of, observations_of, memory_of, runs_of;
         rewrite (read_str_eq _ _ _ Hc); cbn [mbind option_bind String.eqb]; rewrite ?(read_opt_none _ _ Hd); reads]]|]).
    by apply not_elem_of_nil in Hin.
  - left. unfold command_of, sessions_of, schedule_args_of, permissions_of, observations_of, memory_of, runs_of.
    rewrite (read_str_eq _ _ _ Hc). cbn [mbind option_bind].
    repeat (apply elem_of_cons in Hin as [Hin|Hin];
      [first [discriminate Hin|injection Hin as -> -> -> -> ->;
       repeat (apply elem_of_cons in Hq as [Hq|Hq]; [injection Hq as -> ->; apply chosen_at_leaf in Hch as ->; read_chosen Ht Hd|]);
       [..|by apply not_elem_of_nil in Hq]]|]).
    all: try (by apply not_elem_of_nil in Hin).
    all: try (solve [reads]).
    + destruct (read_required_ok _ ns Ht "kind" RUN_KINDS ltac:(vm_compute; reflexivity)) as (k & Hk & Hin1).
      destruct (read_choice_ok _ ns Ht "method" METHODS ltac:(vm_compute; reflexivity)) as (m & Hm & Hin2).
      rewrite Hk, Hm. repeat read_one. eexists. by split.
    + destruct (read_choice_ok _ ns Ht "kind" RUN_KINDS ltac:(vm_compute; reflexivity)) as (k & Hk & Hin1).
      destruct (read_choice_ok _ ns Ht "enabled" ["true"; "false"]%string ltac:(vm_compute; reflexivity)) as (m & Hm & Hin2).
      rewrite Hk, Hm. repeat read_one. eexists. by split.
    + destruct (read_required_ok _ ns Ht "signal" ["accepted"; "rejected"; "edited"]%string ltac:(vm_compute; reflexivity)) as (s & Hs & Hin1).
      rewrite Hs. repeat read_one. eexists. by split.
Qed.

Lemma dispatched_tree ns l : chosen ns build_parser l → well_typed l ns → dget "command" ns ≠ Some VNone → dispatched ns.
Proof.
  intros Hch Ht Hne. unfold build_parser in Hch. apply chosen_group in Hch as [[Hd _]|(n & q & l' & Hq & Hd & Hch & ->)]; [done|].
  fold build_parser in Ht. change (Parser _ None "command" _) with build_parser in Ht.
  pose proof Hq as Hin. change ((n, q) ∈ subs_of build_parser) in Hin.
  repeat (apply elem_of_cons in Hq as [Hq|Hq];
    [injection Hq as -> ->; first [apply chosen_at_leaf in Hch as ->; by eapply dispatched_leaf|by eapply dispatched_group]|]).
  by apply not_elem_of_nil in Hq.
Qed.

(** C14. Whatever the arguments of the program are, unless one of them ends in
    two dashes without being just those: the parser ends with help (0) or a
    usage error (2), or the command that runs gets every argument it reads, of
    the type it expects and within its choices.  Only [agent-os sessions]
    without a subcommand reads arguments that are not there. *)
Theorem arguments_dispatched (argv : list string) : Forall plain_arg argv →
  match async_main argv with
  | inl code => code = 0 ∨ code = 2
  | inr (Some c) => command_ok c
  | inr None => ∃ ns, parse_args build_parser (Cli.normalize_argv argv) = Parsed ns [] ∧
                      dget "command" ns = Some (VStr "sessions") ∧ dget "session_command" ns = Some VNone
  end.
Proof.
  intros Hplain. unfold async_main, parse_args.
  destruct (parse_known_args build_parser (Cli.normalize_argv argv)) as [code|ns ex] eqn:E; [by eapply parse_known_code|].
  destruct ex; [|by right].
  pose proof (parsed_command argv ns [] Hplain E) as Hne.
  destruct (parse_known_args_typed build_parser _ ns [] build_parser_names (normalize_plain argv Hplain) E) as (l & Hch & Ht).
  destruct (dispatched_tree ns l Hch Ht Hne) as [(c & -> & Hok)|(H1 & H2 & ->)]; [done|]. by exists ns.
Qed.

(** ** Runs *)
Fixpoint ends_dashes (s : string) : bool :=
  match s with EmptyString => false | String _ s' => String.eqb s "--" || ends_dashes s' end.
Lemma plain_args args : forallb (λ s, String.eqb s "--" || negb (ends_dashes s)) args = true → Forall plain_arg args.
Proof.
  intros H. apply Forall_forall. intros s Hs. apply list_elem_of_In in Hs. rewrite forallb_forall in H. specialize (H s Hs).
  apply orb_true_iff in H as [H|H]; [left; by apply String.eqb_eq|right]. intros p ->. apply negb_true_iff in H. clear Hs.
  induction p as [|c p IH]; [discriminate H|]. apply IH. change (ends_dashes (String c (p +:+ "--")) = false) in H.
  cbn [ends_dashes] in H. by apply orb_false_iff in H as [_ H].
Qed.
Definition demo_argv : list string := ["schedule"; "add"; "--name=n"; "--ki"; "brief"; "--every"; "1h"; "--method"; "get"]%string.
Lemma arguments_dispatched_witness :
  ∃ a, async_main demo_argv = inr (Some (Schedule (Cli.ScheduleAdd a None None))) ∧ ScheduleModels.in_kind a ∈ RUN_KINDS.
Proof.
  set (a := ScheduleModels.mkInput "n" "brief" None (Some "1h"%string) "UTC" None None None (Some "get"%string) None None).
  assert (async_main demo_argv = inr (Some (Schedule (Cli.ScheduleAdd a None None)))) as E by (vm_compute; reflexivity).
  pose proof (arguments_dispatched demo_argv (plain_args demo_argv ltac:(vm_compute; reflexivity))) as H.
  rewrite E in H. exists a. split; [exact E|exact (proj1 H)].
Defined.
