(* ===== verification/ScheduleDb.v ===== *)
(** * The database of schedules (agent_os/schedules.py)

    [_init_schedules_db]: one transaction that creates the table, or rebuilds
    one whose CHECK does not know the kind app_callback, with its rows and
    indexes.  The database is what SQLite keeps of it: the two tables with
    their DDL, the indexes of the schedules with theirs, and the user version.
    A statement that fails raises, and the transaction is rolled back. *)
From S2P Require Import Schedules.
From S2P Require Migrations.

Record table := mkTable { t_sql : string; t_rows : list schedule }.
(** [d_indexes]: names and statements of the indexes on schedules that have
    one, in order of creation. *)
Record schedules_db := mkDatabase {
  d_schedules : option table; d_copy : option table; d_indexes : list (string * string); d_version : Z }.

(** The DDL, as sqlite_master keeps it, with single spaces; a renamed table is
    quoted. *)
Definition table_sql (name : string) : string :=
  "CREATE TABLE " +:+ name +:+ " ( schedule_id TEXT PRIMARY KEY, name TEXT NOT NULL, "
  +:+ "kind TEXT NOT NULL CHECK (kind IN ('run', 'brief', 'app_callback')), "
  +:+ "trigger_kind TEXT NOT NULL CHECK (trigger_kind IN ('cron', 'interval')), "
  +:+ "trigger_value TEXT NOT NULL, timezone TEXT NOT NULL, payload TEXT NOT NULL, enabled INTEGER NOT NULL DEFAULT 1, "
  +:+ "next_run_at TEXT NOT NULL, last_run_at TEXT, last_status TEXT, last_error TEXT, "
  +:+ "created_at TEXT NOT NULL, updated_at TEXT NOT NULL )".
Definition DUE_IDX : string := "schedules_due_idx".
Definition due_idx_sql : string := "CREATE INDEX schedules_due_idx ON schedules(enabled, next_run_at)".

(** ** Statements *)
Definition operational (what : string) : exn := OtherError ("OperationalError: " +:+ what).
Definition create_table (d : schedules_db) : res schedules_db :=
  match d_schedules d with
  | Some _ => Raise (operational "table schedules already exists")
  | None => Ok (mkDatabase (Some (mkTable (table_sql "schedules") [])) (d_copy d) (d_indexes d) (d_version d))
  end.
Definition create_copy (d : schedules_db) : res schedules_db :=
  match d_copy d with
  | Some _ => Raise (operational "table schedules__migration already exists")
  | None => Ok (mkDatabase (d_schedules d) (Some (mkTable (table_sql "schedules__migration") [])) (d_indexes d) (d_version d))
  end.
(** The checks of the table. *)
Definition row_admitted (r : schedule) : bool := mem_str (sc_kind r) ALLOWED_KINDS && mem_str (trigger_kind r) ALLOWED_TRIGGER_KINDS.
(** INSERT INTO schedules__migration ... SELECT ... FROM schedules *)
Definition copy_rows (d : schedules_db) : res schedules_db :=
  match d_schedules d, d_copy d with
  | Some t, Some c =>
      if forallb row_admitted (t_rows t) && bool_decide (NoDup (map schedule_id (t_rows c ++ t_rows t))) then
        Ok (mkDatabase (Some t) (Some (mkTable (t_sql c) (t_rows c ++ t_rows t))) (d_indexes d) (d_version d))
      else Raise (IntegrityError "CHECK constraint failed")
  | _, _ => Raise (operational "no such table")
  end.
(** DROP TABLE takes the indexes with it. *)
Definition drop_table (d : schedules_db) : res schedules_db :=
  match d_schedules d with
  | Some _ => Ok (mkDatabase None (d_copy d) [] (d_version d))
  | None => Raise (operational "no such table: schedules")
  end.
Definition rename_copy (d : schedules_db) : res schedules_db :=
  match d_copy d, d_schedules d with
  | Some c, None => Ok (mkDatabase (Some (mkTable (table_sql (q "schedules")) (t_rows c))) None (d_indexes d) (d_version d))
  | _, _ => Raise (operational "there is already another table or index with this name: schedules")
  end.
Definition index_names (d : schedules_db) : list string := map fst (d_indexes d).
(** A statement of [index_sql]. *)
Definition create_index (i : string * string) (d : schedules_db) : res schedules_db :=
  if mem_str i.1 (index_names d) then Raise (operational ("index " +:+ i.1 +:+ " already exists"))
  else Ok (mkDatabase (d_schedules d) (d_copy d) (d_indexes d ++ [i]) (d_version d)).
Fixpoint create_indexes (l : list (string * string)) (d : schedules_db) : res schedules_db :=
  match l with [] => Ok d | i :: l' => d' ← create_index i d; create_indexes l' d' end.
(** CREATE INDEX IF NOT EXISTS *)
Definition ensure_due_idx (d : schedules_db) : schedules_db :=
  if mem_str DUE_IDX (index_names d) then d
  else mkDatabase (d_schedules d) (d_copy d) (d_indexes d ++ [(DUE_IDX, due_idx_sql)]) (d_version d).

Definition by_name (a b : string * string) : bool := str_leb a.1 b.1.
Definition rebuild (d : schedules_db) : res schedules_db :=
  let index_sql := sort_by by_name (d_indexes d) in
  d ← create_copy d; d ← copy_rows d; d ← drop_table d; d ← rename_copy d; create_indexes index_sql d.
(** [run_migrations(conn, baseline_version=1)] without migrations. *)
Definition set_baseline (d : schedules_db) : schedules_db :=
  mkDatabase (d_schedules d) (d_copy d) (d_indexes d)
    (Migrations.user_version (Migrations.run_migrations (S:=unit) (λ _ s, Ok s) (λ _ _, []) None [] 1 (Migrations.mkDb (d_version d) tt)).2).
Definition init_schedules (d : schedules_db) : res schedules_db :=
  d ← match d_schedules d with
      | None => create_table d
      | Some t => if contains "app_callback" (t_sql t) then Ok d else rebuild d
      end;
  Ok (set_baseline (ensure_due_idx d)).
(** The transaction. *)
Definition init_schedules_db (d : schedules_db) : res unit * schedules_db :=
  match init_schedules d with Ok d' => (Ok tt, d') | Raise e => (Raise e, d) end.

(** ** Properties *)

(** What SQLite guarantees of a table of schedules, whichever version made it:
    a primary key, and checks that are no weaker than today's. *)
Definition table_ok (t : table) : Prop := keyed schedule_id (t_rows t) ∧ forallb row_admitted (t_rows t) = true.
Definition db_ok (d : schedules_db) : Prop :=
  d_copy d = None ∧ NoDup (index_names d) ∧ (∀ t, d_schedules d = Some t → table_ok t) ∧ (d_schedules d = None → d_indexes d = []).
Definition rows (d : schedules_db) : list schedule := from_option t_rows [] (d_schedules d).

Lemma create_indexes_spec l : ∀ d, NoDup (index_names d ++ map fst l) →
  create_indexes l d = Ok (mkDatabase (d_schedules d) (d_copy d) (d_indexes d ++ l) (d_version d)).
Proof.
  induction l as [|i l IH]; intros d Hn; [cbn; rewrite app_nil_r; by destruct d|]. cbn [create_indexes]. unfold create_index.
  assert (mem_str i.1 (index_names d) = false) as ->.
  { apply not_true_iff_false. rewrite mem_str_iff. intros Hi. apply NoDup_app in Hn as (_ & Hd & _). apply (Hd _ Hi). left. }
  cbn [mbind res_bind]. rewrite IH.
  - cbn. by rewrite <-app_assoc.
  - unfold index_names in *. cbn [d_indexes]. rewrite map_app, <-app_assoc. exact Hn.
Qed.

Lemma rebuild_spec d t : db_ok d → d_schedules d = Some t →
  ∃ l, l ≡ₚ d_indexes d ∧
  rebuild d = Ok (mkDatabase (Some (mkTable (table_sql (q "schedules")) (t_rows t))) None l (d_version d)).
Proof.
  intros (Hcopy & Hidx & Ht & _) Hs. destruct (Ht t Hs) as [Hk Hr]. exists (sort_by by_name (d_indexes d)).
  assert (sort_by by_name (d_indexes d) ≡ₚ d_indexes d) as Hp by apply sort_by_perm. split; [done|].
  unfold rebuild, create_copy. rewrite Hcopy. cbn [mbind res_bind]. unfold copy_rows. cbn [d_schedules d_copy t_rows t_sql app].
  rewrite Hs, Hr, (bool_decide_true _ Hk). cbn. rewrite create_indexes_spec; [done|]. cbn.
  unfold index_names in Hidx. by rewrite Hp.
Qed.

Lemma set_baseline_eq d : set_baseline d =
  mkDatabase (d_schedules d) (d_copy d) (d_indexes d) (if d_version d =? 0 then 1 else d_version d).
Proof. unfold set_baseline, Migrations.run_migrations. cbn. rewrite andb_true_r. by destruct (d_version d =? 0). Qed.
Lemma ensure_due_idx_eq t c l v : ensure_due_idx (mkDatabase t c l v) =
  mkDatabase t c (if mem_str DUE_IDX (map fst l) then l else l ++ [(DUE_IDX, due_idx_sql)]) v.
Proof. unfold ensure_due_idx, index_names. cbn [d_indexes d_schedules d_copy d_version]. by destruct (mem_str _ _). Qed.
Lemma reopened t c l v : contains "app_callback" (t_sql t) = true → DUE_IDX ∈ map fst l → v ≠ 0 →
  init_schedules_db (mkDatabase (Some t) c l v) = (Ok tt, mkDatabase (Some t) c l v).
Proof.
  intros Hsql Hin Hv. unfold init_schedules_db, init_schedules. cbn [d_schedules]. rewrite Hsql. cbn [mbind res_bind].
  rewrite set_baseline_eq. unfold ensure_due_idx, index_names. cbn [d_indexes d_schedules d_copy d_version].
  rewrite (proj2 (mem_str_iff DUE_IDX (map fst l)) Hin). cbn [d_indexes d_schedules d_copy d_version].
  by rewrite (proj2 (Z.eqb_neq v 0) Hv).
Qed.

(** Opening the database of schedules, new or made before callbacks were a
    kind, keeps every row in place and every index with its statement; then
    the table admits callbacks, has its index on due schedules and a version,
    and opening it again changes nothing.  An open that fails changes nothing
    either. *)
Theorem schedules_migrated (d : schedules_db) :
  let '(r, d') := init_schedules_db d in
  (r ≠ Ok tt → d' = d) ∧
  (db_ok d →
    r = Ok tt ∧ rows d' = rows d ∧ (∀ i, i ∈ d_indexes d' ↔ i ∈ d_indexes d ∨ (i = (DUE_IDX, due_idx_sql) ∧ DUE_IDX ∉ index_names d)) ∧
    (∃ t, d_schedules d' = Some t ∧ contains "app_callback" (t_sql t) = true ∧ table_ok t) ∧ DUE_IDX ∈ index_names d' ∧
    d_version d' ≠ 0 ∧ init_schedules_db d' = (Ok tt, d')).
Proof.
  unfold init_schedules_db at 1. destruct (init_schedules d) as [d1|e] eqn:E; cycle 1.
  - split; [done|]. intros Hok. exfalso. unfold init_schedules in E. destruct (d_schedules d) as [t|] eqn:Es.
    + destruct (contains _ _); [done|]. destruct (rebuild_spec d t Hok Es) as (l & _ & Hr). by rewrite Hr in E.
    + unfold create_table in E. by rewrite Es in E.
  - split; [done|]. intros Hok. split; [done|].
    assert (∃ t l, d1 = set_baseline (ensure_due_idx (mkDatabase (Some t) None l (d_version d))) ∧ t_rows t = rows d ∧
      contains "app_callback" (t_sql t) = true ∧ table_ok t ∧ l ≡ₚ d_indexes d) as (t & l & -> & Hrows & Hsql & Htok & Hl).
    { unfold init_schedules in E. pose proof Hok as (Hcopy & _ & Ht & Hnone). unfold rows. destruct (d_schedules d) as [t|] eqn:Es.
      - destruct (contains "app_callback" (t_sql t)) eqn:Ec.
        + injection E as <-. exists t, (d_indexes d). split; [|split_and!; auto]. destruct d as [s c i v]. cbn in *. by subst.
        + destruct (rebuild_spec d t Hok Es) as (l & Hl & Hr). rewrite Hr in E. injection E as <-.
          eexists _, l. split; [done|]. split; [done|]. split; [vm_compute; reflexivity|]. split; [|done]. exact (Ht t eq_refl).
      - unfold create_table in E. rewrite Es in E. injection E as <-. rewrite Hcopy, (Hnone eq_refl). eexists _, [].
        split; [done|]. split; [done|]. split; [vm_compute; reflexivity|]. split; [split; [constructor|done]|done]. }
    assert (NoDup (map fst l)) as Hn by (destruct Hok as (_ & Hn & _); unfold index_names in Hn; by rewrite Hl).
    assert (∀ i, i ∈ l ↔ i ∈ d_indexes d) as Hin by (intros i; by rewrite Hl).
    assert (DUE_IDX ∈ map fst l ↔ DUE_IDX ∈ index_names d) as Hdue by (unfold index_names; by rewrite Hl).
    rewrite ensure_due_idx_eq, set_baseline_eq. cbn [d_indexes d_schedules d_copy d_version].
    assert ((if d_version d =? 0 then 1 else d_version d) ≠ 0) as Hv by (destruct (Z.eqb_spec (d_version d) 0); lia).
    destruct (mem_str DUE_IDX (map fst l)) eqn:Em.
    + pose proof Em as Em'. rewrite mem_str_iff in Em'. split; [done|]. split.
      { intros i. rewrite <-Hin. split; [by left|]. intros [?|[_ Hno]]; [done|]. by destruct Hno; apply Hdue. }
      split; [by exists t|]. split; [done|]. split; [done|]. by apply reopened.
    + pose proof Em as Em'. rewrite <-not_true_iff_false, mem_str_iff in Em'. split; [done|]. split.
      { intros i. cbn [d_indexes]. rewrite elem_of_app, Hin, list_elem_of_singleton. split; [intros [?| ->]; [by left|right]|intros [?|[-> _]]; auto].
        split; [done|]. by rewrite <-Hdue. }
      assert (DUE_IDX ∈ map fst (l ++ [(DUE_IDX, due_idx_sql)])) as Hnow by (rewrite map_app; apply elem_of_app; right; left).
      split; [by exists t|]. split; [done|]. split; [done|]. by apply reopened.
Qed.

(** ** Runs *)
Definition old_row : schedule := mkSchedule "s1" "n" "brief" "interval" "1h" "UTC" "{}" true 5 None None None 0 0.
Definition old_database : schedules_db :=
  mkDatabase (Some (mkTable "CREATE TABLE schedules ( kind TEXT NOT NULL CHECK (kind IN ('run', 'brief')) )" [old_row])) None
    [("by_kind"%string, "CREATE INDEX by_kind ON schedules(kind)"%string)] 0.
Lemma schedules_migrated_witness :
  ∃ d', init_schedules_db old_database = (Ok tt, d') ∧ rows d' = [old_row] ∧ index_names d' = ["by_kind"; DUE_IDX]%string.
Proof.
  assert (db_ok old_database) as Hok.
  { split; [reflexivity|]. split; [apply (bool_decide_unpack _); vm_compute; exact Logic.I|]. split; [|discriminate].
    intros t [= <-]. split; [apply (bool_decide_unpack _); vm_compute; exact Logic.I|reflexivity]. }
  pose proof (schedules_migrated old_database) as H.
  destruct (init_schedules_db old_database) as [r d'] eqn:E. destruct (proj2 H Hok) as (-> & Hr & _).
  exists d'. split; [reflexivity|]. split; [exact Hr|].
  change d' with ((Ok tt, d') : res unit * schedules_db).2. rewrite <-E. vm_compute. reflexivity.
Defined.
