(* ===== verification/ServerApp.v ===== *)
(** * The server application (agent_os/server/api.py)

    What starts and stops with the server, and the endpoints that only pass on
    what another component answers: one session's checkpoint, the brief, the
    update check.  Reading a checkpoint is LangGraph's: what [get_tuple]
    returns is a parameter. *)
From S2P Require Import PyVal Schedules Scheduler Workspace Runtime UpdateCheck Endpoints MemoryGate Profiles HotContext Sessions Nodes Unicode Brief.

(** ** The lifetime of the server *)
Section lifespan.
Context {W : Type}.

(** A sink is its method [close]; [None] when it has none to call. *)
Definition closing : Type := option (W → res unit * W).
Fixpoint close_sinks (sinks : list closing) (w : W) : res unit * W :=
  match sinks with
  | [] => (Ok tt, w)
  | None :: sinks => close_sinks sinks w
  | Some close :: sinks =>
      match close w with
      | (Ok _, w') => close_sinks sinks w'
      | (Raise e, w') => (Raise e, w')
      end
  end.

(** The scheduler, and the version the check in the background is for. *)
Definition lifespan_enter (env_enabled : option string) (server_version : string) : service * string :=
  (start env_enabled new_service, server_version).

(** The service, the warning that is logged, and what the sinks did;
    [composed] is the cached workspace, by its sinks. *)
Definition lifespan_exit (composed : res (option (list closing))) (v : service) (w : W)
    : service * option string * W :=
  let warning e := "Error closing event sinks during shutdown: " +:+ exn_msg e in
  match composed with
  | Raise e => (stop v, Some (warning e), w)
  | Ok None => (stop v, None, w)
  | Ok (Some sinks) =>
      match close_sinks sinks w with
      | (Ok _, w') => (stop v, None, w')
      | (Raise e, w') => (stop v, Some (warning e), w')
      end
  end.
End lifespan.

(** ** The stores and answers of other components *)
(** The path of the permission database the endpoints open. *)
Definition runtime_permission_store {I A C P K St} (fuel : nat) (expanduser : string → string) (cwd : path) (env : environ)
    (r : option (ComposedWorkspace I A C P K St)) (f : fs) : res string :=
  resolve_permission_db_path fuel expanduser cwd env ((λ c, base_path (c_workspace c)) <$> r) f.

Definition update_check_endpoint {V} (Version : string → option V) (gt : V → V → bool) (fuel : nat) (now : Z) (now_iso : string)
    (metadata : res string) (urlopen : string → res (Z * res string)) (env_url : option string) (server_version : string)
    (cache_path : res path) (f : fs) : res pydict * fs :=
  let '(info, f') := check_for_update Version gt fuel now now_iso (package_version metadata) urlopen env_url (Some server_version)
                       cache_path true false f in
  (i ← info; Ok (to_dict i), f').

(** A checkpoint's channels: the messages, each its class and content, when
    the channel is there; and the others. *)
Record channels (V : Type) := mkChannels { ch_messages : option (list (string * string)); ch_state : list (string * V) }.
Arguments mkChannels {_} _ _.
Arguments ch_messages {_} _.
Arguments ch_state {_} _.
Record session_view (V : Type) := mkSessionView {
  sv_id : string; sv_messages : list (string * string); sv_state : list (string * V) }.
Arguments mkSessionView {_} _ _ _.
(** [get_tuple] answers [None] for a thread without a checkpoint, and
    [Some None] for a checkpoint without channels. *)
Definition get_session {V} (connect : res unit) (get_tuple : string → res (option (option (channels V)))) (session_id : string)
    : res (http (session_view V)) :=
  _ ← connect;
  tup ← get_tuple session_id;
  Ok (match tup with
      | None => HTTPError 404 "Session not found"
      | Some values =>
          let state_vals := default (mkChannels None []) values in
          Body (mkSessionView session_id (default [] (ch_messages state_vals)) (ch_state state_vals))
      end).

Section brief.
Context {St W : Type} `{PermissionRuleStore St} (iso day : Z → string) (fromisoformat strptime : string → res Z)
  (minus_one_day : Z → res Z) (strftime : Z → string) (clock : SpecFloat.spec_float) (timestamp : string → option SpecFloat.spec_float).
Definition create_brief (connector : res (source W)) (sessions : res (list session)) (summarizer : res (text → res string))
    (e : engine) (now : Z) (os_user : string) (st : pstate St (W * option MemoryWriteResult))
    : res (string * string) * pstate St (W * option MemoryWriteResult) :=
  let '(result, st') := execute_brief iso day fromisoformat strptime minus_one_day strftime clock timestamp None connector sessions
                          summarizer false e now os_user None st in
  (x ← result; Ok (bx_date x, bx_content x), st').

(** The endpoint asks for a brief and never writes one: no rule is learned, no
    note is written, whatever the policy; the date is the day of the call. *)
Lemma create_brief_reads connector sessions summarizer e now os_user st :
  let '(r, st') := create_brief connector sessions summarizer e now os_user st in
  st' = st ∧ ∀ date content, r = Ok (date, content) → date = day now.
Proof.
  unfold create_brief, execute_brief. cbn [default negb].
  destruct (mbind _ connector) as [[s md]|exc]; cbn [mbind res_bind]; (split; [done|]); [|discriminate].
  by intros ? ? [= <- _].
Qed.
End brief.

(** ** Shutting down *)
Section exit.
Context {W : Type}.
Implicit Types (sinks : list (closing (W:=W))) (w : W).

Definition calm (s : closing (W:=W)) : Prop := ∀ w, match s with Some close => (close w).1 = Ok tt | None => True end.
Definition close_one w (s : closing (W:=W)) : W := match s with Some close => (close w).2 | None => w end.

Lemma close_sinks_app l1 l2 w : Forall calm l1 → close_sinks (l1 ++ l2) w = close_sinks l2 (foldl close_one w l1).
Proof.
  intros Hl. revert w. induction Hl as [|s l Hs Hl IH]; intros w; [done|]. cbn [app foldl close_sinks].
  destruct s as [close|]; [|apply IH]. specialize (Hs w). cbn in Hs |- *. destruct (close w) as [r w']. cbn in *.
  subst r. apply IH.
Qed.

(** When no sink fails each is closed once, in order; a sink that fails ends
    the loop: the ones before it are closed, the ones after it are not. *)
Lemma lifespan_exit_spec before rest v w : Forall calm before →
  lifespan_exit (Ok (Some before)) v w = (new_service, None, foldl close_one w before) ∧
  ∀ close e w', close (foldl close_one w before) = (Raise e, w') →
    lifespan_exit (Ok (Some (before ++ Some close :: rest))) v w =
      (new_service, Some ("Error closing event sinks during shutdown: " +:+ exn_msg e), w').
Proof.
  intros Hl. unfold lifespan_exit. split.
  - rewrite <-(app_nil_r before), close_sinks_app by done. by rewrite app_nil_r.
  - intros close e w' Hc. rewrite close_sinks_app by done. cbn [close_sinks]. by rewrite Hc.
Qed.
End exit.

(** A sink that does not close keeps the next one open. *)
Definition failing_sink : closing (W:=list string) := Some (λ w, (Raise (RuntimeError "stuck"), w)).
Definition named_sink (n : string) : closing (W:=list string) := Some (λ w, (Ok tt, w ++ [n])).
Example failing_close_leaks :
  lifespan_exit (Ok (Some [named_sink "a"; failing_sink; named_sink "b"])) new_service [] =
    (new_service, Some "Error closing event sinks during shutdown: stuck"%string, ["a"%string]).
Proof. reflexivity. Qed.
